(** * Match-3 board engine: a shallow embedding of match.js, grid.js, the
      counters and positions of memories.js and the game logic of game.js,
      with the properties of the engine proved over it.

    Conventions of the embedding.
    - A board is the JS array of arrays [Grid.data]: a list of rows, each a
      list of cells.  A cell is [Some tile] or [None]; [None] stands for the
      falsy values [null] and [undefined] (an empty cell, a hole of the array
      or a read outside it), so [cell === null] and [!cell] coincide: the
      engine stores tiles and [null] only.  In the same way [None] is the
      [type] of no tile.
    - Row and column indices are JS numbers holding integers: [Z].
    - A JS [Set] of keys [`${row},${col}`] is the list of the positions in
      insertion order, without duplicates: the key of a position with integer
      coordinates determines the position.
    - [Math.random()] is an oracle: the n-th call returns the n-th value of a
      given sequence of rationals of [0, 1).
    - [await] only paces the animations (and the dialogue of a revealed
      memory): the engine runs one call at a time, and the calls of
      [Animations] and [AudioManager] and the updates of the DOM, which do
      not touch the state of the engine, are left out. *)

From Stdlib Require Import String ZArith List Bool Lia Permutation Sorted.
Import ListNotations.
Open Scope list_scope.
Open Scope Z_scope.

(** ** Data model *)

(** [tile.special]: 'striped-h', 'striped-v', 'wrapped' (or null). *)
Inductive Special : Type := striped_h | striped_v | wrapped.

(** The value of a [type] property: a string, or null/undefined ([None]). *)
Definition TileType : Type := option string.

(** [{ type, special, isMemory, memoryId }] *)
Record Tile : Type := mkTile {
  type : TileType;
  special : option Special;
  isMemory : bool;
  memoryId : option Z
}.

Definition Cell : Type := option Tile.
Definition Board : Type := list (list Cell).

(** [{ row, col }]; the [animation] tag that some positions carry has no
    effect on the engine and is left out. *)
Record Pos : Type := mkPos { row : Z; col : Z }.

Definition posEqb (p q : Pos) : bool := (row p =? row q) && (col p =? col q).

(** An entry of [specialCandies]: [{ row, col, type, candyType }]. *)
Record SpecialRequest : Type := mkRequest {
  reqRow : Z;
  reqCol : Z;
  reqType : Special;
  candyType : TileType
}.

Definition reqPos (s : SpecialRequest) : Pos := mkPos (reqRow s) (reqCol s).

(** ** JS arrays *)

(** [a[i]] *)
Definition nthZ {A : Type} (l : list A) (i : Z) : option A :=
  if i <? 0 then None else nth_error l (Z.to_nat i).

(** [for (let i = lo; i < hi; i++)]: the values of [i], in order. *)
Definition zrange (lo hi : Z) : list Z :=
  map (fun k => lo + Z.of_nat k) (seq 0 (Z.to_nat (hi - lo))).

(** [for (let i = hi; i >= lo; i--)]: the values of [i], in order. *)
Definition zrangeDown (hi lo : Z) : list Z := rev (zrange lo (hi + 1)).

Fixpoint replaceNth {A : Type} (l : list A) (n : nat) (v : A) : list A :=
  match l, n with
  | [], _ => []
  | _ :: t, O => v :: t
  | h :: t, S m => h :: replaceNth t m v
  end.

(** [row[i] = v] on an array of cells, for [0 <= i]: inside the array the
    element is replaced, outside it the array grows, with holes in between. *)
Definition writeCell (l : list Cell) (i : Z) (v : Cell) : list Cell :=
  let n := Z.to_nat i in
  if (n <? List.length l)%nat then replaceNth l n v
  else l ++ repeat None (n - List.length l) ++ [v].

(** [grid.length] *)
Definition gridSize (g : Board) : Z := Z.of_nat (List.length g).

(** [grid[r]?.[c]], and [grid[r][c]] where [grid[r]] is known to exist. *)
Definition cellAt (g : Board) (r c : Z) : Cell :=
  match nthZ g r with
  | Some line => match nthZ line c with Some cell => cell | None => None end
  | None => None
  end.

(** [grid[r][c]], which throws a TypeError when [grid[r]] is undefined. *)
Definition readCell (g : Board) (r c : Z) : option Cell :=
  match nthZ g r with
  | Some line => Some (match nthZ line c with Some cell => cell | None => None end)
  | None => None
  end.

(** [grid[r][c] = v]: TypeError ([None]) when [grid[r]] is undefined.  A
    negative [c] would add a property to the row instead of an element; the
    model stops there as well. *)
Definition setCell (g : Board) (r c : Z) (v : Cell) : option Board :=
  match nthZ g r with
  | Some line =>
      if c <? 0 then None
      else Some (replaceNth g (Z.to_nat r) (writeCell line c v))
  | None => None
  end.

(** ** Sets of position keys *)

Definition PosSet : Type := list Pos.

(** [set.has(`${row},${col}`)] *)
Definition setHas (s : PosSet) (p : Pos) : bool := existsb (posEqb p) s.

(** [set.add(`${row},${col}`)] *)
Definition setAdd (s : PosSet) (p : Pos) : PosSet :=
  if setHas s p then s else s ++ [p].

(** ** match.js *)

Module MatchDetector.

(** [getTileType(tile)]: tiles are objects, so the [typeof] branch is taken
    for every tile. *)
Definition getTileType (tile : Cell) : TileType :=
  match tile with
  | None => None
  | Some t => type t
  end.

(** [a === b] on type values. *)
Definition typeEqb (a b : TileType) : bool :=
  match a, b with
  | Some x, Some y => String.eqb x y
  | None, None => true
  | _, _ => false
  end.

(** Truthiness of a cell (an object or null) and of a type value (a string
    is falsy when empty). *)
Definition truthyCell (c : Cell) : bool :=
  match c with Some _ => true | None => false end.

Definition truthyType (t : TileType) : bool :=
  match t with
  | Some s => negb (String.eqb s EmptyString)
  | None => false
  end.

(** The accumulators of [findAllMatches] together with the two variables of
    the scan of one line. *)
Record Scan : Type := mkScan {
  matchStart : Z;
  matchLength : Z;
  matchedPositions : PosSet;
  specialCandies : list SpecialRequest
}.

(** One iteration of the inner loop of either scan of [findAllMatches], at
    index [i] of a line.  The two loops of the source differ only in what the
    line is: [line k] is its k-th cell ([grid[row][k]], or [grid[k][col]]),
    [at k] the position of that cell and [stripe] the striped kind that a run
    of four spawns ('striped-h', or 'striped-v'). *)
Definition scanStep (size : Z) (line : Z -> Cell) (at_ : Z -> Pos)
    (stripe : Special) (st : Scan) (i : Z) : Scan :=
  if (i <? size) && truthyCell (line i) && truthyCell (line (i - 1))
     && typeEqb (getTileType (line i)) (getTileType (line (i - 1)))
  then mkScan (matchStart st) (matchLength st + 1)
              (matchedPositions st) (specialCandies st)
  else
    let start := matchStart st in
    let len := matchLength st in
    if 3 <=? len then
      let matched :=
        fold_left (fun s k => setAdd s (at_ k)) (zrange start (start + len))
                  (matchedPositions st) in
      let specials :=
        if len =? 4 then
          specialCandies st ++
            [mkRequest (row (at_ (start + len / 2))) (col (at_ (start + len / 2)))
                       stripe (getTileType (line start))]
        else if 5 <=? len then
          specialCandies st ++
            [mkRequest (row (at_ (start + len / 2))) (col (at_ (start + len / 2)))
                       wrapped (getTileType (line start))]
        else specialCandies st in
      mkScan i 1 matched specials
    else mkScan i 1 (matchedPositions st) (specialCandies st).

(** The scan of one line: [let matchStart = 0; let matchLength = 1;
    for (let i = 1; i <= size; i++) ...]. *)
Definition scanLine (size : Z) (line : Z -> Cell) (at_ : Z -> Pos)
    (stripe : Special) (acc : PosSet * list SpecialRequest)
    : PosSet * list SpecialRequest :=
  let st :=
    fold_left (scanStep size line at_ stripe) (zrange 1 (size + 1))
              (mkScan 0 1 (fst acc) (snd acc)) in
  (matchedPositions st, specialCandies st).

(** "Check horizontal matches": the loop over the rows. *)
Definition scanRows (grid : Board) (acc : PosSet * list SpecialRequest)
    : PosSet * list SpecialRequest :=
  let size := gridSize grid in
  fold_left
    (fun a r => scanLine size (fun c => cellAt grid r c) (fun c => mkPos r c)
                         striped_h a)
    (zrange 0 size) acc.

(** "Check vertical matches": the loop over the columns. *)
Definition scanCols (grid : Board) (acc : PosSet * list SpecialRequest)
    : PosSet * list SpecialRequest :=
  let size := gridSize grid in
  fold_left
    (fun a c => scanLine size (fun r => cellAt grid r c) (fun r => mkPos r c)
                         striped_v a)
    (zrange 0 size) acc.

(** [for (let i = from; inside(i) && getTileType(cell(i)) === type; i += step) count++]:
    the number of iterations, over the values [candidates] that [i] takes
    while it is inside the board. *)
Fixpoint countWhile (same : Z -> bool) (candidates : list Z) : Z :=
  match candidates with
  | [] => 0
  | i :: rest => if same i then 1 + countWhile same rest else 0
  end.

(** [hCount] of [findLTShapes] and [hasMatchAt]. *)
Definition hCountAt (grid : Board) (r c : Z) (ty : TileType) : Z :=
  let size := gridSize grid in
  let same := fun k => typeEqb (getTileType (cellAt grid r k)) ty in
  1 + countWhile same (zrangeDown (c - 1) 0)
    + countWhile same (zrange (c + 1) size).

(** [vCount] of [findLTShapes] and [hasMatchAt]. *)
Definition vCountAt (grid : Board) (r c : Z) (ty : TileType) : Z :=
  let size := gridSize grid in
  let same := fun k => typeEqb (getTileType (cellAt grid k c)) ty in
  1 + countWhile same (zrangeDown (r - 1) 0)
    + countWhile same (zrange (r + 1) size).

(** [findLTShapes(grid, matchedPositions)]; the state of the loop is
    [(specials, checked)]. *)
Definition findLTShapes (grid : Board) (matched : PosSet) : list SpecialRequest :=
  fst (fold_left
    (fun (st : list SpecialRequest * PosSet) (pos : Pos) =>
       let '(specials, checked) := st in
       if setHas checked pos then st
       else
         let ty := getTileType (cellAt grid (row pos) (col pos)) in
         if negb (truthyType ty) then st
         else if (3 <=? hCountAt grid (row pos) (col pos) ty)
                 && (3 <=? vCountAt grid (row pos) (col pos) ty)
         then (specials ++ [mkRequest (row pos) (col pos) wrapped ty],
               setAdd checked pos)
         else st)
    matched ([], [])).

(** The result [{ matches, specials }] of [findAllMatches]. *)
Record MatchResult : Type := mkResult {
  matches : list Pos;
  specials : list SpecialRequest
}.

Definition findAllMatches (grid : Board) : MatchResult :=
  let '(matched, candies) := scanCols grid (scanRows grid ([], [])) in
  let lShapes := findLTShapes grid matched in
  mkResult matched (candies ++ lShapes).

(** [isSpecialCandy(tile)] *)
Definition isSpecialCandy (tile : Cell) : option Special :=
  match tile with
  | None => None
  | Some t => special t
  end.

(** The [combinationType] strings. *)
Inductive CombinationType : Type :=
  | striped_striped | striped_wrapped | wrapped_wrapped | unknown.

Definition getCombinationType (type1 type2 : Special) : CombinationType :=
  let isStriped := fun t =>
    match t with striped_h | striped_v => true | wrapped => false end in
  let isWrapped := fun t =>
    match t with wrapped => true | _ => false end in
  if isStriped type1 && isStriped type2 then striped_striped
  else if (isStriped type1 && isWrapped type2) || (isWrapped type1 && isStriped type2)
  then striped_wrapped
  else if isWrapped type1 && isWrapped type2 then wrapped_wrapped
  else unknown.

Record Combination : Type := mkCombination {
  pos1 : Pos;
  pos2 : Pos;
  type1 : Special;
  type2 : Special;
  combinationType : CombinationType
}.

(** [isSpecialCombination(grid, pos1, pos2)]; [None] is the null result. *)
Definition isSpecialCombination (grid : Board) (p1 p2 : Pos) : option Combination :=
  let tile1 := cellAt grid (row p1) (col p1) in
  let tile2 := cellAt grid (row p2) (col p2) in
  match isSpecialCandy tile1, isSpecialCandy tile2 with
  | Some special1, Some special2 =>
      Some (mkCombination p1 p2 special1 special2
                          (getCombinationType special1 special2))
  | _, _ => None
  end.

(** [hasMatchAt(grid, pos)] *)
Definition hasMatchAt (grid : Board) (pos : Pos) : bool :=
  let tile := cellAt grid (row pos) (col pos) in
  if negb (truthyCell tile) then false
  else
    let ty := getTileType tile in
    if negb (truthyType ty) then false
    else if 3 <=? hCountAt grid (row pos) (col pos) ty then true
    else if 3 <=? vCountAt grid (row pos) (col pos) ty then true
    else false.

(** [areAdjacent(pos1, pos2)] *)
Definition areAdjacent (p1 p2 : Pos) : bool :=
  let rowDiff := Z.abs (row p1 - row p2) in
  let colDiff := Z.abs (col p1 - col p2) in
  ((rowDiff =? 1) && (colDiff =? 0)) || ((rowDiff =? 0) && (colDiff =? 1)).

(** [wouldMatch(grid, pos1, pos2)] mutates the array it is given: the result
    is the returned boolean with the array as the call leaves it, or [None]
    when the call throws. *)
Definition wouldMatch (grid : Board) (p1 p2 : Pos) : option (bool * Board) :=
  match isSpecialCombination grid p1 p2 with
  | Some _ => Some (true, grid)
  | None =>
      (* Temporarily swap in place *)
      match readCell grid (row p1) (col p1) with
      | None => None
      | Some temp =>
      match readCell grid (row p2) (col p2) with
      | None => None
      | Some other =>
      match setCell grid (row p1) (col p1) other with
      | None => None
      | Some g1 =>
      match setCell g1 (row p2) (col p2) temp with
      | None => None
      | Some g2 =>
      let hasMatch := hasMatchAt g2 p1 || hasMatchAt g2 p2 in
      (* Swap back *)
      match readCell g2 (row p1) (col p1) with
      | None => None
      | Some back =>
      match setCell g2 (row p2) (col p2) back with
      | None => None
      | Some g3 =>
      match setCell g3 (row p1) (col p1) temp with
      | None => None
      | Some g4 => Some (hasMatch, g4)
      end end end end end end end
  end.

(** The swaps that [findPossibleMatch] probes, in the order of its loops:
    for each position, row by row, the right neighbour and then the bottom
    neighbour. *)
Definition probes (size : Z) : list (Pos * Pos) :=
  flat_map (fun r =>
    flat_map (fun c =>
      (if c <? size - 1 then [(mkPos r c, mkPos r (c + 1))] else []) ++
      (if r <? size - 1 then [(mkPos r c, mkPos (r + 1) c)] else []))
    (zrange 0 size))
  (zrange 0 size).

(** The body of [findPossibleMatch] over the remaining probes: the first one
    that would match is returned. *)
Fixpoint firstMatching (grid : Board) (todo : list (Pos * Pos))
    : option (option (Pos * Pos) * Board) :=
  match todo with
  | [] => Some (None, grid)
  | (p1, p2) :: rest =>
      match wouldMatch grid p1 p2 with
      | None => None
      | Some (true, g) => Some (Some (p1, p2), g)
      | Some (false, g) => firstMatching g rest
      end
  end.

(** [findPossibleMatch(grid)]: the pair found ([None] for null) and the
    array as the calls of [wouldMatch] leave it. *)
Definition findPossibleMatch (grid : Board)
    : option (option (Pos * Pos) * Board) :=
  firstMatching grid (probes (gridSize grid)).

(** [getSpecialClearPositions(grid, pos, specialType)] *)
Definition getSpecialClearPositions (grid : Board) (pos : Pos)
    (specialType : Special) : list Pos :=
  let size := gridSize grid in
  match specialType with
  | striped_h => map (fun c => mkPos (row pos) c) (zrange 0 size)
  | striped_v => map (fun r => mkPos r (col pos)) (zrange 0 size)
  | wrapped =>
      flat_map (fun r =>
        flat_map (fun c =>
          if (0 <=? r) && (r <? size) && (0 <=? c) && (c <? size)
          then [mkPos r c] else [])
        (zrange (col pos - 1) (col pos + 2)))
      (zrange (row pos - 1) (row pos + 2))
  end.

(** The helper [addPos] of [getSpecialCombinationClearPositions]; the state
    is [(positions, seen)]. *)
Definition addPos (size : Z) (st : list Pos * PosSet) (r c : Z)
    : list Pos * PosSet :=
  if (0 <=? r) && (r <? size) && (0 <=? c) && (c <? size) then
    if negb (setHas (snd st) (mkPos r c))
    then (fst st ++ [mkPos r c], setAdd (snd st) (mkPos r c))
    else st
  else st.

(** [getSpecialCombinationClearPositions(grid, combination)] *)
Definition getSpecialCombinationClearPositions (grid : Board)
    (combination : Combination) : list Pos :=
  let size := gridSize grid in
  let p1 := pos1 combination in
  let p2 := pos2 combination in
  let st0 : list Pos * PosSet := ([], []) in
  fst
    match combinationType combination with
    | striped_striped =>
        let st1 := fold_left (fun st c => addPos size st (row p1) c) (zrange 0 size) st0 in
        let st2 := fold_left (fun st r => addPos size st r (col p1)) (zrange 0 size) st1 in
        let st3 := fold_left (fun st c => addPos size st (row p2) c) (zrange 0 size) st2 in
        fold_left (fun st r => addPos size st r (col p2)) (zrange 0 size) st3
    | striped_wrapped =>
        let st1 :=
          fold_left (fun st dr =>
            fold_left (fun st' c => addPos size st' (row p1 + dr) c) (zrange 0 size) st)
            (zrange (-1) 2) st0 in
        fold_left (fun st dc =>
          fold_left (fun st' r => addPos size st' r (col p1 + dc)) (zrange 0 size) st)
          (zrange (-1) 2) st1
    | wrapped_wrapped =>
        fold_left (fun st dr =>
          fold_left (fun st' dc => addPos size st' (row p1 + dr) (col p1 + dc))
                    (zrange (-2) 3) st)
          (zrange (-2) 3) st0
    | unknown => st0
    end.

End MatchDetector.

(** ** The state of the session *)

(** A result of [Math.random()]: the rational [rnum / (rnum + rgap + 1)],
    which lies in [0, 1). *)
Record Rand : Type := mkRand { rnum : nat; rgap : nat }.

(** [Math.floor(u * k)] *)
Definition floorMul (u : Rand) (k : Z) : Z :=
  (Z.of_nat (rnum u) * k) / (Z.of_nat (rnum u) + Z.of_nat (rgap u) + 1).

(** [u < 0.4] *)
Definition belowTwoFifths (u : Rand) : bool :=
  5 * Z.of_nat (rnum u) <? 2 * (Z.of_nat (rnum u) + Z.of_nat (rgap u) + 1).

(** [u < 0.8] *)
Definition belowFourFifths (u : Rand) : bool :=
  5 * Z.of_nat (rnum u) <? 4 * (Z.of_nat (rnum u) + Z.of_nat (rgap u) + 1).

(** The mutable state that the engine reads and writes: [Grid.data] and
    [Grid.size], [Game.moves] and the flags of [Game], the two counters of
    [MemorySystem], and the random source with the number of calls made. *)
Record World : Type := mkWorld {
  data : Board;
  size : Z;
  moves : Z;
  isPlaying : bool;
  isPaused : bool;
  isProcessing : bool;
  revealedCount : Z;
  totalMemories : Z;
  random : nat -> Rand;
  randomCalls : nat
}.

Definition withData (w : World) (d : Board) : World :=
  mkWorld d (size w) (moves w) (isPlaying w) (isPaused w) (isProcessing w)
          (revealedCount w) (totalMemories w) (random w) (randomCalls w).

Definition withMoves (w : World) (m : Z) : World :=
  mkWorld (data w) (size w) m (isPlaying w) (isPaused w) (isProcessing w)
          (revealedCount w) (totalMemories w) (random w) (randomCalls w).

Definition withIsPlaying (w : World) (b : bool) : World :=
  mkWorld (data w) (size w) (moves w) b (isPaused w) (isProcessing w)
          (revealedCount w) (totalMemories w) (random w) (randomCalls w).

Definition withIsPaused (w : World) (b : bool) : World :=
  mkWorld (data w) (size w) (moves w) (isPlaying w) b (isProcessing w)
          (revealedCount w) (totalMemories w) (random w) (randomCalls w).

Definition withIsProcessing (w : World) (b : bool) : World :=
  mkWorld (data w) (size w) (moves w) (isPlaying w) (isPaused w) b
          (revealedCount w) (totalMemories w) (random w) (randomCalls w).

Definition withRevealedCount (w : World) (n : Z) : World :=
  mkWorld (data w) (size w) (moves w) (isPlaying w) (isPaused w) (isProcessing w)
          n (totalMemories w) (random w) (randomCalls w).

Definition withRandomCalls (w : World) (n : nat) : World :=
  mkWorld (data w) (size w) (moves w) (isPlaying w) (isPaused w) (isProcessing w)
          (revealedCount w) (totalMemories w) (random w) n.

(** How a call ends: it returns a value, it throws (a TypeError of an access
    through an undefined row), or it is still running when the bound that the
    model puts on a loop without one is reached.  Each case carries the state
    at that point. *)
Inductive Outcome (A : Type) : Type :=
  | Returned (a : A) (w : World)
  | Threw (w : World)
  | Running (w : World).

Arguments Returned {A} a w.
Arguments Threw {A} w.
Arguments Running {A} w.

Definition finalWorld {A : Type} (o : Outcome A) : World :=
  match o with
  | Returned _ w => w
  | Threw w => w
  | Running w => w
  end.

Definition M (A : Type) : Type := World -> Outcome A.

Definition ret {A : Type} (a : A) : M A := fun w => Returned a w.

Definition bind {A B : Type} (m : M A) (k : A -> M B) : M B :=
  fun w =>
    match m w with
    | Returned a w' => k a w'
    | Threw w' => Threw w'
    | Running w' => Running w'
    end.

Declare Scope engine_scope.
Delimit Scope engine_scope with engine.
Notation "x <- m ;; k" := (bind m (fun x => k))
  (at level 61, m at next level, right associativity) : engine_scope.
Notation "m ;;; k" := (bind m (fun _ => k))
  (at level 61, right associativity) : engine_scope.
Open Scope engine_scope.

Definition get : M World := fun w => Returned w w.
Definition modify (f : World -> World) : M unit := fun w => Returned tt (f w).

(** A [for] loop over the values [l] of its variable, with the local
    variables of the loop in [b]. *)
Fixpoint foldM {A B : Type} (f : B -> A -> M B) (l : list A) (b : B) : M B :=
  match l with
  | [] => ret b
  | x :: rest => b' <- f b x ;; foldM f rest b'
  end.

Definition forEach {A : Type} (l : list A) (f : A -> M unit) : M unit :=
  foldM (fun _ x => f x) l tt.

(** [Math.random()] *)
Definition mathRandom : M Rand :=
  fun w => Returned (random w (randomCalls w)) (withRandomCalls w (S (randomCalls w))).

(** [this.data[r][c]] as an expression. *)
Definition readData (r c : Z) : M Cell :=
  fun w =>
    match readCell (data w) r c with
    | Some cell => Returned cell w
    | None => Threw w
    end.

(** [this.data[r][c] = v] *)
Definition writeData (r c : Z) (v : Cell) : M unit :=
  fun w =>
    match setCell (data w) r c v with
    | Some d => Returned tt (withData w d)
    | None => Threw w
    end.

(** A call of a [MatchDetector] function that works in place on [Grid.data]. *)
Definition onData {A : Type} (f : Board -> option (A * Board)) : M A :=
  fun w =>
    match f (data w) with
    | Some (a, d) => Returned a (withData w d)
    | None => Threw w
    end.

(** ** grid.js *)

Module Grid.

Definition tileTypes : list string :=
  ["heart"; "diamond"; "rose"; "star"; "ring"]%string.

(** [init(boardElement, size)]: the part that concerns the data. *)
Definition init (n : Z) : M unit :=
  modify (fun w =>
    mkWorld (map (fun _ => []) (zrange 0 n)) n (moves w) (isPlaying w)
            (isPaused w) (isProcessing w) (revealedCount w) (totalMemories w)
            (random w) (randomCalls w)).

(** [getRandomType()] *)
Definition getRandomType : M TileType :=
  u <- mathRandom ;;
  ret (nthZ tileTypes (floorMul u (Z.of_nat (List.length tileTypes)))).

(** [this.data[r][c]?.type] *)
Definition typeAt (r c : Z) : M TileType :=
  cell <- readData r c ;;
  ret (MatchDetector.getTileType cell).

(** [wouldCreateInitialMatch(row, col, type)] *)
Definition wouldCreateInitialMatch (r c : Z) (ty : TileType) : M bool :=
  horizontal <-
    (if 2 <=? c then
       t1 <- typeAt r (c - 1) ;;
       if MatchDetector.typeEqb t1 ty then
         t2 <- typeAt r (c - 2) ;;
         ret (MatchDetector.typeEqb t2 ty)
       else ret false
     else ret false) ;;
  if horizontal : bool then ret true
  else
    if 2 <=? r then
      t1 <- typeAt (r - 1) c ;;
      if MatchDetector.typeEqb t1 ty then
        t2 <- typeAt (r - 2) c ;;
        ret (MatchDetector.typeEqb t2 ty)
      else ret false
    else ret false.

(** The [do ... while] loop of [generate] for the cell [(r, c)].  The
    condition [attempts < 50] holds after a draw exactly when fewer than 50
    draws were made: [retries] is the number of draws that may still follow
    the next one, 49 at the start. *)
Fixpoint pickType (retries : nat) (r c : Z) : M TileType :=
  ty <- getRandomType ;;
  match retries with
  | O => ret ty
  | S n =>
      again <- wouldCreateInitialMatch r c ty ;;
      if again : bool then pickType n r c else ret ty
  end.

(** An entry of [memoryPositions]: [{ row, col, memoryId }]. *)
Record MemoryPosition : Type := mkMemoryPosition {
  memoryPos : Pos;
  memoryPosId : Z
}.

(** The body of the loops of [generate] for one cell; [memoryIndex] is the
    local counter. *)
Definition generateCell (memoryPositions : list MemoryPosition)
    (memoryLookup : PosSet) (memoryIndex : nat) (p : Pos) : M nat :=
  ty <- pickType 49 (row p) (col p) ;;
  let isMem := setHas memoryLookup p in
  let memId :=
    if isMem then option_map memoryPosId (nth_error memoryPositions memoryIndex)
    else None in
  writeData (row p) (col p) (Some (mkTile ty None isMem memId)) ;;;
  ret (if isMem then S memoryIndex else memoryIndex).

(** The cells in the order of the loops [for row ... for col ...]. *)
Definition cellsRowMajor (n : Z) : list Pos :=
  flat_map (fun r => map (fun c => mkPos r c) (zrange 0 n)) (zrange 0 n).

(** [generate(memoryPositions)] *)
Definition generate (memoryPositions : list MemoryPosition) : M unit :=
  w <- get ;;
  let memoryLookup :=
    fold_left (fun s m => setAdd s (memoryPos m)) memoryPositions [] in
  foldM (generateCell memoryPositions memoryLookup) (cellsRowMajor (size w)) O ;;;
  ret tt.

(** [getTileData(row, col)] *)
Definition getTileData (r c : Z) : M Cell :=
  w <- get ;;
  if (r <? 0) || (size w <=? r) || (c <? 0) || (size w <=? c) then ret None
  else readData r c.

(** [swapTiles(pos1, pos2)]: the swap of the data. *)
Definition swapTiles (p1 p2 : Pos) : M unit :=
  temp <- readData (row p1) (col p1) ;;
  other <- readData (row p2) (col p2) ;;
  writeData (row p1) (col p1) other ;;;
  writeData (row p2) (col p2) temp.

(** An entry of the result of [removeMatches]: [{ memoryId, row, col }]. *)
Record MemoryTile : Type := mkMemoryTile {
  foundId : Z;
  foundPos : Pos
}.

(** [removeMatches(matches)] *)
Definition removeMatches (matched : list Pos) : M (list MemoryTile) :=
  memoryTiles <-
    foldM (fun found p =>
             cell <- readData (row p) (col p) ;;
             match cell with
             | Some t =>
                 match isMemory t, memoryId t with
                 | true, Some id => ret (found ++ [mkMemoryTile id p])
                 | _, _ => ret found
                 end
             | None => ret found
             end)
          matched [] ;;
  forEach matched (fun p => writeData (row p) (col p) None) ;;;
  ret memoryTiles.

(** [applyGravity()]; [emptyRow] is the local variable of the outer loop. *)
Definition applyGravity : M unit :=
  w <- get ;;
  forEach (zrange 0 (size w)) (fun c =>
    foldM (fun emptyRow r =>
             cell <- readData r c ;;
             match cell with
             | Some _ =>
                 (if negb (r =? emptyRow) then
                    writeData emptyRow c cell ;;;
                    writeData r c None
                  else ret tt) ;;;
                 ret (emptyRow - 1)
             | None => ret emptyRow
             end)
          (zrangeDown (size w - 1) 0) (size w - 1) ;;;
    ret tt).

(** The positions that the loops of [getHelpfulTypeForPosition] read: the
    block [dr, dc] in [-2 .. 2], row by row, as far as it is inside the
    board. *)
Definition neighbourhood (n r c : Z) : list Pos :=
  flat_map (fun dr =>
    flat_map (fun dc =>
      let nr := r + dr in
      let nc := c + dc in
      if (0 <=? nr) && (nr <? n) && (0 <=? nc) && (nc <? n)
      then [mkPos nr nc] else [])
    (zrange (-2) 3))
  (zrange (-2) 3).

(** The loops of [getHelpfulTypeForPosition] over the remaining positions. *)
Fixpoint firstMemoryType (todo : list Pos) : M TileType :=
  match todo with
  | [] => ret None
  | p :: rest =>
      tile <- readData (row p) (col p) ;;
      match tile with
      | Some t => if isMemory t then ret (type t) else firstMemoryType rest
      | None => firstMemoryType rest
      end
  end.

(** [getHelpfulTypeForPosition(row, col)] *)
Definition getHelpfulTypeForPosition (r c : Z) : M TileType :=
  w <- get ;;
  firstMemoryType (neighbourhood (size w) r c).

(** The body of the loops of [spawnNewTiles] for the cell [(r, c)]. *)
Definition spawnCell (r c : Z) : M unit :=
  cell <- readData r c ;;
  match cell with
  | Some _ => ret tt
  | None =>
      drawn <- getRandomType ;;
      u <- mathRandom ;;
      ty <-
        (if belowTwoFifths u then
           helpfulType <- getHelpfulTypeForPosition r c ;;
           if MatchDetector.truthyType helpfulType then ret helpfulType
           else ret drawn
         else ret drawn) ;;
      writeData r c (Some (mkTile ty None false None))
  end.

(** [spawnNewTiles()] *)
Definition spawnNewTiles : M unit :=
  w <- get ;;
  forEach (zrange 0 (size w)) (fun c =>
    forEach (zrange 0 (size w)) (fun r => spawnCell r c)).

(** [createSpecialCandy(row, col, specialType, candyType)] *)
Definition createSpecialCandy (r c : Z) (specialType : Special)
    (candy : TileType) : M unit :=
  writeData r c (Some (mkTile candy (Some specialType) false None)).

(** [hasPossibleMoves()] *)
Definition hasPossibleMoves : M bool :=
  found <- onData MatchDetector.findPossibleMatch ;;
  ret (match found with Some _ => true | None => false end).

(** [array[i]] where the array holds cells: a missing element reads as
    undefined. *)
Definition elementAt (tiles : list Cell) (i : Z) : Cell :=
  match nthZ tiles i with Some x => x | None => None end.

(** The body of the loop "Collect all tile data" of [shuffle] for the cell
    [p]; [tiles] is [allTiles]. *)
Definition collectTile (tiles : list Cell) (p : Pos) : M (list Cell) :=
  cell <- readData (row p) (col p) ;;
  match cell with
  | Some t => ret (tiles ++ [Some t])
  | None => ret tiles
  end.

(** The body of the Fisher-Yates loop of [shuffle] at index [i]:
    [j = floor(random * (i + 1))], then the two elements change places. *)
Definition fisherYatesStep (tiles : list Cell) (i : Z) : M (list Cell) :=
  u <- mathRandom ;;
  let j := floorMul u (i + 1) in
  let ti := elementAt tiles i in
  let tj := elementAt tiles j in
  ret (writeCell (writeCell tiles i tj) j ti).

(** The Fisher-Yates loop of [shuffle] on the array [allTiles]:
    [for (let i = allTiles.length - 1; i > 0; i--)]. *)
Definition fisherYates (allTiles : list Cell) : M (list Cell) :=
  foldM fisherYatesStep (zrangeDown (Z.of_nat (List.length allTiles) - 1) 1) allTiles.

(** The body of the loop "Reassign to grid" of [shuffle] for the cell [p]:
    [this.data[row][col] = allTiles[index++]]. *)
Definition reassignCell (shuffled : list Cell) (index : Z) (p : Pos) : M Z :=
  writeData (row p) (col p) (elementAt shuffled index) ;;;
  ret (index + 1).

(** The end of [shuffle]: "Check if shuffle created matches or still no
    moves", [if (matches.length > 0 || !this.hasPossibleMoves())], with the
    recursive call [again]. *)
Definition checkShuffled (again : M unit) : M unit :=
  w <- get ;;
  let found := MatchDetector.matches (MatchDetector.findAllMatches (data w)) in
  if 0 <? Z.of_nat (List.length found) then again
  else
    possible <- hasPossibleMoves ;;
    if negb possible then again else ret tt.

(** [shuffle()]; the recursion of the source has no bound, [fuel] bounds the
    number of calls. *)
Fixpoint shuffle (fuel : nat) : M unit :=
  match fuel with
  | O => fun w => Running w
  | S f =>
      w <- get ;;
      allTiles <- foldM collectTile (cellsRowMajor (size w)) [] ;;
      shuffled <- fisherYates allTiles ;;
      foldM (reassignCell shuffled) (cellsRowMajor (size w)) 0 ;;;
      checkShuffled (shuffle f)
  end.

(** [getNeighbors(row, col)]: the directions are up, down, left, right. *)
Definition getNeighbors (r c : Z) : M (list Pos) :=
  w <- get ;;
  ret (flat_map
         (fun d : Z * Z =>
            let nr := r + fst d in
            let nc := c + snd d in
            if (0 <=? nr) && (nr <? size w) && (0 <=? nc) && (nc <? size w)
            then [mkPos nr nc] else [])
         [(-1, 0); (1, 0); (0, -1); (0, 1)]).

End Grid.

(** ** memories.js: the two counters and the positions of the memory tiles *)

Module MemorySystem.

(** [isComplete()] *)
Definition isComplete : M bool :=
  w <- get ;;
  ret (totalMemories w <=? revealedCount w).

(** [revealMemory(memoryId)]: the next memory in order is revealed;
    [memories] has [totalMemories] entries. *)
Definition revealMemory (id : Z) : M bool :=
  w <- get ;;
  let nextIndex := revealedCount w in
  if totalMemories w <=? nextIndex then ret false
  else
    modify (fun w' => withRevealedCount w' (revealedCount w' + 1)) ;;;
    ret true.

(** One pass of the [do ... while] loop of [generateMemoryPositions]: a
    position of the inner area with probability 0.8, of the whole board
    otherwise. *)
Definition drawPosition (gridSize : Z) : M Pos :=
  let minPos := 1 in
  let maxPos := gridSize - 2 in
  let innerSize := maxPos - minPos + 1 in
  u <- mathRandom ;;
  if belowFourFifths u then
    ur <- mathRandom ;;
    uc <- mathRandom ;;
    ret (mkPos (minPos + floorMul ur innerSize) (minPos + floorMul uc innerSize))
  else
    ur <- mathRandom ;;
    uc <- mathRandom ;;
    ret (mkPos (floorMul ur gridSize) (floorMul uc gridSize)).

(** The [do ... while] loop of [generateMemoryPositions] for one memory:
    [retries] is the number of draws that may still follow the next one, 99
    at the start. *)
Fixpoint pickPosition (retries : nat) (gridSize : Z) (usedPositions : PosSet) : M Pos :=
  p <- drawPosition gridSize ;;
  match retries with
  | O => ret p
  | S n => if setHas usedPositions p then pickPosition n gridSize usedPositions else ret p
  end.

(** [generateMemoryPositions(gridSize)]; the state of the loop is
    [(positions, usedPositions)]. *)
Definition generateMemoryPositions (gridSize : Z) : M (list Grid.MemoryPosition) :=
  w <- get ;;
  st <- foldM (fun (st : list Grid.MemoryPosition * PosSet) i =>
                 p <- pickPosition 99 gridSize (snd st) ;;
                 ret (fst st ++ [Grid.mkMemoryPosition p i], setAdd (snd st) p))
              (zrange 0 (totalMemories w)) ([], []) ;;
  ret (fst st).

End MemorySystem.

(** ** game.js *)

Module Game.

(** [deduplicatePositions(positions)]; the state of the filter is
    [(kept, seen)]. *)
Definition deduplicatePositions (positions : list Pos) : list Pos :=
  fst (fold_left
    (fun (st : list Pos * PosSet) (pos : Pos) =>
       if setHas (snd st) pos then st
       else (fst st ++ [pos], setAdd (snd st) pos))
    positions ([], [])).

(** The loop "Reveal memories" of both cascade functions. *)
Definition revealMemories (memoryTiles : list Grid.MemoryTile) : M unit :=
  forEach memoryTiles (fun memory =>
    modify (fun w => withIsPaused w true) ;;;
    MemorySystem.revealMemory (Grid.foundId memory) ;;;
    modify (fun w => withIsPaused w false)).

(** The specials among the tiles at [positions], with their positions:
    the loop that fills [specialsToActivate]. *)
Definition specialsAt (positions : list Pos) : M (list (Pos * Special)) :=
  foldM (fun found p =>
           tileData <- Grid.getTileData (row p) (col p) ;;
           match tileData with
           | Some t =>
               match special t with
               | Some s => ret (found ++ [(p, s)])
               | None => ret found
               end
           | None => ret found
           end)
        positions [].

(** The body of the loop of [processMatches] from the activation of the
    matched specials to the creation of the new ones; the result is
    [memoryTiles]. *)
Definition clearPass (res : MatchDetector.MatchResult) : M (list Grid.MemoryTile) :=
  specialsToActivate <- specialsAt (MatchDetector.matches res) ;;
  w <- get ;;
  let allMatches :=
    fold_left (fun all sp =>
                 all ++ MatchDetector.getSpecialClearPositions (data w) (fst sp) (snd sp))
              specialsToActivate (MatchDetector.matches res) in
  let uniqueMatches := deduplicatePositions allMatches in
  let clearedKeys := fold_left setAdd uniqueMatches [] in
  memoryTiles <- Grid.removeMatches uniqueMatches ;;
  forEach (MatchDetector.specials res) (fun s =>
    if negb (setHas clearedKeys (reqPos s))
    then Grid.createSpecialCandy (reqRow s) (reqCol s) (reqType s) (candyType s)
    else ret tt) ;;;
  ret memoryTiles.

(** [processMatches()]; the loop of the source has no bound, [fuel] bounds
    the number of passes. *)
Fixpoint processMatches (fuel : nat) : M unit :=
  match fuel with
  | O => fun w => Running w
  | S f =>
      w <- get ;;
      let res := MatchDetector.findAllMatches (data w) in
      if Z.of_nat (List.length (MatchDetector.matches res)) =? 0 then ret tt
      else
        memoryTiles <- clearPass res ;;
        revealMemories memoryTiles ;;;
        Grid.applyGravity ;;;
        Grid.spawnNewTiles ;;;
        processMatches f
  end.

(** The body of the loop "Check for chain reactions" of
    [processSpecialCombination], for the position [pos] of the combination;
    [all] is [allPositions]. *)
Definition chainStep (p1 p2 : Pos) (all : list Pos) (pos : Pos) : M (list Pos) :=
  (* Skip the two candies we just combined *)
  if ((row pos =? row p1) && (col pos =? col p1))
     || ((row pos =? row p2) && (col pos =? col p2))
  then ret all
  else
    tileData <- Grid.getTileData (row pos) (col pos) ;;
    match tileData with
    | Some t =>
        match special t with
        | Some s =>
            w <- get ;;
            ret (all ++ MatchDetector.getSpecialClearPositions (data w) pos s)
        | None => ret all
        end
    | None => ret all
    end.

(** The clear set of [processSpecialCombination]: the positions of the
    combination, then the loop "Check for chain reactions" over them, then
    the removal of duplicates. *)
Definition combinationClearSet (p1 p2 : Pos)
    (combination : MatchDetector.Combination) : M (list Pos) :=
  w <- get ;;
  let clearPositions :=
    MatchDetector.getSpecialCombinationClearPositions (data w) combination in
  allPositions <- foldM (chainStep p1 p2) clearPositions clearPositions ;;
  ret (deduplicatePositions allPositions).

(** [processSpecialCombination(pos1, pos2, combination)] *)
Definition processSpecialCombination (fuel : nat) (p1 p2 : Pos)
    (combination : MatchDetector.Combination) : M unit :=
  Grid.swapTiles p1 p2 ;;;
  (* Use a move *)
  modify (fun w => withMoves w (moves w - 1)) ;;;
  uniquePositions <- combinationClearSet p1 p2 combination ;;
  memoryTiles <- Grid.removeMatches uniquePositions ;;
  revealMemories memoryTiles ;;;
  Grid.applyGravity ;;;
  Grid.spawnNewTiles ;;;
  processMatches fuel.

(** "Check win/lose conditions" of [attemptSwap]. *)
Definition checkWinLose (fuel : nat) : M unit :=
  complete <- MemorySystem.isComplete ;;
  if complete : bool then modify (fun w => withIsPlaying w false)  (* showVictory *)
  else
    w <- get ;;
    if moves w <=? 0 then modify (fun w' => withIsPaused w' true)  (* showBonusModal *)
    else
      possible <- Grid.hasPossibleMoves ;;
      if negb possible then Grid.shuffle fuel else ret tt.

(** [attemptSwap(pos1, pos2)] *)
Definition attemptSwap (fuel : nat) (p1 p2 : Pos) : M unit :=
  modify (fun w => withIsProcessing w true) ;;;
  w <- get ;;
  (* Check for special candy combination FIRST *)
  match MatchDetector.isSpecialCombination (data w) p1 p2 with
  | Some combination =>
      processSpecialCombination fuel p1 p2 combination ;;;
      checkWinLose fuel ;;;
      modify (fun w' => withIsProcessing w' false)
  | None =>
      valid <- onData (fun d => MatchDetector.wouldMatch d p1 p2) ;;
      if negb valid then
        (* Invalid swap - animate and revert *)
        modify (fun w' => withIsProcessing w' false)
      else
        (* Valid swap - perform it *)
        Grid.swapTiles p1 p2 ;;;
        (* Use a move *)
        modify (fun w' => withMoves w' (moves w' - 1)) ;;;
        processMatches fuel ;;;
        checkWinLose fuel ;;;
        modify (fun w' => withIsProcessing w' false)
  end.

(** [startGame()], from "Initialize game state" on; [startingMoves] and
    [gridSize] are the two values of [gameConfig] that it reads. *)
Definition startGame (fuel : nat) (startingMoves gridSize : Z) : M unit :=
  modify (fun w => withMoves w startingMoves) ;;;
  Grid.init gridSize ;;;
  memoryPositions <- MemorySystem.generateMemoryPositions gridSize ;;
  Grid.generate memoryPositions ;;;
  (* Ensure there are possible moves *)
  possible <- Grid.hasPossibleMoves ;;
  (if negb possible then Grid.shuffle fuel else ret tt) ;;;
  modify (fun w => withIsPlaying w true) ;;;
  modify (fun w => withIsPaused w false) ;;;
  modify (fun w => withIsProcessing w false).

End Game.

(** ** Notions used to state the properties *)

(** The cell holds a tile of type [k]. *)
Definition hasKind (c : Cell) (k : TileType) : bool :=
  match c with
  | Some t => MatchDetector.typeEqb (type t) k
  | None => false
  end.

(** Along a line of [n] cells, the [len] cells from index [s] on are tiles of
    type [k], and the run is maximal: the cell before it, if there is one, is
    not a tile of type [k], and neither is the cell after it. *)
Definition maximalRun (n : Z) (line : Z -> Cell) (s len : Z) (k : TileType) : bool :=
  (0 <=? s) && (1 <=? len) && (s + len <=? n)
  && forallb (fun i => hasKind (line i) k) (zrange s (s + len))
  && negb ((0 <? s) && hasKind (line (s - 1)) k)
  && negb ((s + len <? n) && hasKind (line (s + len)) k).

(** The test of the inner loop of either scan of [findAllMatches] at index
    [i] of a line: the cell continues the run of the cell before it. *)
Definition linkedAt (n : Z) (line : Z -> Cell) (i : Z) : bool :=
  (i <? n) && MatchDetector.truthyCell (line i)
  && MatchDetector.truthyCell (line (i - 1))
  && MatchDetector.typeEqb (MatchDetector.getTileType (line i))
                           (MatchDetector.getTileType (line (i - 1))).

(** What the scan of a line pushes for a run of [len] cells from [start] on,
    when the run ends. *)
Definition spawnOf (line : Z -> Cell) (at_ : Z -> Pos) (stripe : Special)
    (start len : Z) : list SpecialRequest :=
  if 3 <=? len then
    if len =? 4 then
      [mkRequest (row (at_ (start + len / 2))) (col (at_ (start + len / 2)))
                 stripe (MatchDetector.getTileType (line start))]
    else if 5 <=? len then
      [mkRequest (row (at_ (start + len / 2))) (col (at_ (start + len / 2)))
                 wrapped (MatchDetector.getTileType (line start))]
    else []
  else [].

(** A maximal horizontal run in row [r], from column [s] on. *)
Definition horizontalRun (g : Board) (r s len : Z) (k : TileType) : bool :=
  (0 <=? r) && (r <? gridSize g)
  && maximalRun (gridSize g) (fun c => cellAt g r c) s len k.

(** A maximal vertical run in column [c], from row [s] on. *)
Definition verticalRun (g : Board) (c s len : Z) (k : TileType) : bool :=
  (0 <=? c) && (c <? gridSize g)
  && maximalRun (gridSize g) (fun r => cellAt g r c) s len k.

(** [a === b] on special kinds. *)
Definition specialEqb (a b : Special) : bool :=
  match a, b with
  | striped_h, striped_h | striped_v, striped_v | wrapped, wrapped => true
  | _, _ => false
  end.

(** The request lies in row [r], in the columns [s .. s + len - 1]. *)
Definition inRowSpan (r s len : Z) (q : SpecialRequest) : bool :=
  (reqRow q =? r) && (s <=? reqCol q) && (reqCol q <? s + len).

(** The request lies in column [c], in the rows [s .. s + len - 1]. *)
Definition inColSpan (c s len : Z) (q : SpecialRequest) : bool :=
  (reqCol q =? c) && (s <=? reqRow q) && (reqRow q <? s + len).

(** The position names an element of the array of arrays. *)
Definition inBounds (g : Board) (p : Pos) : Prop :=
  exists line, nthZ g (row p) = Some line /\
               0 <= col p < Z.of_nat (List.length line).

(** An [n] by [n] board. *)
Definition square (n : Z) (g : Board) : Prop :=
  gridSize g = n /\ Forall (fun line => Z.of_nat (List.length line) = n) g.

(** The tiles of a list of cells, and of a board row by row. *)
Definition tilesOf (cells : list Cell) : list Tile :=
  flat_map (fun c => match c with Some t => [t] | None => [] end) cells.

Definition boardTiles (g : Board) : list Tile := tilesOf (concat g).

(** No two positions of the list are equal. *)
Fixpoint distinct (l : list Pos) : bool :=
  match l with
  | [] => true
  | p :: rest => negb (existsb (posEqb p) rest) && distinct rest
  end.

(** The lengths of the rows. *)
Definition shape (g : Board) : list nat := map (@List.length Cell) g.

(** The requests collected so far all target collected positions. *)
Definition requestsMatched (matched : PosSet) (requests : list SpecialRequest) : Prop :=
  forall q, In q requests -> In (reqPos q) matched.

(** The test of [wouldCreateInitialMatch] read off a board: the two cells to
    the left, or the two cells above, both hold the type [ty]. *)
Definition backwardMatch (g : Board) (r c : Z) (ty : TileType) : bool :=
  ((2 <=? c)
   && MatchDetector.typeEqb (MatchDetector.getTileType (cellAt g r (c - 1))) ty
   && MatchDetector.typeEqb (MatchDetector.getTileType (cellAt g r (c - 2))) ty)
  || ((2 <=? r)
      && MatchDetector.typeEqb (MatchDetector.getTileType (cellAt g (r - 1) c)) ty
      && MatchDetector.typeEqb (MatchDetector.getTileType (cellAt g (r - 2) c)) ty).

(** The type of the cell at [p] passes the backward check on the board. *)
Definition passesAt (g : Board) (p : Pos) : Prop :=
  backwardMatch g (row p) (col p)
    (MatchDetector.getTileType (cellAt g (row p) (col p))) = false.

(** Every cell of the board passes the backward check. *)
Definition passesBackwardCheck (g : Board) : Prop :=
  forall r c, 0 <= r < gridSize g -> 0 <= c < gridSize g -> passesAt g (mkPos r c).

(** In the run of the loops of [generate] over the cells [todo] from the
    state [w], the type accepted for each cell passes
    [wouldCreateInitialMatch] in the state in which it is accepted (whether
    it was accepted because the check passed or because the 50th draw was
    reached). *)
Fixpoint acceptedAll (memoryPositions : list Grid.MemoryPosition)
    (memoryLookup : PosSet) (todo : list Pos) (memoryIndex : nat) (w : World)
    : bool :=
  match todo with
  | [] => true
  | p :: rest =>
      match Grid.pickType 49 (row p) (col p) w with
      | Returned ty w1 =>
          match Grid.wouldCreateInitialMatch (row p) (col p) ty w1 with
          | Returned again _ =>
              negb again
              && match Grid.generateCell memoryPositions memoryLookup memoryIndex p w with
                 | Returned index' w' =>
                     acceptedAll memoryPositions memoryLookup rest index' w'
                 | _ => false
                 end
          | _ => false
          end
      | _ => false
      end
  end.

Definition everyCellAccepted (memoryPositions : list Grid.MemoryPosition)
    (w : World) : bool :=
  acceptedAll memoryPositions
    (fold_left (fun s m => setAdd s (Grid.memoryPos m)) memoryPositions [])
    (Grid.cellsRowMajor (size w)) O w.

(** The order of the loops over the cells: row by row, left to right. *)
Definition lexLt (p q : Pos) : Prop :=
  row p < row q \/ (row p = row q /\ col p < col q).

(** What [Grid.getTileData] returns at [p] when it returns. *)
Definition tileDataAt (w : World) (p : Pos) : Cell :=
  if (row p <? 0) || (size w <=? row p) || (col p <? 0) || (size w <=? col p)
  then None
  else cellAt (data w) (row p) (col p).

(** The special at [p], if the tile there is one. *)
Definition specialAt (w : World) (p : Pos) : option Special :=
  MatchDetector.isSpecialCandy (tileDataAt w p).

(** What the loop "Check for chain reactions" adds for one position of the
    combination. *)
Definition chainedClear (w : World) (p1 p2 pos : Pos) : list Pos :=
  if ((row pos =? row p1) && (col pos =? col p1))
     || ((row pos =? row p2) && (col pos =? col p2))
  then []
  else match specialAt w pos with
       | Some s => MatchDetector.getSpecialClearPositions (data w) pos s
       | None => []
       end.

(** A clear set is closed under chained activation: with every special tile
    that it contains, other than the two swapped ones, it contains the clear
    positions of that special. *)
Definition closedUnderActivation (w : World) (p1 p2 : Pos) (cleared : list Pos) : Prop :=
  forall q s x,
    In q cleared -> q <> p1 -> q <> p2 -> specialAt w q = Some s ->
    In x (MatchDetector.getSpecialClearPositions (data w) q s) ->
    In x cleared.

(** A computation that leaves [Game.moves] as it is, however it ends. *)
Definition keepsMoves {A : Type} (m : M A) : Prop :=
  forall w, moves (finalWorld (m w)) = moves w.

(** The cell at [p] holds a tagged (memory) tile. *)
Definition tagged (g : Board) (p : Pos) : bool :=
  match cellAt g (row p) (col p) with
  | Some t => isMemory t
  | None => false
  end.

(** [p] lies on a board of [n] rows and columns, within Chebyshev distance 2
    of [(r, c)]. *)
Definition inBlock (n r c : Z) (p : Pos) : Prop :=
  r - 2 <= row p <= r + 2 /\ c - 2 <= col p <= c + 2
  /\ 0 <= row p < n /\ 0 <= col p < n.

(** The type of the first tagged tile among the cells [todo] of a board. *)
Fixpoint firstTaggedType (g : Board) (todo : list Pos) : TileType :=
  match todo with
  | [] => None
  | p :: rest =>
      match cellAt g (row p) (col p) with
      | Some t => if isMemory t then type t else firstTaggedType g rest
      | None => firstTaggedType g rest
      end
  end.

(** The scan order in the words of the specification, "row-major, radius
    ascending": the cells of the block at Chebyshev distance 0 from
    [(r, c)], then those at distance 1, then those at distance 2, each ring
    row by row. *)
Definition radius (r c : Z) (p : Pos) : Z :=
  Z.max (Z.abs (row p - r)) (Z.abs (col p - c)).

Definition radiusAscendingOrder (n r c : Z) : list Pos :=
  flat_map (fun d => filter (fun p => radius r c p =? d) (Grid.neighbourhood n r c))
           (zrange 0 3).

(** The bias of the specification: the type of the first tagged tile in that
    order. *)
Definition radiusAscendingType (w : World) (r c : Z) : TileType :=
  firstTaggedType (data w) (radiusAscendingOrder (size w) r c).

(** The position lies on a board of [n] rows and columns. *)
Definition onBoard (n : Z) (p : Pos) : Prop :=
  0 <= row p < n /\ 0 <= col p < n.

(** The state [(positions, seen)] of [getSpecialCombinationClearPositions]
    is consistent: no position twice, and [seen] holds the keys of
    [positions]. *)
Definition seenConsistent (st : list Pos * PosSet) : Prop :=
  NoDup (fst st) /\ forall q, In q (fst st) <-> In q (snd st).

(** A step on the state of [getSpecialCombinationClearPositions] that keeps
    it consistent and adds the positions [S], and no other. *)
Definition adds (f : list Pos * PosSet -> list Pos * PosSet) (S : Pos -> Prop) : Prop :=
  forall st, seenConsistent st ->
             seenConsistent (f st)
             /\ forall q, In q (fst (f st)) <-> In q (fst st) \/ S q.

(** Index [i] of a line lies in a stretch of three or more consecutive
    cells that ends before index [b], each cell of which after the first is
    linked to the one before it: tiles of one type, side by side. *)
Definition stretch (n : Z) (line : Z -> Cell) (b i : Z) : Prop :=
  exists s len, 0 <= s /\ 3 <= len /\ s + len <= b /\ s <= i < s + len
                /\ forall j, s < j < s + len -> linkedAt n line j = true.

(** The invariant of the scan of a line before the iteration at index [a],
    for the matched positions [m0] at the start of the line. *)
Definition scanInv (n : Z) (line : Z -> Cell) (at_ : Z -> Pos) (m0 : PosSet)
    (a : Z) (st : MatchDetector.Scan) : Prop :=
  0 <= MatchDetector.matchStart st < a
  /\ MatchDetector.matchLength st = a - MatchDetector.matchStart st
  /\ (forall j, MatchDetector.matchStart st < j < a -> linkedAt n line j = true)
  /\ (0 < MatchDetector.matchStart st ->
      linkedAt n line (MatchDetector.matchStart st) = false)
  /\ forall p, In p (MatchDetector.matchedPositions st) <->
               In p m0 \/ exists i, p = at_ i /\ stretch n line (MatchDetector.matchStart st) i.

(** The position lies on the board in a horizontal or in a vertical stretch
    of three or more tiles of one type. *)
Definition inMatch (g : Board) (p : Pos) : Prop :=
  onBoard (gridSize g) p
  /\ (stretch (gridSize g) (fun c => cellAt g (row p) c) (gridSize g) (col p)
      \/ stretch (gridSize g) (fun r => cellAt g r (col p)) (gridSize g) (row p)).

(** [g'] is [g] with the cells at [p1] and [p2] exchanged. *)
Definition exchanged (g g' : Board) (p1 p2 : Pos) : Prop :=
  shape g' = shape g
  /\ forall r c,
       cellAt g' r c =
       if (r =? row p2) && (c =? col p2) then cellAt g (row p1) (col p1)
       else if (r =? row p1) && (c =? col p1) then cellAt g (row p2) (col p2)
       else cellAt g r c.

(** The two positions of a probe of [findPossibleMatch]: the second is the
    right or the bottom neighbour of the first. *)
Definition probe (n : Z) (p1 p2 : Pos) : Prop :=
  onBoard n p1 /\ onBoard n p2
  /\ ((row p2 = row p1 /\ col p2 = col p1 + 1)
      \/ (row p2 = row p1 + 1 /\ col p2 = col p1)).

(** What the first loop of [removeMatches] collects at one position. *)
Definition memoryTileAt (g : Board) (p : Pos) : list Grid.MemoryTile :=
  match cellAt g (row p) (col p) with
  | Some t =>
      match isMemory t, memoryId t with
      | true, Some id => [Grid.mkMemoryTile id p]
      | _, _ => []
      end
  | None => []
  end.

(** A tile as [spawnNewTiles] creates it: plain, not a memory tile, of a
    truthy type. *)
Definition freshTile (t : Tile) : Prop :=
  special t = None /\ isMemory t = false /\ memoryId t = None
  /\ MatchDetector.truthyType (type t) = true.

(** [g'] is [g] with some of its empty cells filled by fresh tiles: the rows
    keep their lengths and every tile of [g] stays where it is. *)
Definition refilled (g g' : Board) : Prop :=
  shape g' = shape g
  /\ forall r c,
       match cellAt g r c with
       | Some t => cellAt g' r c = Some t
       | None => match cellAt g' r c with
                 | Some t' => freshTile t'
                 | None => True
                 end
       end.

(** No cell of the [n] by [n] board is empty. *)
Definition full (n : Z) (g : Board) : Prop :=
  forall r c, 0 <= r < n -> 0 <= c < n -> cellAt g r c <> None.

(** The cells of column [c] of a board of [n] rows, from the top. *)
Definition column (n : Z) (g : Board) (c : Z) : list Cell :=
  map (fun r => cellAt g r c) (zrange 0 n).

(** A column after its tiles have fallen: the empty cells on top, then the
    tiles in the order they had. *)
Definition settled (cells : list Cell) : list Cell :=
  repeat None (List.length cells - List.length (tilesOf cells))
  ++ map Some (tilesOf cells).

(** The set [memoryLookup] of [generate]. *)
Definition memoryLookupOf (memoryPositions : list Grid.MemoryPosition) : PosSet :=
  fold_left (fun s m => setAdd s (Grid.memoryPos m)) memoryPositions [].

(** The cells that [generate] tags as memory tiles, in the order of its
    loops. *)
Definition memoryCells (memoryPositions : list Grid.MemoryPosition) (n : Z) : list Pos :=
  filter (setHas (memoryLookupOf memoryPositions)) (Grid.cellsRowMajor n).

(** A tile as [generate] creates it at [p]: a plain tile of one of the five
    types, tagged exactly when [p] is in the lookup set, and without an id
    when it is not tagged. *)
Definition initialTile (lookup : PosSet) (p : Pos) (t : Tile) : Prop :=
  (exists s, type t = Some s /\ In s Grid.tileTypes)
  /\ special t = None
  /\ isMemory t = setHas lookup p
  /\ (isMemory t = false -> memoryId t = None).

(** The invariant of the loops of [generate] after the cells [done], from
    the state [w] that [init] leaves, with the counter at [memoryIndex]. *)
Definition generateInv (memoryPositions : list Grid.MemoryPosition) (n : Z) (w : World)
    (done : list Pos) (memoryIndex : nat) (w' : World) : Prop :=
  exists g' k,
    w' = withData (withRandomCalls w k) g'
    /\ gridSize g' = n
    /\ Forall (fun line => Z.of_nat (List.length line) <= n) g'
    /\ memoryIndex = List.length (filter (setHas (memoryLookupOf memoryPositions)) done)
    /\ (forall p, In p done ->
                  exists t, cellAt g' (row p) (col p) = Some t
                            /\ initialTile (memoryLookupOf memoryPositions) p t)
    /\ (forall i p,
          nth_error (filter (setHas (memoryLookupOf memoryPositions)) done) i = Some p ->
          exists t, cellAt g' (row p) (col p) = Some t
                    /\ memoryId t = option_map Grid.memoryPosId (nth_error memoryPositions i)).

(** The call did not throw: it returned in a state that satisfies [Q], or
    it is still running, in a state that satisfies [R]. *)
Definition ends {A : Type} (o : Outcome A) (Q R : World -> Prop) : Prop :=
  match o with
  | Returned _ w' => Q w'
  | Threw _ => False
  | Running w' => R w'
  end.

(** The board of [w'] is square, of the size that the grid of [w] has and
    keeps. *)
Definition sameGrid (w w' : World) : Prop :=
  size w' = size w /\ square (size w) (data w').

(** [findAllMatches] finds no match on the board of the state. *)
Definition settledBoard (w : World) : Prop :=
  MatchDetector.matches (MatchDetector.findAllMatches (data w)) = [].

(** The position lies on the board both in a horizontal and in a vertical
    stretch of three or more tiles of one type: the crossing of an L or a T. *)
Definition crossing (g : Board) (p : Pos) : Prop :=
  onBoard (gridSize g) p
  /\ stretch (gridSize g) (fun c => cellAt g (row p) c) (gridSize g) (col p)
  /\ stretch (gridSize g) (fun r => cellAt g r (col p)) (gridSize g) (row p).

(** What the loop of [findLTShapes] pushes at a position that it has not
    checked yet. *)
Definition crossingRequest (g : Board) (pos : Pos) : list SpecialRequest :=
  let ty := MatchDetector.getTileType (cellAt g (row pos) (col pos)) in
  if MatchDetector.truthyType ty
     && (3 <=? MatchDetector.hCountAt g (row pos) (col pos) ty)
     && (3 <=? MatchDetector.vCountAt g (row pos) (col pos) ty)
  then [mkRequest (row pos) (col pos) wrapped ty]
  else [].

(** [findPossibleMatch] finds a pair on the board of the state. *)
Definition hasMove (w : World) : Prop :=
  exists pair, MatchDetector.findPossibleMatch (data w) = Some (Some pair, data w).

(** The invariant of the loop of [generateMemoryPositions] on a board of
    size [n] after the iterations [done], from the state [w]. *)
Definition positionsInv (n : Z) (w : World) (done : list Z)
    (st : list Grid.MemoryPosition * PosSet) (w' : World) : Prop :=
  (exists k, w' = withRandomCalls w k)
  /\ map Grid.memoryPosId (fst st) = done
  /\ (2 <= n -> forall m, In m (fst st) -> onBoard n (Grid.memoryPos m)).

(** What the loop that fills [specialsToActivate] collects at one position. *)
Definition activatedAt (w : World) (p : Pos) : list (Pos * Special) :=
  match specialAt w p with
  | Some s => [(p, s)]
  | None => []
  end.

(** The request comes from a stretch of the line: it is of the stripe of the
    scan or 'wrapped', and it sits at an index of the line that lies in a
    stretch of three or more linked cells. *)
Definition fromStretch (n : Z) (line : Z -> Cell) (at_ : Z -> Pos)
    (stripe : Special) (q : SpecialRequest) : Prop :=
  (reqType q = stripe \/ reqType q = wrapped)
  /\ exists i, reqPos q = at_ i /\ stretch n line n i.

(** The position lies in a horizontal stretch of three or more tiles of one
    type, and in a vertical one. *)
Definition rowStretchAt (g : Board) (p : Pos) : Prop :=
  stretch (gridSize g) (fun c => cellAt g (row p) c) (gridSize g) (col p).

Definition columnStretchAt (g : Board) (p : Pos) : Prop :=
  stretch (gridSize g) (fun r => cellAt g r (col p)) (gridSize g) (row p).

(** A request that is not the own request of a horizontal run: it is not
    'striped-h', and its cell lies in a vertical stretch of three or more
    tiles of one type.  The same for a vertical run. *)
Definition onColumnStretch (g : Board) (q : SpecialRequest) : Prop :=
  reqType q <> striped_h /\ columnStretchAt g (reqPos q).

Definition onRowStretch (g : Board) (q : SpecialRequest) : Prop :=
  reqType q <> striped_v /\ rowStretchAt g (reqPos q).

(** No cell of the [len] cells of row [r] from column [s] on lies in a
    vertical stretch of three or more tiles of one type; the same for the
    cells of column [c] from row [s] on and horizontal stretches. *)
Definition uncrossedRow (g : Board) (r s len : Z) : Prop :=
  forall c, s <= c < s + len -> ~ columnStretchAt g (mkPos r c).

Definition uncrossedColumn (g : Board) (c s len : Z) : Prop :=
  forall r, s <= r < s + len -> ~ rowStretchAt g (mkPos r c).

(** What a result holds on the cells of a run, the requests on those cells
    being the ones that satisfy [span]: the requests [own] of the run, in
    this order, and before and after them only requests that satisfy
    [beside]; when [uncrossed] holds, the requests [own] and no other. *)
Definition runYields (result : list SpecialRequest) (span : SpecialRequest -> bool)
    (own : list SpecialRequest) (beside : SpecialRequest -> Prop)
    (uncrossed : Prop) : Prop :=
  (exists before after,
      filter span result = before ++ own ++ after
      /\ Forall beside before /\ Forall beside after)
  /\ (uncrossed -> filter span result = own).

(** ** Sample boards and states *)

(** A plain tile of the given type. *)
Definition plain (s : string) : Cell := Some (mkTile (Some s) None false None).

(** A special tile, and a memory tile, of the given type. *)
Definition specialTile (s : string) (sp : Special) : Cell :=
  Some (mkTile (Some s) (Some sp) false None).

Definition memoryTile (s : string) (id : Z) : Cell :=
  Some (mkTile (Some s) None true (Some id)).

(** Horizontal runs of 4, 5 and 3 in the rows 0, 2 and 4. *)
Definition sampleRows : Board :=
  map (map plain)
    [["h"; "h"; "h"; "h"; "a"; "b"];
     ["a"; "b"; "a"; "b"; "a"; "b"];
     ["c"; "c"; "c"; "c"; "c"; "d"];
     ["b"; "a"; "b"; "a"; "b"; "a"];
     ["a"; "b"; "d"; "d"; "d"; "a"];
     ["b"; "a"; "b"; "a"; "b"; "c"]]%string.

(** The same runs, vertical, in the columns 0, 2 and 4. *)
Definition sampleColumns : Board :=
  map (map plain)
    [["h"; "a"; "c"; "b"; "a"; "b"];
     ["h"; "b"; "c"; "a"; "b"; "a"];
     ["h"; "a"; "c"; "b"; "d"; "b"];
     ["h"; "b"; "c"; "a"; "d"; "a"];
     ["a"; "a"; "c"; "b"; "d"; "b"];
     ["b"; "b"; "d"; "a"; "a"; "c"]]%string.

(** A horizontal run of exactly 5 in row 0, crossed at its middle by a
    vertical run of 3 in column 2. *)
Definition crossFive : Board :=
  map (map plain)
    [["a"; "a"; "a"; "a"; "a"; "b"];
     ["b"; "c"; "a"; "b"; "c"; "c"];
     ["c"; "b"; "a"; "c"; "b"; "b"];
     ["b"; "c"; "d"; "b"; "c"; "d"];
     ["c"; "b"; "c"; "d"; "b"; "c"];
     ["b"; "c"; "b"; "c"; "d"; "b"]]%string.

(** A horizontal run of exactly 3 in row 0 and a vertical run of exactly 3 in
    column 0 that meet in the corner. *)
Definition ellThree : Board :=
  map (map plain)
    [["a"; "a"; "a"; "b"; "c"; "d"];
     ["a"; "c"; "b"; "c"; "d"; "b"];
     ["a"; "b"; "c"; "d"; "b"; "c"];
     ["b"; "c"; "d"; "b"; "c"; "d"];
     ["c"; "d"; "b"; "c"; "d"; "b"];
     ["d"; "b"; "c"; "d"; "b"; "c"]]%string.

(** A state with an empty board and the random source [rnd]. *)
Definition blankWorld (rnd : nat -> Rand) : World :=
  mkWorld [] 0 30 true false false 0 3 rnd O.

(** A random source whose n-th value is [k / 5], for [k] the remainder of
    [n mod 6 + n / 6] by 3: drawn as types row by row on a board of 6 columns,
    no three equal types meet in a row or in a column. *)
Definition diagonalSource (n : nat) : Rand :=
  let k := Nat.modulo (Nat.modulo n 6 + Nat.div n 6) 3 in
  mkRand k (4 - k).

(** Two wrapped specials at (2,2) and (2,3), a 'striped-v' special at (4,0)
    inside the 5 by 5 block around (2,2), and a 'striped-h' special at (5,0),
    outside the block but in the column of the former. *)
Definition sampleChain : Board :=
  [[plain "a"; plain "b"; plain "a"; plain "b"; plain "a"; plain "b"];
   [plain "b"; plain "a"; plain "b"; plain "a"; plain "b"; plain "a"];
   [plain "a"; plain "b"; specialTile "c" wrapped; specialTile "d" wrapped;
    plain "a"; plain "b"];
   [plain "b"; plain "a"; plain "b"; plain "a"; plain "b"; plain "a"];
   [specialTile "c" striped_v; plain "b"; plain "a"; plain "b"; plain "a"; plain "b"];
   [specialTile "d" striped_h; plain "a"; plain "b"; plain "a"; plain "b"; plain "a"]]%string.

(** A state with the board [g], of [n] rows. *)
Definition worldOf (g : Board) (rnd : nat -> Rand) : World :=
  mkWorld g (gridSize g) 30 true false false 0 3 rnd O.

(** An empty cell at (2,2), a tagged tile of type x at (0,0), at distance 2,
    and a tagged tile of type y at (2,3), at distance 1. *)
Definition sampleTagged : Board :=
  [[memoryTile "x" 0; plain "b"; plain "a"; plain "b"; plain "a"; plain "b"];
   [plain "b"; plain "a"; plain "b"; plain "a"; plain "b"; plain "a"];
   [plain "a"; plain "b"; None; memoryTile "y" 1; plain "a"; plain "b"];
   [plain "b"; plain "a"; plain "b"; plain "a"; plain "b"; plain "a"];
   [plain "a"; plain "b"; plain "a"; plain "b"; plain "a"; plain "b"];
   [plain "b"; plain "a"; plain "b"; plain "a"; plain "b"; plain "a"]]%string.

(** A valid swap: (0,2) with (0,3) completes three a in row 0. *)
Definition sampleSwap : Board :=
  map (map plain)
    [["a"; "a"; "b"; "a"; "c"; "d"];
     ["b"; "c"; "d"; "b"; "d"; "c"];
     ["c"; "d"; "a"; "c"; "a"; "b"];
     ["d"; "a"; "c"; "d"; "b"; "a"];
     ["a"; "b"; "d"; "a"; "c"; "d"];
     ["b"; "c"; "a"; "b"; "d"; "c"]]%string.

(** A random source that makes the Fisher-Yates loop on 36 tiles exchange
    each element with itself: the n-th value is [i / (i + 1)] for the index
    [i = 35 - n] of the n-th step. *)
Definition fixedSource (n : nat) : Rand := mkRand (35 - n) 0.

(** ** Arrays, ranges and sets of keys *)

Lemma posEqb_eq (p q : Pos) : posEqb p q = true <-> p = q.
Proof.
  destruct p as [r c], q as [r' c']; unfold posEqb; simpl.
  rewrite andb_true_iff, !Z.eqb_eq. split.
  - intros [-> ->]; reflexivity.
  - intros H; inversion H; auto.
Qed.

Lemma posEqb_refl (p : Pos) : posEqb p p = true.
Proof. apply posEqb_eq; reflexivity. Qed.

Lemma pos_eta (p : Pos) : mkPos (row p) (col p) = p.
Proof. destruct p; reflexivity. Qed.

Lemma setHas_In (s : PosSet) (p : Pos) : setHas s p = true <-> In p s.
Proof.
  unfold setHas. rewrite existsb_exists. split.
  - intros [q [Hq He]]. apply posEqb_eq in He. subst; assumption.
  - intros H. exists p. split; [assumption | apply posEqb_refl].
Qed.

Lemma setAdd_In (s : PosSet) (p q : Pos) : In q (setAdd s p) <-> In q s \/ q = p.
Proof.
  unfold setAdd. destruct (setHas s p) eqn:E.
  - apply setHas_In in E. split; [auto | intros [H | ->]; assumption].
  - rewrite in_app_iff. simpl. intuition.
Qed.

Lemma distinct_NoDup (l : list Pos) : distinct l = true -> NoDup l.
Proof.
  induction l as [| p rest IH]; simpl; intros H.
  - constructor.
  - apply andb_true_iff in H. destruct H as [H1 H2]. constructor.
    + intros Hin. apply setHas_In in Hin. unfold setHas in Hin.
      rewrite Hin in H1. discriminate.
    + apply IH; assumption.
Qed.

Lemma zrange_nil (lo hi : Z) : hi <= lo -> zrange lo hi = [].
Proof.
  intros H. unfold zrange. replace (Z.to_nat (hi - lo)) with O by lia. reflexivity.
Qed.

Lemma zrange_cons (lo hi : Z) : lo < hi -> zrange lo hi = lo :: zrange (lo + 1) hi.
Proof.
  intros H. unfold zrange.
  replace (Z.to_nat (hi - lo)) with (S (Z.to_nat (hi - (lo + 1)))) by lia.
  simpl. rewrite <- seq_shift, map_map. f_equal; [lia |].
  apply map_ext. intros k. lia.
Qed.

Lemma zrange_app (lo mid hi : Z) :
  lo <= mid <= hi -> zrange lo hi = zrange lo mid ++ zrange mid hi.
Proof.
  remember (Z.to_nat (mid - lo)) as n eqn:Hn. revert lo Hn.
  induction n as [| n IH]; intros lo Hn H.
  - assert (lo = mid) by lia. subst. rewrite (zrange_nil mid mid) by lia. reflexivity.
  - rewrite (zrange_cons lo hi) by lia. rewrite (zrange_cons lo mid) by lia.
    simpl. f_equal. apply IH; lia.
Qed.

Lemma zrange_In (lo hi i : Z) : In i (zrange lo hi) <-> lo <= i < hi.
Proof.
  unfold zrange. rewrite in_map_iff. split.
  - intros [k [<- Hk]]. apply in_seq in Hk. lia.
  - intros H. exists (Z.to_nat (i - lo)). split; [lia |]. apply in_seq. lia.
Qed.

Lemma zrange_length (lo hi : Z) : List.length (zrange lo hi) = Z.to_nat (hi - lo).
Proof. unfold zrange. rewrite length_map, length_seq. reflexivity. Qed.

Lemma zrange_snoc (lo hi : Z) : lo <= hi -> zrange lo (hi + 1) = zrange lo hi ++ [hi].
Proof.
  intros H. rewrite (zrange_app lo hi (hi + 1)) by lia. f_equal.
  rewrite zrange_cons by lia. rewrite zrange_nil by lia. reflexivity.
Qed.

Lemma zrange_NoDup (lo hi : Z) : NoDup (zrange lo hi).
Proof.
  remember (Z.to_nat (hi - lo)) as n eqn:Hn. revert lo Hn.
  induction n as [| n IH]; intros lo Hn.
  - rewrite zrange_nil by lia. constructor.
  - rewrite zrange_cons by lia. constructor.
    + rewrite zrange_In. lia.
    + apply IH. lia.
Qed.

Lemma nthZ_Some {A : Type} (l : list A) (i : Z) (x : A) :
  nthZ l i = Some x -> 0 <= i < Z.of_nat (List.length l).
Proof.
  unfold nthZ. destruct (i <? 0) eqn:E; [discriminate |]. intros H.
  assert (Hl : (Z.to_nat i < List.length l)%nat)
    by (apply nth_error_Some; rewrite H; discriminate).
  lia.
Qed.

Lemma nthZ_None {A : Type} (l : list A) (i : Z) :
  nthZ l i = None <-> i < 0 \/ Z.of_nat (List.length l) <= i.
Proof.
  unfold nthZ. destruct (i <? 0) eqn:E.
  - split; [lia | reflexivity].
  - rewrite nth_error_None. lia.
Qed.

Lemma nthZ_inside {A : Type} (l : list A) (i : Z) :
  0 <= i < Z.of_nat (List.length l) -> exists x, nthZ l i = Some x.
Proof.
  intros H. destruct (nthZ l i) eqn:E; [eauto |].
  apply nthZ_None in E. lia.
Qed.

Lemma replaceNth_length {A : Type} (l : list A) (n : nat) (v : A) :
  List.length (replaceNth l n v) = List.length l.
Proof.
  revert n; induction l as [| h t IH]; intros [| n]; simpl; auto.
Qed.

Lemma nth_error_replaceNth {A : Type} (l : list A) (n m : nat) (v : A) :
  nth_error (replaceNth l n v) m =
  if (Nat.eqb m n && Nat.ltb n (List.length l))%bool then Some v else nth_error l m.
Proof.
  revert n m; induction l as [| h t IH]; intros n m.
  - simpl. destruct n; simpl; rewrite andb_false_r; reflexivity.
  - destruct n as [| n], m as [| m]; simpl; try reflexivity.
    rewrite IH. reflexivity.
Qed.

Lemma nthZ_replaceNth {A : Type} (l : list A) (i j : Z) (v : A) :
  0 <= i < Z.of_nat (List.length l) ->
  nthZ (replaceNth l (Z.to_nat i) v) j = if j =? i then Some v else nthZ l j.
Proof.
  intros H. unfold nthZ. destruct (j <? 0) eqn:Ej.
  - destruct (j =? i) eqn:E; [lia | reflexivity].
  - rewrite nth_error_replaceNth.
    destruct (j =? i) eqn:E.
    + replace (Nat.eqb (Z.to_nat j) (Z.to_nat i)) with true
        by (symmetry; apply Nat.eqb_eq; lia).
      replace (Nat.ltb (Z.to_nat i) (List.length l)) with true
        by (symmetry; apply Nat.ltb_lt; lia).
      reflexivity.
    + replace (Nat.eqb (Z.to_nat j) (Z.to_nat i)) with false
        by (symmetry; apply Nat.eqb_neq; lia).
      reflexivity.
Qed.

Lemma writeCell_length_inside (l : list Cell) (i : Z) (v : Cell) :
  0 <= i < Z.of_nat (List.length l) ->
  List.length (writeCell l i v) = List.length l.
Proof.
  intros H. unfold writeCell.
  replace (Nat.ltb (Z.to_nat i) (List.length l)) with true
    by (symmetry; apply Nat.ltb_lt; lia).
  apply replaceNth_length.
Qed.

(** Reading a row after a write, cell by cell: the written cell is there,
    a hole reads as an empty cell, everything else is as before. *)
Lemma read_writeCell (l : list Cell) (i j : Z) (v : Cell) :
  0 <= i ->
  match nthZ (writeCell l i v) j with Some x => x | None => None end =
  if j =? i then v else match nthZ l j with Some x => x | None => None end.
Proof.
  intros Hi. unfold writeCell.
  destruct (Nat.ltb (Z.to_nat i) (List.length l)) eqn:E.
  - apply Nat.ltb_lt in E. rewrite nthZ_replaceNth by lia.
    destruct (j =? i); reflexivity.
  - apply Nat.ltb_ge in E. unfold nthZ. destruct (j <? 0) eqn:Ej.
    + destruct (j =? i) eqn:E'; [lia | reflexivity].
    + destruct (j =? i) eqn:E'.
      * apply Z.eqb_eq in E'. subst j.
        rewrite nth_error_app2 by lia.
        rewrite nth_error_app2 by (rewrite repeat_length; lia).
        rewrite repeat_length.
        replace (Z.to_nat i - List.length l - (Z.to_nat i - List.length l))%nat
          with O by lia.
        reflexivity.
      * apply Z.eqb_neq in E'.
        destruct (Nat.ltb (Z.to_nat j) (List.length l)) eqn:Ejl.
        -- apply Nat.ltb_lt in Ejl. rewrite nth_error_app1 by assumption. reflexivity.
        -- apply Nat.ltb_ge in Ejl. rewrite nth_error_app2 by assumption.
           replace (nth_error l (Z.to_nat j)) with (@None Cell)
             by (symmetry; apply nth_error_None; assumption).
           destruct (Nat.ltb (Z.to_nat j - List.length l) (Z.to_nat i - List.length l)) eqn:Eh.
           ++ apply Nat.ltb_lt in Eh. rewrite nth_error_app1 by (rewrite repeat_length; assumption).
              rewrite nth_error_repeat by assumption. reflexivity.
           ++ apply Nat.ltb_ge in Eh.
              rewrite nth_error_app2 by (rewrite repeat_length; assumption).
              rewrite repeat_length.
              destruct (Z.to_nat j - List.length l - (Z.to_nat i - List.length l))%nat
                as [| k] eqn:Ek; [lia |].
              simpl. destruct k; reflexivity.
Qed.

Lemma setCell_Some (g : Board) (r c : Z) (v : Cell) (g' : Board) :
  setCell g r c v = Some g' ->
  exists line, nthZ g r = Some line /\ 0 <= c /\
               g' = replaceNth g (Z.to_nat r) (writeCell line c v).
Proof.
  unfold setCell. destruct (nthZ g r) as [line |] eqn:E; [| discriminate].
  destruct (c <? 0) eqn:Ec; [discriminate |]. intros H. inversion H.
  exists line. repeat split; try reflexivity. lia.
Qed.

(** Reading the board after a successful write. *)
Lemma cellAt_setCell (g : Board) (r c : Z) (v : Cell) (g' : Board) :
  setCell g r c v = Some g' ->
  forall r' c', cellAt g' r' c' =
                if (r' =? r) && (c' =? c) then v else cellAt g r' c'.
Proof.
  intros H r' c'. apply setCell_Some in H.
  destruct H as [line [Hl [Hc ->]]].
  pose proof (nthZ_Some _ _ _ Hl) as Hr.
  unfold cellAt. rewrite nthZ_replaceNth by assumption.
  destruct (r' =? r) eqn:Er; simpl.
  - apply Z.eqb_eq in Er. subst r'. rewrite Hl. apply read_writeCell. assumption.
  - reflexivity.
Qed.

Lemma setCell_gridSize (g : Board) (r c : Z) (v : Cell) (g' : Board) :
  setCell g r c v = Some g' -> gridSize g' = gridSize g.
Proof.
  intros H. apply setCell_Some in H. destruct H as [line [_ [_ ->]]].
  unfold gridSize. rewrite replaceNth_length. reflexivity.
Qed.

Lemma setCell_total (g : Board) (r c : Z) (v : Cell) :
  0 <= r < gridSize g -> 0 <= c -> exists g', setCell g r c v = Some g'.
Proof.
  intros Hr Hc. unfold setCell, gridSize in *.
  destruct (nthZ_inside g r Hr) as [line ->].
  replace (c <? 0) with false by (symmetry; apply Z.ltb_ge; lia). eauto.
Qed.

Lemma readCell_cellAt (g : Board) (r c : Z) :
  0 <= r < gridSize g -> readCell g r c = Some (cellAt g r c).
Proof.
  intros Hr. unfold readCell, cellAt, gridSize in *.
  destruct (nthZ_inside g r Hr) as [line ->]. reflexivity.
Qed.

Lemma shape_replaceNth (g : Board) (n : nat) (line line' : list Cell) :
  nth_error g n = Some line -> List.length line' = List.length line ->
  shape (replaceNth g n line') = shape g.
Proof.
  revert n; induction g as [| h t IH]; intros [| n]; simpl; intros H1 H2;
    try discriminate.
  - inversion H1; subst. unfold shape; simpl. rewrite H2. reflexivity.
  - unfold shape in *; simpl. f_equal. apply IH; assumption.
Qed.

Lemma inBounds_gridSize (g : Board) (p : Pos) :
  inBounds g p -> 0 <= row p < gridSize g /\ 0 <= col p.
Proof.
  intros [line [Hl Hc]]. apply nthZ_Some in Hl. unfold gridSize. lia.
Qed.

Lemma setCell_inBounds (g : Board) (p : Pos) (v : Cell) :
  inBounds g p ->
  exists g', setCell g (row p) (col p) v = Some g' /\ shape g' = shape g.
Proof.
  intros [line [Hl Hc]]. unfold setCell. rewrite Hl.
  replace (col p <? 0) with false by (symmetry; apply Z.ltb_ge; lia).
  eexists. split; [reflexivity |].
  apply shape_replaceNth with (line := line).
  - unfold nthZ in Hl. destruct (row p <? 0); [discriminate | assumption].
  - apply writeCell_length_inside. assumption.
Qed.

Lemma inBounds_shape (g g' : Board) (p : Pos) :
  shape g' = shape g -> inBounds g p -> inBounds g' p.
Proof.
  intros Hs [line [Hl Hc]]. unfold inBounds, nthZ in *.
  destruct (row p <? 0); [discriminate |].
  assert (Hn : nth_error (shape g) (Z.to_nat (row p)) = Some (List.length line))
    by (unfold shape; rewrite nth_error_map, Hl; reflexivity).
  rewrite <- Hs in Hn. unfold shape in Hn. rewrite nth_error_map in Hn.
  destruct (nth_error g' (Z.to_nat (row p))) as [line' |]; [| discriminate].
  simpl in Hn. inversion Hn as [Hlen]. exists line'. split; [reflexivity | lia].
Qed.

(** Two boards with rows of the same lengths and the same cells are equal. *)
Lemma board_ext (g g' : Board) :
  shape g = shape g' ->
  (forall r c, cellAt g r c = cellAt g' r c) -> g = g'.
Proof.
  intros Hs Hc.
  apply nth_error_ext. intros n.
  assert (Hn : nth_error (shape g) n = nth_error (shape g') n) by (rewrite Hs; reflexivity).
  unfold shape in Hn. rewrite !nth_error_map in Hn.
  destruct (nth_error g n) as [l |] eqn:E, (nth_error g' n) as [l' |] eqn:E';
    simpl in Hn; try discriminate; try reflexivity.
  inversion Hn as [Hlen]. f_equal.
  apply nth_error_ext. intros m.
  specialize (Hc (Z.of_nat n) (Z.of_nat m)). unfold cellAt, nthZ in Hc.
  replace (Z.of_nat n <? 0) with false in Hc by (symmetry; apply Z.ltb_ge; lia).
  replace (Z.of_nat m <? 0) with false in Hc by (symmetry; apply Z.ltb_ge; lia).
  rewrite !Nat2Z.id, E, E' in Hc.
  destruct (nth_error l m) as [x |] eqn:Em, (nth_error l' m) as [x' |] eqn:Em'.
  - congruence.
  - apply nth_error_None in Em'.
    assert (m < List.length l)%nat by (apply nth_error_Some; congruence). lia.
  - apply nth_error_None in Em.
    assert (m < List.length l')%nat by (apply nth_error_Some; congruence). lia.
  - reflexivity.
Qed.

Lemma fold_left_preserves {A B : Type} (P : B -> Prop) (f : B -> A -> B) (l : list A) :
  (forall b a, P b -> P (f b a)) -> forall b, P b -> P (fold_left f l b).
Proof.
  intros Hf. induction l as [| a rest IH]; intros b Hb; simpl; auto.
Qed.

(** ** Swap probing leaves the board as it was *)

Lemma readCell_inBounds (g : Board) (p : Pos) :
  inBounds g p -> readCell g (row p) (col p) = Some (cellAt g (row p) (col p)).
Proof.
  intros H. apply readCell_cellAt. apply inBounds_gridSize in H. tauto.
Qed.

Lemma wouldMatch_inBounds (g : Board) (p1 p2 : Pos) :
  inBounds g p1 -> inBounds g p2 ->
  exists b, MatchDetector.wouldMatch g p1 p2 = Some (b, g).
Proof.
  intros H1 H2. unfold MatchDetector.wouldMatch.
  destruct (MatchDetector.isSpecialCombination g p1 p2); [eauto |].
  rewrite (readCell_inBounds g p1 H1), (readCell_inBounds g p2 H2).
  destruct (setCell_inBounds g p1 (cellAt g (row p2) (col p2)) H1) as [g1 [E1 S1]].
  rewrite E1.
  assert (H2' : inBounds g1 p2) by (eapply inBounds_shape; eauto).
  destruct (setCell_inBounds g1 p2 (cellAt g (row p1) (col p1)) H2') as [g2 [E2 S2]].
  rewrite E2.
  assert (H1'' : inBounds g2 p1)
    by (eapply inBounds_shape; [| exact H1]; congruence).
  assert (H2'' : inBounds g2 p2)
    by (eapply inBounds_shape; [| exact H2]; congruence).
  rewrite (readCell_inBounds g2 p1 H1'').
  destruct (setCell_inBounds g2 p2 (cellAt g2 (row p1) (col p1)) H2'') as [g3 [E3 S3]].
  rewrite E3.
  assert (H1''' : inBounds g3 p1)
    by (eapply inBounds_shape; [| exact H1]; congruence).
  destruct (setCell_inBounds g3 p1 (cellAt g (row p1) (col p1)) H1''') as [g4 [E4 S4]].
  rewrite E4.
  eexists. f_equal. f_equal.
  apply board_ext; [congruence |].
  intros r c.
  rewrite (cellAt_setCell _ _ _ _ _ E4), (cellAt_setCell _ _ _ _ _ E3),
          (cellAt_setCell _ _ _ _ _ E2), (cellAt_setCell _ _ _ _ _ E1).
  rewrite (cellAt_setCell _ _ _ _ _ E2), (cellAt_setCell _ _ _ _ _ E1).
  destruct ((r =? row p1) && (c =? col p1)) eqn:Ea.
  - apply andb_true_iff in Ea. destruct Ea as [Er Ec].
    apply Z.eqb_eq in Er, Ec. subst; reflexivity.
  - destruct ((r =? row p2) && (c =? col p2)) eqn:Eb; [| reflexivity].
    apply andb_true_iff in Eb. destruct Eb as [Er Ec].
    apply Z.eqb_eq in Er, Ec. subst r c.
    rewrite !Z.eqb_refl. simpl.
    destruct ((row p1 =? row p2) && (col p1 =? col p2)) eqn:Ec; [| reflexivity].
    apply andb_true_iff in Ec. destruct Ec as [Er Ec].
    apply Z.eqb_eq in Er, Ec. rewrite Er, Ec. reflexivity.
Qed.

(** C3. For every board and every pair of positions inside it,
    [wouldMatch] returns (it does not throw) and leaves the board exactly as
    it was before the call, whatever the result and whether or not the
    shortcut for two specials is taken. *)
Theorem wouldMatch_restores_board (g : Board) (p1 p2 : Pos) :
  inBounds g p1 -> inBounds g p2 ->
  exists b, MatchDetector.wouldMatch g p1 p2 = Some (b, g).
Proof. apply wouldMatch_inBounds. Qed.

(** ** Classification of combinations *)

(** C10. The classification of two special kinds does not depend on their
    order, for all nine ordered pairs, and so [isSpecialCombination] gives
    the same [combinationType] for [(pos1, pos2)] and [(pos2, pos1)] (and is
    null for the one exactly when it is null for the other). *)
Theorem combination_type_symmetric :
  (forall t1 t2 : Special,
     MatchDetector.getCombinationType t1 t2 = MatchDetector.getCombinationType t2 t1)
  /\
  (forall (g : Board) (p1 p2 : Pos),
     option_map MatchDetector.combinationType (MatchDetector.isSpecialCombination g p1 p2)
     = option_map MatchDetector.combinationType (MatchDetector.isSpecialCombination g p2 p1)).
Proof.
  assert (Hsym : forall t1 t2 : Special,
     MatchDetector.getCombinationType t1 t2 = MatchDetector.getCombinationType t2 t1)
    by (intros [] []; reflexivity).
  split; [exact Hsym |].
  intros g p1 p2. unfold MatchDetector.isSpecialCombination.
  destruct (MatchDetector.isSpecialCandy (cellAt g (row p1) (col p1))) as [s1 |],
           (MatchDetector.isSpecialCandy (cellAt g (row p2) (col p2))) as [s2 |];
    simpl; try reflexivity.
  f_equal. apply Hsym.
Qed.

(** ** Sizes of the clear sets *)

(** Case analysis on an integer known to lie in a range of [n] values
    starting at [lo]. *)
Ltac enumerate x lo n :=
  lazymatch n with
  | O => exfalso; lia
  | S ?m =>
      let H := fresh "Hcase" in
      destruct (Z.eq_dec x lo) as [H | H];
      [ subst x
      | let lo' := eval compute in (lo + 1) in enumerate x lo' m ]
  end.

Lemma stripe_clear_row (n r : Z) :
  NoDup (map (fun c => mkPos r c) (zrange 0 n))
  /\ Z.of_nat (List.length (map (fun c => mkPos r c) (zrange 0 n))) = Z.max 0 n.
Proof.
  split.
  - apply NoDup_map_inv with (f := col). rewrite map_map. simpl.
    rewrite map_id. apply zrange_NoDup.
  - rewrite length_map, zrange_length. lia.
Qed.

Lemma stripe_clear_col (n c : Z) :
  NoDup (map (fun r => mkPos r c) (zrange 0 n))
  /\ Z.of_nat (List.length (map (fun r => mkPos r c) (zrange 0 n))) = Z.max 0 n.
Proof.
  split.
  - apply NoDup_map_inv with (f := row). rewrite map_map. simpl.
    rewrite map_id. apply zrange_NoDup.
  - rewrite length_map, zrange_length. lia.
Qed.

(** C7. On a board of N rows, 6 <= N <= 10: the clear set of a
    wrapped-wrapped combination whose centre [pos1] is at least two cells
    away from every edge has exactly 25 positions, all distinct; the clear set
    of a wrapped special at a corner has exactly 4 distinct positions; the
    clear set of a striped special, of either orientation and anywhere, has
    exactly N distinct positions. *)
Theorem clear_set_sizes (g : Board) :
  6 <= gridSize g <= 10 ->
  (forall combo : MatchDetector.Combination,
     MatchDetector.combinationType combo = MatchDetector.wrapped_wrapped ->
     2 <= row (MatchDetector.pos1 combo) < gridSize g - 2 ->
     2 <= col (MatchDetector.pos1 combo) < gridSize g - 2 ->
     NoDup (MatchDetector.getSpecialCombinationClearPositions g combo)
     /\ List.length (MatchDetector.getSpecialCombinationClearPositions g combo) = 25%nat)
  /\
  (forall pos : Pos,
     row pos = 0 \/ row pos = gridSize g - 1 ->
     col pos = 0 \/ col pos = gridSize g - 1 ->
     NoDup (MatchDetector.getSpecialClearPositions g pos wrapped)
     /\ List.length (MatchDetector.getSpecialClearPositions g pos wrapped) = 4%nat)
  /\
  (forall (pos : Pos) (stripe : Special),
     stripe = striped_h \/ stripe = striped_v ->
     NoDup (MatchDetector.getSpecialClearPositions g pos stripe)
     /\ Z.of_nat (List.length (MatchDetector.getSpecialClearPositions g pos stripe))
        = gridSize g).
Proof.
  intros HN. repeat split.
  - destruct combo as [[r c] p2 t1 t2 ct]; simpl in *. subst ct.
    unfold MatchDetector.getSpecialCombinationClearPositions; simpl.
    revert HN H0 H1. generalize (gridSize g) as n. intros n HN Hr Hc.
    enumerate n 6 5%nat; enumerate r 2 6%nat; try lia;
      enumerate c 2 6%nat; try lia; apply distinct_NoDup; vm_compute; reflexivity.
  - destruct combo as [[r c] p2 t1 t2 ct]; simpl in *. subst ct.
    unfold MatchDetector.getSpecialCombinationClearPositions; simpl.
    revert HN H0 H1. generalize (gridSize g) as n. intros n HN Hr Hc.
    enumerate n 6 5%nat; enumerate r 2 6%nat; try lia;
      enumerate c 2 6%nat; try lia; vm_compute; reflexivity.
  - destruct pos as [r c]; simpl in *.
    unfold MatchDetector.getSpecialClearPositions; simpl.
    revert HN H H0. generalize (gridSize g) as n. intros n HN Hr Hc.
    enumerate n 6 5%nat; destruct Hr as [-> | ->]; destruct Hc as [-> | ->];
      apply distinct_NoDup; vm_compute; reflexivity.
  - destruct pos as [r c]; simpl in *.
    unfold MatchDetector.getSpecialClearPositions; simpl.
    revert HN H H0. generalize (gridSize g) as n. intros n HN Hr Hc.
    enumerate n 6 5%nat; destruct Hr as [-> | ->]; destruct Hc as [-> | ->];
      vm_compute; reflexivity.
  - destruct H as [-> | ->]; simpl.
    + apply stripe_clear_row.
    + apply stripe_clear_col.
  - destruct H as [-> | ->]; simpl.
    + rewrite (proj2 (stripe_clear_row _ _)). lia.
    + rewrite (proj2 (stripe_clear_col _ _)). lia.
Qed.

(** Case analysis on the integer comparisons of the goal. *)
Ltac zbool :=
  repeat match goal with
         | |- context [?a <=? ?b] => destruct (Z.leb_spec a b)
         | |- context [?a <? ?b] => destruct (Z.ltb_spec a b)
         | |- context [?a =? ?b] => destruct (Z.eqb_spec a b)
         end;
  simpl; try reflexivity; try discriminate; try lia.

(** ** The scan of one line *)

Lemma typeEqb_eq (a b : TileType) : MatchDetector.typeEqb a b = true <-> a = b.
Proof.
  destruct a as [x |], b as [y |]; simpl; split; intros H;
    try discriminate; try reflexivity.
  - apply String.eqb_eq in H. congruence.
  - inversion H. apply String.eqb_refl.
Qed.

Lemma hasKind_spec (c : Cell) (k : TileType) :
  hasKind c k = true <->
  MatchDetector.truthyCell c = true /\ MatchDetector.getTileType c = k.
Proof.
  destruct c as [t |]; simpl.
  - rewrite typeEqb_eq. tauto.
  - split; [discriminate | intros [H _]; discriminate].
Qed.

Section ScanLine.

Variables (n : Z) (line : Z -> Cell) (at_ : Z -> Pos) (stripe : Special).

Let step := MatchDetector.scanStep n line at_ stripe.

Lemma scanStep_linked (st : MatchDetector.Scan) (i : Z) :
  linkedAt n line i = true ->
  step st i = MatchDetector.mkScan (MatchDetector.matchStart st)
                (MatchDetector.matchLength st + 1)
                (MatchDetector.matchedPositions st)
                (MatchDetector.specialCandies st).
Proof.
  intros H. unfold step, MatchDetector.scanStep. unfold linkedAt in H.
  rewrite H. reflexivity.
Qed.

Lemma scanStep_break (st : MatchDetector.Scan) (i : Z) :
  linkedAt n line i = false ->
  MatchDetector.matchStart (step st i) = i
  /\ MatchDetector.matchLength (step st i) = 1
  /\ MatchDetector.specialCandies (step st i) =
       MatchDetector.specialCandies st ++
       spawnOf line at_ stripe (MatchDetector.matchStart st) (MatchDetector.matchLength st)
  /\ MatchDetector.matchedPositions (step st i) =
       if 3 <=? MatchDetector.matchLength st then
         fold_left (fun s k => setAdd s (at_ k))
           (zrange (MatchDetector.matchStart st)
                   (MatchDetector.matchStart st + MatchDetector.matchLength st))
           (MatchDetector.matchedPositions st)
       else MatchDetector.matchedPositions st.
Proof.
  intros H. unfold step, MatchDetector.scanStep, spawnOf. unfold linkedAt in H.
  rewrite H.
  destruct (3 <=? MatchDetector.matchLength st); simpl.
  - destruct (MatchDetector.matchLength st =? 4); simpl; [auto |].
    destruct (5 <=? MatchDetector.matchLength st); simpl; auto.
    rewrite app_nil_r. auto.
  - rewrite app_nil_r. auto.
Qed.

(** A stretch of linked cells only lengthens the current run. *)
Lemma scan_linked_run (m : nat) :
  forall (a : Z) (st : MatchDetector.Scan),
    (forall i, a <= i < a + Z.of_nat m -> linkedAt n line i = true) ->
    fold_left step (zrange a (a + Z.of_nat m)) st =
    MatchDetector.mkScan (MatchDetector.matchStart st)
      (MatchDetector.matchLength st + Z.of_nat m)
      (MatchDetector.matchedPositions st) (MatchDetector.specialCandies st).
Proof.
  induction m as [| m IH]; intros a st H.
  - rewrite zrange_nil by lia. simpl. rewrite Z.add_0_r. destruct st; reflexivity.
  - rewrite zrange_cons by lia.
    replace (a + Z.of_nat (S m)) with ((a + 1) + Z.of_nat m) by lia.
    cbn [fold_left].
    rewrite scanStep_linked by (apply H; lia).
    rewrite IH by (intros i Hi; apply H; lia). cbn. f_equal. lia.
Qed.

Section Requests.

(** [P] selects requests, [Q] the indices along the line at which a request
    is selected. *)
Variables (P : SpecialRequest -> bool) (Q : Z -> bool).
Hypothesis HPQ : forall idx sp ty,
  sp = stripe \/ sp = wrapped ->
  P (mkRequest (row (at_ idx)) (col (at_ idx)) sp ty) = Q idx.

Lemma filter_spawnOf (start len : Z) :
  filter P (spawnOf line at_ stripe start len) =
  if Q (start + len / 2) then spawnOf line at_ stripe start len else [].
Proof.
  unfold spawnOf.
  destruct (3 <=? len); [| destruct (Q _); reflexivity].
  destruct (len =? 4); [simpl; rewrite HPQ by auto; destruct (Q _); reflexivity |].
  destruct (5 <=? len); [simpl; rewrite HPQ by auto; destruct (Q _); reflexivity |].
  destruct (Q _); reflexivity.
Qed.

(** Runs that start at [lo] or later push no request at an index below [lo]. *)
Lemma scan_quiet_from (lo : Z) (l : list Z) :
  forall st : MatchDetector.Scan,
    (forall idx, lo <= idx -> Q idx = false) ->
    (forall i, In i l -> lo <= i) ->
    lo <= MatchDetector.matchStart st -> 0 <= MatchDetector.matchLength st ->
    filter P (MatchDetector.specialCandies (fold_left step l st)) =
    filter P (MatchDetector.specialCandies st).
Proof.
  induction l as [| i rest IH]; intros st HQ Hl Hs Hlen; [reflexivity |].
  simpl. destruct (linkedAt n line i) eqn:E.
  - rewrite scanStep_linked by assumption.
    rewrite IH; simpl; auto; try lia. intros j Hj. apply Hl. right. assumption.
  - destruct (scanStep_break st i E) as [E1 [E2 [E3 _]]].
    rewrite IH; auto.
    + rewrite E3, filter_app, filter_spawnOf.
      rewrite HQ; [apply app_nil_r |].
      assert (0 <= MatchDetector.matchLength st / 2) by (apply Z.div_pos; lia). lia.
    + intros j Hj. apply Hl. right. assumption.
    + rewrite E1. apply Hl. left. reflexivity.
    + rewrite E2. lia.
Qed.

(** Runs that end before [a + m] push no request at [a + m] or later. *)
Lemma scan_quiet_until (m : nat) :
  forall (a : Z) (st : MatchDetector.Scan),
    MatchDetector.matchStart st + MatchDetector.matchLength st = a ->
    1 <= MatchDetector.matchLength st ->
    (forall idx, idx < a + Z.of_nat m -> Q idx = false) ->
    filter P (MatchDetector.specialCandies (fold_left step (zrange a (a + Z.of_nat m)) st))
      = filter P (MatchDetector.specialCandies st)
    /\ MatchDetector.matchStart (fold_left step (zrange a (a + Z.of_nat m)) st)
       + MatchDetector.matchLength (fold_left step (zrange a (a + Z.of_nat m)) st)
       = a + Z.of_nat m
    /\ 1 <= MatchDetector.matchLength (fold_left step (zrange a (a + Z.of_nat m)) st).
Proof.
  induction m as [| m IH]; intros a st Hinv Hlen HQ.
  - rewrite zrange_nil by lia. simpl. repeat split; lia.
  - rewrite zrange_cons by lia.
    replace (a + Z.of_nat (S m)) with ((a + 1) + Z.of_nat m) in * by lia.
    cbn [fold_left].
    destruct (linkedAt n line a) eqn:E.
    + rewrite scanStep_linked by assumption.
      match goal with |- context [fold_left step _ ?s] => set (st1 := s) end.
      destruct (IH (a + 1) st1) as [F1 [F2 F3]]; subst st1; cbn; try lia; auto.
    + destruct (scanStep_break st a E) as [E1 [E2 [E3 _]]].
      destruct (IH (a + 1) (step st a)) as [F1 [F2 F3]]; try lia; auto.
      repeat split; try assumption.
      rewrite F1, E3, filter_app, filter_spawnOf.
      rewrite HQ; [apply app_nil_r |].
      assert (MatchDetector.matchLength st / 2 < MatchDetector.matchLength st)
        by (apply Z.div_lt; lia).
      lia.
Qed.

(** A line on which no request is selected. *)
Lemma scanLine_quiet (acc : PosSet * list SpecialRequest) :
  (forall idx, Q idx = false) ->
  filter P (snd (MatchDetector.scanLine n line at_ stripe acc)) = filter P (snd acc).
Proof.
  intros HQ. unfold MatchDetector.scanLine. cbn [snd].
  fold step. rewrite (scan_quiet_from 0); cbn; auto; try lia.
  intros i Hi. apply zrange_In in Hi. lia.
Qed.

End Requests.

Lemma maximalRun_spec (s len : Z) (k : TileType) :
  maximalRun n line s len k = true ->
  0 <= s /\ 1 <= len /\ s + len <= n
  /\ (forall i, s <= i < s + len -> hasKind (line i) k = true)
  /\ (0 < s -> hasKind (line (s - 1)) k = false)
  /\ (s + len < n -> hasKind (line (s + len)) k = false).
Proof.
  unfold maximalRun. rewrite !andb_true_iff, !negb_true_iff, !andb_false_iff.
  rewrite forallb_forall.
  intros [[[[[H1 H2] H3] H4] H5] H6].
  repeat split; try lia.
  - intros i Hi. apply H4. apply zrange_In. assumption.
  - intros Hs. destruct H5 as [H5 | H5]; [lia | assumption].
  - intros Hs. destruct H6 as [H6 | H6]; [lia | assumption].
Qed.

Lemma linkedAt_both (i : Z) (k : TileType) :
  i < n -> hasKind (line i) k = true -> hasKind (line (i - 1)) k = true ->
  linkedAt n line i = true.
Proof.
  intros Hi H1 H2. apply hasKind_spec in H1, H2.
  destruct H1 as [T1 K1], H2 as [T2 K2].
  unfold linkedAt. rewrite T1, T2, K1, K2.
  replace (i <? n) with true by (symmetry; apply Z.ltb_lt; assumption).
  simpl. apply typeEqb_eq. reflexivity.
Qed.

Lemma linkedAt_kind_l (i : Z) (k : TileType) :
  linkedAt n line i = true -> hasKind (line i) k = true ->
  hasKind (line (i - 1)) k = true.
Proof.
  unfold linkedAt. rewrite !andb_true_iff, typeEqb_eq.
  intros [[[_ T1] T2] E] H. apply hasKind_spec in H. apply hasKind_spec.
  split; [assumption | ]. destruct H as [_ H]. congruence.
Qed.

Lemma linkedAt_kind_r (i : Z) (k : TileType) :
  linkedAt n line i = true -> hasKind (line (i - 1)) k = true ->
  hasKind (line i) k = true.
Proof.
  unfold linkedAt. rewrite !andb_true_iff, typeEqb_eq.
  intros [[[_ T1] T2] E] H. apply hasKind_spec in H. apply hasKind_spec.
  split; [assumption | ]. destruct H as [_ H]. congruence.
Qed.

Lemma linkedAt_inside (i : Z) : linkedAt n line i = true -> i < n.
Proof.
  unfold linkedAt. rewrite !andb_true_iff. intros [[[H _] _] _].
  apply Z.ltb_lt. assumption.
Qed.

(** The requests that the scan of a line leaves on a maximal run of three or
    more cells are those of the run itself. *)
Lemma scanLine_run (P : SpecialRequest -> bool) (s len : Z) (k : TileType)
    (acc : PosSet * list SpecialRequest) :
  (forall idx sp ty,
     sp = stripe \/ sp = wrapped ->
     P (mkRequest (row (at_ idx)) (col (at_ idx)) sp ty)
     = (s <=? idx) && (idx <? s + len)) ->
  maximalRun n line s len k = true -> 3 <= len ->
  filter P (snd (MatchDetector.scanLine n line at_ stripe acc))
  = filter P (snd acc) ++ spawnOf line at_ stripe s len.
Proof.
  intros HPQ Hrun Hlen.
  destruct (maximalRun_spec s len k Hrun) as [Hs [_ [He [Hin [Hleft Hright]]]]].
  set (Q := fun idx => (s <=? idx) && (idx <? s + len)).
  assert (Hbreak_e : linkedAt n line (s + len) = false).
  { destruct (linkedAt n line (s + len)) eqn:E; [| reflexivity].
    pose proof (linkedAt_inside _ E) as Hlt.
    assert (Hk : hasKind (line (s + len - 1)) k = true) by (apply Hin; lia).
    rewrite (linkedAt_kind_r _ k E Hk) in Hright.
    specialize (Hright Hlt). discriminate. }
  assert (Hlinked : forall i, s + 1 <= i < s + 1 + Z.of_nat (Z.to_nat (len - 1)) ->
                              linkedAt n line i = true).
  { intros i Hi. apply linkedAt_both with (k := k); try lia; apply Hin; lia. }
  (* the state when the run starts *)
  assert (Hstart : exists st,
            fold_left step (zrange 1 (n + 1)) (MatchDetector.mkScan 0 1 (fst acc) (snd acc))
            = fold_left step (zrange (s + 1) (n + 1)) st
            /\ MatchDetector.matchStart st = s /\ MatchDetector.matchLength st = 1
            /\ filter P (MatchDetector.specialCandies st) = filter P (snd acc)).
  { destruct (Z.eq_dec s 0) as [-> | Hs0].
    - eexists. split; [reflexivity |]. cbn. auto.
    - assert (Hbreak_s : linkedAt n line s = false).
      { destruct (linkedAt n line s) eqn:E; [| reflexivity].
        assert (Hk : hasKind (line s) k = true) by (apply Hin; lia).
        rewrite (linkedAt_kind_l _ k E Hk) in Hleft.
        assert (0 < s) by lia. specialize (Hleft H). discriminate. }
      rewrite (zrange_app 1 s (n + 1)) by lia.
      rewrite (zrange_cons s (n + 1)) by lia.
      rewrite fold_left_app. cbn [fold_left].
      destruct (scan_quiet_until P Q HPQ (Z.to_nat (s - 1)) 1
                  (MatchDetector.mkScan 0 1 (fst acc) (snd acc)))
        as [F1 [F2 F3]];
        cbn [MatchDetector.matchStart MatchDetector.matchLength
             MatchDetector.specialCandies] in *; try lia.
      { intros idx Hidx. unfold Q. zbool. }
      replace (1 + Z.of_nat (Z.to_nat (s - 1))) with s in * by lia.
      set (st1 := fold_left step (zrange 1 s) _) in *.
      destruct (scanStep_break st1 s Hbreak_s) as [E1 [E2 [E3 _]]].
      exists (step st1 s). repeat split; auto.
      rewrite E3, filter_app, (filter_spawnOf P Q HPQ), F1.
      replace (Q _) with false; [apply app_nil_r |].
      assert (MatchDetector.matchLength st1 / 2 < MatchDetector.matchLength st1)
        by (apply Z.div_lt; lia).
      unfold Q. zbool. }
  destruct Hstart as [st [Hfold [Hst1 [Hst2 Hst3]]]].
  unfold MatchDetector.scanLine. cbn [snd]. fold step. rewrite Hfold.
  rewrite (zrange_app (s + 1) (s + len) (n + 1)) by lia.
  rewrite (zrange_cons (s + len) (n + 1)) by lia.
  rewrite fold_left_app. cbn [fold_left].
  replace (s + len) with (s + 1 + Z.of_nat (Z.to_nat (len - 1))) at 2 by lia.
  rewrite scan_linked_run by assumption.
  rewrite Hst1, Hst2.
  replace (1 + Z.of_nat (Z.to_nat (len - 1))) with len by lia.
  set (st2 := MatchDetector.mkScan s len _ _).
  destruct (scanStep_break st2 (s + len) Hbreak_e) as [E1 [E2 [E3 _]]].
  rewrite (scan_quiet_from P Q HPQ (s + len)).
  - rewrite E3. subst st2. cbn. rewrite filter_app, Hst3, (filter_spawnOf P Q HPQ).
    replace (Q (s + len / 2)) with true; [reflexivity |].
    assert (0 <= len / 2) by (apply Z.div_pos; lia).
    assert (len / 2 < len) by (apply Z.div_lt; lia).
    unfold Q. zbool.
  - intros idx Hidx. unfold Q. zbool.
  - intros i Hi. apply zrange_In in Hi. lia.
  - lia.
  - lia.
Qed.

End ScanLine.

(** ** The scans of all rows and of all columns *)

Section ScanLines.

(** [lineOf j] is the j-th scanned line and [atOf j] gives the positions of
    its cells. *)
Variables (n : Z) (lineOf : Z -> Z -> Cell) (atOf : Z -> Z -> Pos)
          (stripe : Special).

Let scanAll (js : list Z) (acc : PosSet * list SpecialRequest) :=
  fold_left (fun a j => MatchDetector.scanLine n (lineOf j) (atOf j) stripe a) js acc.

Variables (P : SpecialRequest -> bool) (j0 s len : Z) (k : TileType).

Hypothesis P_other : forall j idx sp ty,
  j <> j0 -> sp = stripe \/ sp = wrapped ->
  P (mkRequest (row (atOf j idx)) (col (atOf j idx)) sp ty) = false.
Hypothesis P_same : forall idx sp ty,
  sp = stripe \/ sp = wrapped ->
  P (mkRequest (row (atOf j0 idx)) (col (atOf j0 idx)) sp ty)
  = (s <=? idx) && (idx <? s + len).

Lemma scanAll_quiet (js : list Z) :
  forall acc, (forall j, In j js -> j <> j0) ->
              filter P (snd (scanAll js acc)) = filter P (snd acc).
Proof.
  induction js as [| j rest IH]; intros acc Hjs; [reflexivity |].
  unfold scanAll in *. cbn [fold_left].
  rewrite IH by (intros j' Hj'; apply Hjs; right; assumption).
  apply scanLine_quiet with (Q := fun _ => false); [| reflexivity].
  intros idx sp ty Hsp. apply P_other; [| exact Hsp]. apply Hjs. left. reflexivity.
Qed.

Lemma scanAll_run (acc : PosSet * list SpecialRequest) :
  0 <= j0 < n -> maximalRun n (lineOf j0) s len k = true -> 3 <= len ->
  filter P (snd (scanAll (zrange 0 n) acc))
  = filter P (snd acc) ++ spawnOf (lineOf j0) (atOf j0) stripe s len.
Proof.
  intros Hj Hrun Hlen.
  rewrite (zrange_app 0 j0 n) by lia. rewrite (zrange_cons j0 n) by lia.
  unfold scanAll. rewrite fold_left_app. cbn [fold_left].
  fold (scanAll (zrange 0 j0) acc).
  match goal with
  | |- context [fold_left ?f (zrange (j0 + 1) n) ?a] =>
      change (fold_left f (zrange (j0 + 1) n) a) with (scanAll (zrange (j0 + 1) n) a)
  end.
  rewrite scanAll_quiet by (intros j Hin; apply zrange_In in Hin; lia).
  rewrite (scanLine_run n (lineOf j0) (atOf j0) stripe P s len k) by assumption.
  rewrite scanAll_quiet by (intros j Hin; apply zrange_In in Hin; lia).
  reflexivity.
Qed.

End ScanLines.

Lemma spawnOf_kind (line : Z -> Cell) (at_ : Z -> Pos) (stripe : Special)
    (n s len : Z) (k : TileType) :
  maximalRun n line s len k = true ->
  MatchDetector.getTileType (line s) = k.
Proof.
  intros H. destruct (maximalRun_spec n line s len k H) as [_ [Hl [_ [Hin _]]]].
  assert (Hk : hasKind (line s) k = true) by (apply Hin; lia).
  apply hasKind_spec in Hk. tauto.
Qed.

Lemma filter_andb {A : Type} (f g : A -> bool) (l : list A) :
  filter (fun x => f x && g x) l = filter g (filter f l).
Proof.
  induction l as [| x rest IH]; [reflexivity |].
  simpl. destruct (f x); simpl; [destruct (g x) |]; rewrite IH; reflexivity.
Qed.

Lemma filter_none {A : Type} (f : A -> bool) (l : list A) :
  (forall x, In x l -> f x = false) -> filter f l = [].
Proof.
  induction l as [| x rest IH]; intros H; [reflexivity |].
  simpl. rewrite (H x (or_introl eq_refl)). apply IH.
  intros y Hy. apply H. right. assumption.
Qed.

(** The L/T detection requests wrapped specials only. *)
Lemma findLTShapes_wrapped (g : Board) (matched : PosSet) :
  forall q, In q (MatchDetector.findLTShapes g matched) -> reqType q = wrapped.
Proof.
  unfold MatchDetector.findLTShapes.
  apply (fold_left_preserves
           (fun st : list SpecialRequest * PosSet =>
              forall q, In q (fst st) -> reqType q = wrapped)).
  - intros [sp ch] p H. destruct (setHas ch p); [exact H |].
    destruct (negb _); [exact H |]. destruct (_ && _); [| exact H].
    cbn [fst] in *. intros q Hq. apply in_app_iff in Hq.
    destruct Hq as [Hq | [<- | []]]; [apply H; assumption | reflexivity].
  - intros q [].
Qed.

(** A scan pushes no request of the stripe of the other scan. *)
Lemma scan_other_stripe (n : Z) (lineOf : Z -> Z -> Cell) (atOf : Z -> Z -> Pos)
    (stripe other : Special) (P : SpecialRequest -> bool)
    (acc : PosSet * list SpecialRequest) :
  other <> stripe -> other <> wrapped ->
  (forall q, P q = true -> reqType q = other) ->
  filter P (snd (fold_left
              (fun a j => MatchDetector.scanLine n (lineOf j) (atOf j) stripe a)
              (zrange 0 n) acc))
  = filter P (snd acc).
Proof.
  intros H1 H2 HP.
  apply (scanAll_quiet n lineOf atOf stripe P (-1)).
  - intros j idx sp ty _ Hsp.
    destruct (P (mkRequest (row (atOf j idx)) (col (atOf j idx)) sp ty)) eqn:E;
      [| reflexivity].
    apply HP in E. cbn in E. destruct Hsp; congruence.
  - intros j Hj. apply zrange_In in Hj. lia.
Qed.

(** What either scan leaves on the cells of a maximal run of three or more,
    whatever was collected before: the requests already there, then the
    request of the run, which carries the type of the run. *)
Lemma scanRows_run (g : Board) (acc : PosSet * list SpecialRequest)
    (j s len : Z) (k : TileType) :
  3 <= len -> horizontalRun g j s len k = true ->
  filter (inRowSpan j s len) (snd (MatchDetector.scanRows g acc))
  = filter (inRowSpan j s len) (snd acc)
    ++ spawnOf (fun c => cellAt g j c) (fun c => mkPos j c) striped_h s len
  /\ MatchDetector.getTileType (cellAt g j s) = k.
Proof.
  intros Hlen H. unfold horizontalRun in H.
  rewrite !andb_true_iff in H. destruct H as [[H1 H2] H3].
  apply Z.leb_le in H1. apply Z.ltb_lt in H2. split.
  - unfold MatchDetector.scanRows.
    apply (scanAll_run (gridSize g) (fun r c => cellAt g r c) (fun r c => mkPos r c)
             striped_h (inRowSpan j s len) j s len k); auto.
    + intros j' idx sp ty Hne _. unfold inRowSpan. cbn. zbool.
    + intros idx sp ty _. unfold inRowSpan. cbn. zbool.
  - exact (spawnOf_kind _ (fun c => mkPos j c) striped_h _ _ _ _ H3).
Qed.

Lemma scanCols_run (g : Board) (acc : PosSet * list SpecialRequest)
    (j s len : Z) (k : TileType) :
  3 <= len -> verticalRun g j s len k = true ->
  filter (inColSpan j s len) (snd (MatchDetector.scanCols g acc))
  = filter (inColSpan j s len) (snd acc)
    ++ spawnOf (fun r => cellAt g r j) (fun r => mkPos r j) striped_v s len
  /\ MatchDetector.getTileType (cellAt g s j) = k.
Proof.
  intros Hlen H. unfold verticalRun in H.
  rewrite !andb_true_iff in H. destruct H as [[H1 H2] H3].
  apply Z.leb_le in H1. apply Z.ltb_lt in H2. split.
  - unfold MatchDetector.scanCols.
    apply (scanAll_run (gridSize g) (fun c r => cellAt g r c) (fun c r => mkPos r c)
             striped_v (inColSpan j s len) j s len k); auto.
    + intros j' idx sp ty Hne _. unfold inColSpan. cbn. zbool.
    + intros idx sp ty _. unfold inColSpan. cbn. zbool.
  - exact (spawnOf_kind _ (fun r => mkPos r j) striped_v _ _ _ _ H3).
Qed.

(** ** Every request targets a matched position *)

Lemma fold_setAdd_In (l : list Pos) :
  forall (s : PosSet) (p : Pos),
    In p (fold_left setAdd l s) <-> In p s \/ In p l.
Proof.
  induction l as [| x rest IH]; intros s p; simpl.
  - tauto.
  - rewrite IH, setAdd_In. intuition.
Qed.

Lemma fold_setAdd_map_In {A : Type} (f : A -> Pos) (l : list A) :
  forall (s : PosSet) (p : Pos),
    In p (fold_left (fun s k => setAdd s (f k)) l s) <-> In p s \/ In p (map f l).
Proof.
  induction l as [| x rest IH]; intros s p; simpl.
  - tauto.
  - rewrite IH, setAdd_In. intuition.
Qed.

Section ScanInvariant.

Variables (n : Z) (line : Z -> Cell) (at_ : Z -> Pos) (stripe : Special).

Lemma spawnOf_In (start len : Z) (q : SpecialRequest) :
  In q (spawnOf line at_ stripe start len) ->
  3 <= len /\ reqPos q = at_ (start + len / 2).
Proof.
  unfold spawnOf. destruct (3 <=? len) eqn:E; [| intros []].
  apply Z.leb_le in E.
  destruct (len =? 4); [| destruct (5 <=? len)]; simpl; intros H;
    try contradiction; destruct H as [<- | []];
    (split; [assumption | apply pos_eta]).
Qed.

Lemma scanStep_requestsMatched (st : MatchDetector.Scan) (i : Z) :
  requestsMatched (MatchDetector.matchedPositions st) (MatchDetector.specialCandies st) ->
  requestsMatched
    (MatchDetector.matchedPositions (MatchDetector.scanStep n line at_ stripe st i))
    (MatchDetector.specialCandies (MatchDetector.scanStep n line at_ stripe st i)).
Proof.
  intros Hinv. destruct (linkedAt n line i) eqn:E.
  - rewrite scanStep_linked by assumption. exact Hinv.
  - destruct (scanStep_break n line at_ stripe st i E) as [_ [_ [E3 E4]]].
    rewrite E3, E4. intros q Hq. apply in_app_iff in Hq. destruct Hq as [Hq | Hq].
    + specialize (Hinv q Hq).
      destruct (3 <=? MatchDetector.matchLength st); [| assumption].
      apply fold_setAdd_map_In. left. assumption.
    + apply spawnOf_In in Hq. destruct Hq as [Hlen Hpos].
      replace (3 <=? MatchDetector.matchLength st) with true
        by (symmetry; apply Z.leb_le; assumption).
      apply fold_setAdd_map_In. right. rewrite Hpos. apply in_map.
      apply zrange_In.
      assert (0 <= MatchDetector.matchLength st / 2) by (apply Z.div_pos; lia).
      assert (MatchDetector.matchLength st / 2 < MatchDetector.matchLength st)
        by (apply Z.div_lt; lia).
      lia.
Qed.

Lemma scanLine_requestsMatched (acc : PosSet * list SpecialRequest) :
  requestsMatched (fst acc) (snd acc) ->
  requestsMatched (fst (MatchDetector.scanLine n line at_ stripe acc))
                  (snd (MatchDetector.scanLine n line at_ stripe acc)).
Proof.
  intros H. unfold MatchDetector.scanLine. cbn [fst snd].
  assert (Hgen : forall l st,
            requestsMatched (MatchDetector.matchedPositions st)
                            (MatchDetector.specialCandies st) ->
            requestsMatched
              (MatchDetector.matchedPositions
                 (fold_left (MatchDetector.scanStep n line at_ stripe) l st))
              (MatchDetector.specialCandies
                 (fold_left (MatchDetector.scanStep n line at_ stripe) l st))).
  { induction l as [| i rest IH]; intros st Hst; [exact Hst |].
    cbn [fold_left]. apply IH. apply scanStep_requestsMatched. assumption. }
  apply Hgen. exact H.
Qed.

End ScanInvariant.

Lemma scanRows_requestsMatched (g : Board) (acc : PosSet * list SpecialRequest) :
  requestsMatched (fst acc) (snd acc) ->
  requestsMatched (fst (MatchDetector.scanRows g acc)) (snd (MatchDetector.scanRows g acc)).
Proof.
  unfold MatchDetector.scanRows. generalize (zrange 0 (gridSize g)) as rows.
  intros rows. revert acc. induction rows as [| r rest IH]; intros acc H; [exact H |].
  cbn [fold_left]. apply IH. apply scanLine_requestsMatched. assumption.
Qed.

Lemma scanCols_requestsMatched (g : Board) (acc : PosSet * list SpecialRequest) :
  requestsMatched (fst acc) (snd acc) ->
  requestsMatched (fst (MatchDetector.scanCols g acc)) (snd (MatchDetector.scanCols g acc)).
Proof.
  unfold MatchDetector.scanCols. generalize (zrange 0 (gridSize g)) as cols.
  intros cols. revert acc. induction cols as [| c rest IH]; intros acc H; [exact H |].
  cbn [fold_left]. apply IH. apply scanLine_requestsMatched. assumption.
Qed.

Lemma findLTShapes_requestsMatched (g : Board) (matched : PosSet) :
  requestsMatched matched (MatchDetector.findLTShapes g matched).
Proof.
  unfold MatchDetector.findLTShapes.
  assert (Hgen : forall (l : list Pos) (st : list SpecialRequest * PosSet),
            (forall p, In p l -> In p matched) ->
            requestsMatched matched (fst st) ->
            requestsMatched matched (fst (fold_left
              (fun (st : list SpecialRequest * PosSet) (pos : Pos) =>
                 let '(specials, checked) := st in
                 if setHas checked pos then st
                 else
                   let ty := MatchDetector.getTileType (cellAt g (row pos) (col pos)) in
                   if negb (MatchDetector.truthyType ty) then st
                   else if (3 <=? MatchDetector.hCountAt g (row pos) (col pos) ty)
                           && (3 <=? MatchDetector.vCountAt g (row pos) (col pos) ty)
                   then (specials ++ [mkRequest (row pos) (col pos) wrapped ty],
                         setAdd checked pos)
                   else st) l st))).
  { induction l as [| p rest IH]; intros [sp ch] Hl Hst; [exact Hst |].
    cbn [fold_left]. apply IH; [intros q Hq; apply Hl; right; assumption |].
    destruct (setHas ch p); [exact Hst |].
    destruct (negb _); [exact Hst |].
    destruct (_ && _); [| exact Hst].
    cbn [fst] in *. intros q Hq. apply in_app_iff in Hq.
    destruct Hq as [Hq | [<- | []]]; [apply Hst; assumption |].
    unfold reqPos; cbn. rewrite pos_eta. apply Hl. left. reflexivity. }
  apply Hgen; [auto | intros q []].
Qed.

Lemma deduplicatePositions_In (l : list Pos) (p : Pos) :
  In p (Game.deduplicatePositions l) <-> In p l.
Proof.
  unfold Game.deduplicatePositions.
  assert (Hgen : forall (l : list Pos) (st : list Pos * PosSet),
            (forall q, In q (fst st) <-> In q (snd st)) ->
            (forall q, In q (fst (fold_left
               (fun (st : list Pos * PosSet) (pos : Pos) =>
                  if setHas (snd st) pos then st
                  else (fst st ++ [pos], setAdd (snd st) pos)) l st))
               <-> In q (fst st) \/ In q l)).
  { clear l p. induction l as [| x rest IH]; intros st Hst q; cbn [fold_left].
    - simpl. tauto.
    - rewrite IH.
      + destruct (setHas (snd st) x) eqn:E; simpl.
        * apply setHas_In in E. apply Hst in E.
          split; [tauto | intros [H | [<- | H]]; auto].
        * rewrite in_app_iff. simpl. tauto.
      + intros q'. destruct (setHas (snd st) x) eqn:E; [apply Hst |].
        simpl. rewrite in_app_iff, setAdd_In, Hst. simpl. intuition. }
  rewrite Hgen by (intros q; simpl; tauto). simpl. tauto.
Qed.

Lemma fold_append_In {A : Type} (f : A -> list Pos) (l : list A) :
  forall (init : list Pos) (p : Pos),
    In p init -> In p (fold_left (fun all x => all ++ f x) l init).
Proof.
  induction l as [| x rest IH]; intros init p H; simpl; [assumption |].
  apply IH. apply in_app_iff. left. assumption.
Qed.

(** C2. Every request that [findAllMatches] returns, from the runs or from
    the L/T detection, targets a position of the match set returned by the
    same call.  So in a pass of the cascade loop, whose clear set is the
    match set extended by the clear positions of the activated specials, the
    guard of the creation of a special ([!clearedKeys.has(...)]) is false for
    every request: no special is created. *)
Theorem requests_target_matched_positions (g : Board) :
  Forall (fun q => In (reqPos q) (MatchDetector.matches (MatchDetector.findAllMatches g)))
         (MatchDetector.specials (MatchDetector.findAllMatches g))
  /\
  forall (specialsToActivate : list (Pos * Special)) (d : Board),
    let allMatches :=
      fold_left (fun all sp =>
                   all ++ MatchDetector.getSpecialClearPositions d (fst sp) (snd sp))
                specialsToActivate
                (MatchDetector.matches (MatchDetector.findAllMatches g)) in
    let clearedKeys := fold_left setAdd (Game.deduplicatePositions allMatches) [] in
    Forall (fun q => negb (setHas clearedKeys (reqPos q)) = false)
           (MatchDetector.specials (MatchDetector.findAllMatches g)).
Proof.
  assert (H : requestsMatched (MatchDetector.matches (MatchDetector.findAllMatches g))
                              (MatchDetector.specials (MatchDetector.findAllMatches g))).
  { unfold MatchDetector.findAllMatches.
    pose proof (scanCols_requestsMatched g (MatchDetector.scanRows g ([], []))
                  (scanRows_requestsMatched g ([], []) (fun q (F : In q []) => match F with end)))
      as Hscan.
    destruct (MatchDetector.scanCols g (MatchDetector.scanRows g ([], [])))
      as [matched candies]. cbn [fst snd] in Hscan. cbn.
    intros q Hq. apply in_app_iff in Hq. destruct Hq as [Hq | Hq].
    - apply Hscan. assumption.
    - apply (findLTShapes_requestsMatched g matched). assumption. }
  split.
  - apply Forall_forall. exact H.
  - intros toActivate d allMatches clearedKeys. apply Forall_forall. intros q Hq.
    apply negb_false_iff. apply setHas_In.
    unfold clearedKeys. apply fold_setAdd_In. right.
    apply deduplicatePositions_In. unfold allMatches.
    apply fold_append_In. apply H. assumption.
Qed.

(** ** Boards on which every cell passes the backward check *)

Section ScanNoThree.

Variables (n : Z) (line : Z -> Cell) (at_ : Z -> Pos) (stripe : Special).

Hypothesis no_three : forall i,
  2 <= i -> linkedAt n line i = true -> linkedAt n line (i - 1) = true -> False.

Lemma scan_no_three (m : nat) :
  forall (a : Z) (st : MatchDetector.Scan),
    1 <= a ->
    MatchDetector.matchLength st = 1
    \/ (MatchDetector.matchLength st = 2 /\ 2 <= a /\ linkedAt n line (a - 1) = true) ->
    MatchDetector.matchedPositions
      (fold_left (MatchDetector.scanStep n line at_ stripe) (zrange a (a + Z.of_nat m)) st)
    = MatchDetector.matchedPositions st
    /\ MatchDetector.specialCandies
         (fold_left (MatchDetector.scanStep n line at_ stripe) (zrange a (a + Z.of_nat m)) st)
       = MatchDetector.specialCandies st.
Proof.
  induction m as [| m IH]; intros a st Ha Hst.
  - rewrite zrange_nil by lia. simpl. auto.
  - rewrite zrange_cons by lia.
    replace (a + Z.of_nat (S m)) with ((a + 1) + Z.of_nat m) by lia.
    cbn [fold_left].
    destruct (linkedAt n line a) eqn:E.
    + rewrite scanStep_linked by assumption.
      match goal with |- context [fold_left _ _ ?s] => set (st1 := s) end.
      destruct (IH (a + 1) st1) as [F1 F2]; subst st1; cbn; try lia; auto.
      destruct Hst as [Hst | [Hst [Ha2 Hl]]].
      * right. rewrite Hst. replace (a + 1 - 1) with a by lia.
        repeat split; try lia. assumption.
      * exfalso. apply (no_three a); assumption.
    + destruct (scanStep_break n line at_ stripe st a E) as [E1 [E2 [E3 E4]]].
      destruct (IH (a + 1) (MatchDetector.scanStep n line at_ stripe st a))
        as [F1 F2]; try lia; auto.
      rewrite F1, F2, E3, E4. unfold spawnOf.
      replace (3 <=? MatchDetector.matchLength st) with false
        by (symmetry; apply Z.leb_gt; lia).
      rewrite app_nil_r. auto.
Qed.

Lemma scanLine_no_three (acc : PosSet * list SpecialRequest) :
  MatchDetector.scanLine n line at_ stripe acc = acc.
Proof.
  unfold MatchDetector.scanLine.
  destruct (Z_le_gt_dec 1 (n + 1)) as [Hn | Hn].
  - replace (n + 1) with (1 + Z.of_nat (Z.to_nat n)) by lia.
    destruct (scan_no_three (Z.to_nat n) 1 (MatchDetector.mkScan 0 1 (fst acc) (snd acc)))
      as [F1 F2]; [lia | left; reflexivity |].
    rewrite F1, F2. cbn. destruct acc; reflexivity.
  - rewrite zrange_nil by lia. cbn. destruct acc; reflexivity.
Qed.

End ScanNoThree.

Lemma linkedAt_types (n : Z) (line : Z -> Cell) (i : Z) :
  linkedAt n line i = true ->
  i < n /\ MatchDetector.getTileType (line (i - 1)) = MatchDetector.getTileType (line i).
Proof.
  unfold linkedAt. rewrite !andb_true_iff, typeEqb_eq, Z.ltb_lt.
  intros [[[H _] _] E]. split; [assumption | congruence].
Qed.

Lemma typeEqb_refl (a : TileType) : MatchDetector.typeEqb a a = true.
Proof. apply typeEqb_eq. reflexivity. Qed.

(** Placing each type so that it never equals both of its two left
    neighbours nor both of its two upper neighbours excludes every run of
    three. *)
Lemma passesBackwardCheck_no_matches (g : Board) :
  passesBackwardCheck g ->
  MatchDetector.findAllMatches g = MatchDetector.mkResult [] [].
Proof.
  intros Hg.
  assert (Hrows : forall acc, MatchDetector.scanRows g acc = acc).
  { intros acc. unfold MatchDetector.scanRows.
    assert (Hgen : forall rows, (forall r, In r rows -> 0 <= r < gridSize g) ->
              forall a,
              fold_left (fun a r => MatchDetector.scanLine (gridSize g)
                           (fun c => cellAt g r c) (fun c => mkPos r c) striped_h a)
                        rows a = a).
    { induction rows as [| r rest IH]; intros Hr a; [reflexivity |].
      cbn [fold_left]. rewrite scanLine_no_three.
      - apply IH. intros r' Hr'. apply Hr. right. assumption.
      - intros i Hi L1 L2.
        apply linkedAt_types in L1, L2. destruct L1 as [Hin E1], L2 as [_ E2].
        assert (Hi0 : 0 <= i < gridSize g) by lia.
        assert (Hp := Hg r i (Hr r (or_introl eq_refl)) Hi0).
        unfold passesAt, backwardMatch in Hp. cbn [row col] in Hp.
        replace (i - 1 - 1) with (i - 2) in E2 by lia.
        rewrite E2, E1 in Hp. rewrite !typeEqb_refl in Hp.
        replace (2 <=? i) with true in Hp by (symmetry; apply Z.leb_le; lia).
        discriminate. }
    apply Hgen. intros r Hr. apply zrange_In in Hr. assumption. }
  assert (Hcols : forall acc, MatchDetector.scanCols g acc = acc).
  { intros acc. unfold MatchDetector.scanCols.
    assert (Hgen : forall cols, (forall c, In c cols -> 0 <= c < gridSize g) ->
              forall a,
              fold_left (fun a c => MatchDetector.scanLine (gridSize g)
                           (fun r => cellAt g r c) (fun r => mkPos r c) striped_v a)
                        cols a = a).
    { induction cols as [| c rest IH]; intros Hc a; [reflexivity |].
      cbn [fold_left]. rewrite scanLine_no_three.
      - apply IH. intros c' Hc'. apply Hc. right. assumption.
      - intros i Hi L1 L2.
        apply linkedAt_types in L1, L2. destruct L1 as [Hin E1], L2 as [_ E2].
        assert (Hi0 : 0 <= i < gridSize g) by lia.
        assert (Hp := Hg i c Hi0 (Hc c (or_introl eq_refl))).
        unfold passesAt, backwardMatch in Hp. cbn [row col] in Hp.
        replace (i - 1 - 1) with (i - 2) in E2 by lia.
        rewrite E2, E1 in Hp. rewrite !typeEqb_refl in Hp.
        replace (2 <=? i) with true in Hp by (symmetry; apply Z.leb_le; lia).
        rewrite orb_true_r in Hp. discriminate. }
    apply Hgen. intros c Hc. apply zrange_In in Hc. assumption. }
  unfold MatchDetector.findAllMatches. rewrite Hrows, Hcols. reflexivity.
Qed.

(** ** Reading and writing the board in the state *)

Arguments cellAt : simpl never.
Arguments setCell : simpl never.
Arguments readCell : simpl never.

Lemma readData_spec (r c : Z) (w : World) :
  readData r c w =
  match nthZ (data w) r with
  | Some _ => Returned (cellAt (data w) r c) w
  | None => Threw w
  end.
Proof.
  unfold readData, readCell, cellAt. destruct (nthZ (data w) r); reflexivity.
Qed.

Lemma readData_inside (r c : Z) (w : World) :
  0 <= r < gridSize (data w) ->
  readData r c w = Returned (cellAt (data w) r c) w.
Proof.
  intros H. rewrite readData_spec.
  destruct (nthZ_inside (data w) r H) as [line ->]. reflexivity.
Qed.

Lemma typeAt_inside (r c : Z) (w : World) :
  0 <= r < gridSize (data w) ->
  Grid.typeAt r c w = Returned (MatchDetector.getTileType (cellAt (data w) r c)) w.
Proof.
  intros H. unfold Grid.typeAt, bind. rewrite readData_inside by assumption.
  reflexivity.
Qed.

(** On a board that has the row [r] (and so the rows above it),
    [wouldCreateInitialMatch] returns the backward test and changes nothing. *)
Lemma wouldCreateInitialMatch_spec (r c : Z) (ty : TileType) (w : World) :
  0 <= r < gridSize (data w) ->
  Grid.wouldCreateInitialMatch r c ty w = Returned (backwardMatch (data w) r c ty) w.
Proof.
  intros Hr. unfold Grid.wouldCreateInitialMatch, backwardMatch, bind, ret.
  destruct (2 <=? c) eqn:Ec; cbn [andb].
  - rewrite typeAt_inside by assumption.
    destruct (MatchDetector.typeEqb (MatchDetector.getTileType (cellAt (data w) r (c - 1))) ty);
      cbn [andb orb].
    + rewrite typeAt_inside by assumption.
      destruct (MatchDetector.typeEqb (MatchDetector.getTileType (cellAt (data w) r (c - 2))) ty);
        cbn [andb orb]; [reflexivity |].
      destruct (2 <=? r) eqn:Er; cbn [andb]; [| reflexivity].
      apply Z.leb_le in Er.
      rewrite typeAt_inside by lia.
      destruct (MatchDetector.typeEqb _ ty); cbn [andb]; [| reflexivity].
      rewrite typeAt_inside by lia. reflexivity.
    + destruct (2 <=? r) eqn:Er; cbn [andb]; [| reflexivity].
      apply Z.leb_le in Er.
      rewrite typeAt_inside by lia.
      destruct (MatchDetector.typeEqb _ ty); cbn [andb]; [| reflexivity].
      rewrite typeAt_inside by lia. reflexivity.
  - cbn [orb]. destruct (2 <=? r) eqn:Er; cbn [andb]; [| reflexivity].
    apply Z.leb_le in Er.
    rewrite typeAt_inside by lia.
    destruct (MatchDetector.typeEqb _ ty); cbn [andb]; [| reflexivity].
    rewrite typeAt_inside by lia. reflexivity.
Qed.

(** Drawing a type changes the number of calls of the random source only. *)
Lemma getRandomType_spec (w : World) :
  exists ty k, Grid.getRandomType w = Returned ty (withRandomCalls w k).
Proof.
  unfold Grid.getRandomType, bind, mathRandom, ret. eauto.
Qed.

Lemma pickType_spec (retries : nat) (r c : Z) :
  forall w, 0 <= r < gridSize (data w) ->
            exists ty k, Grid.pickType retries r c w = Returned ty (withRandomCalls w k).
Proof.
  induction retries as [| m IH]; intros w Hr; cbn [Grid.pickType]; unfold bind.
  - destruct (getRandomType_spec w) as [ty [k ->]]. unfold ret. eauto.
  - destruct (getRandomType_spec w) as [ty [k ->]].
    rewrite wouldCreateInitialMatch_spec by exact Hr.
    destruct (backwardMatch _ r c ty).
    + destruct (IH (withRandomCalls w k) Hr) as [ty' [k' ->]].
      exists ty', k'. reflexivity.
    + unfold ret. eauto.
Qed.

(** ** The initial board *)

Lemma cellsRowMajor_In (n : Z) (p : Pos) :
  In p (Grid.cellsRowMajor n) <-> 0 <= row p < n /\ 0 <= col p < n.
Proof.
  unfold Grid.cellsRowMajor. rewrite in_flat_map. split.
  - intros [r [Hr Hp]]. apply in_map_iff in Hp. destruct Hp as [c [<- Hc]].
    apply zrange_In in Hr, Hc. simpl. lia.
  - intros [Hr Hc]. exists (row p). split; [apply zrange_In; lia |].
    apply in_map_iff. exists (col p). split; [apply pos_eta | apply zrange_In; lia].
Qed.

Lemma StronglySorted_app {A : Type} (R : A -> A -> Prop) (l1 l2 : list A) :
  StronglySorted R l1 -> StronglySorted R l2 ->
  (forall x y, In x l1 -> In y l2 -> R x y) ->
  StronglySorted R (l1 ++ l2).
Proof.
  induction l1 as [| a l1 IH]; intros H1 H2 H; simpl; [assumption |].
  inversion H1 as [| ? ? S1 F1]; subst. constructor.
  - apply IH; auto. intros x y Hx Hy. apply H; [right |]; assumption.
  - apply Forall_app. split; [assumption |].
    apply Forall_forall. intros y Hy. apply H; [left; reflexivity | assumption].
Qed.

Lemma zrange_sorted (m : nat) :
  forall lo, StronglySorted Z.lt (zrange lo (lo + Z.of_nat m)).
Proof.
  induction m as [| m IH]; intros lo.
  - rewrite zrange_nil by lia. constructor.
  - rewrite zrange_cons by lia.
    replace (lo + Z.of_nat (S m)) with ((lo + 1) + Z.of_nat m) by lia.
    constructor; [apply IH |].
    apply Forall_forall. intros y Hy. apply zrange_In in Hy. lia.
Qed.

Lemma cellsRowMajor_sorted (n : Z) : StronglySorted lexLt (Grid.cellsRowMajor n).
Proof.
  unfold Grid.cellsRowMajor.
  assert (Hgen : forall (m : nat) (lo : Z),
            StronglySorted lexLt
              (flat_map (fun r => map (fun c => mkPos r c) (zrange 0 n))
                        (zrange lo (lo + Z.of_nat m)))).
  { induction m as [| m IH]; intros lo.
    - rewrite (zrange_nil lo) by lia. constructor.
    - rewrite (zrange_cons lo) by lia.
      replace (lo + Z.of_nat (S m)) with ((lo + 1) + Z.of_nat m) by lia.
      cbn [flat_map]. apply StronglySorted_app.
      + destruct (Z_le_gt_dec 0 n) as [Hn | Hn].
        * replace n with (0 + Z.of_nat (Z.to_nat n)) by lia.
          generalize (zrange_sorted (Z.to_nat n) 0).
          generalize (zrange 0 (0 + Z.of_nat (Z.to_nat n))) as cols.
          induction cols as [| c cols IHc]; intros Hs; [constructor |].
          inversion Hs as [| ? ? S1 F1]; subst. cbn [map]. constructor; [auto |].
          apply Forall_forall. intros y Hy. apply in_map_iff in Hy.
          destruct Hy as [c' [<- Hc']]. right. simpl. split; [reflexivity |].
          rewrite Forall_forall in F1. apply F1. assumption.
        * rewrite zrange_nil by lia. constructor.
      + apply IH.
      + intros x y Hx Hy. apply in_map_iff in Hx. destruct Hx as [c [<- _]].
        apply in_flat_map in Hy. destruct Hy as [r [Hr Hy]].
        apply in_map_iff in Hy. destruct Hy as [c' [<- _]].
        apply zrange_In in Hr. left. simpl. lia. }
  destruct (Z_le_gt_dec 0 n) as [Hn | Hn].
  - pose proof (Hgen (Z.to_nat n) 0) as H.
    replace (0 + Z.of_nat (Z.to_nat n)) with n in H by lia. exact H.
  - rewrite (zrange_nil 0 n) by lia. constructor.
Qed.

Lemma backwardMatch_frame (g g' : Board) (r c : Z) (ty : TileType) :
  cellAt g' r (c - 1) = cellAt g r (c - 1) ->
  cellAt g' r (c - 2) = cellAt g r (c - 2) ->
  cellAt g' (r - 1) c = cellAt g (r - 1) c ->
  cellAt g' (r - 2) c = cellAt g (r - 2) c ->
  backwardMatch g' r c ty = backwardMatch g r c ty.
Proof.
  intros H1 H2 H3 H4. unfold backwardMatch. rewrite H1, H2, H3, H4. reflexivity.
Qed.

(** A write at a later cell does not change whether an earlier cell passes. *)
Lemma passesAt_frame (g g' : Board) (p q : Pos) (v : Cell) :
  setCell g (row p) (col p) v = Some g' -> lexLt q p ->
  passesAt g q -> passesAt g' q.
Proof.
  intros Hset Hlt Hq. unfold passesAt in *.
  pose proof (cellAt_setCell _ _ _ _ _ Hset) as Hget.
  assert (Hother : forall r c, r <= row q -> (r = row q -> c <= col q) ->
                               cellAt g' r c = cellAt g r c).
  { intros r c Hr Hc. rewrite Hget.
    destruct Hlt as [Hlt | [Hlt1 Hlt2]]; zbool. }
  rewrite (Hother (row q) (col q)) by lia.
  rewrite <- Hq. apply backwardMatch_frame; apply Hother; lia.
Qed.

(** The cell just written passes when its type passed before the write. *)
Lemma passesAt_written (g g' : Board) (p : Pos) (t : Tile) :
  setCell g (row p) (col p) (Some t) = Some g' ->
  backwardMatch g (row p) (col p) (type t) = false ->
  passesAt g' p.
Proof.
  intros Hset Hb. unfold passesAt.
  pose proof (cellAt_setCell _ _ _ _ _ Hset) as Hget.
  rewrite (Hget (row p) (col p)), !Z.eqb_refl. cbn [andb MatchDetector.getTileType].
  rewrite <- Hb. apply backwardMatch_frame; rewrite Hget; zbool.
Qed.

Lemma generate_cells (memoryPositions : list Grid.MemoryPosition) (memoryLookup : PosSet)
    (todo : list Pos) :
  forall (memoryIndex : nat) (w : World) (done : Pos -> Prop),
    (forall p, In p todo -> 0 <= row p < gridSize (data w) /\ 0 <= col p) ->
    StronglySorted lexLt todo ->
    (forall q, done q -> passesAt (data w) q /\ forall p, In p todo -> lexLt q p) ->
    acceptedAll memoryPositions memoryLookup todo memoryIndex w = true ->
    exists index' w',
      foldM (Grid.generateCell memoryPositions memoryLookup) todo memoryIndex w
        = Returned index' w'
      /\ gridSize (data w') = gridSize (data w) /\ size w' = size w
      /\ moves w' = moves w
      /\ forall q, done q \/ In q todo -> passesAt (data w') q.
Proof.
  induction todo as [| p rest IH]; intros idx w done Hin Hsorted Hdone Hacc.
  - cbn. exists idx, w. repeat split; auto. intros q [Hq | []]. apply Hdone. assumption.
  - cbn [acceptedAll] in Hacc.
    destruct (Hin p (or_introl eq_refl)) as [Hr Hc].
    destruct (pickType_spec 49 (row p) (col p) w Hr) as [ty [k Hpick]].
    rewrite Hpick in Hacc.
    rewrite wouldCreateInitialMatch_spec in Hacc by exact Hr.
    apply andb_true_iff in Hacc. destruct Hacc as [Hpass Hacc].
    apply negb_true_iff in Hpass. cbn [data withRandomCalls] in Hpass.
    cbn [foldM]. unfold bind at 1.
    unfold Grid.generateCell in *. unfold bind at 1 in Hacc. unfold bind at 1.
    rewrite Hpick in *. unfold bind at 1 in Hacc. unfold bind at 1.
    unfold writeData in *. cbn [data withRandomCalls] in *.
    set (tile := mkTile ty None (setHas memoryLookup p) _) in *.
    destruct (setCell_total (data w) (row p) (col p) (Some tile) Hr Hc) as [d' Hset].
    rewrite Hset in *. unfold ret in *.
    set (w2 := withData (withRandomCalls w k) d') in *.
    set (idx2 := if setHas memoryLookup p then S idx else idx) in *.
    assert (Hsize : gridSize (data w2) = gridSize (data w))
      by (cbn; eapply setCell_gridSize; eauto).
    inversion Hsorted as [| ? ? Hs' Hall]; subst.
    rewrite Forall_forall in Hall.
    destruct (IH idx2 w2 (fun q => done q \/ q = p)) as [idx' [w' [Hf [Hg [Hsz [Hmv Hok]]]]]].
    + intros q Hq. rewrite Hsize. apply Hin. right. assumption.
    + assumption.
    + intros q [Hq | ->].
      * destruct (Hdone q Hq) as [Hq1 Hq2]. split.
        -- cbn. eapply passesAt_frame; eauto. apply Hq2. left. reflexivity.
        -- intros p' Hp'. apply Hq2. right. assumption.
      * split; [| apply Hall].
        cbn. eapply passesAt_written; eauto.
    + assumption.
    + exists idx', w'. repeat split; auto; try congruence.
      intros q [Hq | [<- | Hq]]; apply Hok; auto.
Qed.

(** C4. From a state whose board has [Grid.size] rows (as [init] leaves it),
    if the type accepted for every cell passed the backward check, then
    [generate] returns and [findAllMatches] finds nothing on the board it
    leaves: no match set, no request.  The reason is the lemma
    [passesBackwardCheck_no_matches]. *)
Theorem generate_no_matches (memoryPositions : list Grid.MemoryPosition) (w : World) :
  gridSize (data w) = size w ->
  everyCellAccepted memoryPositions w = true ->
  exists w',
    Grid.generate memoryPositions w = Returned tt w'
    /\ passesBackwardCheck (data w')
    /\ MatchDetector.matches (MatchDetector.findAllMatches (data w')) = []
    /\ MatchDetector.specials (MatchDetector.findAllMatches (data w')) = [].
Proof.
  intros Hsize Hacc. unfold everyCellAccepted in Hacc.
  destruct (generate_cells memoryPositions
              (fold_left (fun s m => setAdd s (Grid.memoryPos m)) memoryPositions [])
              (Grid.cellsRowMajor (size w)) O w (fun _ => False))
    as [idx' [w' [Hf [Hg [Hsz [_ Hok]]]]]]; try exact Hacc.
  - intros p Hp. apply cellsRowMajor_In in Hp. lia.
  - apply cellsRowMajor_sorted.
  - intros q [].
  - exists w'. unfold Grid.generate, bind, get. rewrite Hf. unfold ret.
    assert (Hpass : passesBackwardCheck (data w')).
    { intros r c Hr Hc. apply Hok. right. apply cellsRowMajor_In. simpl. lia. }
    rewrite (passesBackwardCheck_no_matches _ Hpass). auto.
Qed.

(** ** The clear set of a combination *)

Lemma addPos_inside (n : Z) (st : list Pos * PosSet) (r c : Z) :
  (forall p, In p (fst st) -> 0 <= row p < n /\ 0 <= col p < n) ->
  forall p, In p (fst (MatchDetector.addPos n st r c)) ->
            0 <= row p < n /\ 0 <= col p < n.
Proof.
  intros H p. unfold MatchDetector.addPos.
  destruct ((0 <=? r) && (r <? n) && (0 <=? c) && (c <? n)) eqn:E; [| apply H].
  destruct (negb _); [| apply H].
  cbn [fst]. rewrite in_app_iff. intros [Hp | [<- | []]]; [apply H; assumption |].
  rewrite !andb_true_iff in E. simpl. lia.
Qed.

(** The clear positions of a combination are positions of the board. *)
Lemma combination_positions_inside (g : Board) (combo : MatchDetector.Combination) :
  forall p, In p (MatchDetector.getSpecialCombinationClearPositions g combo) ->
            0 <= row p < gridSize g /\ 0 <= col p < gridSize g.
Proof.
  unfold MatchDetector.getSpecialCombinationClearPositions.
  set (inside := fun st : list Pos * PosSet =>
         forall p, In p (fst st) -> 0 <= row p < gridSize g /\ 0 <= col p < gridSize g).
  assert (H0 : inside ([], [])) by (intros p []).
  assert (Hadd : forall st r c, inside st -> inside (MatchDetector.addPos (gridSize g) st r c))
    by (unfold inside; intros st r c H; apply addPos_inside; exact H).
  cbv zeta.
  destruct (MatchDetector.combinationType combo).
  - repeat (apply (fold_left_preserves inside); [intros; apply Hadd; assumption |]).
    exact H0.
  - repeat (apply (fold_left_preserves inside);
            [intros; apply (fold_left_preserves inside);
             [intros; apply Hadd; assumption | assumption] |]).
    exact H0.
  - apply (fold_left_preserves inside);
      [intros; apply (fold_left_preserves inside);
       [intros; apply Hadd; assumption | assumption] |].
    exact H0.
  - exact H0.
Qed.

Lemma getTileData_spec (w : World) (p : Pos) :
  0 <= row p < gridSize (data w) ->
  Grid.getTileData (row p) (col p) w = Returned (tileDataAt w p) w.
Proof.
  intros H. unfold Grid.getTileData, tileDataAt, bind, get.
  destruct ((row p <? 0) || (size w <=? row p) || (col p <? 0) || (size w <=? col p)).
  - reflexivity.
  - apply readData_inside. assumption.
Qed.

Lemma chain_loop (p1 p2 : Pos) (w : World) (todo : list Pos) :
  forall all : list Pos,
    (forall p, In p todo -> 0 <= row p < gridSize (data w)) ->
    foldM (Game.chainStep p1 p2) todo all w
    = Returned (all ++ flat_map (chainedClear w p1 p2) todo) w.
Proof.
  induction todo as [| pos rest IH]; intros all Hin.
  - cbn. unfold ret. rewrite app_nil_r. reflexivity.
  - cbn [foldM flat_map]. unfold bind at 1.
    assert (Hrest : forall p, In p rest -> 0 <= row p < gridSize (data w))
      by (intros p Hp; apply Hin; right; assumption).
    unfold Game.chainStep, chainedClear at 1.
    destruct (((row pos =? row p1) && (col pos =? col p1))
              || ((row pos =? row p2) && (col pos =? col p2))).
    + unfold ret at 1. cbn [app]. apply IH. assumption.
    + unfold bind at 1.
      rewrite getTileData_spec by (apply Hin; left; reflexivity).
      unfold specialAt, MatchDetector.isSpecialCandy.
      destruct (tileDataAt w pos) as [t |].
      * destruct (special t) as [s |].
        -- unfold bind at 1, get, ret at 1.
           rewrite IH by assumption. rewrite <- app_assoc. reflexivity.
        -- unfold ret at 1. rewrite IH by assumption. reflexivity.
      * unfold ret at 1. rewrite IH by assumption. reflexivity.
Qed.

Lemma combinationClearSet_spec (p1 p2 : Pos) (combo : MatchDetector.Combination)
    (w : World) :
  Game.combinationClearSet p1 p2 combo w =
  Returned
    (Game.deduplicatePositions
       (MatchDetector.getSpecialCombinationClearPositions (data w) combo
        ++ flat_map (chainedClear w p1 p2)
             (MatchDetector.getSpecialCombinationClearPositions (data w) combo)))
    w.
Proof.
  unfold Game.combinationClearSet, bind, get.
  rewrite chain_loop.
  - reflexivity.
  - intros p Hp. apply combination_positions_inside in Hp. tauto.
Qed.

Lemma excluded_spec (pos p1 p2 : Pos) :
  ((row pos =? row p1) && (col pos =? col p1))
  || ((row pos =? row p2) && (col pos =? col p2)) = false
  <-> pos <> p1 /\ pos <> p2.
Proof.
  rewrite orb_false_iff.
  change ((row pos =? row p1) && (col pos =? col p1)) with (posEqb pos p1).
  change ((row pos =? row p2) && (col pos =? col p2)) with (posEqb pos p2).
  split; intros [H1 H2]; split.
  - intros E. apply posEqb_eq in E. congruence.
  - intros E. apply posEqb_eq in E. congruence.
  - destruct (posEqb pos p1) eqn:E; [apply posEqb_eq in E; contradiction | reflexivity].
  - destruct (posEqb pos p2) eqn:E; [apply posEqb_eq in E; contradiction | reflexivity].
Qed.

(** C5, as the code has it.  The clear set of a special-special swap is the
    clear set of the combination together with the clear positions of every
    special tile that the combination's own clear set contains, the two
    swapped tiles excepted: one level of chained activation. *)
Theorem combination_chain_one_level (p1 p2 : Pos) (combo : MatchDetector.Combination)
    (w : World) :
  exists cleared,
    Game.combinationClearSet p1 p2 combo w = Returned cleared w
    /\ forall x,
         In x cleared <->
         In x (MatchDetector.getSpecialCombinationClearPositions (data w) combo)
         \/ exists q s,
              In q (MatchDetector.getSpecialCombinationClearPositions (data w) combo)
              /\ q <> p1 /\ q <> p2 /\ specialAt w q = Some s
              /\ In x (MatchDetector.getSpecialClearPositions (data w) q s).
Proof.
  eexists. split; [apply combinationClearSet_spec |].
  intros x. rewrite deduplicatePositions_In, in_app_iff, in_flat_map.
  split; intros [H | H]; auto; right.
  - destruct H as [q [Hq Hx]]. unfold chainedClear in Hx.
    destruct (_ || _) eqn:E; [contradiction |].
    apply excluded_spec in E. destruct E as [E1 E2].
    destruct (specialAt w q) as [s |] eqn:Es; [| contradiction].
    exists q, s. auto.
  - destruct H as [q [s [Hq [E1 [E2 [Es Hx]]]]]].
    exists q. split; [assumption |]. unfold chainedClear.
    replace (_ || _) with false by (symmetry; apply excluded_spec; auto).
    rewrite Es. assumption.
Qed.

(** C5, as stated, fails.  On [sampleChain] the swap of the two wrapped
    specials clears the 'striped-v' special at (4,0), whose column reaches
    the 'striped-h' special at (5,0); that one is cleared but its row is not:
    (5,5) stays. *)
Lemma chained_activation_not_closed :
  exists combo cleared w',
    MatchDetector.isSpecialCombination sampleChain (mkPos 2 2) (mkPos 2 3) = Some combo
    /\ (Grid.swapTiles (mkPos 2 2) (mkPos 2 3) ;;;
        Game.combinationClearSet (mkPos 2 2) (mkPos 2 3) combo)
         (worldOf sampleChain diagonalSource)
       = Returned cleared w'
    /\ ~ closedUnderActivation w' (mkPos 2 2) (mkPos 2 3) cleared.
Proof.
  eexists. eexists. eexists.
  split; [reflexivity |]. split; [vm_compute; reflexivity |].
  intros H. specialize (H (mkPos 5 0) striped_h (mkPos 5 5)).
  apply setHas_In in H.
  - vm_compute in H. discriminate.
  - apply setHas_In. vm_compute. reflexivity.
  - discriminate.
  - discriminate.
  - vm_compute. reflexivity.
  - apply setHas_In. vm_compute. reflexivity.
Qed.

(** ** Moves *)

Lemma keepsMoves_ret {A : Type} (a : A) : keepsMoves (ret a).
Proof. intros w. reflexivity. Qed.

Lemma keepsMoves_bind {A B : Type} (m : M A) (k : A -> M B) :
  keepsMoves m -> (forall a, keepsMoves (k a)) -> keepsMoves (bind m k).
Proof.
  intros Hm Hk w. unfold bind. specialize (Hm w).
  destruct (m w) as [a w' | w' | w']; simpl in *; [| assumption | assumption].
  rewrite (Hk a w'). assumption.
Qed.

Lemma keepsMoves_foldM {A B : Type} (f : B -> A -> M B) (l : list A) :
  (forall b a, keepsMoves (f b a)) -> forall b, keepsMoves (foldM f l b).
Proof.
  intros Hf. induction l as [| x rest IH]; intros b; cbn [foldM].
  - apply keepsMoves_ret.
  - apply keepsMoves_bind; [apply Hf | intros b'; apply IH].
Qed.

Lemma keepsMoves_forEach {A : Type} (l : list A) (f : A -> M unit) :
  (forall a, keepsMoves (f a)) -> keepsMoves (forEach l f).
Proof. intros Hf. unfold forEach. apply keepsMoves_foldM. intros _ a. apply Hf. Qed.

Lemma keepsMoves_get : keepsMoves get.
Proof. intros w. reflexivity. Qed.

Lemma keepsMoves_modify (f : World -> World) :
  (forall w, moves (f w) = moves w) -> keepsMoves (modify f).
Proof. intros Hf w. apply Hf. Qed.

Lemma keepsMoves_running {A : Type} : keepsMoves (fun w => @Running A w).
Proof. intros w. reflexivity. Qed.

Lemma keepsMoves_mathRandom : keepsMoves mathRandom.
Proof. intros w. reflexivity. Qed.

Lemma keepsMoves_readData (r c : Z) : keepsMoves (readData r c).
Proof. intros w. unfold readData. destruct (readCell (data w) r c); reflexivity. Qed.

Lemma keepsMoves_writeData (r c : Z) (v : Cell) : keepsMoves (writeData r c v).
Proof. intros w. unfold writeData. destruct (setCell (data w) r c v); reflexivity. Qed.

Lemma keepsMoves_onData {A : Type} (f : Board -> option (A * Board)) :
  keepsMoves (onData f).
Proof. intros w. unfold onData. destruct (f (data w)) as [[a d] |]; reflexivity. Qed.

Create HintDb moves.

#[local] Hint Resolve keepsMoves_ret keepsMoves_get keepsMoves_running
  keepsMoves_mathRandom keepsMoves_readData keepsMoves_writeData
  keepsMoves_onData : moves.

(** Goes through the structure of a computation. *)
Ltac keeps_moves :=
  repeat first
    [ progress auto with moves
    | apply keepsMoves_bind; [| intros ?]
    | apply keepsMoves_foldM; intros ? ?
    | apply keepsMoves_forEach; intros ?
    | apply keepsMoves_modify; intros ?; reflexivity
    | match goal with
      | |- keepsMoves (match ?x with _ => _ end) => destruct x
      end ].

Lemma keepsMoves_getRandomType : keepsMoves Grid.getRandomType.
Proof. unfold Grid.getRandomType. keeps_moves. Qed.

Lemma keepsMoves_getTileData (r c : Z) : keepsMoves (Grid.getTileData r c).
Proof. unfold Grid.getTileData. keeps_moves. Qed.

Lemma keepsMoves_swapTiles (p1 p2 : Pos) : keepsMoves (Grid.swapTiles p1 p2).
Proof. unfold Grid.swapTiles. keeps_moves. Qed.

Lemma keepsMoves_removeMatches (l : list Pos) : keepsMoves (Grid.removeMatches l).
Proof. unfold Grid.removeMatches. keeps_moves. Qed.

Lemma keepsMoves_applyGravity : keepsMoves Grid.applyGravity.
Proof. unfold Grid.applyGravity. keeps_moves. Qed.

Lemma keepsMoves_firstMemoryType (l : list Pos) : keepsMoves (Grid.firstMemoryType l).
Proof. induction l as [| p rest IH]; cbn [Grid.firstMemoryType]; keeps_moves. Qed.

#[local] Hint Resolve keepsMoves_getRandomType keepsMoves_getTileData
  keepsMoves_swapTiles keepsMoves_removeMatches keepsMoves_applyGravity
  keepsMoves_firstMemoryType : moves.

Lemma keepsMoves_getHelpfulTypeForPosition (r c : Z) :
  keepsMoves (Grid.getHelpfulTypeForPosition r c).
Proof. unfold Grid.getHelpfulTypeForPosition. keeps_moves. Qed.

#[local] Hint Resolve keepsMoves_getHelpfulTypeForPosition : moves.

Lemma keepsMoves_spawnNewTiles : keepsMoves Grid.spawnNewTiles.
Proof. unfold Grid.spawnNewTiles, Grid.spawnCell. keeps_moves. Qed.

Lemma keepsMoves_createSpecialCandy (r c : Z) (s : Special) (ty : TileType) :
  keepsMoves (Grid.createSpecialCandy r c s ty).
Proof. unfold Grid.createSpecialCandy. keeps_moves. Qed.

Lemma keepsMoves_hasPossibleMoves : keepsMoves Grid.hasPossibleMoves.
Proof. unfold Grid.hasPossibleMoves. keeps_moves. Qed.

Lemma keepsMoves_fisherYates (l : list Cell) : keepsMoves (Grid.fisherYates l).
Proof. unfold Grid.fisherYates, Grid.fisherYatesStep. keeps_moves. Qed.

#[local] Hint Resolve keepsMoves_spawnNewTiles keepsMoves_createSpecialCandy
  keepsMoves_hasPossibleMoves keepsMoves_fisherYates : moves.

Lemma keepsMoves_shuffle (fuel : nat) : keepsMoves (Grid.shuffle fuel).
Proof.
  induction fuel as [| f IH]; cbn [Grid.shuffle]; [auto with moves |].
  unfold Grid.collectTile, Grid.reassignCell, Grid.checkShuffled. keeps_moves.
Qed.

Lemma keepsMoves_revealMemories (l : list Grid.MemoryTile) :
  keepsMoves (Game.revealMemories l).
Proof.
  unfold Game.revealMemories, MemorySystem.revealMemory. keeps_moves.
Qed.

Lemma keepsMoves_clearPass (res : MatchDetector.MatchResult) :
  keepsMoves (Game.clearPass res).
Proof. unfold Game.clearPass, Game.specialsAt. keeps_moves. Qed.

#[local] Hint Resolve keepsMoves_shuffle keepsMoves_revealMemories
  keepsMoves_clearPass : moves.

Lemma keepsMoves_processMatches (fuel : nat) : keepsMoves (Game.processMatches fuel).
Proof.
  induction fuel as [| f IH]; cbn [Game.processMatches]; [auto with moves |].
  keeps_moves.
Qed.

Lemma keepsMoves_combinationClearSet (p1 p2 : Pos) (combo : MatchDetector.Combination) :
  keepsMoves (Game.combinationClearSet p1 p2 combo).
Proof. unfold Game.combinationClearSet, Game.chainStep. keeps_moves. Qed.

Lemma keepsMoves_checkWinLose (fuel : nat) : keepsMoves (Game.checkWinLose fuel).
Proof. unfold Game.checkWinLose, MemorySystem.isComplete. keeps_moves. Qed.

#[local] Hint Resolve keepsMoves_processMatches keepsMoves_combinationClearSet
  keepsMoves_checkWinLose : moves.

Lemma moves_bind_returned {A B : Type} (m : M A) (k : A -> M B) (w w' : World) (a : A) :
  m w = Returned a w' ->
  moves (finalWorld (bind m k w)) = moves (finalWorld (k a w')).
Proof. intros H. unfold bind. rewrite H. reflexivity. Qed.

Lemma cellAt_Some_inBounds (g : Board) (p : Pos) (t : Tile) :
  cellAt g (row p) (col p) = Some t -> inBounds g p.
Proof.
  unfold cellAt, inBounds. destruct (nthZ g (row p)) as [line |]; [| discriminate].
  destruct (nthZ line (col p)) as [cell |] eqn:E; [| discriminate].
  intros _. exists line. split; [reflexivity |]. eapply nthZ_Some. exact E.
Qed.

Lemma isSpecialCombination_inBounds (g : Board) (p1 p2 : Pos)
    (combo : MatchDetector.Combination) :
  MatchDetector.isSpecialCombination g p1 p2 = Some combo ->
  inBounds g p1 /\ inBounds g p2.
Proof.
  unfold MatchDetector.isSpecialCombination, MatchDetector.isSpecialCandy.
  destruct (cellAt g (row p1) (col p1)) as [t1 |] eqn:E1; [| discriminate].
  destruct (cellAt g (row p2) (col p2)) as [t2 |] eqn:E2;
    [| destruct (special t1); discriminate].
  intros _. split; eapply cellAt_Some_inBounds; eauto.
Qed.

Lemma swapTiles_inBounds (p1 p2 : Pos) (w : World) :
  inBounds (data w) p1 -> inBounds (data w) p2 ->
  exists w', Grid.swapTiles p1 p2 w = Returned tt w' /\ moves w' = moves w.
Proof.
  intros H1 H2. unfold Grid.swapTiles, bind.
  rewrite readData_inside by (apply inBounds_gridSize in H1; tauto).
  rewrite readData_inside by (apply inBounds_gridSize in H2; tauto).
  unfold writeData at 1.
  destruct (setCell_inBounds (data w) p1 (cellAt (data w) (row p2) (col p2)) H1)
    as [g1 [E1 S1]].
  rewrite E1. unfold writeData. cbn [data withData].
  assert (H2' : inBounds g1 p2) by (eapply inBounds_shape; eauto).
  destruct (setCell_inBounds g1 p2 (cellAt (data w) (row p1) (col p1)) H2')
    as [g2 [E2 S2]].
  rewrite E2. eexists. split; reflexivity.
Qed.

Lemma wouldMatch_combination (g : Board) (p1 p2 : Pos) (combo : MatchDetector.Combination) :
  MatchDetector.isSpecialCombination g p1 p2 = Some combo ->
  MatchDetector.wouldMatch g p1 p2 = Some (true, g).
Proof. intros H. unfold MatchDetector.wouldMatch. rewrite H. reflexivity. Qed.

Lemma moves_bind_keeps {A B : Type} (m : M A) (k : A -> M B) (w : World) :
  (forall a, keepsMoves (k a)) ->
  moves (finalWorld (bind m k w)) = moves (finalWorld (m w)).
Proof.
  intros Hk. unfold bind. destruct (m w) as [a w' | w' | w']; simpl; auto.
  apply Hk.
Qed.

(** A swap followed by the use of a move and by anything that keeps the
    moves. *)
Lemma swap_then_move {A : Type} (p1 p2 : Pos) (rest : M A) (w : World) :
  inBounds (data w) p1 -> inBounds (data w) p2 -> keepsMoves rest ->
  moves (finalWorld
    ((Grid.swapTiles p1 p2 ;;;
      modify (fun w' => withMoves w' (moves w' - 1)) ;;;
      rest) w)) = moves w - 1.
Proof.
  intros H1 H2 Hrest.
  destruct (swapTiles_inBounds p1 p2 w H1 H2) as [w2 [Hswap Hm]].
  rewrite (moves_bind_returned _ _ _ _ _ Hswap).
  rewrite (moves_bind_returned _ _ w2 (withMoves w2 (moves w2 - 1)) tt eq_refl).
  rewrite Hrest. cbn. rewrite Hm. reflexivity.
Qed.

(** C6. A swap of two positions of the board that are not both specials
    and would not match consumes no move and leaves the board as it is:
    [attemptSwap] returns with nothing changed but [isProcessing].  A
    special-special swap, and a swap that would match, consume exactly one
    move, however the cascade that follows goes and however long it is
    watched. *)
Theorem swap_move_accounting (fuel : nat) (p1 p2 : Pos) (w : World) :
  (inBounds (data w) p1 -> inBounds (data w) p2 ->
   (exists g', MatchDetector.wouldMatch (data w) p1 p2 = Some (false, g')) ->
   Game.attemptSwap fuel p1 p2 w = Returned tt (withIsProcessing w false))
  /\
  (forall combo,
     MatchDetector.isSpecialCombination (data w) p1 p2 = Some combo ->
     moves (finalWorld (Game.attemptSwap fuel p1 p2 w)) = moves w - 1)
  /\
  (inBounds (data w) p1 -> inBounds (data w) p2 ->
   MatchDetector.isSpecialCombination (data w) p1 p2 = None ->
   (exists g', MatchDetector.wouldMatch (data w) p1 p2 = Some (true, g')) ->
   moves (finalWorld (Game.attemptSwap fuel p1 p2 w)) = moves w - 1).
Proof.
  split; [| split].
  - intros H1 H2 [g' Hw].
    destruct (wouldMatch_inBounds (data w) p1 p2 H1 H2) as [b Hb].
    rewrite Hb in Hw. inversion Hw; subst b g'.
    unfold Game.attemptSwap, bind, modify, get. cbn [data withIsProcessing].
    destruct (MatchDetector.isSpecialCombination (data w) p1 p2) as [combo |] eqn:Ec.
    + rewrite (wouldMatch_combination _ _ _ _ Ec) in Hb. discriminate.
    + unfold onData. cbn [data withIsProcessing]. rewrite Hb. cbn.
      destruct w; reflexivity.
  - intros combo Hc.
    destruct (isSpecialCombination_inBounds _ _ _ _ Hc) as [H1 H2].
    unfold Game.attemptSwap, bind at 1, modify at 1, bind at 1, get.
    cbn [data withIsProcessing]. rewrite Hc.
    rewrite moves_bind_keeps by (intros ?; keeps_moves).
    unfold Game.processSpecialCombination.
    rewrite swap_then_move; auto.
    unfold Game.chainStep; keeps_moves.
  - intros H1 H2 Hc [g' Hw].
    destruct (wouldMatch_inBounds (data w) p1 p2 H1 H2) as [b Hb].
    rewrite Hb in Hw. inversion Hw; subst b g'.
    unfold Game.attemptSwap, bind at 1, modify at 1, bind at 1, get.
    cbn [data withIsProcessing]. rewrite Hc.
    unfold bind at 1, onData. cbn [data withIsProcessing]. rewrite Hb. cbn [negb].
    rewrite swap_then_move; auto.
    keeps_moves.
Qed.

(** ** The refill bias *)

Lemma neighbourhood_In (n r c : Z) (p : Pos) :
  In p (Grid.neighbourhood n r c) <-> inBlock n r c p.
Proof.
  unfold Grid.neighbourhood, inBlock. rewrite in_flat_map. split.
  - intros [dr [Hdr Hp]]. apply in_flat_map in Hp. destruct Hp as [dc [Hdc Hp]].
    apply zrange_In in Hdr, Hdc. cbv zeta in Hp.
    destruct ((0 <=? r + dr) && (r + dr <? n) && (0 <=? c + dc) && (c + dc <? n)) eqn:E;
      [| contradiction].
    destruct Hp as [<- | []]. rewrite !andb_true_iff in E. simpl. lia.
  - intros [Hr [Hc [Hr' Hc']]]. exists (row p - r). split; [apply zrange_In; lia |].
    apply in_flat_map. exists (col p - c). split; [apply zrange_In; lia |].
    cbv zeta. replace (r + (row p - r)) with (row p) by lia.
    replace (c + (col p - c)) with (col p) by lia.
    replace ((0 <=? row p) && (row p <? n) && (0 <=? col p) && (col p <? n)) with true
      by (symmetry; rewrite !andb_true_iff; lia).
    left. apply pos_eta.
Qed.

Lemma sorted_flat_map {A B : Type} (R0 : A -> A -> Prop) (R : B -> B -> Prop)
    (f : A -> list B) (l : list A) :
  StronglySorted R0 l ->
  (forall x, In x l -> StronglySorted R (f x)) ->
  (forall x y a b, R0 x y -> In a (f x) -> In b (f y) -> R a b) ->
  StronglySorted R (flat_map f l).
Proof.
  intros Hl Hin Hcross. induction Hl as [| x rest Hs IH Hall]; [constructor |].
  cbn [flat_map]. apply StronglySorted_app.
  - apply Hin. left. reflexivity.
  - apply IH. intros y Hy. apply Hin. right. assumption.
  - intros a b Ha Hb. apply in_flat_map in Hb. destruct Hb as [y [Hy Hb]].
    rewrite Forall_forall in Hall. eapply Hcross; eauto.
Qed.

Lemma zrange_sorted' (lo hi : Z) : StronglySorted Z.lt (zrange lo hi).
Proof.
  destruct (Z_le_gt_dec lo hi) as [H | H].
  - replace hi with (lo + Z.of_nat (Z.to_nat (hi - lo))) by lia. apply zrange_sorted.
  - rewrite zrange_nil by lia. constructor.
Qed.

Lemma neighbourhood_sorted (n r c : Z) : StronglySorted lexLt (Grid.neighbourhood n r c).
Proof.
  unfold Grid.neighbourhood.
  apply sorted_flat_map with (R0 := Z.lt); [apply zrange_sorted' | |].
  - intros dr _. apply sorted_flat_map with (R0 := Z.lt); [apply zrange_sorted' | |].
    + intros dc _. cbv zeta. destruct (_ && _); repeat constructor.
    + intros dc dc' a b Hlt Ha Hb. cbv zeta in Ha, Hb.
      destruct (_ && _) in Ha; [| contradiction].
      destruct (_ && _) in Hb; [| contradiction].
      destruct Ha as [<- | []], Hb as [<- | []]. right. simpl. lia.
  - intros dr dr' a b Hlt Ha Hb.
    apply in_flat_map in Ha, Hb. destruct Ha as [dc [_ Ha]], Hb as [dc' [_ Hb]].
    cbv zeta in Ha, Hb.
    destruct (_ && _) in Ha; [| contradiction].
    destruct (_ && _) in Hb; [| contradiction].
    destruct Ha as [<- | []], Hb as [<- | []]. left. simpl. lia.
Qed.

Lemma firstMemoryType_spec (todo : list Pos) (w : World) :
  (forall p, In p todo -> 0 <= row p < gridSize (data w)) ->
  Grid.firstMemoryType todo w = Returned (firstTaggedType (data w) todo) w.
Proof.
  induction todo as [| p rest IH]; intros Hin; [reflexivity |].
  cbn [Grid.firstMemoryType firstTaggedType]. unfold bind.
  rewrite readData_inside by (apply Hin; left; reflexivity).
  assert (Hrest : forall q, In q rest -> 0 <= row q < gridSize (data w))
    by (intros q Hq; apply Hin; right; assumption).
  destruct (cellAt (data w) (row p) (col p)) as [t |]; [| apply IH; assumption].
  destruct (isMemory t); [reflexivity | apply IH; assumption].
Qed.

Lemma getHelpfulTypeForPosition_spec (r c : Z) (w : World) :
  gridSize (data w) = size w ->
  Grid.getHelpfulTypeForPosition r c w
  = Returned (firstTaggedType (data w) (Grid.neighbourhood (size w) r c)) w.
Proof.
  intros Hsize. unfold Grid.getHelpfulTypeForPosition, bind, get.
  apply firstMemoryType_spec. intros p Hp. apply neighbourhood_In in Hp.
  unfold inBlock in Hp. lia.
Qed.

(** The first tagged tile of a list sorted by [lexLt]. *)
Lemma firstTaggedType_sorted (g : Board) (todo : list Pos) :
  StronglySorted lexLt todo ->
  (exists p t,
     In p todo /\ cellAt g (row p) (col p) = Some t /\ isMemory t = true
     /\ firstTaggedType g todo = type t
     /\ forall q, In q todo -> lexLt q p -> tagged g q = false)
  \/ (firstTaggedType g todo = None /\ forall q, In q todo -> tagged g q = false).
Proof.
  induction 1 as [| p rest Hs IH Hall]; [right; split; [reflexivity | intros q []] |].
  cbn [firstTaggedType]. rewrite Forall_forall in Hall.
  destruct (cellAt g (row p) (col p)) as [t |] eqn:Ec.
  - destruct (isMemory t) eqn:Em.
    + left. exists p, t. repeat split; auto; [left; reflexivity |].
      intros q [<- | Hq] Hlt.
      * unfold lexLt in Hlt. lia.
      * specialize (Hall q Hq). unfold lexLt in *. lia.
    + destruct IH as [[p' [t' [Hin [Hc [Hm [Hf Hbefore]]]]]] | [Hf Hnone]].
      * left. exists p', t'. repeat split; auto; [right; assumption |].
        intros q [<- | Hq] Hlt; [unfold tagged; rewrite Ec; assumption | auto].
      * right. split; [assumption |].
        intros q [<- | Hq]; [unfold tagged; rewrite Ec; assumption | auto].
  - destruct IH as [[p' [t' [Hin [Hc [Hm [Hf Hbefore]]]]]] | [Hf Hnone]].
    + left. exists p', t'. repeat split; auto; [right; assumption |].
      intros q [<- | Hq] Hlt; [unfold tagged; rewrite Ec; reflexivity | auto].
    + right. split; [assumption |].
      intros q [<- | Hq]; [unfold tagged; rewrite Ec; reflexivity | auto].
Qed.

(** C9, as the code has it.  On a board of [Grid.size] rows,
    [getHelpfulTypeForPosition] returns the type of the first tagged tile of
    the 5 by 5 block around the cell (as far as the block is on the board) in
    row-major order of the block, top row first and left to right: no tagged
    tile of the block comes before it in that order.  It returns null when the
    block has no tagged tile.  [spawnNewTiles] fills an empty cell with a
    plain tile whose type is that type when the second random number of the
    cell is below 0.4 and the type is found (and truthy), and the uniform
    draw [tileTypes[floor(random * 5)]] otherwise. *)
Theorem refill_bias_row_major (r c : Z) (w : World) :
  gridSize (data w) = size w ->
  exists helpful,
    Grid.getHelpfulTypeForPosition r c w = Returned helpful w
    /\ ((exists p t,
           inBlock (size w) r c p /\ cellAt (data w) (row p) (col p) = Some t
           /\ isMemory t = true /\ helpful = type t
           /\ forall q, inBlock (size w) r c q -> lexLt q p -> tagged (data w) q = false)
        \/ (helpful = None
            /\ forall q, inBlock (size w) r c q -> tagged (data w) q = false))
    /\ (0 <= r < size w -> 0 <= c -> cellAt (data w) r c = None ->
        let drawn :=
          nthZ Grid.tileTypes
               (floorMul (random w (randomCalls w)) (Z.of_nat (List.length Grid.tileTypes))) in
        let u := random w (S (randomCalls w)) in
        exists w',
          Grid.spawnCell r c w = Returned tt w'
          /\ cellAt (data w') r c
             = Some (mkTile (if belowTwoFifths u && MatchDetector.truthyType helpful
                             then helpful else drawn)
                            None false None)).
Proof.
  intros Hsize.
  exists (firstTaggedType (data w) (Grid.neighbourhood (size w) r c)).
  split; [apply getHelpfulTypeForPosition_spec; assumption |]. split.
  - destruct (firstTaggedType_sorted (data w) _ (neighbourhood_sorted (size w) r c))
      as [[p [t [Hin [Hc [Hm [Hf Hbefore]]]]]] | [Hf Hnone]].
    + left. exists p, t. repeat split; auto; try (apply neighbourhood_In in Hin; apply Hin).
      intros q Hq. apply Hbefore. apply neighbourhood_In. assumption.
    + right. split; [assumption |]. intros q Hq. apply Hnone.
      apply neighbourhood_In. assumption.
  - intros Hr Hc Hempty drawn u.
    unfold Grid.spawnCell, bind at 1.
    rewrite readData_inside by lia. rewrite Hempty.
    unfold bind at 1, Grid.getRandomType, bind at 1, mathRandom at 1, ret at 1.
    unfold bind at 1, mathRandom at 1. cbn [random randomCalls withRandomCalls].
    fold drawn. fold u.
    set (w2 := withRandomCalls (withRandomCalls w (S (randomCalls w))) _).
    assert (Hsize2 : gridSize (data w2) = size w2) by exact Hsize.
    assert (Hr2 : 0 <= r < gridSize (data w2)) by (cbn; lia).
    unfold bind at 1.
    destruct (belowTwoFifths u); cbn [andb].
    + unfold bind at 1. rewrite getHelpfulTypeForPosition_spec by assumption.
      change (data w2) with (data w). change (size w2) with (size w).
      destruct (MatchDetector.truthyType _).
      * unfold ret, writeData.
        destruct (setCell_total (data w2) r c
                    (Some (mkTile (firstTaggedType (data w) (Grid.neighbourhood (size w) r c))
                                  None false None)) Hr2 Hc) as [d' Hset].
        rewrite Hset. eexists. split; [reflexivity |]. cbn [data withData].
        rewrite (cellAt_setCell _ _ _ _ _ Hset), !Z.eqb_refl. reflexivity.
      * unfold ret, writeData.
        destruct (setCell_total (data w2) r c (Some (mkTile drawn None false None)) Hr2 Hc)
          as [d' Hset].
        rewrite Hset. eexists. split; [reflexivity |]. cbn [data withData].
        rewrite (cellAt_setCell _ _ _ _ _ Hset), !Z.eqb_refl. reflexivity.
    + unfold ret, writeData.
      destruct (setCell_total (data w2) r c (Some (mkTile drawn None false None)) Hr2 Hc)
        as [d' Hset].
      rewrite Hset. eexists. split; [reflexivity |]. cbn [data withData].
      rewrite (cellAt_setCell _ _ _ _ _ Hset), !Z.eqb_refl. reflexivity.
Qed.

(** C9, as stated, fails.  Around the empty cell (2,2) of [sampleTagged]
    the tagged tile at (2,3) is at distance 1 and the one at (0,0) at
    distance 2: by ascending radius the bias would be the type y, the code
    returns the type x of the tile that comes first row by row. *)
Lemma bias_not_radius_ascending :
  Grid.getHelpfulTypeForPosition 2 2 (worldOf sampleTagged diagonalSource)
    = Returned (Some "x"%string) (worldOf sampleTagged diagonalSource)
  /\ radiusAscendingType (worldOf sampleTagged diagonalSource) 2 2 = Some "y"%string
  /\ Grid.getHelpfulTypeForPosition 2 2 (worldOf sampleTagged diagonalSource)
     <> Returned (radiusAscendingType (worldOf sampleTagged diagonalSource) 2 2)
                 (worldOf sampleTagged diagonalSource).
Proof.
  split; [reflexivity | split; [reflexivity |]].
  intros H. vm_compute in H. discriminate.
Qed.

(** ** Reshuffling *)

Lemma nthZ_app_l {A : Type} (l l' : list A) (i : Z) :
  i < Z.of_nat (List.length l) -> nthZ (l ++ l') i = nthZ l i.
Proof.
  intros H. unfold nthZ. destruct (i <? 0) eqn:E; [reflexivity |].
  apply nth_error_app1. apply Z.ltb_ge in E. lia.
Qed.

Lemma nthZ_app_last {A : Type} (l : list A) (x : A) :
  nthZ (l ++ [x]) (Z.of_nat (List.length l)) = Some x.
Proof.
  unfold nthZ. replace (Z.of_nat (List.length l) <? 0) with false
    by (symmetry; apply Z.ltb_ge; lia).
  rewrite Nat2Z.id, nth_error_app2 by lia. rewrite Nat.sub_diag. reflexivity.
Qed.

(** Reading an array from its first to its last element gives the array. *)
Lemma read_all {A : Type} (l : list A) :
  map (nthZ l) (zrange 0 (Z.of_nat (List.length l))) = map Some l.
Proof.
  induction l as [| x l IH] using rev_ind; [reflexivity |].
  rewrite length_app, Nat.add_1_r, Nat2Z.inj_succ, <- Z.add_1_r.
  rewrite zrange_snoc by lia. rewrite !map_app. cbn [map].
  rewrite nthZ_app_last. f_equal. rewrite <- IH.
  apply map_ext_in. intros i Hi. apply zrange_In in Hi. apply nthZ_app_l. lia.
Qed.

Lemma elementAt_all (l : list Cell) :
  map (Grid.elementAt l) (zrange 0 (Z.of_nat (List.length l))) = l.
Proof.
  unfold Grid.elementAt.
  rewrite <- (map_map (nthZ l) (fun o => match o with Some x => x | None => None end)).
  rewrite read_all, map_map. apply map_id.
Qed.

Lemma elementAt_padded (l : list Cell) (n : Z) :
  Z.of_nat (List.length l) <= n ->
  map (Grid.elementAt l) (zrange 0 n)
  = l ++ repeat None (Z.to_nat (n - Z.of_nat (List.length l))).
Proof.
  intros H. rewrite (zrange_app 0 (Z.of_nat (List.length l)) n) by lia.
  rewrite map_app, elementAt_all. f_equal.
  rewrite <- (zrange_length (Z.of_nat (List.length l)) n).
  generalize (fun i => proj1 (zrange_In (Z.of_nat (List.length l)) n i)).
  generalize (zrange (Z.of_nat (List.length l)) n) as idxs.
  induction idxs as [| i rest IH]; intros Hin; [reflexivity |].
  cbn [map List.length repeat]. f_equal.
  - unfold Grid.elementAt.
    replace (nthZ l i) with (@None Cell); [reflexivity |].
    symmetry. apply nthZ_None. right. specialize (Hin i (or_introl eq_refl)). lia.
  - apply IH. intros j Hj. apply Hin. right. assumption.
Qed.

Lemma tilesOf_app (l l' : list Cell) : tilesOf (l ++ l') = tilesOf l ++ tilesOf l'.
Proof. unfold tilesOf. apply flat_map_app. Qed.

Lemma tilesOf_holes (k : nat) : tilesOf (repeat None k) = [].
Proof. induction k as [| k IH]; [reflexivity | exact IH]. Qed.

(** Two elements of an array change places: a permutation. *)
Lemma replaceNth_perm {A : Type} (t : list A) :
  forall (j : nat) (y h : A),
    nth_error t j = Some y -> Permutation (y :: replaceNth t j h) (h :: t).
Proof.
  induction t as [| a t IH]; intros [| j] y h H; simpl in *; try discriminate.
  - inversion H; subst. apply perm_swap.
  - eapply perm_trans; [apply perm_swap |].
    eapply perm_trans; [apply perm_skip; apply IH; exact H |].
    apply perm_swap.
Qed.

Lemma exchange_perm {A : Type} (l : list A) :
  forall (i j : nat) (x y : A),
    nth_error l i = Some x -> nth_error l j = Some y ->
    Permutation (replaceNth (replaceNth l i y) j x) l.
Proof.
  induction l as [| h t IH]; intros [| i] [| j] x y Hi Hj; simpl in *;
    try discriminate.
  - inversion Hi; inversion Hj; subst. apply Permutation_refl.
  - inversion Hi; subst. apply replaceNth_perm. assumption.
  - inversion Hj; subst. apply replaceNth_perm. assumption.
  - apply perm_skip. apply IH; assumption.
Qed.

Lemma writeCell_inside (l : list Cell) (i : Z) (v : Cell) :
  0 <= i < Z.of_nat (List.length l) ->
  writeCell l i v = replaceNth l (Z.to_nat i) v.
Proof.
  intros H. unfold writeCell.
  replace (Nat.ltb (Z.to_nat i) (List.length l)) with true
    by (symmetry; apply Nat.ltb_lt; lia).
  reflexivity.
Qed.

Lemma floorMul_range (u : Rand) (k : Z) : 0 < k -> 0 <= floorMul u k < k.
Proof.
  intros Hk. unfold floorMul.
  set (a := Z.of_nat (rnum u)). set (b := Z.of_nat (rgap u)).
  assert (Ha : 0 <= a) by (unfold a; lia).
  assert (Hb : 0 <= b) by (unfold b; lia).
  split.
  - apply Z.div_pos; nia.
  - apply Z.div_lt_upper_bound; nia.
Qed.

Lemma elementAt_nth_error (l : list Cell) (i : Z) :
  0 <= i < Z.of_nat (List.length l) ->
  nth_error l (Z.to_nat i) = Some (Grid.elementAt l i).
Proof.
  intros H. unfold Grid.elementAt, nthZ.
  replace (i <? 0) with false by (symmetry; apply Z.ltb_ge; lia).
  destruct (nth_error l (Z.to_nat i)) eqn:E; [reflexivity |].
  apply nth_error_None in E. lia.
Qed.

(** A step of the Fisher-Yates loop permutes the array. *)
Lemma fisherYatesStep_spec (tiles : list Cell) (i : Z) (w : World) :
  0 <= i < Z.of_nat (List.length tiles) ->
  exists tiles',
    Grid.fisherYatesStep tiles i w
      = Returned tiles' (withRandomCalls w (S (randomCalls w)))
    /\ Permutation tiles' tiles.
Proof.
  intros Hi. unfold Grid.fisherYatesStep, bind, mathRandom, ret.
  set (j := floorMul (random w (randomCalls w)) (i + 1)).
  assert (Hj : 0 <= j < i + 1) by (apply floorMul_range; lia).
  eexists. split; [reflexivity |].
  rewrite (writeCell_inside tiles i) by lia.
  rewrite (writeCell_inside _ j) by (rewrite replaceNth_length; lia).
  apply exchange_perm; apply elementAt_nth_error; lia.
Qed.

Lemma fisherYates_spec (allTiles : list Cell) (w : World) :
  exists shuffled k,
    Grid.fisherYates allTiles w = Returned shuffled (withRandomCalls w k)
    /\ Permutation shuffled allTiles.
Proof.
  unfold Grid.fisherYates.
  assert (Hgen : forall (idxs : list Z) (tiles : list Cell) (w : World),
            (forall i, In i idxs -> 0 <= i < Z.of_nat (List.length tiles)) ->
            exists shuffled k,
              foldM Grid.fisherYatesStep idxs tiles w = Returned shuffled (withRandomCalls w k)
              /\ Permutation shuffled tiles).
  { clear. induction idxs as [| i rest IH]; intros tiles w Hin.
    - exists tiles, (randomCalls w). split; [destruct w; reflexivity | apply Permutation_refl].
    - cbn [foldM]. unfold bind.
      destruct (fisherYatesStep_spec tiles i w (Hin i (or_introl eq_refl)))
        as [tiles' [-> Hp]].
      destruct (IH tiles' (withRandomCalls w (S (randomCalls w)))) as [sh [k [-> Hp']]].
      + intros i' Hi'. rewrite (Permutation_length Hp). apply Hin. right. assumption.
      + exists sh, k. split; [reflexivity |]. eapply perm_trans; eauto. }
  apply Hgen. intros i Hi. unfold zrangeDown in Hi. apply in_rev in Hi.
  apply zrange_In in Hi. lia.
Qed.

Lemma map_flat_map {A B C : Type} (f : B -> C) (g : A -> list B) (l : list A) :
  map f (flat_map g l) = flat_map (fun x => map f (g x)) l.
Proof.
  induction l as [| x rest IH]; [reflexivity |].
  cbn [flat_map]. rewrite map_app, IH. reflexivity.
Qed.

Lemma square_inBounds (n : Z) (g : Board) (p : Pos) :
  square n g -> 0 <= row p < n -> 0 <= col p < n -> inBounds g p.
Proof.
  intros [Hlen Hrows] Hr Hc. unfold gridSize in Hlen.
  destruct (nthZ_inside g (row p)) as [line Hline]; [lia |].
  exists line. split; [assumption |].
  rewrite Forall_forall in Hrows.
  assert (Hin : In line g).
  { unfold nthZ in Hline. destruct (row p <? 0); [discriminate |].
    eapply nth_error_In; eauto. }
  rewrite (Hrows line Hin). assumption.
Qed.

Lemma square_shape (n : Z) (g g' : Board) :
  shape g' = shape g -> square n g -> square n g'.
Proof.
  intros Hs [Hlen Hrows]. unfold square, gridSize in *. split.
  - rewrite <- Hlen. f_equal.
    rewrite <- (length_map (@List.length Cell) g'), <- (length_map (@List.length Cell) g).
    unfold shape in Hs. rewrite Hs. reflexivity.
  - rewrite Forall_forall in *. intros line Hin.
    assert (Hl : In (List.length line) (shape g')) by (unfold shape; apply in_map; assumption).
    rewrite Hs in Hl. unfold shape in Hl. apply in_map_iff in Hl.
    destruct Hl as [line' [E Hin']]. rewrite <- E. apply Hrows. assumption.
Qed.

(** The cells of a square board, read row by row, are its rows one after
    the other. *)
Lemma concat_cells (n : Z) (g : Board) :
  square n g ->
  map (fun p => cellAt g (row p) (col p)) (Grid.cellsRowMajor n) = concat g.
Proof.
  intros Hsq. pose proof Hsq as [Hlen Hrows].
  unfold Grid.cellsRowMajor. rewrite map_flat_map.
  rewrite flat_map_concat_map. f_equal.
  transitivity (map (fun r => match nthZ g r with Some l => l | None => [] end)
                    (zrange 0 n)).
  - apply map_ext_in. intros r Hr. apply zrange_In in Hr.
    rewrite map_map. cbn [row col].
    unfold gridSize in Hlen.
    destruct (nthZ_inside g r) as [line Hline]; [lia |].
    rewrite Hline.
    assert (Hn : Z.of_nat (List.length line) = n).
    { rewrite Forall_forall in Hrows. apply Hrows.
      unfold nthZ in Hline. destruct (r <? 0); [discriminate |].
      eapply nth_error_In; eauto. }
    transitivity (map (Grid.elementAt line) (zrange 0 n)).
    + apply map_ext. intros c. unfold cellAt, Grid.elementAt. rewrite Hline. reflexivity.
    + rewrite <- Hn. apply elementAt_all.
  - unfold gridSize in Hlen. rewrite <- Hlen.
    rewrite <- (map_map (nthZ g) (fun o => match o with Some l => l | None => [] end)).
    rewrite read_all, map_map. apply map_id.
Qed.

Lemma collect_spec (todo : list Pos) :
  forall (init : list Cell) (w : World),
    (forall p, In p todo -> 0 <= row p < gridSize (data w)) ->
    foldM Grid.collectTile todo init w
    = Returned
        (init ++ map Some (tilesOf (map (fun p => cellAt (data w) (row p) (col p)) todo)))
        w.
Proof.
  induction todo as [| p rest IH]; intros init w Hin.
  - cbn. unfold ret. rewrite app_nil_r. reflexivity.
  - cbn [foldM]. unfold bind, Grid.collectTile at 1, bind.
    rewrite readData_inside by (apply Hin; left; reflexivity).
    assert (Hrest : forall q, In q rest -> 0 <= row q < gridSize (data w))
      by (intros q Hq; apply Hin; right; assumption).
    cbn [map tilesOf flat_map].
    destruct (cellAt (data w) (row p) (col p)) as [t |]; unfold ret.
    + rewrite IH by assumption. cbn [app map]. rewrite <- app_assoc. reflexivity.
    + rewrite IH by assumption. reflexivity.
Qed.

Lemma reassign_spec (shuffled : list Cell) (todo : list Pos) :
  forall (index : Z) (w : World),
    NoDup todo -> (forall p, In p todo -> inBounds (data w) p) ->
    exists w',
      foldM (Grid.reassignCell shuffled) todo index w
        = Returned (index + Z.of_nat (List.length todo)) w'
      /\ shape (data w') = shape (data w) /\ size w' = size w
      /\ map (fun p => cellAt (data w') (row p) (col p)) todo
         = map (Grid.elementAt shuffled) (zrange index (index + Z.of_nat (List.length todo)))
      /\ forall q, ~ In q todo ->
                   cellAt (data w') (row q) (col q) = cellAt (data w) (row q) (col q).
Proof.
  induction todo as [| p rest IH]; intros index w Hnd Hin.
  - exists w. cbn. unfold ret. rewrite Z.add_0_r. rewrite zrange_nil by lia. auto.
  - inversion Hnd as [| ? ? Hnotin Hnd']; subst.
    cbn [foldM]. unfold bind at 1, Grid.reassignCell at 1, bind at 1, writeData.
    destruct (setCell_inBounds (data w) p (Grid.elementAt shuffled index)
                (Hin p (or_introl eq_refl))) as [d1 [Hset Hshape]].
    rewrite Hset. unfold ret at 1.
    destruct (IH (index + 1) (withData w d1) Hnd') as [w' [Hf [Hs [Hsz [Hmap Hframe]]]]].
    { intros q Hq. cbn. eapply inBounds_shape; [exact Hshape |]. apply Hin. right. assumption. }
    exists w'. rewrite Hf. cbn [List.length].
    replace (index + Z.of_nat (S (List.length rest)))
      with (index + 1 + Z.of_nat (List.length rest)) by lia.
    split; [reflexivity |]. repeat split.
    + cbn [data withData] in Hs. rewrite Hs. exact Hshape.
    + exact Hsz.
    + rewrite (zrange_cons index) by lia. cbn [map]. f_equal; [| exact Hmap].
      rewrite (Hframe p Hnotin). cbn [data withData].
      rewrite (cellAt_setCell _ _ _ _ _ Hset), !Z.eqb_refl. reflexivity.
    + intros q Hq. rewrite Hframe by (intros F; apply Hq; right; assumption).
      cbn [data withData]. rewrite (cellAt_setCell _ _ _ _ _ Hset).
      destruct ((row q =? row p) && (col q =? col p)) eqn:E; [| reflexivity].
      exfalso. apply Hq. left. symmetry. apply posEqb_eq. exact E.
Qed.

Lemma sorted_NoDup (l : list Pos) : StronglySorted lexLt l -> NoDup l.
Proof.
  induction 1 as [| p rest Hs IH Hall]; constructor; [| assumption].
  intros Hin. rewrite Forall_forall in Hall. specialize (Hall p Hin).
  unfold lexLt in Hall. lia.
Qed.

Lemma probes_inside (n : Z) (pr : Pos * Pos) :
  In pr (MatchDetector.probes n) ->
  (0 <= row (fst pr) < n /\ 0 <= col (fst pr) < n)
  /\ (0 <= row (snd pr) < n /\ 0 <= col (snd pr) < n).
Proof.
  unfold MatchDetector.probes. intros H.
  apply in_flat_map in H. destruct H as [r [Hr H]].
  apply in_flat_map in H. destruct H as [c [Hc H]].
  apply zrange_In in Hr, Hc. apply in_app_iff in H.
  destruct H as [H | H].
  - destruct (c <? n - 1) eqn:E; [| contradiction].
    apply Z.ltb_lt in E. destruct H as [<- | []]. simpl. lia.
  - destruct (r <? n - 1) eqn:E; [| contradiction].
    apply Z.ltb_lt in E. destruct H as [<- | []]. simpl. lia.
Qed.

(** The hint search leaves a square board as it was. *)
Lemma findPossibleMatch_square (n : Z) (g : Board) :
  square n g -> exists res, MatchDetector.findPossibleMatch g = Some (res, g).
Proof.
  intros Hsq. unfold MatchDetector.findPossibleMatch.
  assert (Hn : gridSize g = n) by apply Hsq. rewrite Hn.
  pose proof (probes_inside n) as Hin. revert Hin.
  generalize (MatchDetector.probes n) as todo.
  induction todo as [| [p1 p2] rest IH]; intros Hin; cbn [MatchDetector.firstMatching].
  - eauto.
  - destruct (Hin (p1, p2) (or_introl eq_refl)) as [[H1 H2] [H3 H4]]. cbn [fst snd] in *.
    destruct (wouldMatch_inBounds g p1 p2) as [b ->];
      try (eapply square_inBounds; eauto).
    destruct b; [eauto |].
    apply IH. intros pr Hpr. apply Hin. right. assumption.
Qed.

Lemma tilesOf_somes (l : list Tile) : tilesOf (map Some l) = l.
Proof. induction l as [| t rest IH]; [reflexivity |]. cbn. f_equal. exact IH. Qed.

Lemma tilesOf_length (l : list Cell) : (List.length (tilesOf l) <= List.length l)%nat.
Proof.
  induction l as [| c rest IH]; [apply Nat.le_refl |].
  unfold tilesOf in *. destruct c; simpl; lia.
Qed.

Lemma tilesOf_perm (l l' : list Cell) :
  Permutation l l' -> Permutation (tilesOf l) (tilesOf l').
Proof. intros H. unfold tilesOf. apply Permutation_flat_map. exact H. Qed.

Lemma withData_same (w : World) : withData w (data w) = w.
Proof. destruct w; reflexivity. Qed.

(** One round of [shuffle], up to the check: the board is square again and
    holds the same tiles. *)
Lemma shuffle_round (w : World) (rest : M unit) :
  square (size w) (data w) ->
  exists w1,
    (w0 <- get ;;
     allTiles <- foldM Grid.collectTile (Grid.cellsRowMajor (size w0)) [] ;;
     shuffled <- Grid.fisherYates allTiles ;;
     foldM (Grid.reassignCell shuffled) (Grid.cellsRowMajor (size w0)) 0 ;;;
     rest) w = rest w1
    /\ square (size w1) (data w1) /\ size w1 = size w
    /\ Permutation (boardTiles (data w1)) (boardTiles (data w)).
Proof.
  intros Hsq. pose proof Hsq as [Hlen Hrows].
  unfold bind at 1, get. unfold bind at 1.
  rewrite collect_spec by (intros p Hp; apply cellsRowMajor_In in Hp; lia).
  cbn [app]. rewrite (concat_cells _ _ Hsq).
  unfold bind at 1.
  destruct (fisherYates_spec (map Some (tilesOf (concat (data w)))) w)
    as [sh [k [-> Hperm]]].
  unfold bind at 1.
  destruct (reassign_spec sh (Grid.cellsRowMajor (size w)) 0 (withRandomCalls w k))
    as [w1 [-> [Hshape [Hsize [Hmap _]]]]].
  { apply sorted_NoDup. apply cellsRowMajor_sorted. }
  { intros p Hp. apply cellsRowMajor_In in Hp. cbn.
    eapply square_inBounds; eauto; tauto. }
  cbn [data size withRandomCalls] in *.
  assert (Hsq1 : square (size w1) (data w1))
    by (rewrite Hsize; eapply square_shape; eauto).
  exists w1. repeat split; try assumption; try apply Hsq1.
  unfold boardTiles.
  rewrite <- (concat_cells _ _ Hsq1), Hsize, Hmap, Z.add_0_l.
  assert (Hshort : Z.of_nat (List.length sh)
                   <= Z.of_nat (List.length (Grid.cellsRowMajor (size w)))).
  { rewrite (Permutation_length Hperm), length_map.
    rewrite <- (length_map (fun p => cellAt (data w) (row p) (col p))
                           (Grid.cellsRowMajor (size w))).
    rewrite (concat_cells _ _ Hsq).
    apply inj_le. apply tilesOf_length. }
  rewrite elementAt_padded by assumption.
  rewrite tilesOf_app, tilesOf_holes, app_nil_r.
  eapply perm_trans; [apply tilesOf_perm; exact Hperm |].
  rewrite tilesOf_somes. apply Permutation_refl.
Qed.

Lemma shuffle_returns (fuel : nat) :
  forall w w',
    square (size w) (data w) ->
    Grid.shuffle fuel w = Returned tt w' ->
    MatchDetector.matches (MatchDetector.findAllMatches (data w')) = []
    /\ (exists pair, MatchDetector.findPossibleMatch (data w') = Some (Some pair, data w'))
    /\ Permutation (boardTiles (data w')) (boardTiles (data w)).
Proof.
  induction fuel as [| f IH]; intros w w' Hsq Hret; [discriminate |].
  cbn [Grid.shuffle] in Hret.
  destruct (shuffle_round w (Grid.checkShuffled (Grid.shuffle f)) Hsq)
    as [w1 [Heq [Hsq1 [Hsize Hperm]]]].
  rewrite Heq in Hret. clear Heq.
  unfold Grid.checkShuffled, bind at 1, get in Hret. cbv zeta in Hret.
  destruct (0 <? Z.of_nat (List.length
              (MatchDetector.matches (MatchDetector.findAllMatches (data w1))))) eqn:Efound.
  - destruct (IH w1 w' Hsq1 Hret) as [H1 [H2 H3]].
    repeat split; auto. eapply perm_trans; eauto.
  - unfold bind at 1, Grid.hasPossibleMoves, bind at 1, onData in Hret.
    destruct (findPossibleMatch_square _ _ Hsq1) as [res Hres].
    rewrite Hres in Hret. unfold ret at 1 in Hret. rewrite withData_same in Hret.
    destruct res as [pair |]; cbn [negb] in Hret.
    + unfold ret in Hret. inversion Hret; subst w'.
      repeat split; auto.
      * destruct (MatchDetector.matches (MatchDetector.findAllMatches (data w1)));
          [reflexivity |].
        apply Z.ltb_ge in Efound. cbn [List.length] in Efound. lia.
      * eauto.
    + destruct (IH w1 w' Hsq1 Hret) as [H1 [H2 H3]].
      repeat split; auto. eapply perm_trans; eauto.
Qed.

(** C8. Whenever [shuffle] returns on a square board, the board it leaves
    has no immediate match ([findAllMatches] finds nothing) and at least one
    possible move ([findPossibleMatch] finds a pair), its tiles are a
    permutation of the tiles before the call, and [Game.moves] is what it
    was. *)
Theorem reshuffle_result (fuel : nat) (w w' : World) :
  square (size w) (data w) ->
  Grid.shuffle fuel w = Returned tt w' ->
  MatchDetector.matches (MatchDetector.findAllMatches (data w')) = []
  /\ (exists pair, MatchDetector.findPossibleMatch (data w') = Some (Some pair, data w'))
  /\ Permutation (boardTiles (data w')) (boardTiles (data w))
  /\ moves w' = moves w.
Proof.
  intros Hsq Hret.
  destruct (shuffle_returns fuel w w' Hsq Hret) as [H1 [H2 H3]].
  repeat split; auto.
  pose proof (keepsMoves_shuffle fuel w) as Hm. rewrite Hret in Hm. exact Hm.
Qed.

(** ** Adjacency and neighbours *)

Lemma areAdjacent_iff (p q : Pos) :
  MatchDetector.areAdjacent p q = true
  <-> Z.abs (row p - row q) + Z.abs (col p - col q) = 1.
Proof.
  unfold MatchDetector.areAdjacent.
  rewrite orb_true_iff, !andb_true_iff, !Z.eqb_eq. lia.
Qed.

Lemma areAdjacent_sym (p q : Pos) :
  MatchDetector.areAdjacent p q = MatchDetector.areAdjacent q p.
Proof.
  unfold MatchDetector.areAdjacent.
  replace (row q - row p) with (- (row p - row q)) by lia.
  replace (col q - col p) with (- (col p - col q)) by lia.
  rewrite !Z.abs_opp. reflexivity.
Qed.

(** X1. [areAdjacent] holds exactly for two positions at Manhattan distance
    1; it is symmetric and never holds for a position and itself. *)
Theorem areAdjacent_manhattan (p q : Pos) :
  (MatchDetector.areAdjacent p q = true
   <-> Z.abs (row p - row q) + Z.abs (col p - col q) = 1)
  /\ MatchDetector.areAdjacent p q = MatchDetector.areAdjacent q p
  /\ MatchDetector.areAdjacent p p = false.
Proof.
  split; [apply areAdjacent_iff | split; [apply areAdjacent_sym |]].
  unfold MatchDetector.areAdjacent. rewrite !Z.sub_diag. reflexivity.
Qed.

(** The cell that [getNeighbors] tries in the direction [(dr, dc)]. *)
Lemma neighbour_cell_In (n r c dr dc : Z) (q : Pos) :
  In q (if (0 <=? r + dr) && (r + dr <? n) && (0 <=? c + dc) && (c + dc <? n)
        then [mkPos (r + dr) (c + dc)] else [])
  <-> onBoard n q /\ row q = r + dr /\ col q = c + dc.
Proof.
  unfold onBoard.
  destruct ((0 <=? r + dr) && (r + dr <? n) && (0 <=? c + dc) && (c + dc <? n)) eqn:E.
  - rewrite !andb_true_iff in E. split.
    + intros [<- | []]. simpl. lia.
    + intros [_ [Hr Hc]]. left. destruct q; simpl in *; subst; reflexivity.
  - split; [intros [] |]. intros [[Hr Hc] [Er Ec]].
    rewrite !andb_false_iff in E. lia.
Qed.

(** X2. [getNeighbors(row, col)] returns, without changing anything, the
    positions of the board that are adjacent to [(row, col)], each once, at
    most four of them and exactly four when the cell is not on an edge. *)
Theorem getNeighbors_adjacent (r c : Z) (w : World) :
  exists l,
    Grid.getNeighbors r c w = Returned l w
    /\ (forall q, In q l <->
                  onBoard (size w) q /\ MatchDetector.areAdjacent (mkPos r c) q = true)
    /\ NoDup l
    /\ (List.length l <= 4)%nat
    /\ (1 <= r < size w - 1 -> 1 <= c < size w - 1 -> List.length l = 4%nat).
Proof.
  eexists. split; [reflexivity |].
  set (n := size w). cbn [flat_map fst snd]. rewrite app_nil_r.
  split; [| split; [| split]].
  - intros q. rewrite !in_app_iff, !neighbour_cell_In, areAdjacent_iff.
    cbn [row col]. unfold onBoard. lia.
  - repeat match goal with
           | |- context [if ?b then _ else _] => destruct b
           end;
      cbn [app]; repeat constructor; cbn [In]; intros H;
      repeat (destruct H as [H | H]); try contradiction; inversion H; lia.
  - repeat match goal with
           | |- context [if ?b then _ else _] => destruct b
           end; cbn; lia.
  - intros Hr Hc.
    replace ((0 <=? r + -1) && (r + -1 <? n) && (0 <=? c + 0) && (c + 0 <? n)) with true
      by (symmetry; rewrite !andb_true_iff; lia).
    replace ((0 <=? r + 1) && (r + 1 <? n) && (0 <=? c + 0) && (c + 0 <? n)) with true
      by (symmetry; rewrite !andb_true_iff; lia).
    replace ((0 <=? r + 0) && (r + 0 <? n) && (0 <=? c + -1) && (c + -1 <? n)) with true
      by (symmetry; rewrite !andb_true_iff; lia).
    replace ((0 <=? r + 0) && (r + 0 <? n) && (0 <=? c + 1) && (c + 1 <? n)) with true
      by (symmetry; rewrite !andb_true_iff; lia).
    reflexivity.
Qed.

(** ** Removal of duplicates *)

Lemma dedup_loop (l : list Pos) :
  forall st : list Pos * PosSet,
    NoDup (fst st) -> (forall q, In q (fst st) <-> In q (snd st)) ->
    let st' := fold_left
                 (fun (st : list Pos * PosSet) (pos : Pos) =>
                    if setHas (snd st) pos then st
                    else (fst st ++ [pos], setAdd (snd st) pos)) l st in
    NoDup (fst st')
    /\ (NoDup l -> (forall q, In q l -> ~ In q (fst st)) -> fst st' = fst st ++ l).
Proof.
  induction l as [| x rest IH]; intros st Hnd Hsame; cbn zeta; cbn [fold_left].
  - split; [assumption | intros _ _; symmetry; apply app_nil_r].
  - destruct (setHas (snd st) x) eqn:E.
    + destruct (IH st Hnd Hsame) as [H1 H2]. split; [exact H1 |].
      intros _ Hfresh. exfalso. apply (Hfresh x (or_introl eq_refl)).
      apply Hsame. apply setHas_In. exact E.
    + assert (Hx : ~ In x (fst st)).
      { intros Hin. apply Hsame in Hin. apply setHas_In in Hin. congruence. }
      destruct (IH (fst st ++ [x], setAdd (snd st) x)) as [H1 H2].
      * cbn [fst]. apply NoDup_app; [assumption | repeat constructor; intros [] |].
        intros q Hq [<- | []]. contradiction.
      * intros q. cbn [fst snd]. rewrite in_app_iff, setAdd_In, Hsame. simpl. intuition.
      * split; [exact H1 |]. intros Hl Hfresh. inversion Hl as [| ? ? Hnotin Hl']; subst.
        cbn [fst] in H2. rewrite H2; [rewrite <- app_assoc; reflexivity | assumption |].
        intros q Hq Hin. apply in_app_iff in Hin. destruct Hin as [Hin | [<- | []]].
        -- apply (Hfresh q); [right |]; assumption.
        -- contradiction.
Qed.

Lemma dedup_NoDup (l : list Pos) : NoDup (Game.deduplicatePositions l).
Proof.
  unfold Game.deduplicatePositions.
  apply (dedup_loop l ([], [])); [constructor | intros q; simpl; tauto].
Qed.

(** X3. [deduplicatePositions] keeps exactly the positions of its argument,
    each once; it returns a list without duplicates unchanged, and applying
    it twice is applying it once. *)
Theorem deduplicatePositions_unique (l : list Pos) :
  NoDup (Game.deduplicatePositions l)
  /\ (forall p, In p (Game.deduplicatePositions l) <-> In p l)
  /\ (NoDup l -> Game.deduplicatePositions l = l)
  /\ Game.deduplicatePositions (Game.deduplicatePositions l) = Game.deduplicatePositions l.
Proof.
  assert (Hnd : forall l', NoDup (Game.deduplicatePositions l')).
  { intros l'. unfold Game.deduplicatePositions.
    apply (dedup_loop l' ([], [])); [constructor | intros q; simpl; tauto]. }
  assert (Hfix : forall l', NoDup l' -> Game.deduplicatePositions l' = l').
  { intros l' H. unfold Game.deduplicatePositions.
    apply (dedup_loop l' ([], [])); auto; [constructor | intros q; simpl; tauto]. }
  split; [apply Hnd |]. split; [intros p; apply deduplicatePositions_In |].
  split; [apply Hfix |]. apply Hfix. apply Hnd.
Qed.

(** ** Clear sets *)

Lemma flat_map_cell_In (n r c : Z) (q : Pos) :
  In q (if (0 <=? r) && (r <? n) && (0 <=? c) && (c <? n) then [mkPos r c] else [])
  <-> onBoard n q /\ row q = r /\ col q = c.
Proof.
  pose proof (neighbour_cell_In n r c 0 0 q) as H.
  rewrite !Z.add_0_r in H. exact H.
Qed.

Lemma wrapped_positions_sorted (g : Board) (pos : Pos) :
  StronglySorted lexLt (MatchDetector.getSpecialClearPositions g pos wrapped).
Proof.
  unfold MatchDetector.getSpecialClearPositions.
  apply sorted_flat_map with (R0 := Z.lt); [apply zrange_sorted' | |].
  - intros i _. apply sorted_flat_map with (R0 := Z.lt); [apply zrange_sorted' | |].
    + intros j _. destruct (_ && _); repeat constructor.
    + intros j j' a b Hlt Ha Hb.
      destruct (_ && _) in Ha; [| contradiction].
      destruct (_ && _) in Hb; [| contradiction].
      destruct Ha as [<- | []], Hb as [<- | []]. right. simpl. lia.
  - intros i i' a b Hlt Ha Hb.
    apply in_flat_map in Ha, Hb. destruct Ha as [j [_ Ha]], Hb as [j' [_ Hb]].
    destruct (_ && _) in Ha; [| contradiction].
    destruct (_ && _) in Hb; [| contradiction].
    destruct Ha as [<- | []], Hb as [<- | []]. left. simpl. lia.
Qed.

Lemma special_positions_In (g : Board) (pos : Pos) (sp : Special) (q : Pos) :
  In q (MatchDetector.getSpecialClearPositions g pos sp) <->
  match sp with
  | striped_h => row q = row pos /\ 0 <= col q < gridSize g
  | striped_v => col q = col pos /\ 0 <= row q < gridSize g
  | wrapped =>
      onBoard (gridSize g) q
      /\ Z.abs (row q - row pos) <= 1 /\ Z.abs (col q - col pos) <= 1
  end.
Proof.
  unfold MatchDetector.getSpecialClearPositions. destruct sp.
  - rewrite in_map_iff. split.
    + intros [c [<- Hc]]. apply zrange_In in Hc. simpl. lia.
    + intros [Hr Hc]. exists (col q). split; [| apply zrange_In; lia].
      destruct q; simpl in *; subst; reflexivity.
  - rewrite in_map_iff. split.
    + intros [r [<- Hr]]. apply zrange_In in Hr. simpl. lia.
    + intros [Hc Hr]. exists (row q). split; [| apply zrange_In; lia].
      destruct q; simpl in *; subst; reflexivity.
  - rewrite in_flat_map. split.
    + intros [r [Hr H]]. apply in_flat_map in H. destruct H as [c [Hc H]].
      apply zrange_In in Hr, Hc. apply flat_map_cell_In in H. unfold onBoard in *. lia.
    + intros [Hon [Hr Hc]]. exists (row q). split; [apply zrange_In; lia |].
      apply in_flat_map. exists (col q). split; [apply zrange_In; lia |].
      apply flat_map_cell_In. auto.
Qed.

(** X4. [getSpecialClearPositions] never lists a position twice.  For
    'striped-h' it lists the cells of the row of the special in the columns
    of the board, for 'striped-v' the cells of its column in the rows of the
    board, and for 'wrapped' the cells of the board at most one step away in
    each direction.  A special on the board always clears its own cell. *)
Theorem special_clear_positions (g : Board) (pos : Pos) (sp : Special) :
  NoDup (MatchDetector.getSpecialClearPositions g pos sp)
  /\ (forall q,
        In q (MatchDetector.getSpecialClearPositions g pos sp) <->
        match sp with
        | striped_h => row q = row pos /\ 0 <= col q < gridSize g
        | striped_v => col q = col pos /\ 0 <= row q < gridSize g
        | wrapped =>
            onBoard (gridSize g) q
            /\ Z.abs (row q - row pos) <= 1 /\ Z.abs (col q - col pos) <= 1
        end)
  /\ (onBoard (gridSize g) pos ->
      In pos (MatchDetector.getSpecialClearPositions g pos sp)).
Proof.
  split; [| split].
  - destruct sp.
    + apply stripe_clear_row.
    + apply stripe_clear_col.
    + apply sorted_NoDup. apply wrapped_positions_sorted.
  - intros q. apply special_positions_In.
  - intros Hon. apply special_positions_In. unfold onBoard in *.
    destruct sp; rewrite ?Z.sub_diag; simpl; lia.
Qed.


Lemma addPos_adds (n r c : Z) :
  adds (fun st => MatchDetector.addPos n st r c)
       (fun q => onBoard n q /\ row q = r /\ col q = c).
Proof.
  intros st [Hnd Hsame]. unfold MatchDetector.addPos.
  destruct ((0 <=? r) && (r <? n) && (0 <=? c) && (c <? n)) eqn:E.
  - rewrite !andb_true_iff in E.
    destruct (setHas (snd st) (mkPos r c)) eqn:Es; cbn [negb].
    + apply setHas_In in Es. apply Hsame in Es. split; [split; assumption |].
      intros q. split; [auto |]. intros [H | [_ [Hr Hc]]]; [assumption |].
      destruct q; simpl in *; subst; assumption.
    + assert (Hnew : ~ In (mkPos r c) (fst st)).
      { intros Hin. apply Hsame in Hin. apply setHas_In in Hin. congruence. }
      split; [split |]; cbn [fst snd].
      * apply NoDup_app; [assumption | repeat constructor; intros [] |].
        intros q Hq [<- | []]. contradiction.
      * intros q. rewrite in_app_iff, setAdd_In, Hsame. simpl. intuition.
      * intros q. rewrite in_app_iff. simpl. unfold onBoard. split.
        -- intros [H | [<- | []]]; [auto |]. right. simpl. lia.
        -- intros [H | [_ [Hr Hc]]]; [auto |]. right. left.
           destruct q; simpl in *; subst; reflexivity.
  - split; [split; assumption |]. intros q. split; [auto |].
    intros [H | [[Hr Hc] [Er Ec]]]; [assumption |].
    rewrite !andb_false_iff in E. lia.
Qed.

Lemma fold_adds {A : Type} (f : list Pos * PosSet -> A -> list Pos * PosSet)
    (S : A -> Pos -> Prop) (l : list A) :
  (forall x, adds (fun st => f st x) (S x)) ->
  adds (fun st => fold_left f l st) (fun q => exists x, In x l /\ S x q).
Proof.
  intros Hf. induction l as [| x rest IH]; intros st Hst; cbn [fold_left].
  - split; [assumption |]. intros q. split; [auto |].
    intros [H | [x [[] _]]]. assumption.
  - destruct (Hf x st Hst) as [H1 H2]. destruct (IH (f st x) H1) as [H3 H4].
    split; [assumption |]. intros q. rewrite H4, H2. split.
    + intros [[H | H] | [y [Hy H]]]; [auto | right; exists x | right; exists y]; simpl; auto.
    + intros [H | [y [[<- | Hy] H]]]; [auto | auto |]. right. exists y. auto.
Qed.

Lemma combination_positions_spec (g : Board) (combo : MatchDetector.Combination) :
  NoDup (MatchDetector.getSpecialCombinationClearPositions g combo)
  /\ forall q,
       In q (MatchDetector.getSpecialCombinationClearPositions g combo) <->
       onBoard (gridSize g) q
       /\ match MatchDetector.combinationType combo with
          | MatchDetector.striped_striped =>
              row q = row (MatchDetector.pos1 combo) \/ col q = col (MatchDetector.pos1 combo)
              \/ row q = row (MatchDetector.pos2 combo) \/ col q = col (MatchDetector.pos2 combo)
          | MatchDetector.striped_wrapped =>
              Z.abs (row q - row (MatchDetector.pos1 combo)) <= 1
              \/ Z.abs (col q - col (MatchDetector.pos1 combo)) <= 1
          | MatchDetector.wrapped_wrapped =>
              Z.abs (row q - row (MatchDetector.pos1 combo)) <= 2
              /\ Z.abs (col q - col (MatchDetector.pos1 combo)) <= 2
          | MatchDetector.unknown => False
          end.
Proof.
  unfold MatchDetector.getSpecialCombinationClearPositions.
  set (n := gridSize g).
  set (p1 := MatchDetector.pos1 combo). set (p2 := MatchDetector.pos2 combo).
  assert (H0 : seenConsistent ([], [])) by (split; [constructor | intros q; simpl; tauto]).
  cbv zeta.
  destruct (MatchDetector.combinationType combo).
  - pose proof (fold_adds (fun st c => MatchDetector.addPos n st (row p1) c) _ (zrange 0 n)
                  (fun c => addPos_adds n (row p1) c)) as A1.
    pose proof (fold_adds (fun st r => MatchDetector.addPos n st r (col p1)) _ (zrange 0 n)
                  (fun r => addPos_adds n r (col p1))) as A2.
    pose proof (fold_adds (fun st c => MatchDetector.addPos n st (row p2) c) _ (zrange 0 n)
                  (fun c => addPos_adds n (row p2) c)) as A3.
    pose proof (fold_adds (fun st r => MatchDetector.addPos n st r (col p2)) _ (zrange 0 n)
                  (fun r => addPos_adds n r (col p2))) as A4.
    destruct (A1 _ H0) as [C1 M1]. destruct (A2 _ C1) as [C2 M2].
    destruct (A3 _ C2) as [C3 M3]. destruct (A4 _ C3) as [C4 M4].
    split; [apply C4 |]. intros q. rewrite M4, M3, M2, M1. cbn [fst In]. unfold onBoard.
    split.
    + intros [[[[[] | [x [_ H]]] | [x [_ H]]] | [x [_ H]]] | [x [_ H]]];
        unfold onBoard in H; lia.
    + intros [[Hr Hc] [H | [H | [H | H]]]].
      * left. left. left. right. exists (col q). rewrite zrange_In. unfold onBoard. lia.
      * left. left. right. exists (row q). rewrite zrange_In. unfold onBoard. lia.
      * left. right. exists (col q). rewrite zrange_In. unfold onBoard. lia.
      * right. exists (row q). rewrite zrange_In. unfold onBoard. lia.
  - pose proof (fold_adds
                  (fun st dr => fold_left (fun st' c => MatchDetector.addPos n st' (row p1 + dr) c)
                                          (zrange 0 n) st) _ (zrange (-1) 2)
                  (fun dr => fold_adds (fun st' c => MatchDetector.addPos n st' (row p1 + dr) c)
                                       _ (zrange 0 n)
                                       (fun c => addPos_adds n (row p1 + dr) c))) as A1.
    pose proof (fold_adds
                  (fun st dc => fold_left (fun st' r => MatchDetector.addPos n st' r (col p1 + dc))
                                          (zrange 0 n) st) _ (zrange (-1) 2)
                  (fun dc => fold_adds (fun st' r => MatchDetector.addPos n st' r (col p1 + dc))
                                       _ (zrange 0 n)
                                       (fun r => addPos_adds n r (col p1 + dc)))) as A2.
    destruct (A1 _ H0) as [C1 M1]. destruct (A2 _ C1) as [C2 M2].
    split; [apply C2 |]. intros q. rewrite M2, M1. cbn [fst In]. unfold onBoard. split.
    + intros [[[] | [dr [Hdr [c [_ H]]]]] | [dc [Hdc [r [_ H]]]]];
        apply zrange_In in Hdr || apply zrange_In in Hdc; unfold onBoard in H; lia.
    + intros [[Hr Hc] [H | H]].
      * left. right. exists (row q - row p1). split; [apply zrange_In; lia |].
        exists (col q). rewrite zrange_In. unfold onBoard. lia.
      * right. exists (col q - col p1). split; [apply zrange_In; lia |].
        exists (row q). rewrite zrange_In. unfold onBoard. lia.
  - pose proof (fold_adds
                  (fun st dr => fold_left
                                  (fun st' dc => MatchDetector.addPos n st' (row p1 + dr) (col p1 + dc))
                                  (zrange (-2) 3) st) _ (zrange (-2) 3)
                  (fun dr => fold_adds
                               (fun st' dc => MatchDetector.addPos n st' (row p1 + dr) (col p1 + dc))
                               _ (zrange (-2) 3)
                               (fun dc => addPos_adds n (row p1 + dr) (col p1 + dc)))) as A1.
    destruct (A1 _ H0) as [C1 M1].
    split; [apply C1 |]. intros q. rewrite M1. cbn [fst In]. unfold onBoard. split.
    + intros [[] | [dr [Hdr [dc [Hdc H]]]]].
      apply zrange_In in Hdr, Hdc. unfold onBoard in H. lia.
    + intros [[Hr Hc] [H1 H2]].
      right. exists (row q - row p1). split; [apply zrange_In; lia |].
      exists (col q - col p1). split; [apply zrange_In; lia |]. unfold onBoard. lia.
  - split; [constructor |]. intros q. simpl. tauto.
Qed.

(** X5. [getSpecialCombinationClearPositions] never lists a position twice
    and lists positions of the board only: for 'striped-striped' the cells
    in the row or the column of either position, for 'striped-wrapped' the
    cells at most one row or at most one column away from [pos1], for
    'wrapped-wrapped' the cells at most two rows and two columns away from
    [pos1], and nothing for any other type. *)
Theorem combination_clear_positions (g : Board) (combo : MatchDetector.Combination) :
  NoDup (MatchDetector.getSpecialCombinationClearPositions g combo)
  /\ forall q,
       In q (MatchDetector.getSpecialCombinationClearPositions g combo) <->
       onBoard (gridSize g) q
       /\ match MatchDetector.combinationType combo with
          | MatchDetector.striped_striped =>
              row q = row (MatchDetector.pos1 combo) \/ col q = col (MatchDetector.pos1 combo)
              \/ row q = row (MatchDetector.pos2 combo) \/ col q = col (MatchDetector.pos2 combo)
          | MatchDetector.striped_wrapped =>
              Z.abs (row q - row (MatchDetector.pos1 combo)) <= 1
              \/ Z.abs (col q - col (MatchDetector.pos1 combo)) <= 1
          | MatchDetector.wrapped_wrapped =>
              Z.abs (row q - row (MatchDetector.pos1 combo)) <= 2
              /\ Z.abs (col q - col (MatchDetector.pos1 combo)) <= 2
          | MatchDetector.unknown => False
          end.
Proof. apply combination_positions_spec. Qed.

(** ** Combinations of two specials *)

Lemma getCombinationType_known (s1 s2 : Special) :
  MatchDetector.getCombinationType s1 s2 <> MatchDetector.unknown.
Proof. destruct s1, s2; discriminate. Qed.

Lemma square_onBoard (n : Z) (g : Board) (p : Pos) :
  square n g -> inBounds g p -> onBoard n p.
Proof.
  intros [Hlen Hrows] [line [Hl Hc]]. unfold onBoard.
  pose proof (nthZ_Some _ _ _ Hl) as Hr. unfold gridSize in Hlen.
  rewrite Forall_forall in Hrows.
  assert (Hin : In line g).
  { unfold nthZ in Hl. destruct (row p <? 0); [discriminate |].
    eapply nth_error_In; eauto. }
  rewrite (Hrows line Hin) in Hc. lia.
Qed.

Lemma isSpecialCombination_spec (g : Board) (p1 p2 : Pos) :
  MatchDetector.isSpecialCombination g p1 p2 =
  match MatchDetector.isSpecialCandy (cellAt g (row p1) (col p1)),
        MatchDetector.isSpecialCandy (cellAt g (row p2) (col p2)) with
  | Some s1, Some s2 =>
      Some (MatchDetector.mkCombination p1 p2 s1 s2 (MatchDetector.getCombinationType s1 s2))
  | _, _ => None
  end.
Proof. reflexivity. Qed.

(** X6. [isSpecialCombination] returns null exactly when one of the two
    cells holds no special candy.  Otherwise the combination records the two
    positions in the order given and the two kinds found there, its type is
    never 'unknown', and on a square board the clear set of the combination
    of two adjacent positions contains both of them. *)
Theorem special_combination_covers_swap (n : Z) (g : Board) (p1 p2 : Pos) :
  (MatchDetector.isSpecialCombination g p1 p2 = None <->
   MatchDetector.isSpecialCandy (cellAt g (row p1) (col p1)) = None
   \/ MatchDetector.isSpecialCandy (cellAt g (row p2) (col p2)) = None)
  /\ forall combo,
       MatchDetector.isSpecialCombination g p1 p2 = Some combo ->
       MatchDetector.pos1 combo = p1 /\ MatchDetector.pos2 combo = p2
       /\ MatchDetector.isSpecialCandy (cellAt g (row p1) (col p1))
          = Some (MatchDetector.type1 combo)
       /\ MatchDetector.isSpecialCandy (cellAt g (row p2) (col p2))
          = Some (MatchDetector.type2 combo)
       /\ MatchDetector.combinationType combo <> MatchDetector.unknown
       /\ (square n g -> MatchDetector.areAdjacent p1 p2 = true ->
           In p1 (MatchDetector.getSpecialCombinationClearPositions g combo)
           /\ In p2 (MatchDetector.getSpecialCombinationClearPositions g combo)).
Proof.
  split.
  - rewrite isSpecialCombination_spec.
    destruct (MatchDetector.isSpecialCandy (cellAt g (row p1) (col p1)));
      destruct (MatchDetector.isSpecialCandy (cellAt g (row p2) (col p2)));
      split; intros H; try discriminate; auto; destruct H; discriminate.
  - intros combo H.
    destruct (isSpecialCombination_inBounds g p1 p2 combo H) as [B1 B2].
    rewrite isSpecialCombination_spec in H.
    destruct (MatchDetector.isSpecialCandy (cellAt g (row p1) (col p1))) as [s1 |];
      [| discriminate].
    destruct (MatchDetector.isSpecialCandy (cellAt g (row p2) (col p2))) as [s2 |];
      [| discriminate].
    inversion H; subst combo; clear H. cbn [MatchDetector.pos1 MatchDetector.pos2
      MatchDetector.type1 MatchDetector.type2 MatchDetector.combinationType].
    split; [reflexivity |]. split; [reflexivity |]. split; [reflexivity |].
    split; [reflexivity |]. split; [apply getCombinationType_known |].
    intros Hsq Hadj.
    pose proof (square_onBoard n g p1 Hsq B1) as O1.
    pose proof (square_onBoard n g p2 Hsq B2) as O2.
    destruct Hsq as [Hn _]. apply areAdjacent_iff in Hadj.
    pose proof (getCombinationType_known s1 s2) as Hk.
    split; apply combination_positions_spec; rewrite Hn;
      (split; [assumption |]); cbn;
      destruct (MatchDetector.getCombinationType s1 s2); try lia; congruence.
Qed.

(** ** The matched positions *)

Lemma setAdd_NoDup (s : PosSet) (p : Pos) : NoDup s -> NoDup (setAdd s p).
Proof.
  intros H. unfold setAdd. destruct (setHas s p) eqn:E; [assumption |].
  apply NoDup_app; [assumption | repeat constructor; intros [] |].
  intros q Hq [<- | []]. apply setHas_In in Hq. congruence.
Qed.

Lemma stretch_mono (n : Z) (line : Z -> Cell) (b b' i : Z) :
  b <= b' -> stretch n line b i -> stretch n line b' i.
Proof.
  intros Hb [s [len [H1 [H2 [H3 [H4 H5]]]]]]. exists s, len.
  repeat split; try lia. exact H5.
Qed.

Section ScanMatched.

Variables (n : Z) (line : Z -> Cell) (at_ : Z -> Pos) (stripe : Special).
Variable m0 : PosSet.

Lemma linkedAt_end : linkedAt n line n = false.
Proof. unfold linkedAt. rewrite Z.ltb_irrefl. reflexivity. Qed.

Lemma scanStep_inv (a : Z) (st : MatchDetector.Scan) :
  scanInv n line at_ m0 a st ->
  scanInv n line at_ m0 (a + 1) (MatchDetector.scanStep n line at_ stripe st a)
  /\ (linkedAt n line a = false ->
      MatchDetector.matchStart (MatchDetector.scanStep n line at_ stripe st a) = a).
Proof.
  intros [Hb [Hlen [Hlinks [Hfirst Hm]]]].
  destruct (linkedAt n line a) eqn:E.
  - rewrite scanStep_linked by assumption. split; [| discriminate].
    unfold scanInv. cbn. repeat split; try lia.
    + intros j Hj. destruct (Z.eq_dec j a) as [-> | Hne]; [assumption |].
      apply Hlinks. lia.
    + assumption.
    + apply Hm.
    + apply Hm.
  - destruct (scanStep_break n line at_ stripe st a E) as [E1 [E2 [_ E4]]].
    split; [| intros _; exact E1].
    unfold scanInv. rewrite E1, E2, E4. repeat split; try lia.
    + intros _. assumption.
    + intros Hin.
      assert (Hold : In p (MatchDetector.matchedPositions st)
                     \/ (3 <= MatchDetector.matchLength st
                         /\ In p (map at_ (zrange (MatchDetector.matchStart st)
                                    (MatchDetector.matchStart st
                                     + MatchDetector.matchLength st))))).
      { destruct (3 <=? MatchDetector.matchLength st) eqn:E3; [| auto].
        apply fold_setAdd_map_In in Hin. apply Z.leb_le in E3. tauto. }
      destruct Hold as [Hold | [H3 Hold]].
      * apply Hm in Hold. destruct Hold as [Hold | [i [Hp Hs]]]; [auto |].
        right. exists i. split; [assumption |].
        apply stretch_mono with (b := MatchDetector.matchStart st); [lia | assumption].
      * apply in_map_iff in Hold. destruct Hold as [k [Hk Hin']].
        apply zrange_In in Hin'. right. exists k. split; [auto |].
        exists (MatchDetector.matchStart st), (MatchDetector.matchLength st).
        repeat split; try lia. intros j Hj. apply Hlinks. lia.
    + intros [Hin | [i [Hp [s [len [H1 [H2 [H3 [H4 H5]]]]]]]]].
      * assert (In p (MatchDetector.matchedPositions st)) by (apply Hm; auto).
        destruct (3 <=? MatchDetector.matchLength st); [| assumption].
        apply fold_setAdd_map_In. auto.
      * destruct (Z_le_gt_dec (s + len) (MatchDetector.matchStart st)) as [Hle | Hgt].
        -- assert (In p (MatchDetector.matchedPositions st)).
           { apply Hm. right. exists i. split; [assumption |].
             exists s, len. repeat split; try lia. exact H5. }
           destruct (3 <=? MatchDetector.matchLength st); [| assumption].
           apply fold_setAdd_map_In. auto.
        -- assert (Hs : MatchDetector.matchStart st <= s).
           { destruct (Z_le_gt_dec (MatchDetector.matchStart st) s) as [? | Hlt];
               [assumption |].
             assert (linkedAt n line (MatchDetector.matchStart st) = true)
               by (apply H5; lia).
             assert (linkedAt n line (MatchDetector.matchStart st) = false)
               by (apply Hfirst; lia).
             congruence. }
           replace (3 <=? MatchDetector.matchLength st) with true
             by (symmetry; apply Z.leb_le; lia).
           apply fold_setAdd_map_In. right. rewrite Hp. apply in_map.
           apply zrange_In. lia.
Qed.

Lemma scan_inv (m : nat) :
  forall (a : Z) (st : MatchDetector.Scan),
    scanInv n line at_ m0 a st ->
    scanInv n line at_ m0 (a + Z.of_nat m)
      (fold_left (MatchDetector.scanStep n line at_ stripe) (zrange a (a + Z.of_nat m)) st).
Proof.
  induction m as [| m IH]; intros a st H.
  - rewrite zrange_nil by lia. simpl. rewrite Z.add_0_r. assumption.
  - rewrite zrange_cons by lia.
    replace (a + Z.of_nat (S m)) with ((a + 1) + Z.of_nat m) by lia.
    cbn [fold_left]. apply IH. apply scanStep_inv. assumption.
Qed.

Lemma scanLine_matched (specials0 : list SpecialRequest) (p : Pos) :
  In p (fst (MatchDetector.scanLine n line at_ stripe (m0, specials0))) <->
  In p m0 \/ exists i, p = at_ i /\ stretch n line n i.
Proof.
  unfold MatchDetector.scanLine. cbn [fst snd].
  destruct (Z_le_gt_dec 1 n) as [Hn | Hn].
  - assert (H0 : scanInv n line at_ m0 1 (MatchDetector.mkScan 0 1 m0 specials0)).
    { unfold scanInv. cbn. repeat split; try lia.
      - auto.
      - intros [H | [i [_ [s [len H]]]]]; [assumption | lia]. }
    rewrite (zrange_snoc 1 n) by lia. rewrite fold_left_app. cbn [fold_left].
    pose proof (scan_inv (Z.to_nat (n - 1)) 1 _ H0) as H1.
    replace (1 + Z.of_nat (Z.to_nat (n - 1))) with n in H1 by lia.
    destruct (scanStep_inv n _ H1) as [[_ [_ [_ [_ Hm]]]] Hstart].
    rewrite (Hstart linkedAt_end) in Hm. apply Hm.
  - rewrite zrange_nil by lia. cbn. split; [auto |].
    intros [H | [i [_ [s [len H]]]]]; [assumption | lia].
Qed.

Lemma scanLine_NoDup (acc : PosSet * list SpecialRequest) :
  NoDup (fst acc) -> NoDup (fst (MatchDetector.scanLine n line at_ stripe acc)).
Proof.
  intros H. unfold MatchDetector.scanLine. cbn [fst snd].
  apply (fold_left_preserves (fun st => NoDup (MatchDetector.matchedPositions st)));
    [| exact H].
  intros st i Hst. unfold MatchDetector.scanStep.
  destruct (_ && _); [exact Hst |].
  destruct (3 <=? MatchDetector.matchLength st); [| exact Hst].
  cbn [MatchDetector.matchedPositions].
  apply (fold_left_preserves (fun s => NoDup s)); [| exact Hst].
  intros s k Hs. apply setAdd_NoDup. assumption.
Qed.

End ScanMatched.

Lemma scanAll_matched (n : Z) (lineOf : Z -> Z -> Cell) (atOf : Z -> Z -> Pos)
    (stripe : Special) (js : list Z) :
  forall (acc : PosSet * list SpecialRequest) (p : Pos),
    In p (fst (fold_left
                 (fun a j => MatchDetector.scanLine n (lineOf j) (atOf j) stripe a) js acc))
    <-> In p (fst acc)
        \/ exists j i, In j js /\ p = atOf j i /\ stretch n (lineOf j) n i.
Proof.
  induction js as [| j rest IH]; intros acc p; cbn [fold_left].
  - split; [auto |]. intros [H | [j [i [[] _]]]]. assumption.
  - rewrite IH. destruct acc as [m0 s0]. rewrite scanLine_matched. cbn [fst]. split.
    + intros [[H | [i [Hp Hs]]] | [j' [i [Hj [Hp Hs]]]]].
      * auto.
      * right. exists j, i. simpl. auto.
      * right. exists j', i. simpl. auto.
    + intros [H | [j' [i [[<- | Hj] [Hp Hs]]]]].
      * auto.
      * left. right. exists i. auto.
      * right. exists j', i. auto.
Qed.

Lemma scanAll_NoDup (n : Z) (lineOf : Z -> Z -> Cell) (atOf : Z -> Z -> Pos)
    (stripe : Special) (js : list Z) (acc : PosSet * list SpecialRequest) :
  NoDup (fst acc) ->
  NoDup (fst (fold_left
                (fun a j => MatchDetector.scanLine n (lineOf j) (atOf j) stripe a) js acc)).
Proof.
  apply (fold_left_preserves (fun a => NoDup (fst a))).
  intros a j Ha. apply scanLine_NoDup. assumption.
Qed.

Lemma findAllMatches_matches (g : Board) :
  NoDup (MatchDetector.matches (MatchDetector.findAllMatches g))
  /\ forall p, In p (MatchDetector.matches (MatchDetector.findAllMatches g)) <-> inMatch g p.
Proof.
  unfold MatchDetector.findAllMatches.
  destruct (MatchDetector.scanCols g (MatchDetector.scanRows g ([], []))) as [matched candies] eqn:E.
  cbn [MatchDetector.matches].
  assert (Em : matched = fst (MatchDetector.scanCols g (MatchDetector.scanRows g ([], []))))
    by (rewrite E; reflexivity).
  clear E. subst matched. unfold MatchDetector.scanCols, MatchDetector.scanRows. split.
  - apply scanAll_NoDup with (lineOf := fun c r => cellAt g r c) (atOf := fun c r => mkPos r c).
    apply scanAll_NoDup with (lineOf := fun r c => cellAt g r c) (atOf := fun r c => mkPos r c).
    constructor.
  - intros p.
    rewrite (scanAll_matched (gridSize g) (fun c r => cellAt g r c) (fun c r => mkPos r c)).
    rewrite (scanAll_matched (gridSize g) (fun r c => cellAt g r c) (fun r c => mkPos r c)).
    cbn [fst In]. unfold inMatch, onBoard. split.
    + intros [[[] | [r [c [Hr [Hp Hs]]]]] | [c [r [Hc [Hp Hs]]]]];
        subst p; cbn [row col]; apply zrange_In in Hr || apply zrange_In in Hc.
      * pose proof Hs as [s [len Hb]].
        split; [lia |]. left. assumption.
      * pose proof Hs as [s [len Hb]].
        split; [lia |]. right. assumption.
    + intros [[Hr Hc] [Hs | Hs]].
      * left. right. exists (row p), (col p). rewrite zrange_In, pos_eta. auto.
      * right. exists (col p), (row p). rewrite zrange_In, pos_eta. auto.
Qed.

(** X7. The matches of [findAllMatches] list no position twice, and a
    position is listed exactly when it lies on the board in a row stretch or
    in a column stretch of three or more consecutive tiles of one type. *)
Theorem findAllMatches_characterised (g : Board) :
  NoDup (MatchDetector.matches (MatchDetector.findAllMatches g))
  /\ forall p, In p (MatchDetector.matches (MatchDetector.findAllMatches g)) <-> inMatch g p.
Proof. apply findAllMatches_matches. Qed.

(** ** The check at one position *)

Lemma zrangeDown_nil (hi lo : Z) : hi < lo -> zrangeDown hi lo = [].
Proof. intros H. unfold zrangeDown. rewrite zrange_nil by lia. reflexivity. Qed.

Lemma zrangeDown_cons (hi lo : Z) :
  lo <= hi -> zrangeDown hi lo = hi :: zrangeDown (hi - 1) lo.
Proof.
  intros H. unfold zrangeDown. rewrite (zrange_snoc lo hi) by lia.
  rewrite rev_app_distr. simpl. replace (hi - 1 + 1) with hi by lia. reflexivity.
Qed.

Lemma countWhile_up (same : Z -> bool) (d : nat) :
  forall a b, Z.to_nat (b - a) = d ->
    exists m, MatchDetector.countWhile same (zrange a b) = m
              /\ 0 <= m /\ (m = 0 \/ a + m <= b)
              /\ (forall k, a <= k < a + m -> same k = true)
              /\ (a + m < b -> same (a + m) = false).
Proof.
  induction d as [| d IH]; intros a b Hd.
  - rewrite zrange_nil by lia. exists 0. simpl. repeat split; try lia; auto.
  - rewrite zrange_cons by lia. simpl. destruct (same a) eqn:E.
    + destruct (IH (a + 1) b) as [m [E1 [E2 [E3 [E4 E5]]]]]; [lia |].
      exists (1 + m). rewrite E1. repeat split; try lia.
      * intros k Hk. destruct (Z.eq_dec k a) as [-> | Hne]; [assumption |].
        apply E4. lia.
      * intros H. replace (a + (1 + m)) with (a + 1 + m) by lia. apply E5. lia.
    + exists 0. repeat split; try lia. intros _. rewrite Z.add_0_r. assumption.
Qed.

Lemma countWhile_down (same : Z -> bool) (d : nat) :
  forall c, Z.to_nat (c + 1) = d ->
    exists m, MatchDetector.countWhile same (zrangeDown c 0) = m
              /\ 0 <= m /\ (m = 0 \/ m <= c + 1)
              /\ (forall k, c - m < k <= c -> same k = true)
              /\ (0 <= c - m -> same (c - m) = false).
Proof.
  induction d as [| d IH]; intros c Hd.
  - rewrite zrangeDown_nil by lia. exists 0. simpl. repeat split; try lia.
  - rewrite zrangeDown_cons by lia. simpl. destruct (same c) eqn:E.
    + destruct (IH (c - 1)) as [m [E1 [E2 [E3 [E4 E5]]]]]; [lia |].
      exists (1 + m). rewrite E1. repeat split; try lia.
      * intros k Hk. destruct (Z.eq_dec k c) as [-> | Hne]; [assumption |].
        apply E4. lia.
      * intros H. replace (c - (1 + m)) with (c - 1 - m) by lia. apply E5. lia.
    + exists 0. repeat split; try lia. intros _. rewrite Z.sub_0_r. assumption.
Qed.

Lemma truthy_same_kind (cell : Cell) (ty : TileType) :
  MatchDetector.truthyType ty = true ->
  MatchDetector.typeEqb (MatchDetector.getTileType cell) ty = hasKind cell ty.
Proof.
  intros Hty. destruct cell as [t |]; [reflexivity |].
  destruct ty; [reflexivity | discriminate].
Qed.

Section CountAt.

Variables (n : Z) (line : Z -> Cell).

Lemma stretch_kind (c s len : Z) (ty : TileType) :
  hasKind (line c) ty = true -> s <= c < s + len ->
  (forall j, s < j < s + len -> linkedAt n line j = true) ->
  forall i, s <= i < s + len -> hasKind (line i) ty = true.
Proof.
  intros Hc Hin Hlinks.
  assert (Hup : forall k : nat, c + Z.of_nat k < s + len ->
                                hasKind (line (c + Z.of_nat k)) ty = true).
  { induction k as [| k IH]; intros Hk.
    - rewrite Z.add_0_r. assumption.
    - apply linkedAt_kind_r with (n := n); [apply Hlinks; lia |].
      replace (c + Z.of_nat (S k) - 1) with (c + Z.of_nat k) by lia.
      apply IH. lia. }
  assert (Hdown : forall k : nat, s <= c - Z.of_nat k ->
                                  hasKind (line (c - Z.of_nat k)) ty = true).
  { induction k as [| k IH]; intros Hk.
    - rewrite Z.sub_0_r. assumption.
    - replace (c - Z.of_nat (S k)) with (c - Z.of_nat k - 1) by lia.
      apply linkedAt_kind_l with (n := n); [apply Hlinks; lia |].
      apply IH. lia. }
  intros i Hi. destruct (Z_le_gt_dec c i).
  - replace i with (c + Z.of_nat (Z.to_nat (i - c))) by lia. apply Hup. lia.
  - replace i with (c - Z.of_nat (Z.to_nat (c - i))) by lia. apply Hdown. lia.
Qed.

Lemma count_stretch (c : Z) (ty : TileType) :
  MatchDetector.truthyType ty = true -> hasKind (line c) ty = true -> 0 <= c < n ->
  (3 <=? 1 + MatchDetector.countWhile
             (fun k => MatchDetector.typeEqb (MatchDetector.getTileType (line k)) ty)
             (zrangeDown (c - 1) 0)
         + MatchDetector.countWhile
             (fun k => MatchDetector.typeEqb (MatchDetector.getTileType (line k)) ty)
             (zrange (c + 1) n)) = true
  <-> stretch n line n c.
Proof.
  intros Hty Hc Hin. rewrite Z.leb_le.
  set (same := fun k => MatchDetector.typeEqb (MatchDetector.getTileType (line k)) ty).
  assert (Hsame : forall k, same k = hasKind (line k) ty)
    by (intros k; apply truthy_same_kind; assumption).
  destruct (countWhile_down same (Z.to_nat (c - 1 + 1)) (c - 1) eq_refl)
    as [m1 [E1 [P1 [B1 [A1 Z1]]]]].
  destruct (countWhile_up same (Z.to_nat (n - (c + 1))) (c + 1) n eq_refl)
    as [m2 [E2 [P2 [B2 [A2 Z2]]]]].
  rewrite E1, E2. split.
  - intros H3. exists (c - m1), (1 + m1 + m2). repeat split; try lia.
    intros j Hj. apply linkedAt_both with (k := ty); [lia | |].
    + destruct (Z.eq_dec j c) as [-> | Hne]; [assumption |].
      rewrite <- Hsame. destruct (Z_le_gt_dec j c); [apply A1 | apply A2]; lia.
    + destruct (Z.eq_dec (j - 1) c) as [-> | Hne]; [assumption |].
      rewrite <- Hsame. destruct (Z_le_gt_dec (j - 1) c); [apply A1 | apply A2]; lia.
  - intros [s [len [H1 [H2 [H3 [H4 H5]]]]]].
    pose proof (stretch_kind c s len ty Hc H4 H5) as Hall.
    assert (c - s <= m1).
    { destruct (Z_le_gt_dec (c - s) m1) as [? | Hlt]; [assumption |].
      assert (same (c - 1 - m1) = false) by (apply Z1; lia).
      rewrite Hsame, Hall in H by lia. discriminate. }
    assert (s + len - 1 - c <= m2).
    { destruct (Z_le_gt_dec (s + len - 1 - c) m2) as [? | Hlt]; [assumption |].
      assert (same (c + 1 + m2) = false) by (apply Z2; lia).
      rewrite Hsame, Hall in H0 by lia. discriminate. }
    lia.
Qed.

End CountAt.

Lemma hasMatchAt_spec (g : Board) (p : Pos) :
  0 <= col p < gridSize g ->
  MatchDetector.truthyType (MatchDetector.getTileType (cellAt g (row p) (col p))) = true ->
  (MatchDetector.hasMatchAt g p = true <-> inMatch g p).
Proof.
  intros Hcol Hty.
  destruct (cellAt g (row p) (col p)) as [t |] eqn:Ecell; [| discriminate].
  assert (Hrow : 0 <= row p < gridSize g).
  { pose proof (cellAt_Some_inBounds g p t Ecell) as Hb.
    apply inBounds_gridSize in Hb. tauto. }
  assert (Hk : hasKind (cellAt g (row p) (col p)) (type t) = true)
    by (rewrite Ecell; apply typeEqb_refl).
  cbn [MatchDetector.getTileType] in Hty.
  pose proof (count_stretch (gridSize g) (fun c => cellAt g (row p) c) (col p) (type t)
                Hty Hk Hcol) as Hh.
  pose proof (count_stretch (gridSize g) (fun r => cellAt g r (col p)) (row p) (type t)
                Hty Hk Hrow) as Hv.
  unfold MatchDetector.hasMatchAt. rewrite Ecell. cbn [MatchDetector.truthyCell negb
    MatchDetector.getTileType]. rewrite Hty. cbn [negb].
  unfold MatchDetector.hCountAt, MatchDetector.vCountAt. cbv zeta.
  unfold inMatch, onBoard.
  destruct (3 <=? _) eqn:E1 at 1.
  - split; [| reflexivity]. intros _. split; [lia |]. left. apply Hh. exact E1.
  - destruct (3 <=? _) eqn:E2 at 1.
    + split; [| reflexivity]. intros _. split; [lia |]. right. apply Hv. exact E2.
    + split; [discriminate |]. intros [_ [H | H]].
      * apply Hh in H. congruence.
      * apply Hv in H. congruence.
Qed.

Lemma hasMatchAt_truthy (g : Board) (p : Pos) :
  MatchDetector.hasMatchAt g p = true ->
  0 <= col p
  /\ MatchDetector.truthyType (MatchDetector.getTileType (cellAt g (row p) (col p))) = true.
Proof.
  unfold MatchDetector.hasMatchAt.
  destruct (cellAt g (row p) (col p)) as [t |] eqn:E; [| discriminate].
  cbn [MatchDetector.truthyCell negb MatchDetector.getTileType].
  destruct (MatchDetector.truthyType (type t)); [| discriminate].
  intros _. split; [| reflexivity].
  pose proof (cellAt_Some_inBounds g p t E) as Hb. apply inBounds_gridSize in Hb. tauto.
Qed.

(** X8. The check of one position agrees with the scan of the whole board:
    where [hasMatchAt] answers true for a position whose column is less than
    the size of the board, [findAllMatches] lists the position; and it
    answers true for every position that [findAllMatches] lists and whose
    tile has a truthy type. *)
Theorem hasMatchAt_agrees_with_findAllMatches (g : Board) (p : Pos) :
  (MatchDetector.hasMatchAt g p = true -> col p < gridSize g ->
   In p (MatchDetector.matches (MatchDetector.findAllMatches g)))
  /\ (In p (MatchDetector.matches (MatchDetector.findAllMatches g)) ->
      MatchDetector.truthyType (MatchDetector.getTileType (cellAt g (row p) (col p))) = true ->
      MatchDetector.hasMatchAt g p = true).
Proof.
  split.
  - intros H Hc. destruct (hasMatchAt_truthy g p H) as [H0 Hty].
    apply findAllMatches_matches. apply hasMatchAt_spec; [lia | assumption | assumption].
  - intros H Hty. apply findAllMatches_matches in H.
    apply hasMatchAt_spec; [| assumption | assumption].
    destruct H as [[_ Hc] _]. exact Hc.
Qed.

(** ** Probing a swap *)

Lemma exchange_total (g : Board) (p1 p2 : Pos) :
  inBounds g p1 -> inBounds g p2 ->
  exists g1 g2,
    setCell g (row p1) (col p1) (cellAt g (row p2) (col p2)) = Some g1
    /\ setCell g1 (row p2) (col p2) (cellAt g (row p1) (col p1)) = Some g2
    /\ exchanged g g2 p1 p2.
Proof.
  intros H1 H2.
  destruct (setCell_inBounds g p1 (cellAt g (row p2) (col p2)) H1) as [g1 [E1 S1]].
  assert (H2' : inBounds g1 p2) by (eapply inBounds_shape; eauto).
  destruct (setCell_inBounds g1 p2 (cellAt g (row p1) (col p1)) H2') as [g2 [E2 S2]].
  exists g1, g2. repeat split; try assumption; [congruence |].
  intros r c.
  rewrite (cellAt_setCell _ _ _ _ _ E2), (cellAt_setCell _ _ _ _ _ E1). reflexivity.
Qed.

Lemma exchanged_sym (g g' : Board) (p1 p2 : Pos) :
  exchanged g g' p1 p2 -> exchanged g g' p2 p1.
Proof.
  intros [Hs Hc]. split; [assumption |]. intros r c. rewrite Hc.
  destruct ((r =? row p2) && (c =? col p2)) eqn:E2,
           ((r =? row p1) && (c =? col p1)) eqn:E1; try reflexivity.
  apply andb_true_iff in E1, E2. destruct E1 as [Ea Eb], E2 as [Ec Ed].
  apply Z.eqb_eq in Ea, Eb, Ec, Ed. congruence.
Qed.

Lemma exchanged_unique (g g1 g2 : Board) (p1 p2 : Pos) :
  exchanged g g1 p1 p2 -> exchanged g g2 p1 p2 -> g1 = g2.
Proof.
  intros [S1 C1] [S2 C2]. apply board_ext; [congruence |].
  intros r c. rewrite C1, C2. reflexivity.
Qed.

Lemma exchanged_gridSize (g g' : Board) (p1 p2 : Pos) :
  exchanged g g' p1 p2 -> gridSize g' = gridSize g.
Proof.
  intros [Hs _]. unfold gridSize. f_equal.
  rewrite <- (length_map (@List.length Cell) g'), <- (length_map (@List.length Cell) g).
  unfold shape in Hs. rewrite Hs. reflexivity.
Qed.

Lemma wouldMatch_value (g : Board) (p1 p2 : Pos) :
  inBounds g p1 -> inBounds g p2 ->
  exists g', exchanged g g' p1 p2
             /\ MatchDetector.wouldMatch g p1 p2 =
                Some (match MatchDetector.isSpecialCombination g p1 p2 with
                      | Some _ => true
                      | None => MatchDetector.hasMatchAt g' p1 || MatchDetector.hasMatchAt g' p2
                      end, g).
Proof.
  intros H1 H2.
  destruct (exchange_total g p1 p2 H1 H2) as [g1 [g2 [E1 [E2 Hex]]]].
  exists g2. split; [assumption |].
  destruct (wouldMatch_inBounds g p1 p2 H1 H2) as [b Hb].
  unfold MatchDetector.wouldMatch in *.
  destruct (MatchDetector.isSpecialCombination g p1 p2); [reflexivity |].
  rewrite (readCell_inBounds g p1 H1), (readCell_inBounds g p2 H2), E1, E2 in *.
  destruct (readCell g2 (row p1) (col p1)) as [back |]; [| discriminate].
  destruct (setCell g2 (row p2) (col p2) back) as [g3 |]; [| discriminate].
  destruct (setCell g3 (row p1) (col p1) (cellAt g (row p1) (col p1))) as [g4 |];
    [| discriminate].
  inversion Hb. reflexivity.
Qed.

Lemma isSpecialCombination_sym (g : Board) (p1 p2 : Pos) :
  MatchDetector.isSpecialCombination g p1 p2 = None <->
  MatchDetector.isSpecialCombination g p2 p1 = None.
Proof.
  rewrite !isSpecialCombination_spec.
  destruct (MatchDetector.isSpecialCandy (cellAt g (row p1) (col p1)));
    destruct (MatchDetector.isSpecialCandy (cellAt g (row p2) (col p2)));
    split; intros H; try discriminate; reflexivity.
Qed.

Lemma wouldMatch_sym (g : Board) (p1 p2 : Pos) :
  inBounds g p1 -> inBounds g p2 ->
  MatchDetector.wouldMatch g p1 p2 = MatchDetector.wouldMatch g p2 p1.
Proof.
  intros H1 H2.
  destruct (wouldMatch_value g p1 p2 H1 H2) as [ga [Xa ->]].
  destruct (wouldMatch_value g p2 p1 H2 H1) as [gb [Xb ->]].
  assert (ga = gb) by (eapply exchanged_unique; [exact Xa | apply exchanged_sym; exact Xb]).
  subst gb. pose proof (isSpecialCombination_sym g p1 p2) as Hs.
  destruct (MatchDetector.isSpecialCombination g p1 p2),
           (MatchDetector.isSpecialCombination g p2 p1); try reflexivity.
  - destruct Hs as [_ Hs]. specialize (Hs eq_refl). discriminate.
  - destruct Hs as [Hs _]. specialize (Hs eq_refl). discriminate.
  - rewrite orb_comm. reflexivity.
Qed.

(** X9. For two positions inside the board [wouldMatch] gives the same
    answer, and leaves the same board, whichever of the two is passed
    first. *)
Theorem wouldMatch_symmetric (g : Board) (p1 p2 : Pos) :
  inBounds g p1 -> inBounds g p2 ->
  MatchDetector.wouldMatch g p1 p2 = MatchDetector.wouldMatch g p2 p1.
Proof. apply wouldMatch_sym. Qed.

(** ** The search for a possible move *)

Lemma probes_In (n : Z) (p1 p2 : Pos) :
  In (p1, p2) (MatchDetector.probes n) <-> probe n p1 p2.
Proof.
  unfold MatchDetector.probes, probe, onBoard. split.
  - intros H.
    apply in_flat_map in H. destruct H as [r [Hr H]].
    apply in_flat_map in H. destruct H as [c [Hc H]].
    apply zrange_In in Hr, Hc. apply in_app_iff in H.
    destruct H as [H | H].
    + destruct (c <? n - 1) eqn:E; [| contradiction].
      apply Z.ltb_lt in E. destruct H as [H | []]. inversion H; subst. simpl. lia.
    + destruct (r <? n - 1) eqn:E; [| contradiction].
      apply Z.ltb_lt in E. destruct H as [H | []]. inversion H; subst. simpl. lia.
  - intros [[Hr1 Hc1] [[Hr2 Hc2] Hn]].
    apply in_flat_map. exists (row p1). split; [apply zrange_In; lia |].
    apply in_flat_map. exists (col p1). split; [apply zrange_In; lia |].
    apply in_app_iff. destruct p1 as [r1 c1], p2 as [r2 c2]. simpl in *.
    destruct Hn as [[-> ->] | [-> ->]].
    + left. replace (c1 <? n - 1) with true by (symmetry; apply Z.ltb_lt; lia).
      left. reflexivity.
    + right. replace (r1 <? n - 1) with true by (symmetry; apply Z.ltb_lt; lia).
      left. reflexivity.
Qed.

Lemma adjacent_probe (n : Z) (p1 p2 : Pos) :
  onBoard n p1 -> onBoard n p2 -> MatchDetector.areAdjacent p1 p2 = true ->
  probe n p1 p2 \/ probe n p2 p1.
Proof.
  intros H1 H2 Ha. apply areAdjacent_iff in Ha. unfold probe, onBoard in *. lia.
Qed.

Lemma probe_adjacent (n : Z) (p1 p2 : Pos) :
  probe n p1 p2 -> MatchDetector.areAdjacent p1 p2 = true.
Proof. intros [_ [_ H]]. apply areAdjacent_iff. lia. Qed.

Lemma firstMatching_spec (n : Z) (g : Board) (todo : list (Pos * Pos)) :
  square n g ->
  (forall pr, In pr todo -> onBoard n (fst pr) /\ onBoard n (snd pr)) ->
  exists res,
    MatchDetector.firstMatching g todo = Some (res, g)
    /\ match res with
       | Some pr => In pr todo
                    /\ MatchDetector.wouldMatch g (fst pr) (snd pr) = Some (true, g)
       | None => forall pr, In pr todo ->
                            MatchDetector.wouldMatch g (fst pr) (snd pr) = Some (false, g)
       end.
Proof.
  intros Hsq. induction todo as [| [p1 p2] rest IH]; intros Hin;
    cbn [MatchDetector.firstMatching].
  - exists None. split; [reflexivity |]. intros pr [].
  - destruct (Hin (p1, p2) (or_introl eq_refl)) as [[H1 H2] [H3 H4]]. cbn [fst snd] in *.
    destruct (wouldMatch_inBounds g p1 p2) as [b Hb];
      try (eapply square_inBounds; eauto).
    rewrite Hb. destruct b.
    + exists (Some (p1, p2)). split; [reflexivity |]. split; [left; reflexivity | exact Hb].
    + destruct IH as [res [E Hres]]; [intros pr Hpr; apply Hin; right; assumption |].
      exists res. split; [assumption |]. destruct res as [pr |].
      * destruct Hres. split; [right |]; assumption.
      * intros pr [<- | Hpr]; [exact Hb | apply Hres; assumption].
Qed.

Lemma findPossibleMatch_spec (n : Z) (g : Board) :
  square n g ->
  exists res,
    MatchDetector.findPossibleMatch g = Some (res, g)
    /\ match res with
       | Some (p1, p2) =>
           probe n p1 p2 /\ MatchDetector.wouldMatch g p1 p2 = Some (true, g)
       | None =>
           forall p1 p2, onBoard n p1 -> onBoard n p2 ->
                         MatchDetector.areAdjacent p1 p2 = true ->
                         MatchDetector.wouldMatch g p1 p2 = Some (false, g)
       end.
Proof.
  intros Hsq. unfold MatchDetector.findPossibleMatch.
  assert (Hn : gridSize g = n) by apply Hsq. rewrite Hn.
  destruct (firstMatching_spec n g (MatchDetector.probes n) Hsq) as [res [E Hres]].
  { intros [p1 p2] Hpr. apply probes_In in Hpr. unfold probe in Hpr. tauto. }
  exists res. split; [assumption |]. destruct res as [[p1 p2] |].
  - destruct Hres as [Hin Hw]. apply probes_In in Hin. auto.
  - intros p1 p2 H1 H2 Ha.
    destruct (adjacent_probe n p1 p2 H1 H2 Ha) as [Hp | Hp]; apply probes_In in Hp.
    + apply (Hres (p1, p2) Hp).
    + rewrite wouldMatch_sym.
      * apply (Hres (p2, p1) Hp).
      * unfold onBoard in *. eapply square_inBounds; eauto; tauto.
      * unfold onBoard in *. eapply square_inBounds; eauto; tauto.
Qed.

(** X10. On a square board [findPossibleMatch] returns and leaves the board
    as it was.  A pair it returns lies on the board, its second position is
    the right or the bottom neighbour of the first, and [wouldMatch] accepts
    the swap; when it returns null, [wouldMatch] rejects the swap of every
    two adjacent positions of the board. *)
Theorem findPossibleMatch_sound_complete (n : Z) (g : Board) :
  square n g ->
  exists res,
    MatchDetector.findPossibleMatch g = Some (res, g)
    /\ match res with
       | Some (p1, p2) =>
           probe n p1 p2 /\ MatchDetector.areAdjacent p1 p2 = true
           /\ MatchDetector.wouldMatch g p1 p2 = Some (true, g)
       | None =>
           forall p1 p2, onBoard n p1 -> onBoard n p2 ->
                         MatchDetector.areAdjacent p1 p2 = true ->
                         MatchDetector.wouldMatch g p1 p2 = Some (false, g)
       end.
Proof.
  intros Hsq. destruct (findPossibleMatch_spec n g Hsq) as [res [E Hres]].
  exists res. split; [assumption |]. destruct res as [[p1 p2] |]; [| assumption].
  destruct Hres as [Hp Hw]. repeat split; try assumption; try apply Hp.
  eapply probe_adjacent; eauto.
Qed.

(** ** Loops over the state *)

Lemma bind_returned {A B : Type} (m : M A) (k : A -> M B) (w w' : World) (a : A) :
  m w = Returned a w' -> bind m k w = k a w'.
Proof. intros H. unfold bind. rewrite H. reflexivity. Qed.

(** A loop whose body returns and carries the invariant from the iterations
    done so far to one more returns, with the invariant over all of them. *)
Lemma foldM_inv {A B : Type} (Inv : list A -> B -> World -> Prop)
    (f : B -> A -> M B) (l : list A) :
  (forall done x rest b w,
     l = done ++ x :: rest -> Inv done b w ->
     exists b' w', f b x w = Returned b' w' /\ Inv (done ++ [x]) b' w') ->
  forall b w, Inv [] b w ->
              exists b' w', foldM f l b w = Returned b' w' /\ Inv l b' w'.
Proof.
  intros Hstep.
  assert (Hgen : forall rest done b w,
            l = done ++ rest -> Inv done b w ->
            exists b' w', foldM f rest b w = Returned b' w' /\ Inv l b' w').
  { induction rest as [| x rest IH]; intros done b w Hl Hinv.
    - rewrite app_nil_r in Hl. subst done. exists b, w. split; [reflexivity | assumption].
    - destruct (Hstep done x rest b w Hl Hinv) as [b1 [w1 [E1 H1]]].
      cbn [foldM]. rewrite (bind_returned _ _ _ _ _ E1).
      apply (IH (done ++ [x])); [| assumption].
      rewrite <- app_assoc. exact Hl. }
  intros b w H. apply (Hgen l [] b w); [reflexivity | assumption].
Qed.

Lemma forEach_inv {A : Type} (Inv : list A -> World -> Prop)
    (f : A -> M unit) (l : list A) :
  (forall done x rest w,
     l = done ++ x :: rest -> Inv done w ->
     exists w', f x w = Returned tt w' /\ Inv (done ++ [x]) w') ->
  forall w, Inv [] w -> exists w', forEach l f w = Returned tt w' /\ Inv l w'.
Proof.
  intros Hstep w H. unfold forEach.
  destruct (foldM_inv (fun done _ w => Inv done w) (fun _ x => f x) l) with (b := tt) (w := w)
    as [[] [w' [E Hw']]]; [| assumption | eauto].
  intros done x rest [] w0 Hl Hinv.
  destruct (Hstep done x rest w0 Hl Hinv) as [w1 [E1 H1]]. exists tt, w1. auto.
Qed.

Lemma withData_withData (w : World) (g g' : Board) :
  withData (withData w g) g' = withData w g'.
Proof. reflexivity. Qed.

(** ** Exchanging two tiles *)

Lemma swapTiles_value (p1 p2 : Pos) (w : World) :
  inBounds (data w) p1 -> inBounds (data w) p2 ->
  exists g', Grid.swapTiles p1 p2 w = Returned tt (withData w g')
             /\ exchanged (data w) g' p1 p2.
Proof.
  intros H1 H2. unfold Grid.swapTiles, bind.
  rewrite readData_inside by (apply inBounds_gridSize in H1; tauto).
  rewrite readData_inside by (apply inBounds_gridSize in H2; tauto).
  destruct (exchange_total (data w) p1 p2 H1 H2) as [g1 [g2 [E1 [E2 Hex]]]].
  unfold writeData at 1. rewrite E1. unfold writeData. cbn [data withData].
  rewrite E2. exists g2. split; [reflexivity | assumption].
Qed.

Lemma exchanged_back (g g' g'' : Board) (p1 p2 : Pos) :
  exchanged g g' p1 p2 -> exchanged g' g'' p1 p2 -> g'' = g.
Proof.
  intros [S1 C1] [S2 C2]. apply board_ext; [congruence |].
  intros r c. rewrite C2, !C1. rewrite !Z.eqb_refl. cbn [andb].
  destruct ((r =? row p2) && (c =? col p2)) eqn:E2.
  - apply andb_true_iff in E2. destruct E2 as [Ea Eb]. apply Z.eqb_eq in Ea, Eb. subst r c.
    destruct ((row p1 =? row p2) && (col p1 =? col p2)) eqn:E; [| reflexivity].
    apply andb_true_iff in E. destruct E as [Ea Eb]. apply Z.eqb_eq in Ea, Eb.
    rewrite Ea, Eb. reflexivity.
  - destruct ((r =? row p1) && (c =? col p1)) eqn:E1; [| reflexivity].
    apply andb_true_iff in E1. destruct E1 as [Ea Eb]. apply Z.eqb_eq in Ea, Eb. subst r c.
    destruct ((row p2 =? row p1) && (col p2 =? col p1)) eqn:E; reflexivity.
Qed.

Lemma exchanged_inBounds (g g' : Board) (p1 p2 q : Pos) :
  exchanged g g' p1 p2 -> inBounds g q -> inBounds g' q.
Proof. intros [Hs _] H. eapply inBounds_shape; eauto. Qed.

(** X11. [swapTiles] on two positions inside the board returns, changes
    nothing of the state but the board, and exchanges the cells at the two
    positions: every other cell and the lengths of the rows stay.  A second
    call with the same positions restores the state.  When the row of one of
    the positions does not exist the call throws and changes nothing. *)
Theorem swapTiles_exchanges (p1 p2 : Pos) (w : World) :
  (inBounds (data w) p1 -> inBounds (data w) p2 ->
   exists g', Grid.swapTiles p1 p2 w = Returned tt (withData w g')
              /\ exchanged (data w) g' p1 p2
              /\ Grid.swapTiles p1 p2 (withData w g') = Returned tt w)
  /\ (nthZ (data w) (row p1) = None \/ nthZ (data w) (row p2) = None ->
      Grid.swapTiles p1 p2 w = Threw w).
Proof.
  split.
  - intros H1 H2. destruct (swapTiles_value p1 p2 w H1 H2) as [g' [E Hex]].
    exists g'. split; [assumption |]. split; [assumption |].
    destruct (swapTiles_value p1 p2 (withData w g')) as [g'' [E' Hex']];
      try (cbn [data withData]; eapply exchanged_inBounds; eauto).
    rewrite E'. cbn [data withData] in Hex'.
    rewrite (exchanged_back _ _ _ _ _ Hex Hex'). rewrite withData_withData, withData_same.
    reflexivity.
  - intros H. unfold Grid.swapTiles, bind. rewrite (readData_spec (row p1)).
    destruct (nthZ (data w) (row p1)) eqn:E1; [| reflexivity].
    rewrite (readData_spec (row p2)).
    destruct (nthZ (data w) (row p2)) eqn:E2; [| reflexivity].
    destruct H; discriminate.
Qed.

(** ** Removing tiles *)

Lemma removeMatches_collect (l : list Pos) :
  forall (found : list Grid.MemoryTile) (w : World),
    (forall p, In p l -> inBounds (data w) p) ->
    foldM (fun found p =>
             cell <- readData (row p) (col p) ;;
             match cell with
             | Some t =>
                 match isMemory t, memoryId t with
                 | true, Some id => ret (found ++ [Grid.mkMemoryTile id p])
                 | _, _ => ret found
                 end
             | None => ret found
             end) l found w
    = Returned (found ++ flat_map (memoryTileAt (data w)) l) w.
Proof.
  induction l as [| p rest IH]; intros found w Hin; cbn [foldM flat_map].
  - rewrite app_nil_r. reflexivity.
  - unfold bind at 1. unfold bind at 1.
    rewrite readData_inside
      by (pose proof (Hin p (or_introl eq_refl)) as Hb; apply inBounds_gridSize in Hb; tauto).
    assert (Hrest : forall q, In q rest -> inBounds (data w) q)
      by (intros q Hq; apply Hin; right; assumption).
    unfold memoryTileAt at 1.
    destruct (cellAt (data w) (row p) (col p)) as [t |].
    + destruct (isMemory t), (memoryId t); unfold ret; rewrite IH by assumption;
        rewrite <- ?app_assoc; reflexivity.
    + unfold ret. rewrite IH by assumption. reflexivity.
Qed.

Lemma clear_cells (l : list Pos) :
  forall w : World,
    (forall p, In p l -> inBounds (data w) p) ->
    exists g', forEach l (fun p => writeData (row p) (col p) None) w
               = Returned tt (withData w g')
               /\ shape g' = shape (data w)
               /\ forall r c, cellAt g' r c =
                              if setHas l (mkPos r c) then None else cellAt (data w) r c.
Proof.
  unfold forEach. induction l as [| p rest IH]; intros w Hin; cbn [foldM].
  - exists (data w). rewrite withData_same. repeat split; reflexivity.
  - destruct (setCell_inBounds (data w) p None (Hin p (or_introl eq_refl))) as [g1 [E1 S1]].
    unfold bind, writeData at 1. rewrite E1.
    destruct (IH (withData w g1)) as [g' [E [Hs Hc]]].
    { intros q Hq. cbn [data withData]. eapply inBounds_shape; eauto.
      apply Hin. right. assumption. }
    exists g'. rewrite E. cbn [data withData] in *. split; [reflexivity |].
    split; [congruence |]. intros r c. rewrite Hc.
    rewrite (cellAt_setCell _ _ _ _ _ E1). unfold setHas. cbn [existsb].
    destruct (existsb (posEqb (mkPos r c)) rest); [rewrite orb_true_r; reflexivity |].
    rewrite orb_false_r. unfold posEqb. cbn [row col].
    destruct ((r =? row p) && (c =? col p)); reflexivity.
Qed.

Lemma removeMatches_spec (l : list Pos) (w : World) :
  (forall p, In p l -> inBounds (data w) p) ->
  exists g',
    Grid.removeMatches l w
    = Returned (flat_map (memoryTileAt (data w)) l) (withData w g')
    /\ shape g' = shape (data w)
    /\ forall r c, cellAt g' r c =
                   if setHas l (mkPos r c) then None else cellAt (data w) r c.
Proof.
  intros Hin. unfold Grid.removeMatches.
  rewrite (bind_returned _ _ _ _ _ (removeMatches_collect l [] w Hin)).
  destruct (clear_cells l w Hin) as [g' [E [Hs Hc]]].
  exists g'. rewrite (bind_returned _ _ _ _ _ E). cbn [app]. unfold ret. auto.
Qed.

(** X12. [removeMatches] on positions inside the board returns and changes
    nothing of the state but the board: the cells at the listed positions
    become null, every other cell and the lengths of the rows stay.  The
    result lists, in the order of the positions and once for each
    occurrence, the memory tiles found there before the removal, with their
    ids and positions. *)
Theorem removeMatches_clears (l : list Pos) (w : World) :
  (forall p, In p l -> inBounds (data w) p) ->
  exists g',
    Grid.removeMatches l w
    = Returned (flat_map (memoryTileAt (data w)) l) (withData w g')
    /\ shape g' = shape (data w)
    /\ forall r c, cellAt g' r c =
                   if setHas l (mkPos r c) then None else cellAt (data w) r c.
Proof. apply removeMatches_spec. Qed.

(** ** Refilling the board *)

Lemma refilled_refl (g : Board) : refilled g g.
Proof.
  split; [reflexivity |]. intros r c. destruct (cellAt g r c); [reflexivity | exact I].
Qed.

Lemma refilled_trans (g1 g2 g3 : Board) :
  refilled g1 g2 -> refilled g2 g3 -> refilled g1 g3.
Proof.
  intros [S1 C1] [S2 C2]. split; [congruence |]. intros r c.
  specialize (C1 r c). specialize (C2 r c).
  destruct (cellAt g1 r c) as [t |].
  - rewrite C1 in C2. exact C2.
  - destruct (cellAt g2 r c) as [t2 |].
    + rewrite C2. exact C1.
    + exact C2.
Qed.

Lemma refilled_keeps (g g' : Board) (r c : Z) :
  refilled g g' -> cellAt g r c <> None -> cellAt g' r c <> None.
Proof.
  intros [_ Hc] H. specialize (Hc r c).
  destruct (cellAt g r c); [rewrite Hc; discriminate | contradiction].
Qed.

Lemma tileTypes_truthy (s : string) :
  In s Grid.tileTypes -> MatchDetector.truthyType (Some s) = true.
Proof.
  unfold Grid.tileTypes. simpl.
  intros [<- | [<- | [<- | [<- | [<- | []]]]]]; reflexivity.
Qed.

Lemma getRandomType_value (w : World) :
  exists s, In s Grid.tileTypes
            /\ Grid.getRandomType w
               = Returned (Some s) (withRandomCalls w (S (randomCalls w))).
Proof.
  unfold Grid.getRandomType, bind, mathRandom, ret.
  set (u := random w (randomCalls w)).
  pose proof (floorMul_range u (Z.of_nat (List.length Grid.tileTypes))) as Hr.
  destruct (nthZ_inside Grid.tileTypes (floorMul u (Z.of_nat (List.length Grid.tileTypes))))
    as [s Hs]; [apply Hr; simpl; lia |].
  exists s. rewrite Hs. split; [| reflexivity].
  unfold nthZ in Hs. destruct (_ <? 0); [discriminate |].
  eapply nth_error_In; eauto.
Qed.

Lemma spawnCell_spec (r c : Z) (w : World) :
  inBounds (data w) (mkPos r c) -> gridSize (data w) = size w ->
  exists g' k,
    Grid.spawnCell r c w = Returned tt (withData (withRandomCalls w k) g')
    /\ refilled (data w) g' /\ cellAt g' r c <> None.
Proof.
  intros Hb Hsize. unfold Grid.spawnCell.
  assert (Hr : 0 <= r < gridSize (data w)) by (apply inBounds_gridSize in Hb; tauto).
  rewrite (bind_returned _ _ _ _ _ (readData_inside r c w Hr)).
  destruct (cellAt (data w) r c) as [t |] eqn:Ecell.
  - exists (data w), (randomCalls w). split; [destruct w; reflexivity |].
    split; [apply refilled_refl | congruence].
  - assert (Hfin : forall ty w2, data w2 = data w -> MatchDetector.truthyType ty = true ->
              exists g', writeData r c (Some (mkTile ty None false None)) w2
                         = Returned tt (withData w2 g')
                         /\ refilled (data w) g' /\ cellAt g' r c <> None).
    { intros ty w2 Hd Htruthy.
      destruct (setCell_inBounds (data w) (mkPos r c) (Some (mkTile ty None false None)) Hb)
        as [g' [Eset Hshape]]. cbn [row col] in Eset.
      unfold writeData. rewrite Hd, Eset. exists g'. split; [reflexivity |]. split.
      - split; [assumption |]. intros r' c'.
        rewrite (cellAt_setCell _ _ _ _ _ Eset).
        destruct ((r' =? r) && (c' =? c)) eqn:E.
        + apply andb_true_iff in E. destruct E as [Ea Eb]. apply Z.eqb_eq in Ea, Eb.
          subst r' c'. rewrite Ecell. repeat split. assumption.
        + destruct (cellAt (data w) r' c'); [reflexivity | exact I].
      - rewrite (cellAt_setCell _ _ _ _ _ Eset), !Z.eqb_refl. discriminate. }
    destruct (getRandomType_value w) as [s [Hs Edraw]].
    rewrite (bind_returned _ _ _ _ _ Edraw).
    unfold bind at 1. unfold mathRandom at 1.
    match goal with |- context [belowTwoFifths ?x] => destruct (belowTwoFifths x) end.
    + unfold bind at 1. unfold bind at 1.
      rewrite getHelpfulTypeForPosition_spec by exact Hsize.
      destruct (MatchDetector.truthyType (firstTaggedType _ _)) eqn:Et; unfold ret.
      * destruct (Hfin _ (withRandomCalls (withRandomCalls w (S (randomCalls w)))
                            (S (randomCalls (withRandomCalls w (S (randomCalls w))))))
                    eq_refl Et) as [g' [E H]].
        exists g'. eexists. split; [exact E | exact H].
      * destruct (Hfin _ (withRandomCalls (withRandomCalls w (S (randomCalls w)))
                            (S (randomCalls (withRandomCalls w (S (randomCalls w))))))
                    eq_refl (tileTypes_truthy s Hs)) as [g' [E H]].
        exists g'. eexists. split; [exact E | exact H].
    + unfold bind at 1. unfold ret.
      destruct (Hfin _ (withRandomCalls (withRandomCalls w (S (randomCalls w)))
                          (S (randomCalls (withRandomCalls w (S (randomCalls w))))))
                  eq_refl (tileTypes_truthy s Hs)) as [g' [E H]].
      exists g'. eexists. split; [exact E | exact H].
Qed.

Lemma refilled_square (n : Z) (g g' : Board) :
  refilled g g' -> square n g -> square n g'.
Proof. intros [Hs _]. apply square_shape. assumption. Qed.

Lemma square_gridSize (n : Z) (g : Board) : square n g -> gridSize g = n.
Proof. intros [H _]. exact H. Qed.

Lemma spawnNewTiles_spec (w : World) :
  square (size w) (data w) ->
  exists g' k,
    Grid.spawnNewTiles w = Returned tt (withData (withRandomCalls w k) g')
    /\ refilled (data w) g' /\ full (size w) g'.
Proof.
  intros Hsq. unfold Grid.spawnNewTiles. unfold bind at 1. unfold get.
  set (n := size w) in *.
  destruct (forEach_inv
              (fun doneC w' =>
                 exists g' k, w' = withData (withRandomCalls w k) g'
                              /\ refilled (data w) g'
                              /\ forall r c, In c doneC -> 0 <= r < n ->
                                             cellAt g' r c <> None)
              (fun c => forEach (zrange 0 n) (fun r => Grid.spawnCell r c))
              (zrange 0 n)) with (w := w) as [w' [E [g' [k [-> [Href Hfull]]]]]].
  - intros doneC c restC w1 Hl [g1 [k1 [-> [Href1 Hfull1]]]].
    assert (Hc : 0 <= c < n).
    { apply zrange_In. rewrite Hl. apply in_or_app. right. left. reflexivity. }
    destruct (forEach_inv
                (fun doneR w' =>
                   exists g' k, w' = withData (withRandomCalls w k) g'
                                /\ refilled (data w) g'
                                /\ (forall r c', In c' doneC -> 0 <= r < n ->
                                                 cellAt g' r c' <> None)
                                /\ forall r, In r doneR -> cellAt g' r c <> None)
                (fun r => Grid.spawnCell r c) (zrange 0 n))
      with (w := withData (withRandomCalls w k1) g1) as [w' [E [g' [k [-> [Href [HfullC HfullR]]]]]]].
    + intros doneR r restR w2 Hl2 [g2 [k2 [-> [Href2 [HfullC2 HfullR2]]]]].
      assert (Hr : 0 <= r < n).
      { apply zrange_In. rewrite Hl2. apply in_or_app. right. left. reflexivity. }
      assert (Hsq2 : square n g2) by (eapply refilled_square; eauto).
      destruct (spawnCell_spec r c (withData (withRandomCalls w k2) g2))
        as [g3 [k3 [E3 [Href3 Hcell]]]].
      * cbn [data withData]. eapply square_inBounds; eauto.
      * cbn. apply square_gridSize. assumption.
      * exists (withData (withRandomCalls w k3) g3). split; [exact E3 |].
        exists g3, k3. split; [reflexivity |]. cbn [data withData] in Href3.
        split; [eapply refilled_trans; eauto |]. split.
        -- intros r' c' Hc' Hr'. eapply refilled_keeps; eauto.
        -- intros r' Hr'. apply in_app_iff in Hr'. destruct Hr' as [Hr' | [<- | []]].
           ++ eapply refilled_keeps; eauto.
           ++ assumption.
    + exists g1, k1. split; [reflexivity |]. split; [assumption |].
      split; [assumption |]. intros r [].
    + exists (withData (withRandomCalls w k) g'). split; [exact E |].
      exists g', k. split; [reflexivity |]. split; [assumption |].
      intros r c' Hc' Hr. apply in_app_iff in Hc'. destruct Hc' as [Hc' | [<- | []]].
      * apply HfullC; assumption.
      * apply HfullR. apply zrange_In. assumption.
  - exists (data w), (randomCalls w). split; [destruct w; reflexivity |].
    split; [apply refilled_refl |]. intros r c [].
  - exists g', k. split; [exact E |]. split; [assumption |].
    intros r c Hr Hc. apply Hfull; [apply zrange_In |]; assumption.
Qed.

(** X14. On a square board of the size of the grid [spawnNewTiles] returns
    and changes nothing of the state but the board and the number of random
    draws.  Every tile of the board stays where it is, every cell that was
    empty holds a new tile that is plain, is not a memory tile and has a
    truthy type, and no cell of the board is left empty. *)
Theorem spawnNewTiles_fills (w : World) :
  square (size w) (data w) ->
  exists g' k,
    Grid.spawnNewTiles w = Returned tt (withData (withRandomCalls w k) g')
    /\ refilled (data w) g' /\ full (size w) g' /\ square (size w) g'.
Proof.
  intros Hsq. destruct (spawnNewTiles_spec w Hsq) as [g' [k [E [Href Hfull]]]].
  exists g', k. repeat split; try assumption; try apply Href.
  - eapply refilled_square; eauto.
  - destruct (refilled_square _ _ _ Href Hsq) as [_ H]. exact H.
Qed.

(** ** Gravity *)

Lemma replaceNth_app_at {A : Type} (l1 l2 : list A) (x v : A) (k : nat) :
  List.length l1 = k -> replaceNth (l1 ++ x :: l2) k v = l1 ++ v :: l2.
Proof.
  revert k. induction l1 as [| h t IH]; intros k Hk; subst k; simpl.
  - reflexivity.
  - rewrite IH by reflexivity. reflexivity.
Qed.

Lemma column_split (n : Z) (g : Board) (c r : Z) :
  0 <= r < n ->
  column n g c = map (fun k => cellAt g k c) (zrange 0 r)
                 ++ cellAt g r c :: map (fun k => cellAt g k c) (zrange (r + 1) n).
Proof.
  intros Hr. unfold column. rewrite (zrange_app 0 r n) by lia.
  rewrite (zrange_cons r n) by lia. rewrite map_app. reflexivity.
Qed.

Lemma column_length (n : Z) (g : Board) (c : Z) :
  List.length (column n g c) = Z.to_nat n.
Proof. unfold column. rewrite length_map, zrange_length. f_equal. lia. Qed.

Lemma column_nth (n : Z) (g : Board) (c r : Z) :
  0 <= r < n -> nth_error (column n g c) (Z.to_nat r) = Some (cellAt g r c).
Proof.
  intros Hr. rewrite (column_split n g c r Hr).
  rewrite nth_error_app2 by (rewrite length_map, zrange_length; lia).
  rewrite length_map, zrange_length.
  replace (Z.to_nat r - Z.to_nat (r - 0))%nat with O by lia. reflexivity.
Qed.

Lemma column_setCell (n : Z) (g g' : Board) (r c : Z) (v : Cell) :
  0 <= r < n -> setCell g r c v = Some g' ->
  column n g' c = replaceNth (column n g c) (Z.to_nat r) v.
Proof.
  intros Hr Hset. rewrite (column_split n g c r Hr), (column_split n g' c r Hr).
  rewrite replaceNth_app_at by (rewrite length_map, zrange_length; f_equal; lia).
  rewrite (cellAt_setCell _ _ _ _ _ Hset), !Z.eqb_refl. cbn [andb].
  f_equal; [| f_equal]; apply map_ext_in; intros k Hk; apply zrange_In in Hk;
    rewrite (cellAt_setCell _ _ _ _ _ Hset);
    replace (k =? r) with false by (symmetry; apply Z.eqb_neq; lia); reflexivity.
Qed.

Lemma last_split {A : Type} (l : list A) (j : nat) :
  List.length l = S j -> exists l' x, l = l' ++ [x] /\ List.length l' = j.
Proof.
  intros H. destruct (exists_last (l := l)) as [l' [x E]].
  - intros ->. discriminate.
  - exists l', x. split; [assumption |]. subst l. rewrite length_app in H. simpl in H. lia.
Qed.

Lemma repeat_snoc {A : Type} (x : A) (k : nat) : repeat x (S k) = repeat x k ++ [x].
Proof. induction k as [| k IH]; [reflexivity |]. simpl in *. rewrite <- IH. reflexivity. Qed.

Lemma settle_step {A : Type} (l : list A) (x y : A) (z0 : nat) (T : list A)
    (k1 k2 : nat) :
  k1 = (List.length l + S z0)%nat -> k2 = List.length l ->
  replaceNth (replaceNth ((l ++ [x]) ++ repeat y (S z0) ++ T) k1 x) k2 y
  = l ++ repeat y (S z0) ++ x :: T.
Proof.
  intros -> ->.
  transitivity (replaceNth (replaceNth ((l ++ [x] ++ repeat y z0) ++ y :: T)
                                       (List.length l + S z0) x) (List.length l) y).
  { f_equal. f_equal. rewrite repeat_snoc, <- !app_assoc. reflexivity. }
  rewrite replaceNth_app_at
    by (rewrite !length_app, repeat_length; cbn [List.length]; lia).
  rewrite <- app_assoc. cbn [app].
  rewrite replaceNth_app_at by reflexivity.
  reflexivity.
Qed.

Lemma shape_gridSize (g g' : Board) : shape g' = shape g -> gridSize g' = gridSize g.
Proof.
  intros Hs. unfold gridSize. f_equal.
  rewrite <- (length_map (@List.length Cell) g'), <- (length_map (@List.length Cell) g).
  unfold shape in Hs. rewrite Hs. reflexivity.
Qed.

Lemma gravity_column (n c : Z) (w : World) (i : nat) :
  0 <= c < n -> square n (data w) ->
  forall (A B : list Cell) (z : nat) (e : Z) (g1 : Board),
    column n (data w) c = A ++ B -> List.length A = i ->
    shape g1 = shape (data w) ->
    (forall r c', c' <> c -> cellAt g1 r c' = cellAt (data w) r c') ->
    column n g1 c = A ++ repeat None z ++ map Some (tilesOf B) ->
    (z + List.length (tilesOf B) = List.length B)%nat ->
    e = Z.of_nat i + Z.of_nat z - 1 ->
    exists e' g',
      foldM (fun emptyRow r =>
               cell <- readData r c ;;
               match cell with
               | Some _ =>
                   (if negb (r =? emptyRow) then
                      writeData emptyRow c cell ;;;
                      writeData r c None
                    else ret tt) ;;;
                   ret (emptyRow - 1)
               | None => ret emptyRow
               end)
            (zrangeDown (Z.of_nat i - 1) 0) e (withData w g1)
      = Returned e' (withData w g')
      /\ shape g' = shape (data w)
      /\ (forall r c', c' <> c -> cellAt g' r c' = cellAt (data w) r c')
      /\ column n g' c = settled (column n (data w) c).
Proof.
  intros Hc Hsq. induction i as [| j IH]; intros A B z e g1 HL HA Hs Hoth Hcol Hz He.
  - rewrite zrangeDown_nil by lia. cbn [foldM]. exists e, g1.
    destruct A; [| discriminate]. cbn [app] in *.
    repeat split; try assumption.
    rewrite Hcol, HL. unfold settled. f_equal. f_equal. lia.
  - destruct (last_split A j HA) as [A' [x [-> HA']]].
    rewrite zrangeDown_cons by lia.
    replace (Z.of_nat (S j) - 1) with (Z.of_nat j) by lia.
    cbn [foldM].
    assert (Hlen : (List.length (A' ++ [x]) + List.length B = Z.to_nat n)%nat).
    { rewrite <- length_app, <- HL. apply column_length. }
    rewrite length_app in Hlen. cbn [List.length] in Hlen.
    assert (Hj : 0 <= Z.of_nat j < n) by lia.
    assert (Hsq1 : square n g1) by (eapply square_shape; eauto).
    assert (Hsize1 : gridSize g1 = n) by apply Hsq1.
    assert (Hx : cellAt g1 (Z.of_nat j) c = x).
    { pose proof (column_nth n g1 c (Z.of_nat j) Hj) as Hnth.
      rewrite Hcol, Nat2Z.id in Hnth. rewrite <- app_assoc in Hnth.
      rewrite nth_error_app2 in Hnth by lia.
      rewrite HA', Nat.sub_diag in Hnth. simpl in Hnth. congruence. }
    unfold bind at 1. unfold bind at 1.
    rewrite readData_inside by (cbn [data withData]; lia).
    cbn [data withData]. rewrite Hx.
    destruct x as [t |].
    + destruct z as [| z0].
      * replace (Z.of_nat j =? e) with true by (symmetry; apply Z.eqb_eq; lia).
        cbn [negb]. unfold bind at 1. unfold ret at 1. unfold ret at 1.
        apply (IH A' (Some t :: B) O (e - 1) g1); try assumption.
        -- rewrite HL, <- app_assoc. reflexivity.
        -- rewrite Hcol, <- app_assoc. reflexivity.
        -- simpl in *. lia.
        -- lia.
      * replace (Z.of_nat j =? e) with false by (symmetry; apply Z.eqb_neq; lia).
        cbn [negb].
        assert (He' : 0 <= e < n) by (simpl in Hz; lia).
        destruct (setCell_inBounds g1 (mkPos e c) (Some t)) as [g2 [E2 S2]];
          [eapply square_inBounds; eauto |].
        cbn [row col] in E2.
        assert (Hsq2 : square n g2) by (eapply square_shape; eauto).
        destruct (setCell_inBounds g2 (mkPos (Z.of_nat j) c) None) as [g3 [E3 S3]];
          [eapply square_inBounds; eauto |].
        cbn [row col] in E3.
        unfold bind at 1. unfold bind at 1. unfold writeData at 1.
        cbn [data withData]. rewrite E2.
        unfold writeData at 1. cbn [data withData]. rewrite E3.
        unfold ret at 1. cbn [withData data].
        change (withData (withData (withData w g1) g2) g3) with (withData w g3).
        apply (IH A' (Some t :: B) (S z0) (e - 1) g3); try assumption.
        -- rewrite HL, <- app_assoc. reflexivity.
        -- congruence.
        -- intros r c' Hc'.
           rewrite (cellAt_setCell _ _ _ _ _ E3), (cellAt_setCell _ _ _ _ _ E2).
           replace (c' =? c) with false by (symmetry; apply Z.eqb_neq; lia).
           rewrite !andb_false_r. apply Hoth. assumption.
        -- rewrite (column_setCell n g2 g3 (Z.of_nat j) c None Hj E3).
           rewrite (column_setCell n g1 g2 e c (Some t) He' E2).
           rewrite Hcol. change (tilesOf (Some t :: B)) with (t :: tilesOf B).
           apply settle_step; lia.
        -- simpl in *. lia.
        -- lia.
    + unfold ret at 1.
      apply (IH A' (None :: B) (S z) e g1); try assumption.
      * rewrite HL, <- app_assoc. reflexivity.
      * rewrite Hcol, <- app_assoc. reflexivity.
      * simpl in *. lia.
      * lia.
Qed.

Lemma column_ext (n : Z) (g g' : Board) (c : Z) :
  (forall r, cellAt g' r c = cellAt g r c) -> column n g' c = column n g c.
Proof. intros H. unfold column. apply map_ext. exact H. Qed.

Lemma applyGravity_spec (w : World) :
  square (size w) (data w) ->
  exists g',
    Grid.applyGravity w = Returned tt (withData w g')
    /\ shape g' = shape (data w)
    /\ forall c, 0 <= c < size w ->
                 column (size w) g' c = settled (column (size w) (data w) c).
Proof.
  intros Hsq. unfold Grid.applyGravity. unfold bind at 1. unfold get.
  set (n := size w) in *.
  destruct (forEach_inv
              (fun doneC w' =>
                 exists g', w' = withData w g'
                            /\ shape g' = shape (data w)
                            /\ (forall c, In c doneC ->
                                          column n g' c = settled (column n (data w) c))
                            /\ forall c, ~ In c doneC ->
                                         forall r, cellAt g' r c = cellAt (data w) r c)
              (fun c =>
                 foldM (fun emptyRow r =>
                          cell <- readData r c ;;
                          match cell with
                          | Some _ =>
                              (if negb (r =? emptyRow) then
                                 writeData emptyRow c cell ;;;
                                 writeData r c None
                               else ret tt) ;;;
                              ret (emptyRow - 1)
                          | None => ret emptyRow
                          end)
                       (zrangeDown (n - 1) 0) (n - 1) ;;;
                 ret tt)
              (zrange 0 n)) with (w := w) as [w' [E [g' [-> [Hs [Hdone _]]]]]].
  - intros doneC c restC w1 Hl [g1 [-> [Hs1 [Hdone1 Hrest1]]]].
    assert (Hc : 0 <= c < n).
    { apply zrange_In. rewrite Hl. apply in_or_app. right. left. reflexivity. }
    assert (Hnew : ~ In c doneC).
    { pose proof (zrange_NoDup 0 n) as Hnd. rewrite Hl in Hnd.
      apply NoDup_remove_2 in Hnd. intros Hin. apply Hnd. apply in_or_app. left. assumption. }
    assert (Hsq1 : square n g1) by (eapply square_shape; eauto).
    destruct (gravity_column n c (withData w g1) (Z.to_nat n) Hc Hsq1
                (column n g1 c) [] O (n - 1) g1)
      as [e' [g2 [E2 [Hs2 [Hoth2 Hcol2]]]]].
    + rewrite app_nil_r. reflexivity.
    + apply column_length.
    + reflexivity.
    + reflexivity.
    + rewrite app_nil_r. reflexivity.
    + reflexivity.
    + lia.
    + replace (Z.of_nat (Z.to_nat n) - 1) with (n - 1) in E2 by lia.
      cbn [data withData] in *.
      change (withData (withData w g1) g1) with (withData w g1) in E2.
      change (withData (withData w g1) g2) with (withData w g2) in E2.
      exists (withData w g2). split.
      * rewrite (bind_returned _ _ _ _ _ E2). reflexivity.
      * exists g2. split; [reflexivity |]. split; [congruence |]. split.
        -- intros c' Hc'. apply in_app_iff in Hc'. destruct Hc' as [Hc' | [<- | []]].
           ++ rewrite <- (Hdone1 c' Hc'). apply column_ext. intros r.
              apply Hoth2. intros ->. contradiction.
           ++ rewrite Hcol2. f_equal. apply column_ext. apply Hrest1. assumption.
        -- intros c' Hc' r. rewrite Hoth2.
           ++ apply Hrest1. intros Hin. apply Hc'. apply in_or_app. left. assumption.
           ++ intros ->. apply Hc'. apply in_or_app. right. left. reflexivity.
  - exists (data w). split; [symmetry; apply withData_same |].
    split; [reflexivity |]. split; [intros c [] | reflexivity].
  - exists g'. split; [exact E |]. split; [assumption |].
    intros c Hc. apply Hdone. apply zrange_In. assumption.
Qed.

(** X13. On a square board of the size of the grid [applyGravity] returns
    and changes nothing of the state but the board.  The board stays square,
    and each column becomes its empty cells followed by its tiles, top to
    bottom in the order they had: no tile is lost, none passes another, and
    none stays above an empty cell. *)
Theorem applyGravity_settles (w : World) :
  square (size w) (data w) ->
  exists g',
    Grid.applyGravity w = Returned tt (withData w g')
    /\ square (size w) g'
    /\ forall c, 0 <= c < size w ->
                 column (size w) g' c = settled (column (size w) (data w) c).
Proof.
  intros Hsq. destruct (applyGravity_spec w Hsq) as [g' [E [Hs Hcol]]].
  exists g'. split; [assumption |]. split; [| assumption].
  eapply square_shape; eauto.
Qed.

(** ** The cascade *)

Lemma findAllMatches_requestsMatched (g : Board) :
  requestsMatched (MatchDetector.matches (MatchDetector.findAllMatches g))
                  (MatchDetector.specials (MatchDetector.findAllMatches g)).
Proof.
  unfold MatchDetector.findAllMatches.
  pose proof (scanCols_requestsMatched g (MatchDetector.scanRows g ([], []))
                (scanRows_requestsMatched g ([], []) (fun q (F : In q []) => match F with end)))
    as Hscan.
  destruct (MatchDetector.scanCols g (MatchDetector.scanRows g ([], [])))
    as [matched candies]. cbn [fst snd] in Hscan. cbn.
  intros q Hq. apply in_app_iff in Hq. destruct Hq as [Hq | Hq].
  - apply Hscan. assumption.
  - apply (findLTShapes_requestsMatched g matched). assumption.
Qed.

Lemma specialsAt_spec (positions : list Pos) (w : World) :
  (forall p, In p positions -> 0 <= row p < gridSize (data w)) ->
  exists l, Game.specialsAt positions w = Returned l w
            /\ forall x, In x l -> In (fst x) positions.
Proof.
  unfold Game.specialsAt.
  match goal with |- context [foldM ?g positions [] w] => set (f := g) end.
  assert (Hbody : forall found p,
            0 <= row p < gridSize (data w) ->
            exists extra, f found p w = Returned (found ++ extra) w
                          /\ forall x, In x extra -> fst x = p).
  { intros found p Hp. unfold f, bind. rewrite getTileData_spec by assumption.
    destruct (tileDataAt w p) as [t |]; [destruct (special t) as [s |] |]; unfold ret.
    - exists [(p, s)]. split; [reflexivity |]. intros x [<- | []]. reflexivity.
    - exists []. rewrite app_nil_r. split; [reflexivity | intros x []].
    - exists []. rewrite app_nil_r. split; [reflexivity | intros x []]. }
  assert (Hgen : forall (ps : list Pos) (found : list (Pos * Special)),
            (forall p, In p ps -> 0 <= row p < gridSize (data w)) ->
            exists l, foldM f ps found w = Returned (found ++ l) w
                      /\ forall x, In x l -> In (fst x) ps).
  { induction ps as [| p rest IH]; intros found Hin; cbn [foldM].
    - exists []. rewrite app_nil_r. split; [reflexivity | intros x []].
    - destruct (Hbody found p (Hin p (or_introl eq_refl))) as [extra [E Hextra]].
      rewrite (bind_returned _ _ _ _ _ E).
      destruct (IH (found ++ extra)) as [l [E' Hl]];
        [intros q Hq; apply Hin; right; assumption |].
      exists (extra ++ l). rewrite E', <- app_assoc. split; [reflexivity |].
      intros x Hx. apply in_app_iff in Hx. destruct Hx as [Hx | Hx].
      + left. symmetry. apply Hextra. assumption.
      + right. apply Hl. assumption. }
  intros Hin. destruct (Hgen positions [] Hin) as [l [E Hl]]. exists l. auto.
Qed.

Lemma fold_append_spec {A : Type} (f : A -> list Pos) (l : list A) :
  forall (init : list Pos) (p : Pos),
    In p (fold_left (fun all x => all ++ f x) l init)
    <-> In p init \/ exists x, In x l /\ In p (f x).
Proof.
  induction l as [| x rest IH]; intros init p; cbn [fold_left].
  - split; [auto |]. intros [H | [x [[] _]]]. assumption.
  - rewrite IH, in_app_iff. split.
    + intros [[H | H] | [y [Hy H]]]; [auto | right; exists x | right; exists y]; simpl; auto.
    + intros [H | [y [[<- | Hy] H]]]; [auto | auto |]. right. exists y. auto.
Qed.

Lemma guards_false (K : PosSet) (l : list SpecialRequest) (w : World) :
  (forall s, In s l -> setHas K (reqPos s) = true) ->
  forEach l (fun s =>
    if negb (setHas K (reqPos s))
    then Grid.createSpecialCandy (reqRow s) (reqCol s) (reqType s) (candyType s)
    else ret tt) w = Returned tt w.
Proof.
  unfold forEach. induction l as [| s rest IH]; intros H; cbn [foldM]; [reflexivity |].
  unfold bind. rewrite (H s (or_introl eq_refl)). cbn [negb]. unfold ret.
  apply IH. intros s' Hs'. apply H. right. assumption.
Qed.

Lemma clearPass_spec (n : Z) (w : World) :
  size w = n -> square n (data w) ->
  exists memoryTiles cleared g',
    Game.clearPass (MatchDetector.findAllMatches (data w)) w
    = Returned memoryTiles (withData w g')
    /\ shape g' = shape (data w)
    /\ (forall p, In p cleared -> onBoard n p)
    /\ (forall p, In p (MatchDetector.matches (MatchDetector.findAllMatches (data w))) ->
                  In p cleared)
    /\ forall r c, cellAt g' r c =
                   if setHas cleared (mkPos r c) then None else cellAt (data w) r c.
Proof.
  intros Hsize Hsq. pose proof (square_gridSize _ _ Hsq) as Hn.
  set (res := MatchDetector.findAllMatches (data w)).
  assert (Hm : forall p, In p (MatchDetector.matches res) -> onBoard n p).
  { intros p Hp. apply findAllMatches_matches in Hp. destruct Hp as [Hp _].
    rewrite Hn in Hp. exact Hp. }
  unfold Game.clearPass.
  destruct (specialsAt_spec (MatchDetector.matches res) w) as [toActivate [E Hact]].
  { intros p Hp. apply Hm in Hp. unfold onBoard in Hp. lia. }
  rewrite (bind_returned _ _ _ _ _ E). unfold bind at 1. unfold get.
  set (allMatches := fold_left _ toActivate (MatchDetector.matches res)).
  set (uniqueMatches := Game.deduplicatePositions allMatches).
  assert (Hall : forall p, In p uniqueMatches -> onBoard n p).
  { intros p Hp. unfold uniqueMatches in Hp. apply -> deduplicatePositions_In in Hp.
    unfold allMatches in Hp.
    apply (fold_append_spec
             (fun sp : Pos * Special =>
                MatchDetector.getSpecialClearPositions (data w) (fst sp) (snd sp))) in Hp. destruct Hp as [Hp | [[q s] [Hq Hp]]]; [auto |].
    apply Hact in Hq. cbn [fst snd] in *. apply Hm in Hq.
    apply special_positions_In in Hp. rewrite Hn in Hp. unfold onBoard in *.
    destruct s; lia. }
  destruct (removeMatches_spec uniqueMatches w) as [g' [Erem [Hs Hc]]].
  { intros p Hp. apply Hall in Hp. unfold onBoard in Hp.
    eapply square_inBounds; eauto; tauto. }
  rewrite (bind_returned _ _ _ _ _ Erem).
  assert (Hguard : forall s, In s (MatchDetector.specials res) ->
                             setHas (fold_left setAdd uniqueMatches []) (reqPos s) = true).
  { intros s Hs'. apply setHas_In. apply fold_setAdd_In. right.
    apply deduplicatePositions_In. unfold allMatches. apply fold_append_In.
    apply findAllMatches_requestsMatched. assumption. }
  rewrite (bind_returned _ _ _ _ _
             (guards_false (fold_left setAdd uniqueMatches []) (MatchDetector.specials res)
                (withData w g') Hguard)).
  unfold ret. eexists _, uniqueMatches, g'. split; [reflexivity |].
  split; [assumption |]. split; [assumption |]. split; [| assumption].
  intros p Hp. apply deduplicatePositions_In. unfold allMatches.
  apply fold_append_In. assumption.
Qed.

Lemma revealMemory_spec (id : Z) (w : World) :
  MemorySystem.revealMemory id w =
  if totalMemories w <=? revealedCount w then Returned false w
  else Returned true (withRevealedCount w (revealedCount w + 1)).
Proof.
  unfold MemorySystem.revealMemory, bind, get.
  destruct (totalMemories w <=? revealedCount w); reflexivity.
Qed.

Lemma revealMemories_spec (l : list Grid.MemoryTile) (w : World) :
  exists w',
    Game.revealMemories l w = Returned tt w'
    /\ data w' = data w /\ size w' = size w.
Proof.
  unfold Game.revealMemories.
  apply (forEach_inv (fun _ w' => data w' = data w /\ size w' = size w)); [| auto].
  intros done m rest w1 _ [Hd Hs].
  unfold bind, modify. rewrite revealMemory_spec.
  destruct (totalMemories _ <=? _); eexists; (split; [reflexivity |]); cbn; auto.
Qed.

Lemma cascade_pass (n : Z) (w : World) :
  size w = n -> square n (data w) ->
  exists w',
    (memoryTiles <- Game.clearPass (MatchDetector.findAllMatches (data w)) ;;
     Game.revealMemories memoryTiles ;;;
     Grid.applyGravity ;;;
     Grid.spawnNewTiles) w = Returned tt w'
    /\ size w' = n /\ square n (data w') /\ full n (data w').
Proof.
  intros Hsize Hsq.
  destruct (clearPass_spec n w Hsize Hsq) as [mt [cleared [g1 [E1 [Hs1 _]]]]].
  rewrite (bind_returned _ _ _ _ _ E1).
  destruct (revealMemories_spec mt (withData w g1)) as [w2 [E2 [Hd2 Hz2]]].
  rewrite (bind_returned _ _ _ _ _ E2). cbn [data size withData] in Hd2, Hz2.
  assert (Hsq2 : square (size w2) (data w2)).
  { rewrite Hd2, Hz2, Hsize. eapply square_shape; eauto. }
  destruct (applyGravity_spec w2 Hsq2) as [g3 [E3 [Hs3 _]]].
  rewrite (bind_returned _ _ _ _ _ E3).
  assert (Hsq3 : square (size (withData w2 g3)) (data (withData w2 g3))).
  { cbn [data size withData]. eapply square_shape; eauto. }
  destruct (spawnNewTiles_spec _ Hsq3) as [g4 [k [E4 [Href Hfull]]]].
  rewrite E4. eexists. split; [reflexivity |].
  cbn [data size withData withRandomCalls] in *. rewrite Hz2, Hsize in *.
  split; [reflexivity |]. split; [| assumption].
  eapply refilled_square; eauto.
Qed.

Lemma processMatches_step (f : nat) (w : World) :
  square (size w) (data w) ->
  MatchDetector.matches (MatchDetector.findAllMatches (data w)) <> [] ->
  exists w1,
    Game.processMatches (S f) w = Game.processMatches f w1
    /\ size w1 = size w /\ square (size w) (data w1) /\ full (size w) (data w1).
Proof.
  intros Hsq Hne. cbn [Game.processMatches]. unfold bind at 1. unfold get.
  destruct (Z.of_nat (List.length
              (MatchDetector.matches (MatchDetector.findAllMatches (data w)))) =? 0) eqn:E.
  - apply Z.eqb_eq in E.
    destruct (MatchDetector.matches (MatchDetector.findAllMatches (data w)));
      [contradiction | simpl in E; lia].
  - destruct (cascade_pass (size w) w eq_refl Hsq) as [w1 [E1 [Hz1 [Hsq1 Hfull1]]]].
    exists w1. split; [| auto].
    unfold bind in *.
    destruct (Game.clearPass _ w) as [mt wa | |]; try discriminate.
    destruct (Game.revealMemories mt wa) as [[] wb | |]; try discriminate.
    destruct (Grid.applyGravity wb) as [[] wc | |]; try discriminate.
    destruct (Grid.spawnNewTiles wc) as [[] wd | |]; try discriminate.
    inversion E1. reflexivity.
Qed.

Lemma processMatches_outcome (fuel : nat) :
  forall w,
    square (size w) (data w) ->
    match Game.processMatches fuel w with
    | Returned _ w' =>
        size w' = size w /\ square (size w) (data w')
        /\ MatchDetector.matches (MatchDetector.findAllMatches (data w')) = []
        /\ (full (size w) (data w) -> full (size w) (data w'))
    | Threw _ => False
    | Running w' => size w' = size w /\ square (size w) (data w')
    end.
Proof.
  induction fuel as [| f IH]; intros w Hsq.
  - cbn [Game.processMatches]. auto.
  - destruct (MatchDetector.matches (MatchDetector.findAllMatches (data w))) eqn:Em.
    + cbn [Game.processMatches]. unfold bind at 1. unfold get. rewrite Em.
      cbn [List.length Z.of_nat Z.eqb]. unfold ret.
      split; [reflexivity |]. split; [assumption |]. split; [assumption | auto].
    + destruct (processMatches_step f w Hsq) as [w1 [E1 [Hz1 [Hsq1 Hfull1]]]];
        [rewrite Em; discriminate |].
      rewrite E1. rewrite <- Hz1 in Hsq1.
      specialize (IH w1 Hsq1). rewrite Hz1 in IH.
      destruct (Game.processMatches f w1) as [[] w' | |]; [| assumption | assumption].
      destruct IH as [H1 [H2 [H3 H4]]].
      split; [assumption |]. split; [assumption |]. split; [assumption |].
      intros _. apply H4. assumption.
Qed.

(** X16. From a state whose board is square and of the size of the grid,
    [processMatches] never throws, whatever the random draws, and leaves the
    board square.  When it returns, [findAllMatches] finds no match on the
    board it leaves, and that board has no empty cell if the board at the
    start had none. *)
Theorem processMatches_ends_without_matches (fuel : nat) (w : World) :
  square (size w) (data w) ->
  match Game.processMatches fuel w with
  | Returned _ w' =>
      size w' = size w /\ square (size w) (data w')
      /\ MatchDetector.matches (MatchDetector.findAllMatches (data w')) = []
      /\ (full (size w) (data w) -> full (size w) (data w'))
  | Threw _ => False
  | Running w' => size w' = size w /\ square (size w) (data w')
  end.
Proof. apply processMatches_outcome. Qed.

(** ** The quick check of a swap and the scan after it *)

Lemma exchanged_at (g g' : Board) (p1 p2 : Pos) :
  exchanged g g' p1 p2 ->
  cellAt g' (row p1) (col p1) = cellAt g (row p2) (col p2)
  /\ cellAt g' (row p2) (col p2) = cellAt g (row p1) (col p1).
Proof.
  intros [_ Hc]. rewrite !Hc, !Z.eqb_refl. cbn [andb]. split; [| reflexivity].
  destruct ((row p1 =? row p2) && (col p1 =? col p2)) eqn:E; [| reflexivity].
  apply andb_true_iff in E. destruct E as [Ea Eb]. apply Z.eqb_eq in Ea, Eb.
  rewrite Ea, Eb. reflexivity.
Qed.

Lemma swap_then_scan (n : Z) (p1 p2 : Pos) (w : World) :
  square n (data w) -> onBoard n p1 -> onBoard n p2 ->
  MatchDetector.isSpecialCombination (data w) p1 p2 = None ->
  exists g' b,
    Grid.swapTiles p1 p2 w = Returned tt (withData w g')
    /\ MatchDetector.wouldMatch (data w) p1 p2 = Some (b, data w)
    /\ (b = true ->
        In p1 (MatchDetector.matches (MatchDetector.findAllMatches g'))
        \/ In p2 (MatchDetector.matches (MatchDetector.findAllMatches g')))
    /\ (MatchDetector.truthyType
          (MatchDetector.getTileType (cellAt (data w) (row p1) (col p1))) = true ->
        MatchDetector.truthyType
          (MatchDetector.getTileType (cellAt (data w) (row p2) (col p2))) = true ->
        In p1 (MatchDetector.matches (MatchDetector.findAllMatches g'))
        \/ In p2 (MatchDetector.matches (MatchDetector.findAllMatches g')) ->
        b = true).
Proof.
  intros Hsq H1 H2 Hcombo.
  assert (B1 : inBounds (data w) p1)
    by (unfold onBoard in H1; eapply square_inBounds; eauto; tauto).
  assert (B2 : inBounds (data w) p2)
    by (unfold onBoard in H2; eapply square_inBounds; eauto; tauto).
  destruct (swapTiles_value p1 p2 w B1 B2) as [g' [Eswap Hex]].
  destruct (wouldMatch_value (data w) p1 p2 B1 B2) as [ga [Hexa Ew]].
  assert (ga = g') by (eapply exchanged_unique; eauto). subst ga.
  rewrite Hcombo in Ew.
  exists g', (MatchDetector.hasMatchAt g' p1 || MatchDetector.hasMatchAt g' p2).
  split; [assumption |]. split; [assumption |].
  assert (Hn : gridSize g' = n).
  { rewrite (exchanged_gridSize _ _ _ _ Hex). apply Hsq. }
  destruct (exchanged_at _ _ _ _ Hex) as [A1 A2].
  unfold onBoard in H1, H2. split.
  - intros Hb. apply orb_true_iff in Hb. destruct Hb as [Hb | Hb].
    + left. destruct (hasMatchAt_truthy g' p1 Hb) as [_ Hty].
      apply findAllMatches_matches. apply hasMatchAt_spec; [lia | assumption | assumption].
    + right. destruct (hasMatchAt_truthy g' p2 Hb) as [_ Hty].
      apply findAllMatches_matches. apply hasMatchAt_spec; [lia | assumption | assumption].
  - intros T1 T2 Hin. apply orb_true_iff. destruct Hin as [Hin | Hin].
    + left. apply findAllMatches_matches in Hin.
      apply hasMatchAt_spec; [lia | rewrite A1; assumption | assumption].
    + right. apply findAllMatches_matches in Hin.
      apply hasMatchAt_spec; [lia | rewrite A2; assumption | assumption].
Qed.

(** X17. For two positions of a square board that are not both specials,
    [wouldMatch] answers for the board that [swapTiles] produces: if it
    accepts the swap, the scan of the swapped board lists one of the two
    positions, so the cascade that follows has a match to clear; and if the
    two tiles have truthy types and the scan of the swapped board lists one
    of the two positions, it accepts the swap. *)
Theorem accepted_swap_has_match (n : Z) (p1 p2 : Pos) (w : World) :
  square n (data w) -> onBoard n p1 -> onBoard n p2 ->
  MatchDetector.isSpecialCombination (data w) p1 p2 = None ->
  exists g' b,
    Grid.swapTiles p1 p2 w = Returned tt (withData w g')
    /\ MatchDetector.wouldMatch (data w) p1 p2 = Some (b, data w)
    /\ (b = true ->
        In p1 (MatchDetector.matches (MatchDetector.findAllMatches g'))
        \/ In p2 (MatchDetector.matches (MatchDetector.findAllMatches g')))
    /\ (MatchDetector.truthyType
          (MatchDetector.getTileType (cellAt (data w) (row p1) (col p1))) = true ->
        MatchDetector.truthyType
          (MatchDetector.getTileType (cellAt (data w) (row p2) (col p2))) = true ->
        In p1 (MatchDetector.matches (MatchDetector.findAllMatches g'))
        \/ In p2 (MatchDetector.matches (MatchDetector.findAllMatches g')) ->
        b = true).
Proof. apply swap_then_scan. Qed.

(** ** Possible moves *)

(** X19. On a square board of the size of the grid [hasPossibleMoves]
    returns and changes nothing, and it answers true exactly when
    [wouldMatch] accepts the swap of some two adjacent positions of the
    board. *)
Theorem hasPossibleMoves_exact (w : World) :
  square (size w) (data w) ->
  exists b,
    Grid.hasPossibleMoves w = Returned b w
    /\ (b = true <->
        exists p1 p2,
          onBoard (size w) p1 /\ onBoard (size w) p2
          /\ MatchDetector.areAdjacent p1 p2 = true
          /\ MatchDetector.wouldMatch (data w) p1 p2 = Some (true, data w)).
Proof.
  intros Hsq. destruct (findPossibleMatch_spec (size w) (data w) Hsq) as [res [E Hres]].
  unfold Grid.hasPossibleMoves, bind, onData. rewrite E, withData_same. unfold ret.
  eexists. split; [reflexivity |]. destruct res as [[p1 p2] |].
  - split; [| reflexivity]. intros _. destruct Hres as [Hp Hw].
    exists p1, p2. pose proof (probe_adjacent _ _ _ Hp). unfold probe in Hp. tauto.
  - split; [discriminate |]. intros [p1 [p2 [H1 [H2 [Ha Hw]]]]].
    rewrite (Hres p1 p2 H1 H2 Ha) in Hw. discriminate.
Qed.

(** ** Revealing memories *)

Lemma revealMemories_count (l : list Grid.MemoryTile) :
  forall w,
    revealedCount w <= totalMemories w ->
    exists w',
      Game.revealMemories l w = Returned tt w'
      /\ revealedCount w' = Z.min (revealedCount w + Z.of_nat (List.length l)) (totalMemories w)
      /\ totalMemories w' = totalMemories w
      /\ data w' = data w /\ size w' = size w /\ moves w' = moves w.
Proof.
  unfold Game.revealMemories, forEach.
  induction l as [| m rest IH]; intros w Hle; cbn [foldM].
  - exists w. unfold ret. cbn [List.length]. repeat split; try reflexivity. lia.
  - assert (Hbody : exists w1,
              (modify (fun w0 => withIsPaused w0 true) ;;;
               MemorySystem.revealMemory (Grid.foundId m) ;;;
               modify (fun w0 => withIsPaused w0 false)) w = Returned tt w1
              /\ revealedCount w1 = Z.min (revealedCount w + 1) (totalMemories w)
              /\ totalMemories w1 = totalMemories w
              /\ data w1 = data w /\ size w1 = size w /\ moves w1 = moves w).
    { unfold bind, modify. rewrite revealMemory_spec. cbn [totalMemories revealedCount withIsPaused].
      destruct (totalMemories w <=? revealedCount w) eqn:E.
      - apply Z.leb_le in E. eexists. split; [reflexivity |]. cbn. repeat split; lia.
      - apply Z.leb_gt in E. eexists. split; [reflexivity |]. cbn. repeat split; lia. }
    destruct Hbody as [w1 [E1 [Hc1 [Ht1 [Hd1 [Hs1 Hm1]]]]]].
    rewrite (bind_returned _ _ _ _ _ E1).
    destruct (IH w1) as [w' [E' [Hc [Ht [Hd [Hs Hm]]]]]]; [lia |].
    exists w'. split; [exact E' |].
    cbn [List.length]. repeat split; try congruence. lia.
Qed.

(** X18. [revealMemories] reveals one memory for each memory tile of its
    list, whatever the ids of the tiles, until all are revealed: from a
    state with no more memories revealed than there are, the counter grows
    by the length of the list, capped at [totalMemories].  The board, its
    size and the moves stay, and [isComplete] then holds exactly when the
    counter before the call plus the length of the list reaches
    [totalMemories]. *)
Theorem revealMemories_counts (l : list Grid.MemoryTile) (w : World) :
  revealedCount w <= totalMemories w ->
  exists w',
    Game.revealMemories l w = Returned tt w'
    /\ revealedCount w' = Z.min (revealedCount w + Z.of_nat (List.length l)) (totalMemories w)
    /\ totalMemories w' = totalMemories w
    /\ data w' = data w /\ size w' = size w /\ moves w' = moves w
    /\ MemorySystem.isComplete w'
       = Returned (totalMemories w <=? revealedCount w + Z.of_nat (List.length l)) w'.
Proof.
  intros Hle. destruct (revealMemories_count l w Hle) as [w' [E [Hc [Ht [Hd [Hs Hm]]]]]].
  exists w'. repeat split; try assumption.
  unfold MemorySystem.isComplete, bind, get, ret. rewrite Hc, Ht. f_equal.
  destruct (totalMemories w <=? revealedCount w + Z.of_nat (List.length l)) eqn:E1.
  - apply Z.leb_le in E1. apply Z.leb_le. lia.
  - apply Z.leb_gt in E1. apply Z.leb_gt. lia.
Qed.

(** ** Populating the board *)

Lemma pickType_value (retries : nat) (r c : Z) :
  forall w, 0 <= r < gridSize (data w) ->
            exists s k, In s Grid.tileTypes
                        /\ Grid.pickType retries r c w
                           = Returned (Some s) (withRandomCalls w k).
Proof.
  induction retries as [| m IH]; intros w Hr; cbn [Grid.pickType]; unfold bind.
  - destruct (getRandomType_value w) as [s [Hs ->]]. unfold ret. eauto.
  - destruct (getRandomType_value w) as [s [Hs ->]].
    rewrite wouldCreateInitialMatch_spec by exact Hr.
    destruct (backwardMatch _ r c (Some s)).
    + destruct (IH (withRandomCalls w (S (randomCalls w))) Hr) as [s' [k' [Hs' ->]]].
      exists s', k'. split; [assumption | reflexivity].
    + unfold ret. eauto.
Qed.

Lemma writeCell_length_le (l : list Cell) (c n : Z) (v : Cell) :
  0 <= c < n -> Z.of_nat (List.length l) <= n ->
  Z.of_nat (List.length (writeCell l c v)) <= n.
Proof.
  intros Hc Hl. unfold writeCell.
  destruct (Nat.ltb (Z.to_nat c) (List.length l)) eqn:E.
  - rewrite replaceNth_length. assumption.
  - apply Nat.ltb_ge in E. rewrite !length_app, repeat_length. cbn [List.length]. lia.
Qed.

Lemma Forall_replaceNth {A : Type} (P : A -> Prop) (l : list A) (k : nat) (v : A) :
  Forall P l -> P v -> Forall P (replaceNth l k v).
Proof.
  intros Hl Hv. revert k. induction Hl as [| x rest Hx Hrest IH]; intros k; simpl.
  - constructor.
  - destruct k; constructor; auto.
Qed.

Lemma filter_snoc {A : Type} (f : A -> bool) (l : list A) (x : A) :
  filter f (l ++ [x]) = filter f l ++ (if f x then [x] else []).
Proof. rewrite filter_app. reflexivity. Qed.

Lemma memoryLookupOf_In (memoryPositions : list Grid.MemoryPosition) (p : Pos) :
  setHas (memoryLookupOf memoryPositions) p = true
  <-> exists m, In m memoryPositions /\ Grid.memoryPos m = p.
Proof.
  unfold memoryLookupOf. rewrite setHas_In, fold_setAdd_map_In, in_map_iff.
  simpl. split.
  - intros [[] | [m [H1 H2]]]. exists m. auto.
  - intros [m [H1 H2]]. right. exists m. auto.
Qed.

Lemma generateCell_inv (memoryPositions : list Grid.MemoryPosition) (n : Z) (w : World)
    (done : list Pos) (p : Pos) (rest : list Pos) (idx : nat) (w1 : World) :
  Grid.cellsRowMajor n = done ++ p :: rest ->
  generateInv memoryPositions n w done idx w1 ->
  exists idx' w',
    Grid.generateCell memoryPositions (memoryLookupOf memoryPositions) idx p w1
    = Returned idx' w'
    /\ generateInv memoryPositions n w (done ++ [p]) idx' w'.
Proof.
  intros Hl [g1 [k1 [-> [Hn [Hlen [Hidx [Hdone Hids]]]]]]].
  assert (Hp : 0 <= row p < n /\ 0 <= col p < n).
  { apply cellsRowMajor_In. rewrite Hl. apply in_or_app. right. left. reflexivity. }
  assert (Hnew : ~ In p done).
  { pose proof (sorted_NoDup _ (cellsRowMajor_sorted n)) as Hnd. rewrite Hl in Hnd.
    apply NoDup_remove_2 in Hnd. intros Hin. apply Hnd. apply in_or_app. left. assumption. }
  unfold Grid.generateCell.
  destruct (pickType_value 49 (row p) (col p) (withData (withRandomCalls w k1) g1))
    as [s [k2 [Hs Epick]]]; [cbn [data withData]; lia |].
  rewrite (bind_returned _ _ _ _ _ Epick).
  set (tile := mkTile (Some s) None (setHas (memoryLookupOf memoryPositions) p)
                 (if setHas (memoryLookupOf memoryPositions) p
                  then option_map Grid.memoryPosId (nth_error memoryPositions idx)
                  else None)).
  destruct (setCell_total g1 (row p) (col p) (Some tile)) as [g2 Eset]; [lia | lia |].
  unfold bind, writeData. cbn [data withData withRandomCalls]. rewrite Eset. unfold ret.
  eexists _, _. split; [reflexivity |].
  exists g2, k2. split; [reflexivity |].
  split; [rewrite <- Hn; eapply setCell_gridSize; eauto |].
  pose proof (setCell_Some _ _ _ _ _ Eset) as [line [Hline [_ Hg2]]].
  split.
  { rewrite Hg2. apply Forall_replaceNth; [assumption |].
    apply writeCell_length_le; [lia |].
    rewrite Forall_forall in Hlen. apply Hlen.
    unfold nthZ in Hline. destruct (row p <? 0); [discriminate |].
    eapply nth_error_In; eauto. }
  split.
  { rewrite filter_snoc, length_app, Hidx.
    destruct (setHas (memoryLookupOf memoryPositions) p); cbn [List.length]; lia. }
  assert (Hkeep : forall q, In q done ->
                            cellAt g2 (row q) (col q) = cellAt g1 (row q) (col q)).
  { intros q Hq. rewrite (cellAt_setCell _ _ _ _ _ Eset).
    destruct ((row q =? row p) && (col q =? col p)) eqn:E; [| reflexivity].
    apply andb_true_iff in E. destruct E as [Ea Eb]. apply Z.eqb_eq in Ea, Eb.
    exfalso. apply Hnew. replace p with q; [assumption |].
    destruct p, q; simpl in *; congruence. }
  assert (Hhere : cellAt g2 (row p) (col p) = Some tile)
    by (rewrite (cellAt_setCell _ _ _ _ _ Eset), !Z.eqb_refl; reflexivity).
  split.
  - intros q Hq. apply in_app_iff in Hq. destruct Hq as [Hq | [<- | []]].
    + rewrite (Hkeep q Hq). apply Hdone. assumption.
    + exists tile. split; [assumption |]. unfold initialTile, tile. cbn.
      split; [eauto |]. split; [reflexivity |]. split; [reflexivity |].
      intros ->. reflexivity.
  - intros i q Hq. rewrite filter_snoc in Hq.
    destruct (Nat.lt_ge_cases i (List.length (filter (setHas (memoryLookupOf memoryPositions)) done))) as [Hi | Hi].
    + rewrite nth_error_app1 in Hq by assumption.
      assert (Hin : In q done).
      { apply nth_error_In in Hq. apply filter_In in Hq. tauto. }
      rewrite (Hkeep q Hin). apply (Hids i q Hq).
    + rewrite nth_error_app2 in Hq by assumption.
      destruct (setHas (memoryLookupOf memoryPositions) p) eqn:El.
      * destruct (i - List.length (filter (setHas (memoryLookupOf memoryPositions)) done))%nat as [| j] eqn:Ei;
          [| destruct j; discriminate].
        cbn in Hq. inversion Hq; subst q. exists tile. split; [assumption |].
        unfold tile. cbn. rewrite ?El. f_equal. f_equal. lia.
      * destruct (i - List.length (filter (setHas (memoryLookupOf memoryPositions)) done))%nat; discriminate.
Qed.

Lemma init_spec (n : Z) (w : World) :
  0 <= n ->
  exists w0, Grid.init n w = Returned tt w0
             /\ size w0 = n /\ moves w0 = moves w
             /\ totalMemories w0 = totalMemories w
             /\ gridSize (data w0) = n
             /\ Forall (fun line => Z.of_nat (List.length line) <= n) (data w0).
Proof.
  intros Hn. unfold Grid.init, modify. eexists. split; [reflexivity |].
  cbn [size moves data totalMemories]. split; [reflexivity |]. split; [reflexivity |].
  split; [reflexivity |]. split.
  - unfold gridSize. rewrite length_map, zrange_length. lia.
  - apply Forall_forall. intros line Hin. apply in_map_iff in Hin.
    destruct Hin as [_ [<- _]]. simpl. lia.
Qed.

Lemma generate_from (n : Z) (memoryPositions : list Grid.MemoryPosition) (w0 : World) :
  size w0 = n -> gridSize (data w0) = n ->
  Forall (fun line => Z.of_nat (List.length line) <= n) (data w0) ->
  exists g' k,
    Grid.generate memoryPositions w0 = Returned tt (withData (withRandomCalls w0 k) g')
    /\ square n g'
    /\ (forall p, onBoard n p ->
                  exists t, cellAt g' (row p) (col p) = Some t
                            /\ initialTile (memoryLookupOf memoryPositions) p t)
    /\ (forall i p,
          nth_error (memoryCells memoryPositions n) i = Some p ->
          exists t, cellAt g' (row p) (col p) = Some t
                    /\ memoryId t
                       = option_map Grid.memoryPosId (nth_error memoryPositions i)).
Proof.
  intros Hs0 Hg0 Hlen0.
  unfold Grid.generate. unfold bind at 1. unfold get. rewrite Hs0.
  destruct (foldM_inv (generateInv memoryPositions n w0)
              (Grid.generateCell memoryPositions (memoryLookupOf memoryPositions))
              (Grid.cellsRowMajor n)) with (b := O) (w := w0)
    as [idx [w' [E [g' [k [-> [Hg [Hlen [_ [Hdone Hids]]]]]]]]]].
  - intros done p rest idx w1 Hl Hinv. eapply generateCell_inv; eauto.
  - exists (data w0), (randomCalls w0). split; [destruct w0; reflexivity |].
    split; [assumption |]. split; [assumption |].
    split; [reflexivity |]. split; [intros p [] |]. intros i p H.
    destruct i; discriminate.
  - change (fold_left (fun s m => setAdd s (Grid.memoryPos m)) memoryPositions [])
      with (memoryLookupOf memoryPositions).
    rewrite (bind_returned _ _ _ _ _ E). unfold ret.
    exists g', k. split; [reflexivity |].
    assert (Hcells : forall p, onBoard n p ->
               exists t, cellAt g' (row p) (col p) = Some t
                         /\ initialTile (memoryLookupOf memoryPositions) p t).
    { intros p Hp. apply Hdone. apply cellsRowMajor_In. exact Hp. }
    split; [| split; [assumption | exact Hids]].
    split; [assumption |].
    apply Forall_forall. intros line Hin.
    rewrite Forall_forall in Hlen. pose proof (Hlen line Hin) as Hle.
    destruct (In_nth_error _ _ Hin) as [r Hr].
    assert (Hrn : (r < List.length g')%nat) by (apply nth_error_Some; congruence).
    unfold gridSize in Hg.
    destruct (Hcells (mkPos (Z.of_nat r) (n - 1))) as [t [Ht _]].
    { unfold onBoard. cbn. lia. }
    cbn [row col] in Ht. unfold cellAt, nthZ in Ht.
    replace (Z.of_nat r <? 0) with false in Ht by (symmetry; apply Z.ltb_ge; lia).
    rewrite Nat2Z.id, Hr in Ht.
    destruct (n - 1 <? 0); [discriminate |].
    destruct (nth_error line (Z.to_nat (n - 1))) eqn:En; [| discriminate].
    assert (Z.to_nat (n - 1) < List.length line)%nat by (apply nth_error_Some; congruence).
    lia.
Qed.

Lemma generate_spec (n : Z) (memoryPositions : list Grid.MemoryPosition) (w : World) :
  0 <= n ->
  exists w',
    (Grid.init n ;;; Grid.generate memoryPositions) w = Returned tt w'
    /\ size w' = n /\ moves w' = moves w
    /\ square n (data w')
    /\ (forall p, onBoard n p ->
                  exists t, cellAt (data w') (row p) (col p) = Some t
                            /\ initialTile (memoryLookupOf memoryPositions) p t)
    /\ (forall i p,
          nth_error (memoryCells memoryPositions n) i = Some p ->
          exists t, cellAt (data w') (row p) (col p) = Some t
                    /\ memoryId t
                       = option_map Grid.memoryPosId (nth_error memoryPositions i)).
Proof.
  intros Hn. destruct (init_spec n w Hn) as [w0 [E0 [Hs0 [Hm0 [_ [Hg0 Hlen0]]]]]].
  rewrite (bind_returned _ _ _ _ _ E0).
  destruct (generate_from n memoryPositions w0 Hs0 Hg0 Hlen0)
    as [g' [k [E [Hsq [Hcells Hids]]]]].
  rewrite E. eexists. split; [reflexivity |].
  cbn [data size moves withData withRandomCalls]. auto.
Qed.

(** X15. [init] followed by [generate] returns, whatever the random draws
    and the list of memory positions, and leaves the moves as they were and
    a square board of the size given without an empty cell: every cell
    holds a plain tile of one of the five types, tagged as a memory tile
    exactly when its position is listed.  The ids follow the order of the
    loops, not the positions: the i-th tagged cell in row-major order
    carries the id of the i-th entry of the list. *)
Theorem generate_populates (n : Z) (memoryPositions : list Grid.MemoryPosition)
    (w : World) :
  0 <= n ->
  exists w',
    (Grid.init n ;;; Grid.generate memoryPositions) w = Returned tt w'
    /\ size w' = n /\ moves w' = moves w
    /\ square n (data w')
    /\ (forall p, onBoard n p ->
                  exists t, cellAt (data w') (row p) (col p) = Some t
                            /\ initialTile (memoryLookupOf memoryPositions) p t)
    /\ (forall p, setHas (memoryLookupOf memoryPositions) p = true
                  <-> exists m, In m memoryPositions /\ Grid.memoryPos m = p)
    /\ (forall i p,
          nth_error (memoryCells memoryPositions n) i = Some p ->
          exists t, cellAt (data w') (row p) (col p) = Some t
                    /\ memoryId t
                       = option_map Grid.memoryPosId (nth_error memoryPositions i)).
Proof.
  intros Hn. destruct (generate_spec n memoryPositions w Hn)
    as [w' [E [Hs [Hm [Hsq [Hcells Hids]]]]]].
  exists w'. split; [assumption |]. split; [assumption |]. split; [assumption |].
  split; [assumption |]. split; [assumption |].
  split; [apply memoryLookupOf_In | assumption].
Qed.

(** ** A whole turn *)

Lemma ends_bind {A B : Type} (m : M A) (k : A -> M B) (w : World)
    (Q1 Q R : World -> Prop) :
  ends (m w) Q1 R -> (forall a w1, Q1 w1 -> ends (k a w1) Q R) ->
  ends (bind m k w) Q R.
Proof.
  intros Hm Hk. unfold bind. destruct (m w) as [a w1 | w1 | w1]; cbn in *.
  - apply Hk. assumption.
  - contradiction.
  - assumption.
Qed.

Lemma ends_weaken {A : Type} (o : Outcome A) (Q Q' R R' : World -> Prop) :
  ends o Q R -> (forall w, Q w -> Q' w) -> (forall w, R w -> R' w) -> ends o Q' R'.
Proof. destruct o; cbn; auto. Qed.

Lemma sameGrid_refl (w : World) : square (size w) (data w) -> sameGrid w w.
Proof. intros H. split; [reflexivity | assumption]. Qed.

Lemma sameGrid_trans (w w1 w2 : World) :
  sameGrid w w1 -> sameGrid w1 w2 -> sameGrid w w2.
Proof.
  intros [S1 H1] [S2 H2]. split; [congruence |]. rewrite <- S1. assumption.
Qed.

Lemma processMatches_ends (fuel : nat) (w : World) :
  square (size w) (data w) ->
  ends (Game.processMatches fuel w)
       (fun w' => sameGrid w w' /\ settledBoard w') (sameGrid w).
Proof.
  intros Hsq. pose proof (processMatches_outcome fuel w Hsq) as H.
  unfold ends, sameGrid, settledBoard.
  destruct (Game.processMatches fuel w); [| assumption | assumption].
  tauto.
Qed.

Lemma hasPossibleMoves_returns (w : World) :
  square (size w) (data w) -> exists b, Grid.hasPossibleMoves w = Returned b w.
Proof.
  intros Hsq. destruct (findPossibleMatch_square _ _ Hsq) as [res E].
  unfold Grid.hasPossibleMoves, bind, onData. rewrite E, withData_same.
  unfold ret. eauto.
Qed.

Lemma shuffle_ends (fuel : nat) :
  forall w,
    square (size w) (data w) ->
    ends (Grid.shuffle fuel w)
         (fun w' => sameGrid w w' /\ settledBoard w') (sameGrid w).
Proof.
  induction fuel as [| f IH]; intros w Hsq.
  - cbn. apply sameGrid_refl. assumption.
  - cbn [Grid.shuffle].
    destruct (shuffle_round w (Grid.checkShuffled (Grid.shuffle f)) Hsq)
      as [w1 [Heq [Hsq1 [Hsize _]]]].
    rewrite Heq. clear Heq.
    assert (Hsame : sameGrid w w1) by (split; [assumption | rewrite <- Hsize; assumption]).
    assert (Hagain : ends (Grid.shuffle f w1)
                       (fun w' => sameGrid w w' /\ settledBoard w') (sameGrid w)).
    { eapply ends_weaken; [apply IH; assumption | |].
      - intros w' [H1 H2]. split; [eapply sameGrid_trans; eauto | assumption].
      - intros w' H1. eapply sameGrid_trans; eauto. }
    unfold Grid.checkShuffled. unfold bind at 1. unfold get. cbv zeta.
    destruct (0 <? Z.of_nat (List.length
                (MatchDetector.matches (MatchDetector.findAllMatches (data w1))))) eqn:Efound;
      [exact Hagain |].
    destruct (hasPossibleMoves_returns w1 Hsq1) as [b Eb].
    rewrite (bind_returned _ _ _ _ _ Eb).
    destruct b; cbn [negb]; [| exact Hagain].
    cbn. split; [assumption |]. unfold settledBoard.
    destruct (MatchDetector.matches (MatchDetector.findAllMatches (data w1)));
      [reflexivity |].
    apply Z.ltb_ge in Efound. cbn [List.length] in Efound. lia.
Qed.

Lemma checkWinLose_ends (fuel : nat) (w : World) :
  square (size w) (data w) ->
  ends (Game.checkWinLose fuel w)
       (fun w' => sameGrid w w' /\ (settledBoard w -> settledBoard w')) (sameGrid w).
Proof.
  intros Hsq. unfold Game.checkWinLose. unfold bind at 1.
  unfold MemorySystem.isComplete, bind at 1, get, ret.
  destruct (totalMemories w <=? revealedCount w).
  - cbn. split; [split; [reflexivity | exact Hsq] | auto].
  - unfold bind at 1. destruct (moves w <=? 0).
    + cbn. split; [split; [reflexivity | exact Hsq] | auto].
    + destruct (hasPossibleMoves_returns w Hsq) as [b Eb].
      rewrite (bind_returned _ _ _ _ _ Eb).
      destruct b; cbn [negb].
      * cbn. split; [split; [reflexivity | exact Hsq] | auto].
      * eapply ends_weaken; [apply shuffle_ends; assumption | | auto].
        intros w' [H1 H2]. auto.
Qed.

Lemma refill_then {B : Type} (l : list Pos) (w : World) (rest : M B) :
  square (size w) (data w) ->
  (forall p, In p l -> onBoard (size w) p) ->
  exists w',
    (memoryTiles <- Grid.removeMatches l ;;
     Game.revealMemories memoryTiles ;;;
     Grid.applyGravity ;;;
     Grid.spawnNewTiles ;;;
     rest) w = rest w'
    /\ sameGrid w w' /\ full (size w) (data w').
Proof.
  intros Hsq Hl.
  destruct (removeMatches_spec l w) as [g1 [E1 [Hs1 _]]].
  { intros p Hp. apply Hl in Hp. unfold onBoard in Hp.
    eapply square_inBounds; eauto; tauto. }
  rewrite (bind_returned _ _ _ _ _ E1).
  destruct (revealMemories_spec (flat_map (memoryTileAt (data w)) l) (withData w g1))
    as [w2 [E2 [Hd2 Hz2]]].
  rewrite (bind_returned _ _ _ _ _ E2). cbn [data size withData] in Hd2, Hz2.
  assert (Hsq2 : square (size w2) (data w2)).
  { rewrite Hd2, Hz2. eapply square_shape; eauto. }
  destruct (applyGravity_spec w2 Hsq2) as [g3 [E3 [Hs3 _]]].
  rewrite (bind_returned _ _ _ _ _ E3).
  assert (Hsq3 : square (size (withData w2 g3)) (data (withData w2 g3))).
  { cbn [data size withData]. eapply square_shape; eauto. }
  destruct (spawnNewTiles_spec _ Hsq3) as [g4 [k [E4 [Href Hfull]]]].
  rewrite (bind_returned _ _ _ _ _ E4). eexists. split; [reflexivity |].
  unfold sameGrid. cbn [data size withData withRandomCalls] in *. rewrite Hz2 in *.
  split; [| assumption]. split; [reflexivity |].
  eapply refilled_square; eauto.
Qed.

Lemma chainedClear_onBoard (w : World) (p1 p2 q x : Pos) :
  onBoard (gridSize (data w)) q -> In x (chainedClear w p1 p2 q) ->
  onBoard (gridSize (data w)) x.
Proof.
  intros Hq. unfold chainedClear.
  destruct (_ || _); [intros [] |].
  destruct (specialAt w q) as [s |]; [| intros []].
  intros Hx. apply special_positions_In in Hx. unfold onBoard in *.
  destruct s; lia.
Qed.

Lemma processSpecialCombination_ends (fuel : nat) (p1 p2 : Pos)
    (combo : MatchDetector.Combination) (w : World) :
  square (size w) (data w) -> onBoard (size w) p1 -> onBoard (size w) p2 ->
  ends (Game.processSpecialCombination fuel p1 p2 combo w)
       (fun w' => sameGrid w w' /\ settledBoard w') (sameGrid w).
Proof.
  intros Hsq H1 H2. unfold Game.processSpecialCombination.
  destruct (swapTiles_value p1 p2 w) as [g1 [E1 [Hs1 _]]];
    try (unfold onBoard in *; eapply square_inBounds; eauto; tauto).
  rewrite (bind_returned _ _ _ _ _ E1).
  unfold bind at 1. unfold modify at 1.
  set (w2 := withMoves (withData w g1) (moves (withData w g1) - 1)).
  assert (Hsq2 : square (size w2) (data w2))
    by (cbn; eapply square_shape; eauto).
  rewrite (bind_returned _ _ _ _ _ (combinationClearSet_spec p1 p2 combo w2)).
  match goal with
  | |- context [Grid.removeMatches ?l] =>
      destruct (refill_then l w2 (Game.processMatches fuel) Hsq2) as [w3 [E3 [Hsame3 _]]]
  end.
  { intros x Hx. apply -> deduplicatePositions_In in Hx.
    pose proof (square_gridSize _ _ Hsq2) as Hn. rewrite <- Hn.
    apply in_app_iff in Hx. destruct Hx as [Hx | Hx].
    - apply combination_positions_inside in Hx. exact Hx.
    - apply in_flat_map in Hx. destruct Hx as [q [Hq Hx]].
      apply combination_positions_inside in Hq.
      eapply chainedClear_onBoard; eauto. }
  rewrite E3.
  assert (Hsame2 : sameGrid w w2) by (split; [reflexivity | exact Hsq2]).
  assert (Hsq3 : square (size w3) (data w3)).
  { destruct Hsame3 as [Hz Hq]. rewrite Hz. exact Hq. }
  eapply ends_weaken; [apply processMatches_ends; assumption | |].
  - intros w' [Ha Hb]. split; [| assumption].
    apply (sameGrid_trans w w2 w'); [exact Hsame2 |].
    apply (sameGrid_trans w2 w3 w'); assumption.
  - intros w' Ha. apply (sameGrid_trans w w2 w'); [exact Hsame2 |].
    apply (sameGrid_trans w2 w3 w'); assumption.
Qed.

Lemma attemptSwap_ends (fuel : nat) (p1 p2 : Pos) (w : World) :
  square (size w) (data w) -> onBoard (size w) p1 -> onBoard (size w) p2 ->
  ends (Game.attemptSwap fuel p1 p2 w)
       (fun w' => sameGrid w w' /\ isProcessing w' = false
                  /\ (w' = withIsProcessing w false \/ settledBoard w'))
       (sameGrid w).
Proof.
  intros Hsq H1 H2.
  assert (B1 : inBounds (data w) p1)
    by (unfold onBoard in H1; eapply square_inBounds; eauto; tauto).
  assert (B2 : inBounds (data w) p2)
    by (unfold onBoard in H2; eapply square_inBounds; eauto; tauto).
  unfold Game.attemptSwap. unfold bind at 1. unfold modify at 1.
  unfold bind at 1. unfold get.
  set (w1 := withIsProcessing w true).
  assert (Hsq1 : square (size w1) (data w1)) by exact Hsq.
  assert (Hfinish : forall wa,
            sameGrid w wa ->
            ends ((Game.checkWinLose fuel ;;;
                   modify (fun w' => withIsProcessing w' false)) wa)
                 (fun w' => sameGrid w w' /\ isProcessing w' = false
                            /\ (settledBoard wa -> settledBoard w'))
                 (sameGrid w)).
  { intros wa Hsa.
    assert (Hsqa : square (size wa) (data wa)).
    { destruct Hsa as [Hz Hq]. rewrite Hz. exact Hq. }
    apply (ends_bind _ _ _
             (fun wb => sameGrid w wb /\ (settledBoard wa -> settledBoard wb))).
    - eapply ends_weaken; [apply checkWinLose_ends; assumption | |].
      + intros wb [Hsb Hset]. split; [| exact Hset].
        apply (sameGrid_trans w wa wb); assumption.
      + intros wb Hsb. apply (sameGrid_trans w wa wb); assumption.
    - intros [] wb [Hsb Hset]. cbn.
      split; [exact Hsb |]. split; [reflexivity | exact Hset]. }
  change (MatchDetector.isSpecialCombination (data w1) p1 p2)
    with (MatchDetector.isSpecialCombination (data w) p1 p2).
  destruct (MatchDetector.isSpecialCombination (data w) p1 p2) as [combo |] eqn:Ec.
  - apply (ends_bind _ _ _ (fun wa => sameGrid w wa /\ settledBoard wa));
      [apply (processSpecialCombination_ends fuel p1 p2 combo w1 Hsq1 H1 H2) |].
    intros [] wa [Hsa Hset].
    eapply ends_weaken; [apply Hfinish; exact Hsa | | auto].
    intros w' [Ha [Hb Hc]]. split; [assumption |]. split; [assumption |].
    right. apply Hc. assumption.
  - destruct (swap_then_scan (size w) p1 p2 w1 Hsq1 H1 H2 Ec) as [g' [b [Eswap [Ew _]]]].
    unfold bind at 1. unfold onData. cbn [data withIsProcessing] in *. rewrite Ew.
    rewrite withData_same.
    destruct b; cbn [negb].
    + rewrite (bind_returned _ _ _ _ _ Eswap).
      unfold bind at 1. unfold modify at 1.
      set (w2 := withMoves (withData w1 g') (moves (withData w1 g') - 1)).
      assert (Hsq2 : square (size w2) (data w2)).
      { cbn. destruct (swapTiles_value p1 p2 w1 B1 B2) as [g'' [E'' [Hs'' _]]].
        rewrite Eswap in E''. inversion E'' as [Hg].
        eapply square_shape; [exact Hs'' | exact Hsq]. }
      assert (Hsame2 : sameGrid w w2) by (split; [reflexivity | exact Hsq2]).
      apply (ends_bind _ _ _ (fun wa => sameGrid w wa /\ settledBoard wa)).
      * eapply ends_weaken; [apply processMatches_ends; exact Hsq2 | |].
        -- intros wa [Hsa Hset]. split; [| exact Hset].
           apply (sameGrid_trans w w2 wa); assumption.
        -- intros wa Hsa. apply (sameGrid_trans w w2 wa); assumption.
      * intros [] wa [Hsa Hset].
        eapply ends_weaken; [apply Hfinish; exact Hsa | | auto].
        intros w' [Ha [Hb Hc]]. split; [assumption |]. split; [assumption |].
        right. apply Hc. assumption.
    + cbn. split; [split; [reflexivity | exact Hsq] |]. split; [reflexivity |].
      left. reflexivity.
Qed.

(** X20. A turn never throws: from a state whose board is square and of the
    size of the grid, [attemptSwap] on two positions of the board returns or
    is still in a cascade or a reshuffle when the fuel runs out, whatever
    the random draws, and the board stays square.  When it returns,
    [isProcessing] is false again, and either the swap was rejected and
    nothing else changed, or [findAllMatches] finds no match on the board it
    leaves. *)
Theorem attemptSwap_never_throws (fuel : nat) (p1 p2 : Pos) (w : World) :
  square (size w) (data w) -> onBoard (size w) p1 -> onBoard (size w) p2 ->
  ends (Game.attemptSwap fuel p1 p2 w)
       (fun w' => sameGrid w w' /\ isProcessing w' = false
                  /\ (w' = withIsProcessing w false \/ settledBoard w'))
       (sameGrid w).
Proof. apply attemptSwap_ends. Qed.

(** ** The crossings of L and T shapes *)

Lemma findLTShapes_loop (g : Board) (l : list Pos) :
  forall (specials : list SpecialRequest) (checked : PosSet),
    NoDup l -> (forall p, In p checked -> ~ In p l) ->
    fst (fold_left
      (fun (st : list SpecialRequest * PosSet) (pos : Pos) =>
         let '(specials, checked) := st in
         if setHas checked pos then st
         else
           let ty := MatchDetector.getTileType (cellAt g (row pos) (col pos)) in
           if negb (MatchDetector.truthyType ty) then st
           else if (3 <=? MatchDetector.hCountAt g (row pos) (col pos) ty)
                   && (3 <=? MatchDetector.vCountAt g (row pos) (col pos) ty)
           then (specials ++ [mkRequest (row pos) (col pos) wrapped ty],
                 setAdd checked pos)
           else st)
      l (specials, checked))
    = specials ++ flat_map (crossingRequest g) l.
Proof.
  induction l as [| pos rest IH]; intros specials checked Hnd Hch; cbn [fold_left flat_map].
  - rewrite app_nil_r. reflexivity.
  - inversion Hnd as [| ? ? Hnew Hnd']; subst.
    assert (Hfresh : setHas checked pos = false).
    { destruct (setHas checked pos) eqn:E; [| reflexivity].
      apply setHas_In in E. exfalso. apply (Hch pos E). left. reflexivity. }
    rewrite Hfresh. unfold crossingRequest at 1. cbv zeta.
    assert (Hrest : forall p, In p checked -> ~ In p rest)
      by (intros p Hp Hin; apply (Hch p Hp); right; assumption).
    destruct (MatchDetector.truthyType _); cbn [negb andb].
    + destruct (_ && _).
      * rewrite IH; [rewrite <- app_assoc; reflexivity | assumption |].
        intros p Hp Hin. apply setAdd_In in Hp. destruct Hp as [Hp | ->].
        -- apply (Hrest p Hp Hin).
        -- contradiction.
      * rewrite IH by assumption. reflexivity.
    + rewrite IH by assumption. reflexivity.
Qed.

Lemma findLTShapes_spec (g : Board) (matched : PosSet) :
  NoDup matched ->
  MatchDetector.findLTShapes g matched = flat_map (crossingRequest g) matched.
Proof.
  intros Hnd. unfold MatchDetector.findLTShapes.
  rewrite findLTShapes_loop; [reflexivity | assumption | intros p []].
Qed.

Lemma stretch_truthy (n : Z) (line : Z -> Cell) (b i : Z) :
  stretch n line b i -> MatchDetector.truthyCell (line i) = true.
Proof.
  intros [s [len [H1 [H2 [H3 [H4 H5]]]]]].
  destruct (Z.eq_dec i s) as [-> | Hne].
  - assert (H : linkedAt n line (s + 1) = true) by (apply H5; lia).
    unfold linkedAt in H. rewrite !andb_true_iff in H.
    replace (s + 1 - 1) with s in H by lia. tauto.
  - assert (H : linkedAt n line i = true) by (apply H5; lia).
    unfold linkedAt in H. rewrite !andb_true_iff in H. tauto.
Qed.

Lemma crossingRequest_In (g : Board) (pos : Pos) (q : SpecialRequest) :
  onBoard (gridSize g) pos ->
  MatchDetector.truthyCell (cellAt g (row pos) (col pos)) = true ->
  (In q (crossingRequest g pos) <->
   q = mkRequest (row pos) (col pos) wrapped
         (MatchDetector.getTileType (cellAt g (row pos) (col pos)))
   /\ MatchDetector.truthyType
        (MatchDetector.getTileType (cellAt g (row pos) (col pos))) = true
   /\ crossing g pos).
Proof.
  intros Hon Hcell. unfold crossingRequest, crossing. cbv zeta.
  destruct (MatchDetector.truthyType _) eqn:Hty; cbn [andb].
  - destruct (cellAt g (row pos) (col pos)) as [t |] eqn:Ecell; [| discriminate].
    assert (Hk : hasKind (cellAt g (row pos) (col pos)) (type t) = true)
      by (rewrite Ecell; apply typeEqb_refl).
    cbn [MatchDetector.getTileType] in *. unfold onBoard in Hon.
    pose proof (count_stretch (gridSize g) (fun c => cellAt g (row pos) c) (col pos) (type t)
                  Hty Hk (proj2 Hon)) as Hh.
    pose proof (count_stretch (gridSize g) (fun r => cellAt g r (col pos)) (row pos) (type t)
                  Hty Hk (proj1 Hon)) as Hv.
    unfold MatchDetector.hCountAt, MatchDetector.vCountAt. cbv zeta.
    destruct (3 <=? _) eqn:E1 at 1; cbn [andb].
    + destruct (3 <=? _) eqn:E2 at 1.
      * split.
        -- intros [<- | []]. split; [reflexivity |]. split; [reflexivity |].
           split; [exact Hon |]. split; [apply Hh; exact E1 | apply Hv; exact E2].
        -- intros [-> _]. left. reflexivity.
      * split; [intros [] |]. intros [_ [_ [_ [_ H]]]]. apply Hv in H. congruence.
    + split; [intros [] |]. intros [_ [_ [_ [H _]]]]. apply Hh in H. congruence.
  - split; [intros [] |]. intros [_ [H _]]. discriminate.
Qed.

Lemma crossingRequest_NoDup (g : Board) (l : list Pos) :
  NoDup l -> NoDup (flat_map (crossingRequest g) l).
Proof.
  induction 1 as [| pos rest Hnew Hnd IH]; cbn [flat_map]; [constructor |].
  unfold crossingRequest at 1. cbv zeta. destruct (_ && _); [| exact IH].
  cbn [app]. constructor; [| exact IH].
  intros Hin. apply in_flat_map in Hin. destruct Hin as [p [Hp Hq]].
  unfold crossingRequest in Hq. cbv zeta in Hq. destruct (_ && _); [| contradiction].
  destruct Hq as [Hq | []]. inversion Hq as [[Hr Hc]].
  apply Hnew. replace pos with p; [assumption |].
  destruct p, pos; simpl in *; congruence.
Qed.

(** X21. The L/T detection of [findAllMatches] asks for one 'wrapped'
    special at every crossing and nowhere else: [findLTShapes] on the match
    set lists no request twice, and it lists a request exactly when the
    request is 'wrapped', sits on a tile of a truthy type that lies both in
    a horizontal and in a vertical stretch of three or more tiles of one
    type, and carries the type of that tile. *)
Theorem findLTShapes_crossings (g : Board) :
  NoDup (MatchDetector.findLTShapes g
           (MatchDetector.matches (MatchDetector.findAllMatches g)))
  /\ forall q,
       In q (MatchDetector.findLTShapes g
               (MatchDetector.matches (MatchDetector.findAllMatches g)))
       <-> reqType q = wrapped
           /\ candyType q
              = MatchDetector.getTileType (cellAt g (reqRow q) (reqCol q))
           /\ MatchDetector.truthyType (candyType q) = true
           /\ crossing g (reqPos q).
Proof.
  destruct (findAllMatches_matches g) as [Hnd Hin].
  rewrite (findLTShapes_spec g _ Hnd). split; [apply crossingRequest_NoDup; assumption |].
  intros q. rewrite in_flat_map. split.
  - intros [pos [Hpos Hq]]. apply Hin in Hpos.
    assert (Hcell : MatchDetector.truthyCell (cellAt g (row pos) (col pos)) = true).
    { destruct Hpos as [_ [H | H]]; apply stretch_truthy in H; exact H. }
    apply (crossingRequest_In g pos q (proj1 Hpos) Hcell) in Hq.
    destruct Hq as [-> [Hty Hcross]]. cbn. auto.
  - intros [Hw [Hc [Hty Hcross]]]. exists (reqPos q).
    assert (Hpos : inMatch g (reqPos q)).
    { destruct Hcross as [Hon [Hh _]]. split; [assumption | left; assumption]. }
    split; [apply Hin; assumption |].
    assert (Hcell : MatchDetector.truthyCell
                      (cellAt g (row (reqPos q)) (col (reqPos q))) = true).
    { destruct Hcross as [_ [H _]]. apply stretch_truthy in H. exact H. }
    apply (crossingRequest_In g (reqPos q) q (proj1 Hpos) Hcell).
    destruct q as [r c sp ty]. cbn in *. subst sp ty.
    split; [reflexivity |]. split; assumption.
Qed.

(** ** The run-length rule on the whole result *)

Section ScanOrigin.

Variables (n : Z) (line : Z -> Cell) (at_ : Z -> Pos) (stripe : Special).
Variable m0 : PosSet.

Lemma spawnOf_type (start len : Z) (q : SpecialRequest) :
  In q (spawnOf line at_ stripe start len) ->
  reqType q = stripe \/ reqType q = wrapped.
Proof.
  unfold spawnOf. destruct (3 <=? len); [| intros []].
  destruct (len =? 4); [| destruct (5 <=? len)]; simpl; intros H;
    try contradiction; destruct H as [<- | []]; auto.
Qed.

Lemma scanStep_origin (a : Z) (st : MatchDetector.Scan) :
  scanInv n line at_ m0 a st -> a <= n ->
  exists extra,
    MatchDetector.specialCandies (MatchDetector.scanStep n line at_ stripe st a)
    = MatchDetector.specialCandies st ++ extra
    /\ Forall (fromStretch n line at_ stripe) extra.
Proof.
  intros [Hb [Hlen [Hlinks _]]] Ha.
  destruct (linkedAt n line a) eqn:E.
  - rewrite scanStep_linked by assumption. exists []. cbn.
    rewrite app_nil_r. split; [reflexivity | constructor].
  - destruct (scanStep_break n line at_ stripe st a E) as [_ [_ [E3 _]]].
    exists (spawnOf line at_ stripe (MatchDetector.matchStart st)
                    (MatchDetector.matchLength st)).
    split; [exact E3 |]. apply Forall_forall. intros q Hq.
    split; [apply (spawnOf_type _ _ _ Hq) |].
    apply spawnOf_In in Hq. destruct Hq as [H3 Hpos].
    exists (MatchDetector.matchStart st + MatchDetector.matchLength st / 2).
    split; [exact Hpos |].
    exists (MatchDetector.matchStart st), (MatchDetector.matchLength st).
    assert (0 <= MatchDetector.matchLength st / 2) by (apply Z.div_pos; lia).
    assert (MatchDetector.matchLength st / 2 < MatchDetector.matchLength st)
      by (apply Z.div_lt; lia).
    repeat split; try lia. intros j Hj. apply Hlinks. lia.
Qed.

Lemma scan_origin (m : nat) :
  forall (a : Z) (st : MatchDetector.Scan),
    scanInv n line at_ m0 a st -> a + Z.of_nat m <= n + 1 ->
    exists extra,
      MatchDetector.specialCandies
        (fold_left (MatchDetector.scanStep n line at_ stripe)
                   (zrange a (a + Z.of_nat m)) st)
      = MatchDetector.specialCandies st ++ extra
      /\ Forall (fromStretch n line at_ stripe) extra.
Proof.
  induction m as [| m IH]; intros a st Hinv Ha.
  - rewrite zrange_nil by lia. exists []. cbn.
    rewrite app_nil_r. split; [reflexivity | constructor].
  - rewrite zrange_cons by lia.
    replace (a + Z.of_nat (S m)) with ((a + 1) + Z.of_nat m) in * by lia.
    cbn [fold_left].
    destruct (scanStep_origin a st Hinv) as [e1 [E1 F1]]; [lia |].
    destruct (IH (a + 1) (MatchDetector.scanStep n line at_ stripe st a)) as [e2 [E2 F2]];
      [apply scanStep_inv; assumption | lia |].
    exists (e1 ++ e2). rewrite E2, E1, app_assoc.
    split; [reflexivity | apply Forall_app; split; assumption].
Qed.

Lemma scanLine_origin (specials0 : list SpecialRequest) :
  exists extra,
    snd (MatchDetector.scanLine n line at_ stripe (m0, specials0)) = specials0 ++ extra
    /\ Forall (fromStretch n line at_ stripe) extra.
Proof.
  unfold MatchDetector.scanLine. cbn [fst snd].
  destruct (Z_le_gt_dec 1 n) as [Hn | Hn].
  - assert (H0 : scanInv n line at_ m0 1 (MatchDetector.mkScan 0 1 m0 specials0)).
    { unfold scanInv. cbn. repeat split; try lia.
      - auto.
      - intros [H | [i [_ [s [len H]]]]]; [assumption | lia]. }
    replace (n + 1) with (1 + Z.of_nat (Z.to_nat n)) by lia.
    apply (scan_origin (Z.to_nat n) 1 _ H0). lia.
  - rewrite zrange_nil by lia. exists []. cbn.
    rewrite app_nil_r. split; [reflexivity | constructor].
Qed.

End ScanOrigin.

Lemma scanAll_origin (n : Z) (lineOf : Z -> Z -> Cell) (atOf : Z -> Z -> Pos)
    (stripe : Special) (js : list Z) :
  forall acc : PosSet * list SpecialRequest,
    exists extra,
      snd (fold_left
             (fun a j => MatchDetector.scanLine n (lineOf j) (atOf j) stripe a) js acc)
      = snd acc ++ extra
      /\ Forall (fun q => exists j, fromStretch n (lineOf j) (atOf j) stripe q) extra.
Proof.
  induction js as [| j rest IH]; intros acc; cbn [fold_left].
  - exists []. rewrite app_nil_r. split; [reflexivity | constructor].
  - destruct (IH (MatchDetector.scanLine n (lineOf j) (atOf j) stripe acc))
      as [e2 [E2 F2]].
    destruct acc as [m0 s0].
    destruct (scanLine_origin n (lineOf j) (atOf j) stripe m0 s0) as [e1 [E1 F1]].
    exists (e1 ++ e2). rewrite E2, E1, app_assoc. cbn [snd].
    split; [reflexivity |]. apply Forall_app. split; [| assumption].
    apply Forall_forall. intros q Hq. exists j.
    exact (proj1 (Forall_forall _ _) F1 q Hq).
Qed.

(** The scan of the rows appends requests on cells in horizontal stretches
    only, none of them 'striped-v'; the scan of the columns appends requests
    on cells in vertical stretches only, none of them 'striped-h'. *)
Lemma scanRows_origin (g : Board) (acc : PosSet * list SpecialRequest) :
  exists extra,
    snd (MatchDetector.scanRows g acc) = snd acc ++ extra
    /\ Forall (onRowStretch g) extra.
Proof.
  unfold MatchDetector.scanRows.
  destruct (scanAll_origin (gridSize g) (fun r c => cellAt g r c)
              (fun r c => mkPos r c) striped_h (zrange 0 (gridSize g)) acc)
    as [extra [E F]].
  exists extra. split; [exact E |].
  apply Forall_forall. intros q Hq.
  destruct (proj1 (Forall_forall _ _) F q Hq) as [j [Hty [i [Hpos Hs]]]].
  split; [destruct Hty as [-> | ->]; discriminate |].
  unfold rowStretchAt. rewrite Hpos. exact Hs.
Qed.

Lemma scanCols_origin (g : Board) (acc : PosSet * list SpecialRequest) :
  exists extra,
    snd (MatchDetector.scanCols g acc) = snd acc ++ extra
    /\ Forall (onColumnStretch g) extra.
Proof.
  unfold MatchDetector.scanCols.
  destruct (scanAll_origin (gridSize g) (fun c r => cellAt g r c)
              (fun c r => mkPos r c) striped_v (zrange 0 (gridSize g)) acc)
    as [extra [E F]].
  exists extra. split; [exact E |].
  apply Forall_forall. intros q Hq.
  destruct (proj1 (Forall_forall _ _) F q Hq) as [j [Hty [i [Hpos Hs]]]].
  split; [destruct Hty as [-> | ->]; discriminate |].
  unfold columnStretchAt. rewrite Hpos. exact Hs.
Qed.

(** The L/T detection on the match set asks for 'wrapped' specials at
    crossings only. *)
Lemma findLTShapes_origin (g : Board) :
  Forall (fun q => reqType q = wrapped /\ crossing g (reqPos q))
         (MatchDetector.findLTShapes g
            (MatchDetector.matches (MatchDetector.findAllMatches g))).
Proof.
  destruct (findAllMatches_matches g) as [Hnd Hin].
  rewrite (findLTShapes_spec g _ Hnd). apply Forall_forall.
  intros q Hq. apply in_flat_map in Hq. destruct Hq as [pos [Hpos Hq]].
  apply Hin in Hpos.
  assert (Hcell : MatchDetector.truthyCell (cellAt g (row pos) (col pos)) = true).
  { destruct Hpos as [_ [H | H]]; apply stretch_truthy in H; exact H. }
  apply (crossingRequest_In g pos q (proj1 Hpos) Hcell) in Hq.
  destruct Hq as [-> [_ Hcross]]. cbn [reqType]. split; [reflexivity |].
  unfold reqPos. cbn [reqRow reqCol]. rewrite pos_eta. exact Hcross.
Qed.

Lemma findAllMatches_specials (g : Board) :
  MatchDetector.specials (MatchDetector.findAllMatches g)
  = snd (MatchDetector.scanCols g (MatchDetector.scanRows g ([], [])))
    ++ MatchDetector.findLTShapes g
         (MatchDetector.matches (MatchDetector.findAllMatches g)).
Proof.
  unfold MatchDetector.findAllMatches.
  destruct (MatchDetector.scanCols g (MatchDetector.scanRows g ([], [])));
    reflexivity.
Qed.

Lemma runYields_intro (result before own after : list SpecialRequest)
    (span : SpecialRequest -> bool) (beside : SpecialRequest -> Prop)
    (uncrossed : Prop) :
  filter span result = filter span before ++ own ++ filter span after ->
  Forall beside before -> Forall beside after ->
  (uncrossed -> forall q, span q = true -> beside q -> False) ->
  runYields result span own beside uncrossed.
Proof.
  intros E Hb Ha Hun.
  assert (Hkeep : forall l, Forall beside l -> Forall beside (filter span l)).
  { intros l Hl. apply Forall_forall. intros q Hq. apply filter_In in Hq.
    exact (proj1 (Forall_forall _ _) Hl q (proj1 Hq)). }
  assert (Hnone : forall l, uncrossed -> Forall beside l -> filter span l = []).
  { intros l Hu Hl. apply filter_none. intros q Hq.
    destruct (span q) eqn:Es; [| reflexivity].
    exfalso. apply (Hun Hu q Es). exact (proj1 (Forall_forall _ _) Hl q Hq). }
  split.
  - exists (filter span before), (filter span after). auto.
  - intros Hu. rewrite E, (Hnone before Hu Hb), (Hnone after Hu Ha).
    cbn [app]. apply app_nil_r.
Qed.

(** The requests of [findAllMatches] on the cells of a maximal horizontal
    run of three or more, and on those of a vertical one. *)
Lemma findAllMatches_row_run (g : Board) (j s len : Z) (k : TileType) :
  3 <= len -> horizontalRun g j s len k = true ->
  runYields (MatchDetector.specials (MatchDetector.findAllMatches g))
            (inRowSpan j s len)
            (spawnOf (fun c => cellAt g j c) (fun c => mkPos j c) striped_h s len)
            (onColumnStretch g) (uncrossedRow g j s len)
  /\ MatchDetector.getTileType (cellAt g j s) = k.
Proof.
  intros Hlen Hrun.
  destruct (scanRows_run g ([], []) j s len k Hlen Hrun) as [Hrows Hkind].
  split; [| exact Hkind].
  destruct (scanCols_origin g (MatchDetector.scanRows g ([], []))) as [extra [E F]].
  apply (runYields_intro _ [] _
           (extra ++ MatchDetector.findLTShapes g
                       (MatchDetector.matches (MatchDetector.findAllMatches g)))).
  - rewrite findAllMatches_specials, E, !filter_app, Hrows. cbn [snd filter app].
    rewrite <- app_assoc. reflexivity.
  - constructor.
  - apply Forall_app. split; [exact F |].
    apply Forall_forall. intros q Hq.
    destruct (proj1 (Forall_forall _ _) (findLTShapes_origin g) q Hq)
      as [Hw [_ [_ Hv]]].
    split; [rewrite Hw; discriminate | exact Hv].
  - intros Hun q Hq [_ Hst]. unfold inRowSpan in Hq.
    rewrite !andb_true_iff in Hq. destruct Hq as [[H1 H2] H3].
    apply Z.eqb_eq in H1. apply Z.leb_le in H2. apply Z.ltb_lt in H3.
    apply (Hun (reqCol q)); [lia |]. rewrite <- H1. exact Hst.
Qed.

Lemma findAllMatches_column_run (g : Board) (j s len : Z) (k : TileType) :
  3 <= len -> verticalRun g j s len k = true ->
  runYields (MatchDetector.specials (MatchDetector.findAllMatches g))
            (inColSpan j s len)
            (spawnOf (fun r => cellAt g r j) (fun r => mkPos r j) striped_v s len)
            (onRowStretch g) (uncrossedColumn g j s len)
  /\ MatchDetector.getTileType (cellAt g s j) = k.
Proof.
  intros Hlen Hrun.
  destruct (scanCols_run g (MatchDetector.scanRows g ([], [])) j s len k Hlen Hrun)
    as [Hcols Hkind].
  split; [| exact Hkind].
  destruct (scanRows_origin g ([], [])) as [extra [E F]]. cbn [snd app] in E.
  apply (runYields_intro _ extra _
           (MatchDetector.findLTShapes g
              (MatchDetector.matches (MatchDetector.findAllMatches g)))).
  - rewrite findAllMatches_specials, filter_app, Hcols, E.
    rewrite <- app_assoc. reflexivity.
  - exact F.
  - apply Forall_forall. intros q Hq.
    destruct (proj1 (Forall_forall _ _) (findLTShapes_origin g) q Hq)
      as [Hw [_ [Hh _]]].
    split; [rewrite Hw; discriminate | exact Hh].
  - intros Hun q Hq [_ Hst]. unfold inColSpan in Hq.
    rewrite !andb_true_iff in Hq. destruct Hq as [[H1 H2] H3].
    apply Z.eqb_eq in H1. apply Z.leb_le in H2. apply Z.ltb_lt in H3.
    apply (Hun (reqRow q)); [lia |]. rewrite <- H1. exact Hst.
Qed.

(** In the whole result the request of a run of 4 is the only request of
    the stripe of its scan on the cells of the run. *)
Lemma specialEqb_eq (a b : Special) : specialEqb a b = true -> a = b.
Proof. destruct a, b; simpl; congruence. Qed.

Lemma findAllMatches_row_stripe (g : Board) (j s : Z) (k : TileType) :
  horizontalRun g j s 4 k = true ->
  filter (fun q => inRowSpan j s 4 q && specialEqb (reqType q) striped_h)
         (MatchDetector.specials (MatchDetector.findAllMatches g))
  = [mkRequest j (s + 4 / 2) striped_h k].
Proof.
  intros H.
  destruct (scanRows_run g ([], []) j s 4 k) as [Hrows Hk]; [lia | exact H |].
  rewrite findAllMatches_specials, filter_app.
  rewrite (filter_none _ (MatchDetector.findLTShapes _ _)).
  - rewrite app_nil_r. unfold MatchDetector.scanCols.
    rewrite (scan_other_stripe _ _ _ striped_v striped_h); try discriminate.
    + rewrite filter_andb, Hrows. unfold spawnOf. cbn. rewrite Hk. reflexivity.
    + intros q Hq. apply andb_true_iff in Hq. apply specialEqb_eq. tauto.
  - intros q Hq. rewrite (findLTShapes_wrapped _ _ q Hq). apply andb_false_r.
Qed.

Lemma findAllMatches_column_stripe (g : Board) (j s : Z) (k : TileType) :
  verticalRun g j s 4 k = true ->
  filter (fun q => inColSpan j s 4 q && specialEqb (reqType q) striped_v)
         (MatchDetector.specials (MatchDetector.findAllMatches g))
  = [mkRequest (s + 4 / 2) j striped_v k].
Proof.
  intros H.
  destruct (scanCols_run g (MatchDetector.scanRows g ([], [])) j s 4 k)
    as [Hcols Hk]; [lia | exact H |].
  rewrite findAllMatches_specials, filter_app.
  rewrite (filter_none _ (MatchDetector.findLTShapes _ _)).
  - rewrite app_nil_r. rewrite filter_andb, Hcols.
    rewrite filter_app, <- filter_andb. unfold MatchDetector.scanRows at 1.
    rewrite (scan_other_stripe _ _ _ striped_h striped_v); try discriminate.
    + unfold spawnOf. cbn. rewrite Hk. reflexivity.
    + intros q Hq. apply andb_true_iff in Hq. apply specialEqb_eq. tauto.
  - intros q Hq. rewrite (findLTShapes_wrapped _ _ q Hq). apply andb_false_r.
Qed.

(** A cell in a stretch is linked to the cell before it or to the one after
    it; so a run whose cells are linked to neither neighbour across it is
    not crossed. *)
Lemma stretch_link (n : Z) (line : Z -> Cell) (b i : Z) :
  stretch n line b i -> linkedAt n line i = true \/ linkedAt n line (i + 1) = true.
Proof.
  intros [s [len [H1 [H2 [H3 [H4 H5]]]]]].
  destruct (Z.eq_dec i s) as [-> | Hne]; [right | left]; apply H5; lia.
Qed.

Lemma uncrossedRow_check (g : Board) (r s len : Z) :
  forallb (fun c => negb (linkedAt (gridSize g) (fun r' => cellAt g r' c) r)
                    && negb (linkedAt (gridSize g) (fun r' => cellAt g r' c) (r + 1)))
          (zrange s (s + len)) = true ->
  uncrossedRow g r s len.
Proof.
  intros H c Hc Hst. rewrite forallb_forall in H.
  specialize (H c (proj2 (zrange_In _ _ _) Hc)).
  apply andb_true_iff in H. destruct H as [Ha Hb].
  apply negb_true_iff in Ha. apply negb_true_iff in Hb.
  apply stretch_link in Hst. cbn [row col] in Hst. destruct Hst; congruence.
Qed.

Lemma uncrossedColumn_check (g : Board) (c s len : Z) :
  forallb (fun r => negb (linkedAt (gridSize g) (fun c' => cellAt g r c') c)
                    && negb (linkedAt (gridSize g) (fun c' => cellAt g r c') (c + 1)))
          (zrange s (s + len)) = true ->
  uncrossedColumn g c s len.
Proof.
  intros H r Hr Hst. rewrite forallb_forall in H.
  specialize (H r (proj2 (zrange_In _ _ _) Hr)).
  apply andb_true_iff in H. destruct H as [Ha Hb].
  apply negb_true_iff in Ha. apply negb_true_iff in Hb.
  apply stretch_link in Hst. cbn [row col] in Hst. destruct Hst; congruence.
Qed.

(** C1, as the code has it.  Among the requests that [findAllMatches]
    returns on the cells of a maximal straight run of equal tiles, the run
    has these of its own:

    - a horizontal run of exactly 4: one 'striped-h' request at the start of
      the run plus floor(4/2), carrying the type of the run (a vertical run
      of exactly 4: one 'striped-v' request there);
    - a run of exactly 5: one 'wrapped' request at the start plus floor(5/2),
      carrying the type of the run;
    - a run of exactly 3: none.

    Every other request on a cell of a horizontal run is not 'striped-h' and
    sits on a cell that also lies in a vertical stretch of three or more
    tiles of one type (for a vertical run: not 'striped-v', on a cell in a
    horizontal stretch): it comes from the scan of the crossing line or from
    the L/T detection.  So when no cell of the run lies in such a crossing
    stretch, the requests on the cells of the run are exactly the one of a
    run of 4, exactly the one of a run of 5, and none for a run of 3.
    Crossed or not, the request of a run of 4 is the only 'striped-h'
    ('striped-v') request on the cells of the run. *)
Theorem run_length_spawn_rule (g : Board) (j s : Z) (k : TileType) :
  let result := MatchDetector.specials (MatchDetector.findAllMatches g) in
  (horizontalRun g j s 4 k = true ->
   runYields result (inRowSpan j s 4) [mkRequest j (s + 4 / 2) striped_h k]
             (onColumnStretch g) (uncrossedRow g j s 4))
  /\ (horizontalRun g j s 5 k = true ->
      runYields result (inRowSpan j s 5) [mkRequest j (s + 5 / 2) wrapped k]
                (onColumnStretch g) (uncrossedRow g j s 5))
  /\ (horizontalRun g j s 3 k = true ->
      runYields result (inRowSpan j s 3) []
                (onColumnStretch g) (uncrossedRow g j s 3))
  /\ (verticalRun g j s 4 k = true ->
      runYields result (inColSpan j s 4) [mkRequest (s + 4 / 2) j striped_v k]
                (onRowStretch g) (uncrossedColumn g j s 4))
  /\ (verticalRun g j s 5 k = true ->
      runYields result (inColSpan j s 5) [mkRequest (s + 5 / 2) j wrapped k]
                (onRowStretch g) (uncrossedColumn g j s 5))
  /\ (verticalRun g j s 3 k = true ->
      runYields result (inColSpan j s 3) []
                (onRowStretch g) (uncrossedColumn g j s 3))
  /\ (horizontalRun g j s 4 k = true ->
      filter (fun q => inRowSpan j s 4 q && specialEqb (reqType q) striped_h) result
      = [mkRequest j (s + 4 / 2) striped_h k])
  /\ (verticalRun g j s 4 k = true ->
      filter (fun q => inColSpan j s 4 q && specialEqb (reqType q) striped_v) result
      = [mkRequest (s + 4 / 2) j striped_v k]).
Proof.
  cbv zeta.
  split; [| split; [| split; [| split; [| split; [| split; [| split]]]]]]; intros H;
    [| | | | | | apply findAllMatches_row_stripe; exact H
             | apply findAllMatches_column_stripe; exact H].
  - destruct (findAllMatches_row_run g j s 4 k) as [Hy Hk]; [lia | exact H |].
    unfold spawnOf in Hy. cbn in Hy. rewrite Hk in Hy. exact Hy.
  - destruct (findAllMatches_row_run g j s 5 k) as [Hy Hk]; [lia | exact H |].
    unfold spawnOf in Hy. cbn in Hy. rewrite Hk in Hy. exact Hy.
  - destruct (findAllMatches_row_run g j s 3 k) as [Hy Hk]; [lia | exact H |].
    exact Hy.
  - destruct (findAllMatches_column_run g j s 4 k) as [Hy Hk]; [lia | exact H |].
    unfold spawnOf in Hy. cbn in Hy. rewrite Hk in Hy. exact Hy.
  - destruct (findAllMatches_column_run g j s 5 k) as [Hy Hk]; [lia | exact H |].
    unfold spawnOf in Hy. cbn in Hy. rewrite Hk in Hy. exact Hy.
  - destruct (findAllMatches_column_run g j s 3 k) as [Hy Hk]; [lia | exact H |].
    exact Hy.
Qed.

(** C1, as stated, fails where runs cross.  On [crossFive]
    the maximal horizontal run of exactly 5 in row 0 gets two 'wrapped'
    requests at its middle (0,2), one from the scan of the row and one from
    the L/T detection; on [ellThree] the maximal horizontal run of exactly 3
    in row 0 gets a 'wrapped' request at (0,0), and so does the vertical run
    of exactly 3 in column 0. *)
Lemma run_rule_fails_where_runs_cross :
  horizontalRun crossFive 0 0 5 (Some "a"%string) = true
  /\ filter (inRowSpan 0 0 5)
            (MatchDetector.specials (MatchDetector.findAllMatches crossFive))
     = [mkRequest 0 2 wrapped (Some "a"%string);
        mkRequest 0 2 wrapped (Some "a"%string)]
  /\ horizontalRun ellThree 0 0 3 (Some "a"%string) = true
  /\ filter (inRowSpan 0 0 3)
            (MatchDetector.specials (MatchDetector.findAllMatches ellThree))
     = [mkRequest 0 0 wrapped (Some "a"%string)]
  /\ verticalRun ellThree 0 0 3 (Some "a"%string) = true
  /\ filter (inColSpan 0 0 3)
            (MatchDetector.specials (MatchDetector.findAllMatches ellThree))
     = [mkRequest 0 0 wrapped (Some "a"%string)].
Proof. repeat split; vm_compute; reflexivity. Qed.

(** ** Reshuffles and combinations never throw *)

(** X22. On a square board of the size of the grid [shuffle] never throws,
    whatever the random draws: it returns or is still reshuffling when the
    fuel runs out, and the board is square in either case.  When it
    returns, [findAllMatches] finds no match on the board it leaves. *)
Theorem shuffle_never_throws (fuel : nat) (w : World) :
  square (size w) (data w) ->
  ends (Grid.shuffle fuel w)
       (fun w' => sameGrid w w' /\ settledBoard w') (sameGrid w).
Proof. apply shuffle_ends. Qed.

(** X23. On a square board of the size of the grid
    [processSpecialCombination] on two positions of the board never throws,
    whatever combination it is given and whatever the random draws, and the
    board stays square.  When it returns, [findAllMatches] finds no match on
    the board it leaves. *)
Theorem processSpecialCombination_never_throws (fuel : nat) (p1 p2 : Pos)
    (combo : MatchDetector.Combination) (w : World) :
  square (size w) (data w) -> onBoard (size w) p1 -> onBoard (size w) p2 ->
  ends (Game.processSpecialCombination fuel p1 p2 combo w)
       (fun w' => sameGrid w w' /\ settledBoard w') (sameGrid w).
Proof. apply processSpecialCombination_ends. Qed.

(** ** The positions of the memory tiles *)

Lemma floorMul_zero (u : Rand) : floorMul u 0 = 0.
Proof. unfold floorMul. rewrite Z.mul_0_r. apply Z.div_0_l. lia. Qed.

Lemma inner_position (u : Rand) (n : Z) : 2 <= n -> 0 <= 1 + floorMul u (n - 2 - 1 + 1) < n.
Proof.
  intros Hn. destruct (Z.eq_dec n 2) as [-> | Hne].
  - cbn [Z.sub Z.add]. replace (2 - 2 - 1 + 1) with 0 by lia. rewrite floorMul_zero. lia.
  - pose proof (floorMul_range u (n - 2 - 1 + 1)). lia.
Qed.

Lemma drawPosition_spec (n : Z) (w : World) :
  exists p, MemorySystem.drawPosition n w
            = Returned p (withRandomCalls w (3 + randomCalls w))
            /\ (2 <= n -> onBoard n p).
Proof.
  unfold MemorySystem.drawPosition, bind, mathRandom. cbv zeta.
  cbn [random randomCalls withRandomCalls].
  destruct (belowFourFifths _); unfold ret; eexists; (split; [reflexivity |]);
    intros Hn; unfold onBoard; cbn [row col].
  - split; apply inner_position; assumption.
  - split; apply floorMul_range; lia.
Qed.

Lemma pickPosition_spec (retries : nat) (n : Z) (used : PosSet) :
  forall w, exists p k,
    MemorySystem.pickPosition retries n used w = Returned p (withRandomCalls w k)
    /\ (2 <= n -> onBoard n p)
    /\ (setHas used p = true -> k = (3 * S retries + randomCalls w)%nat).
Proof.
  induction retries as [| m IH]; intros w; cbn [MemorySystem.pickPosition].
  - destruct (drawPosition_spec n w) as [p [E Hp]].
    rewrite (bind_returned _ _ _ _ _ E). unfold ret.
    exists p, (3 + randomCalls w)%nat. split; [reflexivity |]. split; [assumption |].
    intros _. lia.
  - destruct (drawPosition_spec n w) as [p [E Hp]].
    rewrite (bind_returned _ _ _ _ _ E).
    destruct (setHas used p) eqn:Eu.
    + destruct (IH (withRandomCalls w (3 + randomCalls w))) as [p' [k' [E' [Hp' Hk']]]].
      exists p', k'. split; [exact E' |]. split; [assumption |].
      intros Hu. rewrite (Hk' Hu). cbn [randomCalls withRandomCalls]. lia.
    + unfold ret. exists p, (3 + randomCalls w)%nat. split; [reflexivity |].
      split; [assumption |]. intros Hu. congruence.
Qed.

Lemma generateMemoryPositions_spec (n : Z) (w : World) :
  exists l k,
    MemorySystem.generateMemoryPositions n w = Returned l (withRandomCalls w k)
    /\ map Grid.memoryPosId l = zrange 0 (totalMemories w)
    /\ (2 <= n -> forall m, In m l -> onBoard n (Grid.memoryPos m)).
Proof.
  unfold MemorySystem.generateMemoryPositions. unfold bind at 1. unfold get.
  match goal with
  | |- context [foldM ?f (zrange 0 (totalMemories w)) ([], [])] =>
      destruct (foldM_inv (positionsInv n w) f (zrange 0 (totalMemories w)))
        with (b := ([] : list Grid.MemoryPosition, [] : PosSet)) (w := w)
        as [st [w' [E [[k ->] [Hids Hon]]]]]
  end.
  - intros done i rest st w1 _ [[k1 ->] [Hids Hon]].
    destruct (pickPosition_spec 99 n (snd st) (withRandomCalls w k1)) as [p [k [E [Hp _]]]].
    rewrite (bind_returned _ _ _ _ _ E). unfold ret.
    eexists _, _. split; [reflexivity |]. split; [exists k; reflexivity |].
    cbn [fst snd]. split.
    + rewrite map_app, Hids. reflexivity.
    + intros Hn m Hm. apply in_app_iff in Hm. destruct Hm as [Hm | [<- | []]].
      * apply Hon; assumption.
      * cbn. apply Hp. assumption.
  - split; [exists (randomCalls w); destruct w; reflexivity |].
    split; [reflexivity |]. intros _ m [].
  - rewrite (bind_returned _ _ _ _ _ E). unfold ret.
    exists (fst st), k. auto.
Qed.

(** X24. [generateMemoryPositions] returns, whatever the random draws, and
    changes nothing of the state but the number of draws.  It lists one
    position for each memory, with the ids 0, 1, ... in order, and on a
    board of two or more rows every position it lists is a position of the
    board. *)
Theorem generateMemoryPositions_ids (n : Z) (w : World) :
  exists l k,
    MemorySystem.generateMemoryPositions n w = Returned l (withRandomCalls w k)
    /\ map Grid.memoryPosId l = zrange 0 (totalMemories w)
    /\ List.length l = Z.to_nat (totalMemories w)
    /\ (2 <= n -> forall m, In m l -> onBoard n (Grid.memoryPos m)).
Proof.
  destruct (generateMemoryPositions_spec n w) as [l [k [E [Hids Hon]]]].
  exists l, k. split; [assumption |]. split; [assumption |]. split; [| assumption].
  rewrite <- (length_map Grid.memoryPosId), Hids, zrange_length. f_equal. lia.
Qed.

(** ** The start of a game *)

Lemma hasPossibleMoves_value (w : World) :
  square (size w) (data w) ->
  exists b, Grid.hasPossibleMoves w = Returned b w /\ (b = true -> hasMove w).
Proof.
  intros Hsq. destruct (findPossibleMatch_square _ _ Hsq) as [res E].
  unfold Grid.hasPossibleMoves, bind, onData. rewrite E, withData_same.
  unfold ret. eexists. split; [reflexivity |].
  destruct res as [pair |]; [| discriminate]. intros _. exists pair. assumption.
Qed.

Lemma shuffle_ends_with_move (fuel : nat) (w : World) :
  square (size w) (data w) ->
  ends (Grid.shuffle fuel w)
       (fun w' => sameGrid w w' /\ moves w' = moves w /\ hasMove w') (sameGrid w).
Proof.
  intros Hsq. pose proof (shuffle_ends fuel w Hsq) as H.
  pose proof (shuffle_returns fuel w) as Hret.
  pose proof (keepsMoves_shuffle fuel w) as Hm.
  destruct (Grid.shuffle fuel w) as [[] w' | |]; cbn in *; [| assumption | assumption].
  destruct (Hret w' Hsq eq_refl) as [_ [Hmove _]]. tauto.
Qed.

Lemma startGame_ends (fuel : nat) (startingMoves n : Z) (w : World) :
  0 <= n ->
  ends (Game.startGame fuel startingMoves n w)
       (fun w' => size w' = n /\ square n (data w') /\ moves w' = startingMoves
                  /\ isPlaying w' = true /\ isPaused w' = false
                  /\ isProcessing w' = false /\ hasMove w')
       (fun w' => size w' = n /\ square n (data w')).
Proof.
  intros Hn. unfold Game.startGame. unfold bind at 1. unfold modify at 1.
  destruct (init_spec n (withMoves w startingMoves) Hn)
    as [w0 [E0 [Hs0 [Hm0 [_ [Hg0 Hlen0]]]]]].
  rewrite (bind_returned _ _ _ _ _ E0).
  destruct (generateMemoryPositions_spec n w0) as [mps [k1 [E1 _]]].
  rewrite (bind_returned _ _ _ _ _ E1).
  destruct (generate_from n mps (withRandomCalls w0 k1) Hs0 Hg0 Hlen0)
    as [g' [k [E2 [Hsq _]]]].
  rewrite (bind_returned _ _ _ _ _ E2).
  set (w4 := withData (withRandomCalls (withRandomCalls w0 k1) k) g').
  assert (Hs4 : size w4 = n) by exact Hs0.
  assert (Hsq4 : square (size w4) (data w4)) by (rewrite Hs4; exact Hsq).
  assert (Hm4 : moves w4 = startingMoves) by exact Hm0.
  destruct (hasPossibleMoves_value w4 Hsq4) as [b [Eb Hb]].
  rewrite (bind_returned _ _ _ _ _ Eb).
  apply (ends_bind _ _ _
           (fun wa => size wa = n /\ square n (data wa) /\ moves wa = startingMoves
                      /\ hasMove wa)).
  - destruct b; cbn [negb].
    + cbn. auto.
    + eapply ends_weaken; [apply shuffle_ends_with_move; exact Hsq4 | |].
      * intros wa [[Hz Hq] [Hmv Hmove]]. rewrite Hs4 in *.
        split; [assumption |]. split; [assumption |]. split; [congruence | assumption].
      * intros wa [Hz Hq]. rewrite Hs4 in *. auto.
  - intros [] wa [Hz [Hq [Hmv Hmove]]]. cbn. auto 10.
Qed.

(** X25. Starting a game never throws, whatever the random draws: from
    "Initialize game state" on, [startGame] with a grid size that is not
    negative returns or is still reshuffling when the fuel runs out, and the
    board is a square board of that size in either case.  When it returns,
    the moves are the starting moves, the game is playing, neither paused
    nor processing, and [findPossibleMatch] finds a move on the board. *)
Theorem startGame_ready (fuel : nat) (startingMoves n : Z) (w : World) :
  0 <= n ->
  ends (Game.startGame fuel startingMoves n w)
       (fun w' => size w' = n /\ square n (data w') /\ moves w' = startingMoves
                  /\ isPlaying w' = true /\ isPaused w' = false
                  /\ isProcessing w' = false /\ hasMove w')
       (fun w' => size w' = n /\ square n (data w')).
Proof. apply startGame_ends. Qed.

(** ** What a pass of the cascade clears *)

Lemma specialsAt_exact (positions : list Pos) (w : World) :
  (forall p, In p positions -> 0 <= row p < gridSize (data w)) ->
  Game.specialsAt positions w = Returned (flat_map (activatedAt w) positions) w.
Proof.
  unfold Game.specialsAt.
  match goal with |- context [foldM ?g positions [] w] => set (f := g) end.
  assert (Hbody : forall found p,
            0 <= row p < gridSize (data w) ->
            f found p w = Returned (found ++ activatedAt w p) w).
  { intros found p Hp. unfold f, bind. rewrite getTileData_spec by assumption.
    unfold activatedAt, specialAt, MatchDetector.isSpecialCandy.
    destruct (tileDataAt w p) as [t |]; [destruct (special t) as [s |] |]; unfold ret;
      rewrite ?app_nil_r; reflexivity. }
  assert (Hgen : forall (ps : list Pos) (found : list (Pos * Special)),
            (forall p, In p ps -> 0 <= row p < gridSize (data w)) ->
            foldM f ps found w = Returned (found ++ flat_map (activatedAt w) ps) w).
  { induction ps as [| p rest IH]; intros found Hin; cbn [foldM flat_map].
    - rewrite app_nil_r. reflexivity.
    - rewrite (bind_returned _ _ _ _ _ (Hbody found p (Hin p (or_introl eq_refl)))).
      rewrite IH by (intros q Hq; apply Hin; right; assumption).
      rewrite <- app_assoc. reflexivity. }
  intros Hin. apply (Hgen positions [] Hin).
Qed.

Lemma clearPass_exact (w : World) :
  square (size w) (data w) ->
  exists cleared g',
    Game.clearPass (MatchDetector.findAllMatches (data w)) w
    = Returned (flat_map (memoryTileAt (data w)) cleared) (withData w g')
    /\ NoDup cleared
    /\ (forall p,
          In p cleared <->
          In p (MatchDetector.matches (MatchDetector.findAllMatches (data w)))
          \/ exists q s,
               In q (MatchDetector.matches (MatchDetector.findAllMatches (data w)))
               /\ specialAt w q = Some s
               /\ In p (MatchDetector.getSpecialClearPositions (data w) q s))
    /\ shape g' = shape (data w)
    /\ forall r c, cellAt g' r c =
                   if setHas cleared (mkPos r c) then None else cellAt (data w) r c.
Proof.
  intros Hsq. pose proof (square_gridSize _ _ Hsq) as Hn.
  set (res := MatchDetector.findAllMatches (data w)).
  assert (Hm : forall p, In p (MatchDetector.matches res) -> onBoard (size w) p).
  { intros p Hp. apply findAllMatches_matches in Hp. destruct Hp as [Hp _].
    rewrite Hn in Hp. exact Hp. }
  unfold Game.clearPass.
  rewrite (bind_returned _ _ _ _ _ (specialsAt_exact (MatchDetector.matches res) w
             (fun p Hp => ltac:(apply Hm in Hp; unfold onBoard in Hp; lia)))).
  unfold bind at 1. unfold get.
  set (allMatches := fold_left _ _ (MatchDetector.matches res)).
  set (uniqueMatches := Game.deduplicatePositions allMatches).
  assert (Hchar : forall p,
            In p uniqueMatches <->
            In p (MatchDetector.matches res)
            \/ exists q s, In q (MatchDetector.matches res) /\ specialAt w q = Some s
                           /\ In p (MatchDetector.getSpecialClearPositions (data w) q s)).
  { intros p. unfold uniqueMatches. rewrite deduplicatePositions_In. unfold allMatches.
    rewrite (fold_append_spec
               (fun sp : Pos * Special =>
                  MatchDetector.getSpecialClearPositions (data w) (fst sp) (snd sp))).
    split; (intros [H | H]; [left; exact H | right]).
    - destruct H as [[q s] [Hq Hp]]. apply in_flat_map in Hq.
      destruct Hq as [q' [Hq' Hq]]. unfold activatedAt in Hq.
      destruct (specialAt w q') as [s' |] eqn:Es; [| contradiction].
      destruct Hq as [Hq | []]. inversion Hq; subst q' s'. exists q, s. auto.
    - destruct H as [q [s [Hq [Es Hp]]]]. exists (q, s). split; [| exact Hp].
      apply in_flat_map. exists q. split; [assumption |].
      unfold activatedAt. rewrite Es. left. reflexivity. }
  assert (Hall : forall p, In p uniqueMatches -> onBoard (size w) p).
  { intros p Hp. apply Hchar in Hp. destruct Hp as [Hp | [q [s [Hq [_ Hp]]]]]; [auto |].
    apply Hm in Hq. apply special_positions_In in Hp. rewrite Hn in Hp.
    unfold onBoard in *. destruct s; lia. }
  destruct (removeMatches_spec uniqueMatches w) as [g' [Erem [Hs Hc]]].
  { intros p Hp. apply Hall in Hp. unfold onBoard in Hp.
    eapply square_inBounds; eauto; tauto. }
  rewrite (bind_returned _ _ _ _ _ Erem).
  assert (Hguard : forall s, In s (MatchDetector.specials res) ->
                             setHas (fold_left setAdd uniqueMatches []) (reqPos s) = true).
  { intros s Hs'. apply setHas_In. apply fold_setAdd_In. right.
    apply Hchar. left. apply findAllMatches_requestsMatched. assumption. }
  rewrite (bind_returned _ _ _ _ _
             (guards_false (fold_left setAdd uniqueMatches []) (MatchDetector.specials res)
                (withData w g') Hguard)).
  unfold ret. exists uniqueMatches, g'. split; [reflexivity |].
  split; [| auto].
  unfold uniqueMatches. apply dedup_NoDup.
Qed.

(** X26. A pass of the cascade on a square board of the size of the grid
    clears the matched positions together with the clear positions of the
    specials among the matched tiles, and nothing else: a special that is
    reached only by the clearing of another special is cleared without being
    activated, and no new special is created.  [clearPass] returns, the
    cleared cells become null, every other cell stays, and the result lists
    the memory tiles that sat on the cleared cells. *)
Theorem clearPass_one_level (w : World) :
  square (size w) (data w) ->
  exists cleared g',
    Game.clearPass (MatchDetector.findAllMatches (data w)) w
    = Returned (flat_map (memoryTileAt (data w)) cleared) (withData w g')
    /\ NoDup cleared
    /\ (forall p,
          In p cleared <->
          In p (MatchDetector.matches (MatchDetector.findAllMatches (data w)))
          \/ exists q s,
               In q (MatchDetector.matches (MatchDetector.findAllMatches (data w)))
               /\ specialAt w q = Some s
               /\ In p (MatchDetector.getSpecialClearPositions (data w) q s))
    /\ shape g' = shape (data w)
    /\ forall r c, cellAt g' r c =
                   if setHas cleared (mkPos r c) then None else cellAt (data w) r c.
Proof. apply clearPass_exact. Qed.

(** ** The properties at sample inputs *)

Lemma run_length_spawn_rule_witness :
  (horizontalRun sampleRows 0 0 4 (Some "h"%string) = true
   /\ filter (inRowSpan 0 0 4)
             (MatchDetector.specials (MatchDetector.findAllMatches sampleRows))
      = [mkRequest 0 (0 + 4 / 2) striped_h (Some "h"%string)])
  /\ (horizontalRun sampleRows 2 0 5 (Some "c"%string) = true
      /\ filter (inRowSpan 2 0 5)
                (MatchDetector.specials (MatchDetector.findAllMatches sampleRows))
         = [mkRequest 2 (0 + 5 / 2) wrapped (Some "c"%string)])
  /\ (horizontalRun sampleRows 4 2 3 (Some "d"%string) = true
      /\ filter (inRowSpan 4 2 3)
                (MatchDetector.specials (MatchDetector.findAllMatches sampleRows))
         = [])
  /\ (verticalRun sampleColumns 0 0 4 (Some "h"%string) = true
      /\ filter (inColSpan 0 0 4)
                (MatchDetector.specials (MatchDetector.findAllMatches sampleColumns))
         = [mkRequest (0 + 4 / 2) 0 striped_v (Some "h"%string)])
  /\ (verticalRun sampleColumns 2 0 5 (Some "c"%string) = true
      /\ filter (inColSpan 2 0 5)
                (MatchDetector.specials (MatchDetector.findAllMatches sampleColumns))
         = [mkRequest (0 + 5 / 2) 2 wrapped (Some "c"%string)])
  /\ (verticalRun sampleColumns 4 2 3 (Some "d"%string) = true
      /\ filter (inColSpan 4 2 3)
                (MatchDetector.specials (MatchDetector.findAllMatches sampleColumns))
         = [])
  /\ (horizontalRun crossFive 0 0 5 (Some "a"%string) = true
      /\ runYields (MatchDetector.specials (MatchDetector.findAllMatches crossFive))
                   (inRowSpan 0 0 5)
                   [mkRequest 0 (0 + 5 / 2) wrapped (Some "a"%string)]
                   (onColumnStretch crossFive) (uncrossedRow crossFive 0 0 5))
  /\ filter (fun q => inRowSpan 0 0 4 q && specialEqb (reqType q) striped_h)
            (MatchDetector.specials (MatchDetector.findAllMatches sampleRows))
     = [mkRequest 0 (0 + 4 / 2) striped_h (Some "h"%string)]
  /\ filter (fun q => inColSpan 0 0 4 q && specialEqb (reqType q) striped_v)
            (MatchDetector.specials (MatchDetector.findAllMatches sampleColumns))
     = [mkRequest (0 + 4 / 2) 0 striped_v (Some "h"%string)].
Proof.
  destruct (run_length_spawn_rule sampleRows 0 0 (Some "h"%string))
    as [H4 [_ [_ [_ [_ [_ [W4 _]]]]]]].
  destruct (run_length_spawn_rule sampleRows 2 0 (Some "c"%string))
    as [_ [H5 _]].
  destruct (run_length_spawn_rule sampleRows 4 2 (Some "d"%string))
    as [_ [_ [H3 _]]].
  destruct (run_length_spawn_rule sampleColumns 0 0 (Some "h"%string))
    as [_ [_ [_ [V4 [_ [_ [_ Y4]]]]]]].
  destruct (run_length_spawn_rule sampleColumns 2 0 (Some "c"%string))
    as [_ [_ [_ [_ [V5 _]]]]].
  destruct (run_length_spawn_rule sampleColumns 4 2 (Some "d"%string))
    as [_ [_ [_ [_ [_ [V3 _]]]]]].
  destruct (run_length_spawn_rule crossFive 0 0 (Some "a"%string))
    as [_ [X5 _]].
  split; [split; [reflexivity |];
          apply (proj2 (H4 eq_refl)); apply uncrossedRow_check; reflexivity |].
  split; [split; [reflexivity |];
          apply (proj2 (H5 eq_refl)); apply uncrossedRow_check; reflexivity |].
  split; [split; [reflexivity |];
          apply (proj2 (H3 eq_refl)); apply uncrossedRow_check; reflexivity |].
  split; [split; [reflexivity |];
          apply (proj2 (V4 eq_refl)); apply uncrossedColumn_check; reflexivity |].
  split; [split; [reflexivity |];
          apply (proj2 (V5 eq_refl)); apply uncrossedColumn_check; reflexivity |].
  split; [split; [reflexivity |];
          apply (proj2 (V3 eq_refl)); apply uncrossedColumn_check; reflexivity |].
  split; [split; [reflexivity | exact (X5 eq_refl)] |].
  split; [exact (W4 eq_refl) | exact (Y4 eq_refl)].
Defined.

Lemma wouldMatch_restores_board_witness :
  inBounds sampleRows (mkPos 0 3) /\ inBounds sampleRows (mkPos 0 4)
  /\ exists b, MatchDetector.wouldMatch sampleRows (mkPos 0 3) (mkPos 0 4)
               = Some (b, sampleRows).
Proof.
  assert (H1 : inBounds sampleRows (mkPos 0 3))
    by (eexists; split; [reflexivity | simpl; lia]).
  assert (H2 : inBounds sampleRows (mkPos 0 4))
    by (eexists; split; [reflexivity | simpl; lia]).
  split; [exact H1 | split; [exact H2 |]].
  exact (wouldMatch_restores_board sampleRows (mkPos 0 3) (mkPos 0 4) H1 H2).
Defined.

Lemma clear_set_sizes_witness :
  6 <= gridSize sampleRows <= 10
  /\ List.length (MatchDetector.getSpecialCombinationClearPositions sampleRows
       (MatchDetector.mkCombination (mkPos 2 3) (mkPos 2 4) wrapped wrapped
          MatchDetector.wrapped_wrapped)) = 25%nat
  /\ List.length (MatchDetector.getSpecialClearPositions sampleRows (mkPos 5 0) wrapped)
     = 4%nat
  /\ Z.of_nat (List.length
       (MatchDetector.getSpecialClearPositions sampleRows (mkPos 1 4) striped_v))
     = gridSize sampleRows.
Proof.
  assert (HN : 6 <= gridSize sampleRows <= 10) by (vm_compute; split; discriminate).
  destruct (clear_set_sizes sampleRows HN) as [Hcombo [Hcorner Hstripe]].
  split; [exact HN |]. split; [| split].
  - apply (Hcombo (MatchDetector.mkCombination (mkPos 2 3) (mkPos 2 4) wrapped wrapped
                     MatchDetector.wrapped_wrapped)).
    + reflexivity.
    + vm_compute. split; [discriminate | reflexivity].
    + vm_compute. split; [discriminate | reflexivity].
  - apply (Hcorner (mkPos 5 0)).
    + right. reflexivity.
    + left. reflexivity.
  - apply (Hstripe (mkPos 1 4) striped_v). right. reflexivity.
Defined.

Lemma generate_no_matches_witness :
  let w := finalWorld (Grid.init 6 (blankWorld diagonalSource)) in
  gridSize (data w) = size w
  /\ everyCellAccepted [] w = true
  /\ exists w',
       Grid.generate [] w = Returned tt w'
       /\ passesBackwardCheck (data w')
       /\ MatchDetector.matches (MatchDetector.findAllMatches (data w')) = []
       /\ MatchDetector.specials (MatchDetector.findAllMatches (data w')) = [].
Proof.
  cbv zeta.
  assert (H1 : gridSize (data (finalWorld (Grid.init 6 (blankWorld diagonalSource))))
               = size (finalWorld (Grid.init 6 (blankWorld diagonalSource))))
    by reflexivity.
  assert (H2 : everyCellAccepted [] (finalWorld (Grid.init 6 (blankWorld diagonalSource)))
               = true)
    by (vm_compute; reflexivity).
  split; [exact H1 | split; [exact H2 |]].
  exact (generate_no_matches [] _ H1 H2).
Defined.

Lemma swap_move_accounting_witness :
  (inBounds sampleRows (mkPos 1 0) /\ inBounds sampleRows (mkPos 1 1)
   /\ (exists g', MatchDetector.wouldMatch sampleRows (mkPos 1 0) (mkPos 1 1)
                  = Some (false, g'))
   /\ Game.attemptSwap 3 (mkPos 1 0) (mkPos 1 1) (worldOf sampleRows diagonalSource)
      = Returned tt (withIsProcessing (worldOf sampleRows diagonalSource) false))
  /\ ((exists combo,
         MatchDetector.isSpecialCombination sampleChain (mkPos 2 2) (mkPos 2 3) = Some combo)
      /\ moves (finalWorld (Game.attemptSwap 3 (mkPos 2 2) (mkPos 2 3)
                              (worldOf sampleChain diagonalSource)))
         = moves (worldOf sampleChain diagonalSource) - 1)
  /\ (inBounds sampleSwap (mkPos 0 2) /\ inBounds sampleSwap (mkPos 0 3)
      /\ MatchDetector.isSpecialCombination sampleSwap (mkPos 0 2) (mkPos 0 3) = None
      /\ (exists g', MatchDetector.wouldMatch sampleSwap (mkPos 0 2) (mkPos 0 3)
                     = Some (true, g'))
      /\ moves (finalWorld (Game.attemptSwap 3 (mkPos 0 2) (mkPos 0 3)
                              (worldOf sampleSwap diagonalSource)))
         = moves (worldOf sampleSwap diagonalSource) - 1).
Proof.
  assert (Hin : forall g r c, 0 <= r < 6 -> 0 <= c < 6 -> square 6 g ->
                              inBounds g (mkPos r c))
    by (intros g r c Hr Hc Hsq; apply (square_inBounds 6); assumption).
  assert (Hrows : square 6 sampleRows) by (split; [reflexivity | repeat constructor]).
  assert (Hswap : square 6 sampleSwap) by (split; [reflexivity | repeat constructor]).
  assert (A1 : inBounds sampleRows (mkPos 1 0)) by (apply Hin; [lia | lia | exact Hrows]).
  assert (A2 : inBounds sampleRows (mkPos 1 1)) by (apply Hin; [lia | lia | exact Hrows]).
  assert (A3 : exists g', MatchDetector.wouldMatch sampleRows (mkPos 1 0) (mkPos 1 1)
                          = Some (false, g')) by (eexists; reflexivity).
  assert (B1 : inBounds sampleSwap (mkPos 0 2)) by (apply Hin; [lia | lia | exact Hswap]).
  assert (B2 : inBounds sampleSwap (mkPos 0 3)) by (apply Hin; [lia | lia | exact Hswap]).
  assert (B3 : exists g', MatchDetector.wouldMatch sampleSwap (mkPos 0 2) (mkPos 0 3)
                          = Some (true, g')) by (eexists; reflexivity).
  split; [| split].
  - split; [exact A1 | split; [exact A2 | split; [exact A3 |]]].
    exact (proj1 (swap_move_accounting 3 (mkPos 1 0) (mkPos 1 1)
                    (worldOf sampleRows diagonalSource)) A1 A2 A3).
  - split; [eexists; reflexivity |].
    exact (proj1 (proj2 (swap_move_accounting 3 (mkPos 2 2) (mkPos 2 3)
                           (worldOf sampleChain diagonalSource))) _ eq_refl).
  - split; [exact B1 | split; [exact B2 | split; [reflexivity | split; [exact B3 |]]]].
    exact (proj2 (proj2 (swap_move_accounting 3 (mkPos 0 2) (mkPos 0 3)
                           (worldOf sampleSwap diagonalSource))) B1 B2 eq_refl B3).
Defined.

Lemma reshuffle_result_witness :
  square (size (worldOf sampleSwap fixedSource)) (data (worldOf sampleSwap fixedSource))
  /\ Grid.shuffle 1 (worldOf sampleSwap fixedSource)
     = Returned tt (withRandomCalls (worldOf sampleSwap fixedSource) 35)
  /\ MatchDetector.matches
       (MatchDetector.findAllMatches
          (data (withRandomCalls (worldOf sampleSwap fixedSource) 35))) = []
  /\ (exists pair,
        MatchDetector.findPossibleMatch
          (data (withRandomCalls (worldOf sampleSwap fixedSource) 35))
        = Some (Some pair, data (withRandomCalls (worldOf sampleSwap fixedSource) 35)))
  /\ Permutation (boardTiles (data (withRandomCalls (worldOf sampleSwap fixedSource) 35)))
                 (boardTiles (data (worldOf sampleSwap fixedSource)))
  /\ moves (withRandomCalls (worldOf sampleSwap fixedSource) 35)
     = moves (worldOf sampleSwap fixedSource).
Proof.
  assert (Hsq : square (size (worldOf sampleSwap fixedSource))
                       (data (worldOf sampleSwap fixedSource)))
    by (split; [reflexivity | repeat constructor]).
  assert (Hret : Grid.shuffle 1 (worldOf sampleSwap fixedSource)
                 = Returned tt (withRandomCalls (worldOf sampleSwap fixedSource) 35))
    by (vm_compute; reflexivity).
  split; [exact Hsq | split; [exact Hret |]].
  exact (reshuffle_result 1 _ _ Hsq Hret).
Defined.

Lemma refill_bias_row_major_witness :
  gridSize (data (worldOf sampleTagged diagonalSource))
  = size (worldOf sampleTagged diagonalSource)
  /\ exists helpful,
       Grid.getHelpfulTypeForPosition 2 2 (worldOf sampleTagged diagonalSource)
       = Returned helpful (worldOf sampleTagged diagonalSource)
       /\ helpful = Some "x"%string
       /\ exists w',
            Grid.spawnCell 2 2 (worldOf sampleTagged diagonalSource) = Returned tt w'
            /\ cellAt (data w') 2 2 = Some (mkTile (Some "x"%string) None false None).
Proof.
  assert (Hsize : gridSize (data (worldOf sampleTagged diagonalSource))
                  = size (worldOf sampleTagged diagonalSource)) by reflexivity.
  split; [exact Hsize |].
  destruct (refill_bias_row_major 2 2 (worldOf sampleTagged diagonalSource) Hsize)
    as [helpful [Hget [_ Hspawn]]].
  exists helpful. split; [exact Hget |].
  assert (Hx : helpful = Some "x"%string).
  { assert (Hc : Grid.getHelpfulTypeForPosition 2 2 (worldOf sampleTagged diagonalSource)
                 = Returned (Some "x"%string) (worldOf sampleTagged diagonalSource))
      by reflexivity.
    rewrite Hc in Hget. inversion Hget. reflexivity. }
  split; [exact Hx |].
  destruct Hspawn as [w' [Hs Hcell]].
  - vm_compute. split; [discriminate | reflexivity].
  - discriminate.
  - reflexivity.
  - exists w'. split; [exact Hs |]. rewrite Hcell, Hx. reflexivity.
Defined.

(** ** More properties at sample inputs *)

Ltac decide_order := vm_compute; repeat split; try discriminate; try reflexivity.

Lemma sampleRows_square : square 6 sampleRows.
Proof. split; [reflexivity | repeat constructor]. Qed.

Lemma sampleSwap_square : square 6 sampleSwap.
Proof. split; [reflexivity | repeat constructor]. Qed.

Lemma sampleChain_square : square 6 sampleChain.
Proof. split; [reflexivity | repeat constructor]. Qed.

Lemma getNeighbors_adjacent_witness :
  1 <= 2 < size (worldOf sampleRows diagonalSource) - 1
  /\ exists l,
       Grid.getNeighbors 2 2 (worldOf sampleRows diagonalSource)
       = Returned l (worldOf sampleRows diagonalSource)
       /\ List.length l = 4%nat.
Proof.
  assert (H : 1 <= 2 < size (worldOf sampleRows diagonalSource) - 1) by decide_order.
  split; [exact H |].
  destruct (getNeighbors_adjacent 2 2 (worldOf sampleRows diagonalSource))
    as [l [E [_ [_ [_ Hfour]]]]].
  exists l. split; [exact E | exact (Hfour H H)].
Defined.

Lemma deduplicatePositions_unique_witness :
  NoDup [mkPos 0 0; mkPos 0 1]
  /\ Game.deduplicatePositions [mkPos 0 0; mkPos 0 1] = [mkPos 0 0; mkPos 0 1].
Proof.
  assert (H : NoDup [mkPos 0 0; mkPos 0 1]).
  { constructor; [intros [E | []]; discriminate E |].
    constructor; [intros [] | constructor]. }
  split; [exact H |].
  exact (proj1 (proj2 (proj2 (deduplicatePositions_unique [mkPos 0 0; mkPos 0 1]))) H).
Defined.

Lemma special_clear_positions_witness :
  onBoard (gridSize sampleRows) (mkPos 5 0)
  /\ In (mkPos 5 0) (MatchDetector.getSpecialClearPositions sampleRows (mkPos 5 0) wrapped).
Proof.
  assert (H : onBoard (gridSize sampleRows) (mkPos 5 0)) by (unfold onBoard; decide_order).
  split; [exact H |].
  exact (proj2 (proj2 (special_clear_positions sampleRows (mkPos 5 0) wrapped)) H).
Defined.

Lemma special_combination_covers_swap_witness :
  square 6 sampleChain
  /\ MatchDetector.areAdjacent (mkPos 2 2) (mkPos 2 3) = true
  /\ exists combo,
       MatchDetector.isSpecialCombination sampleChain (mkPos 2 2) (mkPos 2 3) = Some combo
       /\ In (mkPos 2 2) (MatchDetector.getSpecialCombinationClearPositions sampleChain combo)
       /\ In (mkPos 2 3) (MatchDetector.getSpecialCombinationClearPositions sampleChain combo).
Proof.
  split; [exact sampleChain_square |]. split; [reflexivity |].
  eexists. split; [reflexivity |].
  destruct (special_combination_covers_swap 6 sampleChain (mkPos 2 2) (mkPos 2 3))
    as [_ H].
  destruct (H _ eq_refl) as [_ [_ [_ [_ [_ Hin]]]]].
  exact (Hin sampleChain_square eq_refl).
Defined.

Lemma hasMatchAt_agrees_with_findAllMatches_witness :
  MatchDetector.hasMatchAt sampleRows (mkPos 0 1) = true
  /\ col (mkPos 0 1) < gridSize sampleRows
  /\ In (mkPos 0 1) (MatchDetector.matches (MatchDetector.findAllMatches sampleRows)).
Proof.
  assert (H : col (mkPos 0 1) < gridSize sampleRows) by reflexivity.
  split; [reflexivity |]. split; [exact H |].
  exact (proj1 (hasMatchAt_agrees_with_findAllMatches sampleRows (mkPos 0 1)) eq_refl H).
Defined.

Lemma wouldMatch_symmetric_witness :
  inBounds sampleSwap (mkPos 0 2) /\ inBounds sampleSwap (mkPos 0 3)
  /\ MatchDetector.wouldMatch sampleSwap (mkPos 0 2) (mkPos 0 3)
     = MatchDetector.wouldMatch sampleSwap (mkPos 0 3) (mkPos 0 2).
Proof.
  assert (H1 : inBounds sampleSwap (mkPos 0 2))
    by (eexists; split; [reflexivity | simpl; lia]).
  assert (H2 : inBounds sampleSwap (mkPos 0 3))
    by (eexists; split; [reflexivity | simpl; lia]).
  split; [exact H1 | split; [exact H2 |]].
  exact (wouldMatch_symmetric sampleSwap (mkPos 0 2) (mkPos 0 3) H1 H2).
Defined.

Lemma findPossibleMatch_sound_complete_witness :
  square 6 sampleSwap
  /\ exists res,
       MatchDetector.findPossibleMatch sampleSwap = Some (res, sampleSwap)
       /\ match res with
          | Some (p1, p2) =>
              probe 6 p1 p2 /\ MatchDetector.areAdjacent p1 p2 = true
              /\ MatchDetector.wouldMatch sampleSwap p1 p2 = Some (true, sampleSwap)
          | None =>
              forall p1 p2, onBoard 6 p1 -> onBoard 6 p2 ->
                            MatchDetector.areAdjacent p1 p2 = true ->
                            MatchDetector.wouldMatch sampleSwap p1 p2
                            = Some (false, sampleSwap)
          end.
Proof.
  split; [exact sampleSwap_square |].
  exact (findPossibleMatch_sound_complete 6 sampleSwap sampleSwap_square).
Defined.

Lemma swapTiles_exchanges_witness :
  (inBounds sampleSwap (mkPos 0 2) /\ inBounds sampleSwap (mkPos 0 3)
   /\ exists g',
        Grid.swapTiles (mkPos 0 2) (mkPos 0 3) (worldOf sampleSwap diagonalSource)
        = Returned tt (withData (worldOf sampleSwap diagonalSource) g')
        /\ exchanged sampleSwap g' (mkPos 0 2) (mkPos 0 3)
        /\ Grid.swapTiles (mkPos 0 2) (mkPos 0 3)
             (withData (worldOf sampleSwap diagonalSource) g')
           = Returned tt (worldOf sampleSwap diagonalSource))
  /\ (nthZ sampleSwap (row (mkPos 9 0)) = None
      /\ Grid.swapTiles (mkPos 9 0) (mkPos 0 3) (worldOf sampleSwap diagonalSource)
         = Threw (worldOf sampleSwap diagonalSource)).
Proof.
  assert (H1 : inBounds sampleSwap (mkPos 0 2))
    by (eexists; split; [reflexivity | simpl; lia]).
  assert (H2 : inBounds sampleSwap (mkPos 0 3))
    by (eexists; split; [reflexivity | simpl; lia]).
  split.
  - split; [exact H1 | split; [exact H2 |]].
    exact (proj1 (swapTiles_exchanges (mkPos 0 2) (mkPos 0 3)
                    (worldOf sampleSwap diagonalSource)) H1 H2).
  - split; [reflexivity |].
    exact (proj2 (swapTiles_exchanges (mkPos 9 0) (mkPos 0 3)
                    (worldOf sampleSwap diagonalSource)) (or_introl eq_refl)).
Defined.

Lemma removeMatches_clears_witness :
  (forall p, In p [mkPos 0 0; mkPos 0 1] ->
             inBounds (data (worldOf sampleTagged diagonalSource)) p)
  /\ exists g',
       Grid.removeMatches [mkPos 0 0; mkPos 0 1] (worldOf sampleTagged diagonalSource)
       = Returned (flat_map (memoryTileAt (data (worldOf sampleTagged diagonalSource)))
                            [mkPos 0 0; mkPos 0 1])
                  (withData (worldOf sampleTagged diagonalSource) g')
       /\ shape g' = shape (data (worldOf sampleTagged diagonalSource))
       /\ forall r c, cellAt g' r c =
                      if setHas [mkPos 0 0; mkPos 0 1] (mkPos r c) then None
                      else cellAt (data (worldOf sampleTagged diagonalSource)) r c.
Proof.
  assert (H : forall p, In p [mkPos 0 0; mkPos 0 1] ->
                        inBounds (data (worldOf sampleTagged diagonalSource)) p).
  { intros p [<- | [<- | []]]; (eexists; split; [reflexivity | simpl; lia]). }
  split; [exact H |].
  exact (removeMatches_clears [mkPos 0 0; mkPos 0 1]
           (worldOf sampleTagged diagonalSource) H).
Defined.

Lemma applyGravity_settles_witness :
  let w := worldOf sampleTagged diagonalSource in
  square (size w) (data w)
  /\ exists g',
       Grid.applyGravity w = Returned tt (withData w g')
       /\ square (size w) g'
       /\ forall c, 0 <= c < size w ->
                    column (size w) g' c = settled (column (size w) (data w) c).
Proof.
  cbv zeta.
  assert (H : square (size (worldOf sampleTagged diagonalSource))
                     (data (worldOf sampleTagged diagonalSource)))
    by (split; [reflexivity | repeat constructor]).
  split; [exact H |].
  exact (applyGravity_settles (worldOf sampleTagged diagonalSource) H).
Defined.

Lemma spawnNewTiles_fills_witness :
  let w := worldOf sampleTagged diagonalSource in
  square (size w) (data w)
  /\ exists g' k,
       Grid.spawnNewTiles w = Returned tt (withData (withRandomCalls w k) g')
       /\ refilled (data w) g' /\ full (size w) g' /\ square (size w) g'.
Proof.
  cbv zeta.
  assert (H : square (size (worldOf sampleTagged diagonalSource))
                     (data (worldOf sampleTagged diagonalSource)))
    by (split; [reflexivity | repeat constructor]).
  split; [exact H |].
  exact (spawnNewTiles_fills (worldOf sampleTagged diagonalSource) H).
Defined.

Lemma generate_populates_witness :
  0 <= 6
  /\ exists w',
       (Grid.init 6 ;;; Grid.generate []) (blankWorld diagonalSource) = Returned tt w'
       /\ size w' = 6 /\ moves w' = moves (blankWorld diagonalSource)
       /\ square 6 (data w')
       /\ (forall p, onBoard 6 p ->
                     exists t, cellAt (data w') (row p) (col p) = Some t
                               /\ initialTile (memoryLookupOf []) p t)
       /\ (forall p, setHas (memoryLookupOf []) p = true
                     <-> exists m : Grid.MemoryPosition, In m [] /\ Grid.memoryPos m = p)
       /\ (forall i p,
             nth_error (memoryCells [] 6) i = Some p ->
             exists t, cellAt (data w') (row p) (col p) = Some t
                       /\ memoryId t = option_map Grid.memoryPosId (nth_error [] i)).
Proof.
  assert (H : 0 <= 6) by lia.
  split; [exact H |].
  exact (generate_populates 6 [] (blankWorld diagonalSource) H).
Defined.

Lemma processMatches_ends_without_matches_witness :
  let w := worldOf sampleRows diagonalSource in
  square (size w) (data w)
  /\ exists w',
       Game.processMatches 5 w = Returned tt w'
       /\ size w' = size w /\ square (size w) (data w')
       /\ MatchDetector.matches (MatchDetector.findAllMatches (data w')) = []
       /\ (full (size w) (data w) -> full (size w) (data w')).
Proof.
  cbv zeta.
  assert (H : square (size (worldOf sampleRows diagonalSource))
                     (data (worldOf sampleRows diagonalSource)))
    by (split; [reflexivity | repeat constructor]).
  split; [exact H |].
  pose proof (processMatches_ends_without_matches 5 (worldOf sampleRows diagonalSource) H)
    as P.
  assert (E : Game.processMatches 5 (worldOf sampleRows diagonalSource)
              = Returned tt (finalWorld
                               (Game.processMatches 5 (worldOf sampleRows diagonalSource))))
    by (vm_compute; reflexivity).
  rewrite E in P. eexists. split; [exact E | exact P].
Defined.

Lemma accepted_swap_has_match_witness :
  let w := worldOf sampleSwap diagonalSource in
  square 6 (data w) /\ onBoard 6 (mkPos 0 2) /\ onBoard 6 (mkPos 0 3)
  /\ MatchDetector.isSpecialCombination (data w) (mkPos 0 2) (mkPos 0 3) = None
  /\ exists g',
       Grid.swapTiles (mkPos 0 2) (mkPos 0 3) w = Returned tt (withData w g')
       /\ MatchDetector.wouldMatch (data w) (mkPos 0 2) (mkPos 0 3) = Some (true, data w)
       /\ (In (mkPos 0 2) (MatchDetector.matches (MatchDetector.findAllMatches g'))
           \/ In (mkPos 0 3) (MatchDetector.matches (MatchDetector.findAllMatches g'))).
Proof.
  cbv zeta.
  assert (H1 : onBoard 6 (mkPos 0 2)) by (unfold onBoard; decide_order).
  assert (H2 : onBoard 6 (mkPos 0 3)) by (unfold onBoard; decide_order).
  assert (H3 : MatchDetector.isSpecialCombination
                 (data (worldOf sampleSwap diagonalSource)) (mkPos 0 2) (mkPos 0 3) = None)
    by reflexivity.
  split; [exact sampleSwap_square |]. split; [exact H1 |]. split; [exact H2 |].
  split; [exact H3 |].
  destruct (accepted_swap_has_match 6 (mkPos 0 2) (mkPos 0 3)
              (worldOf sampleSwap diagonalSource) sampleSwap_square H1 H2 H3)
    as [g' [b [Eswap [Ew [Hb _]]]]].
  assert (Hbt : b = true).
  { assert (Hc : MatchDetector.wouldMatch (data (worldOf sampleSwap diagonalSource))
                   (mkPos 0 2) (mkPos 0 3)
                 = Some (true, data (worldOf sampleSwap diagonalSource))) by reflexivity.
    rewrite Hc in Ew. inversion Ew. reflexivity. }
  exists g'. split; [exact Eswap |]. split; [rewrite Ew, Hbt; reflexivity |].
  exact (Hb Hbt).
Defined.

Lemma revealMemories_counts_witness :
  let w := worldOf sampleRows diagonalSource in
  let l := [Grid.mkMemoryTile 7 (mkPos 0 0); Grid.mkMemoryTile 7 (mkPos 0 1)] in
  revealedCount w <= totalMemories w
  /\ exists w',
       Game.revealMemories l w = Returned tt w'
       /\ revealedCount w'
          = Z.min (revealedCount w + Z.of_nat (List.length l)) (totalMemories w)
       /\ totalMemories w' = totalMemories w
       /\ data w' = data w /\ size w' = size w /\ moves w' = moves w
       /\ MemorySystem.isComplete w'
          = Returned (totalMemories w <=? revealedCount w + Z.of_nat (List.length l)) w'.
Proof.
  cbv zeta.
  assert (H : revealedCount (worldOf sampleRows diagonalSource)
              <= totalMemories (worldOf sampleRows diagonalSource)) by decide_order.
  split; [exact H |].
  exact (revealMemories_counts _ (worldOf sampleRows diagonalSource) H).
Defined.

Lemma hasPossibleMoves_exact_witness :
  let w := worldOf sampleSwap diagonalSource in
  square (size w) (data w)
  /\ exists b,
       Grid.hasPossibleMoves w = Returned b w
       /\ (b = true <->
           exists p1 p2,
             onBoard (size w) p1 /\ onBoard (size w) p2
             /\ MatchDetector.areAdjacent p1 p2 = true
             /\ MatchDetector.wouldMatch (data w) p1 p2 = Some (true, data w)).
Proof.
  cbv zeta.
  assert (H : square (size (worldOf sampleSwap diagonalSource))
                     (data (worldOf sampleSwap diagonalSource)))
    by (split; [reflexivity | repeat constructor]).
  split; [exact H |].
  exact (hasPossibleMoves_exact (worldOf sampleSwap diagonalSource) H).
Defined.

Lemma attemptSwap_never_throws_witness :
  let w := worldOf sampleSwap diagonalSource in
  square (size w) (data w) /\ onBoard (size w) (mkPos 0 2) /\ onBoard (size w) (mkPos 0 3)
  /\ exists w',
       Game.attemptSwap 5 (mkPos 0 2) (mkPos 0 3) w = Returned tt w'
       /\ sameGrid w w' /\ isProcessing w' = false
       /\ (w' = withIsProcessing w false \/ settledBoard w').
Proof.
  cbv zeta.
  assert (H : square (size (worldOf sampleSwap diagonalSource))
                     (data (worldOf sampleSwap diagonalSource)))
    by (split; [reflexivity | repeat constructor]).
  assert (H1 : onBoard (size (worldOf sampleSwap diagonalSource)) (mkPos 0 2))
    by (unfold onBoard; decide_order).
  assert (H2 : onBoard (size (worldOf sampleSwap diagonalSource)) (mkPos 0 3))
    by (unfold onBoard; decide_order).
  split; [exact H |]. split; [exact H1 |]. split; [exact H2 |].
  pose proof (attemptSwap_never_throws 5 (mkPos 0 2) (mkPos 0 3)
                (worldOf sampleSwap diagonalSource) H H1 H2) as P.
  assert (E : Game.attemptSwap 5 (mkPos 0 2) (mkPos 0 3) (worldOf sampleSwap diagonalSource)
              = Returned tt (finalWorld
                               (Game.attemptSwap 5 (mkPos 0 2) (mkPos 0 3)
                                  (worldOf sampleSwap diagonalSource))))
    by (vm_compute; reflexivity).
  rewrite E in P. eexists. split; [exact E | exact P].
Defined.

Lemma shuffle_never_throws_witness :
  let w := worldOf sampleSwap fixedSource in
  square (size w) (data w)
  /\ exists w',
       Grid.shuffle 1 w = Returned tt w' /\ sameGrid w w' /\ settledBoard w'.
Proof.
  cbv zeta.
  assert (H : square (size (worldOf sampleSwap fixedSource))
                     (data (worldOf sampleSwap fixedSource)))
    by (split; [reflexivity | repeat constructor]).
  split; [exact H |].
  pose proof (shuffle_never_throws 1 (worldOf sampleSwap fixedSource) H) as P.
  assert (E : Grid.shuffle 1 (worldOf sampleSwap fixedSource)
              = Returned tt (finalWorld (Grid.shuffle 1 (worldOf sampleSwap fixedSource))))
    by (vm_compute; reflexivity).
  rewrite E in P. eexists. split; [exact E | exact P].
Defined.

Lemma processSpecialCombination_never_throws_witness :
  let w := worldOf sampleChain diagonalSource in
  let combo := MatchDetector.mkCombination (mkPos 2 2) (mkPos 2 3) wrapped wrapped
                 MatchDetector.wrapped_wrapped in
  square (size w) (data w) /\ onBoard (size w) (mkPos 2 2) /\ onBoard (size w) (mkPos 2 3)
  /\ exists w',
       Game.processSpecialCombination 5 (mkPos 2 2) (mkPos 2 3) combo w = Returned tt w'
       /\ sameGrid w w' /\ settledBoard w'.
Proof.
  cbv zeta.
  assert (H : square (size (worldOf sampleChain diagonalSource))
                     (data (worldOf sampleChain diagonalSource)))
    by (split; [reflexivity | repeat constructor]).
  assert (H1 : onBoard (size (worldOf sampleChain diagonalSource)) (mkPos 2 2))
    by (unfold onBoard; decide_order).
  assert (H2 : onBoard (size (worldOf sampleChain diagonalSource)) (mkPos 2 3))
    by (unfold onBoard; decide_order).
  split; [exact H |]. split; [exact H1 |]. split; [exact H2 |].
  pose proof (processSpecialCombination_never_throws 5 (mkPos 2 2) (mkPos 2 3)
                (MatchDetector.mkCombination (mkPos 2 2) (mkPos 2 3) wrapped wrapped
                   MatchDetector.wrapped_wrapped)
                (worldOf sampleChain diagonalSource) H H1 H2) as P.
  assert (E : Game.processSpecialCombination 5 (mkPos 2 2) (mkPos 2 3)
                (MatchDetector.mkCombination (mkPos 2 2) (mkPos 2 3) wrapped wrapped
                   MatchDetector.wrapped_wrapped)
                (worldOf sampleChain diagonalSource)
              = Returned tt
                  (finalWorld
                     (Game.processSpecialCombination 5 (mkPos 2 2) (mkPos 2 3)
                        (MatchDetector.mkCombination (mkPos 2 2) (mkPos 2 3) wrapped wrapped
                           MatchDetector.wrapped_wrapped)
                        (worldOf sampleChain diagonalSource))))
    by (vm_compute; reflexivity).
  rewrite E in P. eexists. split; [exact E | exact P].
Defined.

Lemma generateMemoryPositions_ids_witness :
  2 <= 6
  /\ exists l k,
       MemorySystem.generateMemoryPositions 6 (blankWorld diagonalSource)
       = Returned l (withRandomCalls (blankWorld diagonalSource) k)
       /\ map Grid.memoryPosId l = zrange 0 (totalMemories (blankWorld diagonalSource))
       /\ forall m, In m l -> onBoard 6 (Grid.memoryPos m).
Proof.
  assert (H : 2 <= 6) by lia.
  split; [exact H |].
  destruct (generateMemoryPositions_ids 6 (blankWorld diagonalSource))
    as [l [k [E [Hids [_ Hon]]]]].
  exists l, k. split; [exact E |]. split; [exact Hids | exact (Hon H)].
Defined.

Lemma startGame_ready_witness :
  0 <= 6
  /\ exists w',
       Game.startGame 5 30 6 (blankWorld diagonalSource) = Returned tt w'
       /\ size w' = 6 /\ square 6 (data w') /\ moves w' = 30
       /\ isPlaying w' = true /\ isPaused w' = false
       /\ isProcessing w' = false /\ hasMove w'.
Proof.
  assert (H : 0 <= 6) by lia.
  split; [exact H |].
  pose proof (startGame_ready 5 30 6 (blankWorld diagonalSource) H) as P.
  assert (E : Game.startGame 5 30 6 (blankWorld diagonalSource)
              = Returned tt (finalWorld (Game.startGame 5 30 6 (blankWorld diagonalSource))))
    by (vm_compute; reflexivity).
  rewrite E in P. eexists. split; [exact E | exact P].
Defined.

Lemma clearPass_one_level_witness :
  let w := worldOf sampleRows diagonalSource in
  square (size w) (data w)
  /\ exists cleared g',
       Game.clearPass (MatchDetector.findAllMatches (data w)) w
       = Returned (flat_map (memoryTileAt (data w)) cleared) (withData w g')
       /\ NoDup cleared
       /\ (forall p,
             In p cleared <->
             In p (MatchDetector.matches (MatchDetector.findAllMatches (data w)))
             \/ exists q s,
                  In q (MatchDetector.matches (MatchDetector.findAllMatches (data w)))
                  /\ specialAt w q = Some s
                  /\ In p (MatchDetector.getSpecialClearPositions (data w) q s))
       /\ shape g' = shape (data w)
       /\ forall r c, cellAt g' r c =
                      if setHas cleared (mkPos r c) then None else cellAt (data w) r c.
Proof.
  cbv zeta.
  assert (H : square (size (worldOf sampleRows diagonalSource))
                     (data (worldOf sampleRows diagonalSource)))
    by (split; [reflexivity | repeat constructor]).
  split; [exact H |].
  exact (clearPass_one_level (worldOf sampleRows diagonalSource) H).
Defined.
